(* ===== verification/_CoqProject ===== *)
-Q . S2P
Prelude.v
Text.v
Checksum.v
Device.v
Superblock.v
Node.v
NodeCodec.v
BTree.v
BTreeInv.v
BTreeWrite.v
BTreeInsert.v
BTreeDelete.v
TreeStore.v
BTreeTheorems.v
Inode.v
Extent.v
FreeSpace.v
ChecksumTree.v
XxHash.v
Dir.v
Journal.v
JournalLaws.v
Volume.v
FileModel.v
VolumeInv.v
VolumeDirs.v
VolumeUnlink.v
VolumeFiles.v
FileContents.v
VolumeCommit.v
FileSystem.v
Format.v
History.v
Retry.v
Examples.v
JournalTheorems.v
FileSystemTheorems.v
Kernel.v
Tools.v
