(* ===== verification/Prelude.v ===== *)
(** * BAFS: a verification development of the Bazzulto File System

    BAFS is a copy-on-write file system: a library (src/src/), a kernel adapter in
    it (src/src/kernel.rs) and a command line tool (src/bafs-tools/src/main.rs).
    This development translates the program into functions of Rocq and proves what
    they do, from the bytes of a checksum up to histories of a mounted volume with
    power failures.

    ** The program and its model

    A volume is a sequence of 4096-byte blocks: two copies of a superblock, a
    journal, and a data area filled from a bump pointer with the nodes of three
    B-trees (inodes with directory entries and extents; free extents; checksums of
    data blocks) and with file data. A change of a tree clones the path to the
    changed leaf into new blocks of a cache of dirty blocks; a commit writes the
    cache to the journal, then home, then the superblock. Mounting reads the
    superblock and replays the journal.

    - Prelude: outcomes ([Ok], [Err], [Panic], [OutOfFuel]), state transformers for
      [&mut] arguments, machine integers with checked, wrapping and saturating
      arithmetic, slices and little-endian fields.
    - Text: the numbers main.rs prints (integers, [f64] with rounding to nearest,
      durations, [format_bytes]) as bytes.
    - Checksum: CRC32C (checksum.rs).
    - Device: errors (error.rs), the [BlockDevice] trait (block_device.rs) as a
      class, its documented contract as the class [BlockDeviceLaws], and the
      devices [MemoryDisk], [FaultInjectionDisk] (tests/integration_test.rs) and
      [FileBlockDevice] (main.rs) as instances.
    - Superblock: superblock.rs.
    - Node, NodeCodec, BTree, BTreeInv, BTreeWrite, BTreeInsert, BTreeDelete,
      TreeStore, BTreeTheorems: btree.rs. Node has keys and the codec, BTree the
      operations; the invariant, the copy-on-write steps, insertion and deletion
      follow. The class [TreeStore] of TreeStore is what a tree promises to its
      users, with the B-tree as its instance.
    - Inode (inode.rs), Extent and FreeSpace (extent.rs), ChecksumTree
      (checksum_tree.rs), XxHash and Dir (dir.rs): the records kept in trees,
      proved against [TreeStore].
    - Journal, JournalLaws, JournalTheorems: journal.rs.
    - Volume: volume.rs, each function as a state transformer on [BafsVolume].
      VolumeInv has the invariant [vol_rep], VolumeDirs, VolumeUnlink, VolumeFiles
      and FileContents the operations, VolumeCommit commit, mount and power
      failure, Format [bafs_format].
    - FileModel: an abstract file, a size and segments of whole blocks ordered by
      offset. A byte is read from the first segment that covers it, a write replaces
      the segment at its offset or adds one, as extents do; FileContents relates the
      extents of an inode to it.
    - FileSystem: an abstract file system (numbered nodes, names, files) with a
      specification of every request, the relation [fs_rep] between a volume and
      its abstract state, and the refinement of each operation. History: sequences
      of requests, commits, remounts and power failures. Retry: commits that a
      device interrupts by refusing writes, and the volume they leave in memory.
    - Examples: a concrete volume for the witnesses. FileSystemTheorems: the
      contract of a volume.
    - Kernel: kernel.rs, the kernel's [Inode] trait as a class and the adapter as
      its instance. The state is a memory of volumes; a [BafsVolumeHandle] is the
      location of one, shared by all inodes of a mount.
    - Tools: the subcommands of main.rs on the files of a host, with the bytes they
      print. [host_error], the text of an error of the host, and the elapsed times
      of the benchmark are arguments of [main].

    Definitions carry the names of the source. A loop of the source is a [Fixpoint]
    of its own, a field update a function of its own.

    ** What the theorems show

    - Volume: a history of requests, commits, remounts and power failures during
      commits follows the abstract file system ([follows]), to its end or until
      blocks beyond the end of the device would have to be written; each request
      answers as specified on every branch, and a write is refused exactly when too
      few blocks are left; a commit is durable, or refused without any change when
      its record does not fit the journal; an interrupted commit leaves
      the state before or after it; format followed by mount gives the empty file
      system; written bytes are read back unless an earlier segment hides them; a
      commit that failed any number of times succeeds once the device works; the
      return of superseded blocks to the free-extent tree, a recursion without an
      evident measure, terminates.
    - Kernel: the adapter shows the abstract file system (types, sizes, lookups,
      listings) and its calls refine the same specification, also for the other
      inodes of the mount; other mounts are not affected. Errors are compared by
      their numbers ([errno]).
    - Tool: what [write] stores [read] prints, byte for byte, on every image with
      [write_room]; in general [write] is refused, with every file as before, exactly
      when the blocks left or the journal are too small; [ls] lists the root
      directory; a printed size is off by a bounded amount.
    - B-tree: a tree refines a map under any history of insertions and deletions,
      older roots stay readable, range scans are complete, superseded blocks are
      recorded, and at most 27 blocks are allocated by an insertion.
    - Records: directories, free space, inodes and checksums of data refine maps and
      sets; encodings round-trip; parsing arbitrary bytes never panics. Releasing
      blocks adds them to the free ones if none of them is free; at the start of a
      free extent it loses the rest of the extent.
    - Journal: records round-trip, damaged records are ignored, arbitrary bytes are
      parsed without panic, a record is replayed once, an oversized record is
      refused before anything is written.
    - Integrity: CRC32C equals its bit-serial definition and finds every corruption
      within four consecutive bytes, in nodes, superblocks and data blocks.
    - Behaviours that the documentation of the code does not describe are theorems
      too: colliding names replace entries, a root split records its root twice, a
      scan can miss the leftmost child, a rejected create leaves an inode, a new
      free-extent tree lists its own root and loses the free blocks when that root is
      returned to it, a write inside an extent is lost, a
      shorter overwrite makes the rest of a file unreadable, a replayed transaction
      is not seen, and the kernel adapter never commits.

    ** Bounds and fuel

    Arithmetic that overflows is a [Panic], as in a build with overflow checks; the
    theorems show that it does not happen where there is [room]: fewer than 2^64
    blocks handed out ([room] for a tree, [vol_room] for a volume). The latter
    counts, for each update, the worst case of returning superseded blocks. A
    sequence of updates takes far less than that: a block of the last commit is
    given up once, so that the committed blocks still in the trees ([vol_debt]) pay
    for returning them ([vol_moved_next]). A commit has fewer than 2^32 blocks and a
    number below 2^64 ([commit_bounds]).

    Blocks of trees are handed out without a look at the size of the device (data
    blocks are checked): that a commit writes only blocks of the device is a
    condition of the theorems on commits ([within_device]), and the point where a
    history is no longer followed. The examples are on a device of 1 GiB.

    - [TREE_FUEL] is 256 levels. A tree of fewer than 2^64 blocks has at most twelve
      levels of internal nodes, whose splits leave at least 45 children
      (BTreeInv).
    - The binary searches, the chunks of a journal write, the blocks of a file write
      and the bytes of a read have their number as fuel.
    - [return_freed_cow_blocks_to_free_extent_tree] has the committed boundary plus
      three as fuel: each level but the last ones frees a committed block of the
      free-extent tree, and there are at most as many as the boundary.
    - [subcommand_ls] and [subcommand_read] take fuel as an argument; any number
      above the number of entries, or of chunks of 4 MiB, is enough.

    [admissible] asks only for arguments in the range of their types and for sums
    (the end of a write, the blocks of a file, the number of inodes) below 2^64;
    writes at any offset and names with equal hashes are specified. An [f64] is a
    53-bit mantissa with an unbounded exponent: the values main.rs computes are not
    negative and far from the limits of the exponent. A power failure may hit any
    write of a commit, also of one without blocks, and may tear the block being
    written; [torn_writes_detected] is the assumption that a torn journal or
    superblock fails its checksum. The laws of [BlockDevice] are its documented
    contract. Debug assertions on the length of a buffer are not modelled as such:
    a buffer that is too short makes the slicing below them panic, and every caller
    passes whole blocks.

    ** Not modelled

    - lib.rs: module declarations, no behaviour.
    - [device_name] of the devices, a label.
    - Failures of the host other than a missing file (permissions, a closed pipe).
    - The reference counts of [Arc]: a volume in memory is never dropped.
    - The test cases of tests/integration_test.rs and of the modules.
    - Threads: the source serialises all operations of the adapter. *)

From Stdlib Require Export ZArith Lia.
From stdpp Require Export base list list_numbers gmap sorting.
#[global] Open Scope Z_scope.

(** ** Notations of the development *)

Declare Scope bafs_scope.
Delimit Scope bafs_scope with bafs.
#[global] Open Scope bafs_scope.

(** Length of a buffer as a [usize]. *)
Abbreviation len l := (Z.of_nat (length l)).

(** Destruct every existential and conjunction of the context. *)
Ltac split_hyps :=
  repeat match goal with
  | H : exists _, _ |- _ => destruct H
  | H : _ /\ _ |- _ => destruct H
  end.

(** ** Outcomes

    A Rust function returning [Result<A, E>] either returns [Ok]/[Err], panics
    (slice index out of range, failed [unwrap], arithmetic overflow under
    overflow checks), or, where the model bounds a loop by fuel, has not
    finished within the fuel. *)
Inductive outcome (E A : Type) : Type :=
  | Ok (a : A)
  | Err (e : E)
  | Panic
  | OutOfFuel.
Arguments Ok {E A} a.
Arguments Err {E A} e.
Arguments Panic {E A}.
Arguments OutOfFuel {E A}.

#[global] Instance outcome_eq_dec `{EqDecision E, EqDecision A} : EqDecision (outcome E A).
Proof. solve_decision. Defined.

(** The [?] operator. *)
Definition obind {E A B} (m : outcome E A) (k : A -> outcome E B) : outcome E B :=
  match m with
  | Ok a => k a
  | Err e => Err e
  | Panic => Panic
  | OutOfFuel => OutOfFuel
  end.

Notation "'let?' p := m 'in' k" := (obind m (fun p => k))
  (at level 10, p pattern, m at level 200, k at level 200) : bafs_scope.

(** ** Stateful code

    A function that takes [&mut] arguments is a state transformer; on [Err] the
    mutations made so far stay visible to the caller, as in Rust. *)
Definition ST (S E A : Type) : Type := S -> S * outcome E A.

Definition st_ret {S E A} (a : A) : ST S E A := fun s => (s, Ok a).
Definition st_err {S E A} (e : E) : ST S E A := fun s => (s, Err e).
Definition st_panic {S E A} : ST S E A := fun s => (s, Panic).
Definition st_lift {S E A} (m : outcome E A) : ST S E A := fun s => (s, m).
Definition st_get {S E} : ST S E S := fun s => (s, Ok s).
Definition st_modify {S E} (f : S -> S) : ST S E unit := fun s => (f s, Ok tt).
Definition st_bind {S E A B} (m : ST S E A) (k : A -> ST S E B) : ST S E B :=
  fun s => match m s with
           | (s', Ok a) => k a s'
           | (s', Err e) => (s', Err e)
           | (s', Panic) => (s', Panic)
           | (s', OutOfFuel) => (s', OutOfFuel)
           end.

(** Run a computation on a component of a larger state. *)
Definition st_zoom {S T E A} (get : T -> S) (set : T -> S -> T) (m : ST S E A) : ST T E A :=
  fun t => let '(s', r) := m (get t) in (set t s', r).

Notation "'let!' p := m 'in' k" := (st_bind m (fun p => k))
  (at level 10, p pattern, m at level 200, k at level 200) : bafs_scope.

Section outcome_lemmas.
Context {E : Type}.

Lemma Ok_inj {A} (a b : A) : @Ok E A a = Ok b -> a = b.
Proof. by intros [= ->]. Qed.

Lemma obind_Ok {A B} (m : outcome E A) (k : A -> outcome E B) b :
  obind m k = Ok b <-> exists a, m = Ok a /\ k a = Ok b.
Proof. destruct m; simpl; split; intros; split_hyps; simplify_eq; eauto. Qed.

Lemma st_bind_Ok {S A B} (m : ST S E A) (k : A -> ST S E B) s s' a :
  m s = (s', Ok a) -> st_bind m k s = k a s'.
Proof. unfold st_bind. by intros ->. Qed.

Lemma st_bind_Err {S A B} (m : ST S E A) (k : A -> ST S E B) s s' e :
  m s = (s', Err e) -> st_bind m k s = (s', Err e).
Proof. unfold st_bind. by intros ->. Qed.

Lemma st_bind_get {S A} (k : S -> ST S E A) s : st_bind st_get k s = k s s.
Proof. done. Qed.

Lemma st_bind_modify {S A} (f : S -> S) (k : unit -> ST S E A) s : st_bind (st_modify f) k s = k tt (f s).
Proof. done. Qed.

Lemma st_bind_lift {S A B} (m : outcome E A) (k : A -> ST S E B) s a :
  m = Ok a -> st_bind (st_lift m) k s = k a s.
Proof. by intros ->. Qed.
End outcome_lemmas.

(** *** What a computation leaves alone *)

(** [m] does not change the part [f] of its state, whatever its outcome. *)
Definition preserves {S X E A} (f : S -> X) (m : ST S E A) : Prop := forall s, f (m s).1 = f s.

Lemma preserves_bind {S X E A B} (f : S -> X) (m : ST S E A) (k : A -> ST S E B) :
  preserves f m -> (forall a, preserves f (k a)) -> preserves f (st_bind m k).
Proof.
  intros Hm Hk s. unfold st_bind. specialize (Hm s). destruct (m s) as [s' []]; simpl in *; [|done..].
  by rewrite Hk.
Qed.

Lemma preserves_lift {S X E A} (f : S -> X) (r : outcome E A) : preserves f (st_lift r).
Proof. done. Qed.

Lemma preserves_zoom {S T X E A} (get : T -> S) (set : T -> S -> T) (f : T -> X) (g : S -> X) (m : ST S E A) :
  preserves g m -> (forall t s, f (set t s) = g s) -> (forall t, g (get t) = f t) -> preserves f (st_zoom get set m).
Proof.
  intros Hm Hset Hget t. unfold st_zoom. specialize (Hm (get t)). destruct (m (get t)) as [s r]. simpl in *.
  by rewrite Hset, Hm.
Qed.

Create HintDb preserves.
#[export] Hint Resolve preserves_lift : preserves.

(** Follow the binds of a computation; its steps are known or compute. *)
Ltac preserve :=
  repeat match goal with
  | |- preserves _ (st_bind _ _) => apply preserves_bind
  | |- preserves _ (if ?b then _ else _) => destruct b
  | |- preserves _ (match ?x with _ => _ end) => destruct x
  | |- forall _, _ => intros ?
  | |- preserves _ _ => solve [eauto with preserves nocore | intros ?; reflexivity]
  end.

(** [returns P Q m]: [m] neither panics nor runs out of fuel, its value satisfies
    [P] and its error satisfies [Q]. *)
Definition returns {E A} (P : A -> Prop) (Q : E -> Prop) (m : outcome E A) : Prop :=
  match m with
  | Ok a => P a
  | Err e => Q e
  | Panic | OutOfFuel => False
  end.

Lemma returns_bind {E A B} (P : A -> Prop) (P' : B -> Prop) (Q : E -> Prop) m k :
  returns P Q m -> (forall a, P a -> returns P' Q (k a)) -> returns P' Q (obind m k).
Proof. destruct m; simpl; auto. Qed.

Lemma returns_mono {E A} (P P' : A -> Prop) (Q Q' : E -> Prop) m :
  returns P Q m -> (forall a, P a -> P' a) -> (forall e, Q e -> Q' e) -> returns P' Q' m.
Proof. destruct m; simpl; auto. Qed.

(** Step over the first computation of a sequence. *)
Tactic Notation "rbind" tactic3(t) := eapply returns_bind; [t|cbv beta].

(** ** Machine integers *)

Definition u8_max : Z := 2 ^ 8.
Definition u16_max : Z := 2 ^ 16.
Definition u32_max : Z := 2 ^ 32.
Definition u64_max : Z := 2 ^ 64.

Definition is_u8 (z : Z) : Prop := 0 <= z < u8_max.
Definition is_u16 (z : Z) : Prop := 0 <= z < u16_max.
Definition is_u32 (z : Z) : Prop := 0 <= z < u32_max.
Definition is_u64 (z : Z) : Prop := 0 <= z < u64_max.

(** [lia] with the machine-integer bounds unfolded. *)
Ltac ilia := unfold is_u8, is_u16, is_u32, is_u64, u8_max, u16_max, u32_max, u64_max in *; lia.

(** [ilia] over quotients and remainders. *)
Ltac dlia := unfold is_u8, is_u16, is_u32, is_u64, u8_max, u16_max, u32_max, u64_max in *;
  Z.to_euclidean_division_equations; lia.

(** [+], [-], [*] of width [w] with overflow checks (the debug profile; the
    theorems show the places where no overflow occurs, so the release profile
    agrees there). *)
Definition checked_add {E} (w a b : Z) : outcome E Z :=
  if a + b <? 2 ^ w then Ok (a + b) else Panic.
Definition checked_sub {E} (a b : Z) : outcome E Z :=
  if b <=? a then Ok (a - b) else Panic.
Definition checked_mul {E} (w a b : Z) : outcome E Z :=
  if a * b <? 2 ^ w then Ok (a * b) else Panic.
Definition saturating_sub (a b : Z) : Z := Z.max 0 (a - b).
Definition saturating_add (w a b : Z) : Z := Z.min (2 ^ w - 1) (a + b).
(** [as uN] casts and the [wrapping_*] operations. *)
Definition wrap (w z : Z) : Z := z mod 2 ^ w.

Lemma checked_add_Ok {E} w a b : a + b < 2 ^ w -> checked_add (E:=E) w a b = Ok (a + b).
Proof. unfold checked_add. intros. by destruct (Z.ltb_spec (a + b) (2 ^ w)); [|lia]. Qed.
Lemma checked_sub_Ok {E} a b : b <= a -> checked_sub (E:=E) a b = Ok (a - b).
Proof. unfold checked_sub. intros. by destruct (Z.leb_spec b a); [|lia]. Qed.
Lemma checked_mul_Ok {E} w a b : a * b < 2 ^ w -> checked_mul (E:=E) w a b = Ok (a * b).
Proof. unfold checked_mul. intros. by destruct (Z.ltb_spec (a * b) (2 ^ w)); [|lia]. Qed.
Lemma checked_mul_inv {E} w a b c : checked_mul (E:=E) w a b = Ok c -> c = a * b /\ a * b < 2 ^ w.
Proof. unfold checked_mul. destruct (Z.ltb_spec (a * b) (2 ^ w)); naive_solver. Qed.
Lemma checked_add_inv {E} w a b c : checked_add (E:=E) w a b = Ok c -> c = a + b /\ a + b < 2 ^ w.
Proof. unfold checked_add. destruct (Z.ltb_spec (a + b) (2 ^ w)); naive_solver. Qed.
Lemma wrap_small w z : 0 <= z < 2 ^ w -> wrap w z = z.
Proof. apply Z.mod_small. Qed.

(** ** Little-endian integers: [to_le_bytes] / [from_le_bytes] *)

Fixpoint le_bytes (n : nat) (z : Z) : list Z :=
  match n with
  | O => []
  | S n => z mod 256 :: le_bytes n (z / 256)
  end.

Fixpoint le_val (l : list Z) : Z :=
  match l with
  | [] => 0
  | b :: l => b + 256 * le_val l
  end.

Definition bytes_ok (l : list Z) : Prop := Forall is_u8 l.

Lemma length_le_bytes n z : length (le_bytes n z) = n.
Proof. revert z. induction n; intros z; simpl; congruence. Qed.

Lemma le_val_bytes n z : le_val (le_bytes n z) = z mod 2 ^ (8 * Z.of_nat n).
Proof.
  revert z. induction n as [|n IH]; intros z; cbn [le_bytes le_val].
  { by rewrite Z.mod_1_r. }
  rewrite IH. replace (8 * Z.of_nat (S n)) with (8 + 8 * Z.of_nat n) by lia.
  rewrite Z.pow_add_r by lia. change (2 ^ 8) with 256.
  pose proof (Z.pow_pos_nonneg 2 (8 * Z.of_nat n)).
  rewrite Z.rem_mul_r by lia. lia.
Qed.

Lemma le_val_bytes_id n z : 0 <= z < 2 ^ (8 * Z.of_nat n) -> le_val (le_bytes n z) = z.
Proof. intros. rewrite le_val_bytes. by apply Z.mod_small. Qed.

Lemma le_bytes_ok n z : bytes_ok (le_bytes n z).
Proof.
  unfold bytes_ok. revert z. induction n; intros z; constructor; [|done].
  pose proof (Z.mod_pos_bound z 256). ilia.
Qed.

Lemma le_val_bound l : bytes_ok l -> 0 <= le_val l < 2 ^ (8 * len l).
Proof.
  induction 1 as [|b l Hb _ IH]; [done|]. cbn [le_val length].
  replace (8 * Z.of_nat (S (length l))) with (8 + 8 * len l) by lia.
  rewrite Z.pow_add_r by lia. change (2 ^ 8) with 256. ilia.
Qed.

Lemma le_bytes_val l : bytes_ok l -> le_bytes (length l) (le_val l) = l.
Proof.
  induction 1 as [|b l Hb _ IH]; [done|]. cbn [le_val length le_bytes].
  rewrite (Z.mul_comm 256), Z.div_add, Z_mod_plus_full by lia.
  rewrite (Z.div_small b), (Z.mod_small b) by ilia. by rewrite Z.add_0_l, IH.
Qed.

(** ** Buffers: [vec![0; n]], indexing by ranges and [copy_from_slice] *)

Definition zeros (n : Z) : list Z := replicate (Z.to_nat n) 0.

Definition splice (buf : list Z) (off : Z) (src : list Z) : list Z :=
  take (Z.to_nat off) buf ++ src ++ drop (Z.to_nat (off + len src)) buf.

(** [buf[off .. off + n]] *)
Definition get_slice {E} (buf : list Z) (off n : Z) : outcome E (list Z) :=
  if (0 <=? off) && (0 <=? n) && (off + n <=? len buf)
  then Ok (take (Z.to_nat n) (drop (Z.to_nat off) buf))
  else Panic.

(** [buf[off .. off + src.len()].copy_from_slice(src)] *)
Definition put_slice {E} (buf : list Z) (off : Z) (src : list Z) : outcome E (list Z) :=
  if (0 <=? off) && (off + len src <=? len buf) then Ok (splice buf off src) else Panic.

(** [buf[i]] *)
Definition get_byte {E} (buf : list Z) (i : Z) : outcome E Z :=
  let? s := get_slice buf i 1 in
  match s with [b] => Ok b | _ => Panic end.

(** [uN::from_le_bytes(buf[off .. off + n].try_into().unwrap())] *)
Definition get_le {E} (buf : list Z) (off n : Z) : outcome E Z :=
  let? s := get_slice buf off n in Ok (le_val s).

Lemma length_zeros n : length (zeros n) = Z.to_nat n.
Proof. apply length_replicate. Qed.

Lemma zeros_app a b : 0 <= a -> 0 <= b -> zeros (a + b) = zeros a ++ zeros b.
Proof. intros. unfold zeros. rewrite Z2Nat.inj_add by lia. apply replicate_add. Qed.

Lemma zeros_nonpos n : n <= 0 -> zeros n = [].
Proof. intros. unfold zeros. by replace (Z.to_nat n) with O by lia. Qed.

Lemma drop_zeros k n : drop k (zeros n) = zeros (n - Z.of_nat k).
Proof. unfold zeros. rewrite drop_replicate. f_equal. lia. Qed.

Lemma zeros_bytes_ok n : bytes_ok (zeros n).
Proof. apply Forall_replicate. ilia. Qed.

Section buffers.
Context {E : Type}.

(** Reading a region of a buffer written as a concatenation. *)
Lemma get_slice_app a b c off n :
  off = len a -> n = len b -> get_slice (E:=E) (a ++ b ++ c) off n = Ok b.
Proof.
  intros -> ->. unfold get_slice. rewrite !length_app, !Nat2Z.id, drop_app_length, take_app_length.
  destruct (Z.leb_spec 0 (len a)); [|lia]. destruct (Z.leb_spec 0 (len b)); [|lia]. simpl.
  by destruct (Z.leb_spec (len a + len b) (Z.of_nat (length a + (length b + length c)))); [|lia].
Qed.

Lemma get_slice_prefix b c n : n = len b -> get_slice (E:=E) (b ++ c) 0 n = Ok b.
Proof. intros ->. by apply (get_slice_app []). Qed.

(** Overwriting a region of a buffer written as a concatenation. *)
Lemma put_slice_app a b c off src :
  off = len a -> length src = length b ->
  put_slice (E:=E) (a ++ b ++ c) off src = Ok (a ++ src ++ c).
Proof.
  intros -> Hlen. unfold put_slice, splice. rewrite !length_app, Hlen, Nat2Z.id, take_app_length.
  destruct (Z.leb_spec 0 (len a)); [|lia]. simpl.
  destruct (Z.leb_spec (len a + len b) (Z.of_nat (length a + (length b + length c)))); [|lia].
  do 3 f_equal. rewrite app_assoc. apply drop_app_length'. rewrite length_app. lia.
Qed.

Lemma put_slice_length buf off src buf' :
  put_slice (E:=E) buf off src = Ok buf' -> length buf' = length buf.
Proof.
  unfold put_slice. destruct (Z.leb_spec 0 off); [simpl|done].
  destruct (Z.leb_spec (off + len src) (len buf)); [|done].
  intros [= <-]. unfold splice. rewrite !length_app, length_take, length_drop. lia.
Qed.

Lemma get_slice_length buf off n s :
  get_slice (E:=E) buf off n = Ok s -> len s = n.
Proof.
  unfold get_slice. destruct (Z.leb_spec 0 off), (Z.leb_spec 0 n); simpl; try done.
  destruct (Z.leb_spec (off + n) (len buf)); [|done].
  intros [= <-]. rewrite length_take, length_drop. lia.
Qed.

Lemma get_slice_Ok buf off n :
  0 <= off -> 0 <= n -> off + n <= len buf ->
  get_slice (E:=E) buf off n = Ok (take (Z.to_nat n) (drop (Z.to_nat off) buf)).
Proof.
  intros. unfold get_slice. destruct (Z.leb_spec 0 off); [|lia]. destruct (Z.leb_spec 0 n); [|lia].
  simpl. by destruct (Z.leb_spec (off + n) (len buf)); [|lia].
Qed.

Lemma get_slice_inv buf off n s :
  get_slice (E:=E) buf off n = Ok s ->
  0 <= off /\ 0 <= n /\ off + n <= len buf
  /\ s = take (Z.to_nat n) (drop (Z.to_nat off) buf).
Proof.
  unfold get_slice. destruct (Z.leb_spec 0 off), (Z.leb_spec 0 n); simpl; try done.
  destruct (Z.leb_spec (off + n) (len buf)); naive_solver.
Qed.

Lemma get_slice_returns buf off n Q :
  bytes_ok buf -> 0 <= off -> 0 <= n -> off + n <= len buf ->
  returns (fun s => bytes_ok s /\ len s = n) Q (get_slice (E:=E) buf off n).
Proof.
  intros Hb Ho Hn Hl. rewrite get_slice_Ok by done. simpl. split.
  - by apply Forall_take, Forall_drop.
  - rewrite length_take, length_drop. lia.
Qed.

Lemma get_byte_returns buf off Q :
  bytes_ok buf -> 0 <= off < len buf -> returns is_u8 Q (get_byte (E:=E) buf off).
Proof.
  intros Hb Ho. eapply returns_bind; [apply get_slice_returns; [done|lia..]|].
  intros [|b [|]]; simpl; intros [Hs ?]; try lia. by apply Forall_inv in Hs.
Qed.

Lemma get_le_returns buf off n Q :
  bytes_ok buf -> 0 <= off -> 0 <= n -> off + n <= len buf ->
  returns (fun z => 0 <= z < 2 ^ (8 * n)) Q (get_le (E:=E) buf off n).
Proof.
  intros Hb Ho Hn Hl. eapply returns_bind; [by apply get_slice_returns|].
  intros s [Hs <-]. by apply le_val_bound.
Qed.

Lemma get_byte_app a b c off :
  off = len a -> get_byte (E:=E) (a ++ [b] ++ c) off = Ok b.
Proof. intros ->. unfold get_byte. by rewrite (get_slice_app _ [b]). Qed.

Lemma get_le_app a b c off n :
  off = len a -> n = len b -> get_le (E:=E) (a ++ b ++ c) off n = Ok (le_val b).
Proof. intros -> ->. unfold get_le. by rewrite get_slice_app. Qed.

Lemma get_le_bytes_app a n z c off w :
  off = len a -> w = Z.of_nat n -> 0 <= z < 2 ^ (8 * w) ->
  get_le (E:=E) (a ++ le_bytes n z ++ c) off w = Ok z.
Proof.
  intros -> -> Hz. rewrite get_le_app by (rewrite ?length_le_bytes; lia).
  by rewrite le_val_bytes_id.
Qed.

Lemma get_le_bytes_prefix n z c w :
  w = Z.of_nat n -> 0 <= z < 2 ^ (8 * w) -> get_le (E:=E) (le_bytes n z ++ c) 0 w = Ok z.
Proof. by apply (get_le_bytes_app []). Qed.
End buffers.

(** ** Reading a [repr(C)] struct without padding: its fields in order *)

Definition next_bytes (n : nat) (l : list Z) : list Z * list Z := (take n l, drop n l).
Definition next_le (n : nat) (l : list Z) : Z * list Z := (le_val (take n l), drop n l).

(** An array field of [count] integers of [n] bytes. *)
Fixpoint next_les (count n : nat) (l : list Z) : list Z * list Z :=
  match count with
  | O => ([], l)
  | S count =>
      let '(x, l1) := next_le n l in
      let '(xs, l2) := next_les count n l1 in
      (x :: xs, l2)
  end.

Lemma next_bytes_app n b rest : length b = n -> next_bytes n (b ++ rest) = (b, rest).
Proof. intros <-. unfold next_bytes. by rewrite take_app_length, drop_app_length. Qed.

Lemma next_le_app n z rest :
  0 <= z < 2 ^ (8 * Z.of_nat n) -> next_le n (le_bytes n z ++ rest) = (z, rest).
Proof.
  intros. unfold next_le. rewrite take_app_length', drop_app_length' by by rewrite length_le_bytes.
  by rewrite le_val_bytes_id.
Qed.

Lemma next_les_app count n zs rest :
  length zs = count -> Forall (fun z => 0 <= z < 2 ^ (8 * Z.of_nat n)) zs ->
  next_les count n (concat (le_bytes n <$> zs) ++ rest) = (zs, rest).
Proof.
  intros <-. induction 1 as [|z zs Hz _ IH]; [done|].
  cbn [length next_les fmap list_fmap concat].
  rewrite <- app_assoc, next_le_app by done. by rewrite IH.
Qed.

Lemma next_bytes_inv n l b l' :
  next_bytes n l = (b, l') -> bytes_ok l -> (n <= length l)%nat ->
  l = b ++ l' /\ length b = n /\ bytes_ok b /\ bytes_ok l'.
Proof.
  intros [= <- <-] Hl Hn. rewrite take_drop, length_take. unfold bytes_ok.
  repeat split; [lia|by apply Forall_take|by apply Forall_drop].
Qed.

Lemma next_le_inv n l z l' :
  next_le n l = (z, l') -> bytes_ok l -> (n <= length l)%nat ->
  l = le_bytes n z ++ l' /\ 0 <= z < 2 ^ (8 * Z.of_nat n) /\ bytes_ok l'.
Proof.
  intros Hn Hl Hlen. destruct (next_bytes_inv n l (take n l) (drop n l)) as (Heq & Hb & Ht & Hd);
    [done..|]. injection Hn as <- <-. split; [|split; [|done]].
  - rewrite <- Hb at 1. by rewrite (le_bytes_val (take n l)).
  - rewrite <- Hb at 3. by apply le_val_bound.
Qed.

Lemma length_concat_le n zs : length (concat (le_bytes n <$> zs)) = (n * length zs)%nat.
Proof. induction zs; csimpl; [lia|]. rewrite length_app, length_le_bytes, IHzs. lia. Qed.

Lemma next_les_inv count n l zs l' :
  next_les count n l = (zs, l') -> bytes_ok l -> (count * n <= length l)%nat ->
  l = concat (le_bytes n <$> zs) ++ l' /\ length zs = count
  /\ Forall (fun z => 0 <= z < 2 ^ (8 * Z.of_nat n)) zs /\ bytes_ok l'.
Proof.
  revert l zs. induction count as [|count IH]; intros l zs; cbn [next_les].
  { by intros [= <- <-]. }
  destruct (next_le n l) as [z l1] eqn:H1, (next_les count n l1) as [zs1 l2] eqn:H2.
  intros [= <- <-] Hl Hlen. apply next_le_inv in H1 as (-> & Hz & Hl1); [|done|lia].
  rewrite length_app, length_le_bytes in Hlen.
  apply IH in H2 as (-> & <- & Hzs & Hl2); [|done|lia].
  csimpl. rewrite <- app_assoc. auto.
Qed.

Lemma bytes_ok_app a b : bytes_ok (a ++ b) <-> bytes_ok a /\ bytes_ok b.
Proof. apply Forall_app. Qed.

Lemma bytes_ok_concat_le n zs : bytes_ok (concat (le_bytes n <$> zs)).
Proof. induction zs; csimpl; [constructor|]. apply bytes_ok_app. auto using le_bytes_ok. Qed.

Lemma bytes_ok_single b : is_u8 b -> bytes_ok [b].
Proof. intros. by apply Forall_singleton. Qed.

Create HintDb bytes.
#[export] Hint Resolve le_bytes_ok bytes_ok_concat_le zeros_bytes_ok
  bytes_ok_single : bytes.

(** ** Automation *)

Create Rewrite HintDb len.
#[export] Hint Rewrite @length_app @length_take @length_drop @length_cons @length_nil
  length_le_bytes length_zeros length_concat_le @length_insert @length_fmap @length_reverse : len.

(** Length goals over concatenations. *)
Ltac solve_len := autorewrite with len in *; simpl length in *; lia.

(** Split boolean conditions met while evaluating the model. *)
Ltac case_bool :=
  match goal with
  | |- context [Z.leb ?a ?b] => destruct (Z.leb_spec a b)
  | |- context [Z.ltb ?a ?b] => destruct (Z.ltb_spec a b)
  | |- context [Z.eqb ?a ?b] => destruct (Z.eqb_spec a b)
  end; cbn [andb orb negb]; try lia.

(** Reading the next field of a struct written as a concatenation of fields. *)
Ltac next_field :=
  match goal with
  | |- context [next_bytes ?n (?b ++ _)] => rewrite (next_bytes_app n b) by done
  | |- context [next_le ?n (le_bytes ?n ?z ++ _)] => rewrite (next_le_app n z) by assumption
  | |- context [next_les ?c ?n (concat (le_bytes ?n <$> ?zs) ++ _)] =>
      rewrite (next_les_app c n zs) by done
  end; cbv iota beta.

(** Reading the next field of arbitrary bytes. *)
Ltac parse_field :=
  match goal with
  | |- context [next_bytes ?n ?l] =>
      let b := fresh "b" in let l' := fresh "l" in let Hn := fresh in
      destruct (next_bytes n l) as [b l'] eqn:Hn;
      apply next_bytes_inv in Hn as (-> & ? & ? & ?); [|assumption|solve_len]
  | |- context [next_le ?n ?l] =>
      let z := fresh "z" in let l' := fresh "l" in let Hn := fresh in
      destruct (next_le n l) as [z l'] eqn:Hn;
      apply next_le_inv in Hn as (-> & ? & ?); [|assumption|solve_len]
  | |- context [next_les ?c ?n ?l] =>
      let z := fresh "z" in let l' := fresh "l" in let Hn := fresh in
      destruct (next_les c n l) as [z l'] eqn:Hn;
      apply next_les_inv in Hn as (-> & ? & ? & ?); [|assumption|solve_len]
  end.

#[global] Opaque le_bytes zeros.
#[global] Arguments Z.pow : simpl never.
#[global] Arguments Z.mul : simpl never.
#[global] Arguments Z.add : simpl never.
#[global] Arguments Z.sub : simpl never.
#[global] Arguments Z.of_nat : simpl never.
#[global] Arguments Z.to_nat : simpl never.

Lemma StronglySorted_lt_NoDup (l : list Z) : StronglySorted Z.lt l -> NoDup l.
Proof.
  induction 1 as [|x l _ IH Hx]; constructor; [|done]. intros Hin. rewrite Forall_forall in Hx.
  specialize (Hx x Hin). lia.
Qed.

Lemma filter_all {A} (Q : A -> Prop) `{forall x, Decision (Q x)} l : Forall Q l -> filter Q l = l.
Proof. induction 1; [done|]. rewrite filter_cons_True by done. congruence. Qed.
