(* ===== verification/Text.v ===== *)
(** * Text: what the command line tool prints

    Decimal numbers, padding, the 64-bit floating-point arithmetic of sizes and
    rates, [format_bytes], and how far the number it prints is from the number of
    bytes. *)

From stdpp Require Import strings pretty.
From S2P Require Import Prelude.

(** ** Strings *)

(** The UTF-8 bytes of a literal. *)
Definition str (s : string) : list Z := (fun a => Z.of_N (Ascii.N_of_ascii a)) <$> String.list_ascii_of_string s.

(** [{}] of an integer. *)
Definition decimal (n : Z) : list Z := str (pretty n).

(** The last [width] decimal digits of [n]: [{:0width}] of a smaller number. *)
Definition digits (width : nat) (n : Z) : list Z :=
  (fun i => 48 + n / 10 ^ i mod 10) <$> reverse (seqZ 0 (Z.of_nat width)).

(** [{:<width}] of a string of single-byte characters. *)
Definition pad_right (width : nat) (s : list Z) : list Z := s ++ replicate (width - length s) 32.

(** ** f64 *)

(** The values that are not negative: a mantissa times a power of two, infinity and
    NaN.  All those of the tool are zero or lie between [2 ^ -100] and [2 ^ 100],
    where the limits of the exponent do not matter. *)
Inductive f64 := F64 (mantissa exponent : Z) | Infinity | NaN.

(** The integer nearest to [a / b], the even one of two. *)
Definition round_div (a b : Z) : Z :=
  let q := a / b in
  let r := a mod b in
  if 2 * r <? b then q else if b <? 2 * r then q + 1 else q + q mod 2.

(** [2 ^ e], and the denominator of [2 ^ e] for negative [e]. *)
Definition pow_num (e : Z) : Z := 2 ^ Z.max 0 e.
Definition pow_den (e : Z) : Z := 2 ^ Z.max 0 (- e).

(** The exponent for which [num / den] has a mantissa of 53 bits. *)
Definition ratio_exponent (num den : Z) : Z :=
  let l := Z.log2 num - Z.log2 den in
  if num * pow_den l <? den * pow_num l then l - 53 else l - 52.

(** The value nearest to [num / den]. *)
Definition f64_of_ratio (num den : Z) : f64 :=
  if num =? 0 then F64 0 0
  else
    let e := ratio_exponent num den in
    F64 (round_div (num * pow_den e) (den * pow_num e)) e.

(** [n as f64] *)
Definition as_f64 (n : Z) : f64 := f64_of_ratio n 1.

Definition f64_div (x y : f64) : f64 :=
  match x, y with
  | NaN, _ | _, NaN | Infinity, Infinity => NaN
  | Infinity, F64 _ _ => Infinity
  | F64 _ _, Infinity => F64 0 0
  | F64 m e, F64 n k =>
      if n =? 0 then (if m =? 0 then NaN else Infinity)
      else f64_of_ratio (m * pow_num (e - k)) (n * pow_den (e - k))
  end.

Definition f64_mul (x y : f64) : f64 :=
  match x, y with
  | NaN, _ | _, NaN => NaN
  | Infinity, F64 m _ | F64 m _, Infinity => if m =? 0 then NaN else Infinity
  | Infinity, Infinity => Infinity
  | F64 m e, F64 n k => f64_of_ratio (m * n * pow_num (e + k)) (pow_den (e + k))
  end.

Definition f64_add (x y : f64) : f64 :=
  match x, y with
  | NaN, _ | _, NaN => NaN
  | Infinity, _ | _, Infinity => Infinity
  | F64 m e, F64 n k =>
      f64_of_ratio (m * pow_num e * pow_den k + n * pow_num k * pow_den e) (pow_den e * pow_den k)
  end.

(** [n] units of [10 ^ -precision], with a decimal point. *)
Definition fixed_point (precision : nat) (n : Z) : list Z :=
  decimal (n / 10 ^ Z.of_nat precision) ++ str "." ++ digits precision n.

(** [{:.precision}]: the nearest decimal fraction, the even one of two. *)
Definition fixed (precision : nat) (x : f64) : list Z :=
  match x with
  | NaN => str "NaN"
  | Infinity => str "inf"
  | F64 m e => fixed_point precision (round_div (m * pow_num e * 10 ^ Z.of_nat precision) (pow_den e))
  end.

(** ** Durations *)

Record Duration := { duration_secs : Z; duration_nanos : Z }.

Definition as_secs_f64 (d : Duration) : f64 :=
  f64_add (as_f64 (duration_secs d)) (f64_div (as_f64 (duration_nanos d)) (as_f64 1000000000)).

(** ** Sizes *)

Definition GIB : Z := 1024 * 1024 * 1024.
Definition MIB : Z := 1024 * 1024.
Definition KIB : Z := 1024.

Definition format_bytes (bytes : Z) : list Z :=
  if GIB <=? bytes then fixed 2 (f64_div (as_f64 bytes) (as_f64 GIB)) ++ str " GiB"
  else if MIB <=? bytes then fixed 2 (f64_div (as_f64 bytes) (as_f64 MIB)) ++ str " MiB"
  else if KIB <=? bytes then fixed 2 (f64_div (as_f64 bytes) (as_f64 KIB)) ++ str " KiB"
  else decimal bytes ++ str " B".

(** ** Rounding *)

Lemma round_div_near a b : 0 < b -> 2 * Z.abs (round_div a b * b - a) <= b.
Proof.
  intros Hb. unfold round_div. pose proof (Z.div_mod a b ltac:(lia)) as Hd. pose proof (Z.mod_pos_bound a b Hb) as Hr.
  set (q := a / b) in *. set (r := a mod b) in *. pose proof (Z.mod_pos_bound q 2 ltac:(lia)) as Hp.
  destruct (Z.ltb_spec (2 * r) b); [|destruct (Z.ltb_spec b (2 * r))]; [nia..|].
  assert (q mod 2 = 0 \/ q mod 2 = 1) as [-> | ->] by lia; nia.
Qed.

Lemma round_div_exact c b : 0 < b -> round_div (c * b) b = c.
Proof.
  intros Hb. unfold round_div. rewrite Z.div_mul, Z.mod_mul by lia. by destruct (Z.ltb_spec (2 * 0) b); [|lia].
Qed.

Lemma pow_num_pos e : 0 < pow_num e.
Proof. apply Z.pow_pos_nonneg; lia. Qed.

Lemma pow_den_pos e : 0 < pow_den e.
Proof. apply Z.pow_pos_nonneg; lia. Qed.

(** [x] is [num / den], exactly. *)
Definition f64_is (x : f64) (num den : Z) : Prop :=
  exists m e, x = F64 m e /\ m * pow_num e * den = num * pow_den e.

(** A quotient by a power of two of at most 53 bits is exact. *)
Lemma f64_of_dyadic a i j :
  0 < a <= 2 ^ 53 -> 0 <= i -> 0 <= j -> f64_is (f64_of_ratio (a * 2 ^ i) (2 ^ j)) (a * 2 ^ i) (2 ^ j).
Proof.
  intros Ha Hi Hj. unfold f64_of_ratio. pose proof (Z.pow_pos_nonneg 2 i ltac:(lia) Hi) as Hi2.
  destruct (Z.eqb_spec (a * 2 ^ i) 0); [nia|]. set (e := ratio_exponent (a * 2 ^ i) (2 ^ j)).
  eexists _, e. split; [reflexivity|]. pose proof (Z.log2_spec a ltac:(lia)) as Hlog. pose proof (Z.log2_nonneg a) as Hl0.
  assert (e = Z.log2 a + i - j - 52) as He.
  { unfold e, ratio_exponent. rewrite Z.log2_mul_pow2, Z.log2_pow2 by lia. set (l := i + Z.log2 a - j).
    destruct (Z.ltb_spec (a * 2 ^ i * pow_den l) (2 ^ j * pow_num l)) as [Hlt|Hge]; [|lia]. exfalso.
    enough (2 ^ j * pow_num l <= a * 2 ^ i * pow_den l) by lia.
    transitivity (2 ^ Z.log2 a * 2 ^ i * pow_den l); [|pose proof (pow_den_pos l); nia].
    unfold pow_num, pow_den. rewrite <- !Z.pow_add_r by lia. apply Z.pow_le_mono_r; lia. }
  assert (Z.log2 a <= 53) as Hl53 by (rewrite <- (Z.log2_pow2 53) by lia; apply Z.log2_le_mono; lia).
  assert (exists c, a * 2 ^ i * pow_den e = c * (2 ^ j * pow_num e)) as [c Hc].
  { destruct (decide (Z.log2 a = 53)) as [H53|H53].
    - assert (a = 2 ^ 53) as -> by (rewrite H53 in Hlog; lia). exists (2 ^ 52). unfold pow_num, pow_den.
      rewrite <- !Z.pow_add_r by lia. f_equal. lia.
    - exists (a * 2 ^ (52 - Z.log2 a)). rewrite <- !Z.mul_assoc. f_equal. unfold pow_num, pow_den.
      rewrite <- !Z.pow_add_r by lia. f_equal. lia. }
  rewrite Hc, round_div_exact; [lia|]. pose proof (pow_num_pos e). pose proof (Z.pow_pos_nonneg 2 j ltac:(lia) Hj). nia.
Qed.

(** The conversion of an integer: a mantissa of at most 53 bits, exact below
    [2 ^ 53] and at most 1024 away for 64 bits. *)
Lemma as_f64_near n :
  0 < n < 2 ^ 64 ->
  exists m e, as_f64 n = F64 m e /\ 0 < m <= 2 ^ 53
    /\ (n < 2 ^ 53 -> m * pow_num e = n * pow_den e)
    /\ (2 ^ 53 <= n -> 0 <= e /\ 2 * Z.abs (m * pow_num e - n) <= 2048).
Proof.
  intros Hn. unfold as_f64, f64_of_ratio. destruct (Z.eqb_spec n 0); [lia|].
  pose proof (Z.log2_spec n ltac:(lia)) as Hlog. pose proof (Z.log2_nonneg n) as Hl0.
  assert (ratio_exponent n 1 = Z.log2 n - 52) as ->.
  { unfold ratio_exponent. change (Z.log2 1) with 0. rewrite Z.sub_0_r. unfold pow_den, pow_num.
    rewrite (Z.max_l 0 (- Z.log2 n)), (Z.max_r 0 (Z.log2 n)) by lia. rewrite Z.pow_0_r.
    destruct (Z.ltb_spec (n * 1) (1 * 2 ^ Z.log2 n)); [lia|done]. }
  assert (Z.log2 n < 64) as Hl64 by (apply Z.log2_lt_pow2; lia). set (e := Z.log2 n - 52) in *.
  eexists _, e. split; [reflexivity|]. rewrite Z.mul_1_l.
  destruct (decide (e <= 0)) as [Hneg|Hpos].
  - assert (pow_num e = 1) as -> by (unfold pow_num; by rewrite Z.max_l by lia).
    pose proof (round_div_exact (n * pow_den e) 1 ltac:(lia)) as Hx. rewrite Z.mul_1_r in Hx. rewrite Hx.
    assert (n * pow_den e < 2 ^ 53).
    { apply (Z.lt_le_trans _ (2 ^ Z.succ (Z.log2 n) * pow_den e)); [pose proof (pow_den_pos e); nia|].
      unfold pow_den. rewrite <- Z.pow_add_r by lia. apply Z.pow_le_mono_r; lia. }
    pose proof (pow_den_pos e). split; [nia|]. split; [lia|]. intros H53. exfalso.
    enough (n < 2 ^ 53) by lia. apply (Z.lt_le_trans _ (2 ^ Z.succ (Z.log2 n))); [lia|]. apply Z.pow_le_mono_r; lia.
  - assert (pow_den e = 1) as -> by (unfold pow_den; by rewrite Z.max_l by lia). rewrite Z.mul_1_r.
    assert (pow_num e = 2 ^ e) as -> by (unfold pow_num; by rewrite Z.max_r by lia).
    pose proof (Z.pow_pos_nonneg 2 e ltac:(lia) ltac:(lia)) as Hp. pose proof (round_div_near n (2 ^ e) Hp) as Hr.
    assert (2 ^ e <= 2 ^ 11) as Hp11 by (apply Z.pow_le_mono_r; lia).
    assert (2 ^ 52 * 2 ^ e <= n < 2 ^ 53 * 2 ^ e) as Hb.
    { rewrite <- !Z.pow_add_r by lia. replace (52 + e) with (Z.log2 n) by lia. replace (53 + e) with (Z.succ (Z.log2 n)) by lia. lia. }
    set (m := round_div n (2 ^ e)) in *. split; [nia|]. split.
    + intros H53. exfalso. assert (Z.log2 n < 53) by (apply Z.log2_lt_pow2; lia). lia.
    + intros _. split; [lia|]. change (2 ^ 11) with 2048 in Hp11. lia.
Qed.

Lemma abs_scale c x y : 0 < c -> 2 * Z.abs (c * x) <= c * y -> 2 * Z.abs x <= y.
Proof. intros Hc. rewrite Z.abs_mul, (Z.abs_eq c) by lia. nia. Qed.

(** The number printed for [bytes] in units of [2 ^ k]: hundredths of a unit. *)
Lemma size_number bytes k :
  0 < bytes < 2 ^ 64 -> 0 <= k -> as_f64 (2 ^ k) = F64 (2 ^ 52) (k - 52) ->
  exists n, fixed 2 (f64_div (as_f64 bytes) (as_f64 (2 ^ k))) = fixed_point 2 n
    /\ 2 * Z.abs (n * 2 ^ k - 100 * bytes) <= 2 ^ k + (if bytes <? 2 ^ 53 then 0 else 204800).
Proof.
  intros Hb Hk ->. destruct (as_f64_near bytes Hb) as (m & e & -> & Hm & Hlow & Hhigh). cbn [f64_div].
  destruct (Z.eqb_spec (2 ^ 52) 0) as [|_]; [done|]. set (d := e - (k - 52)).
  assert (2 ^ 52 * pow_den d = 2 ^ (52 + Z.max 0 (- d))) as -> by (unfold pow_den; by rewrite <- Z.pow_add_r by lia).
  destruct (f64_of_dyadic m (Z.max 0 d) (52 + Z.max 0 (- d)) Hm ltac:(lia) ltac:(lia)) as (m' & e' & E & Hval).
  unfold pow_num at 1. rewrite E. cbn [fixed]. set (n := round_div _ _). exists n. split; [reflexivity|].
  pose proof (round_div_near (m' * pow_num e' * 10 ^ Z.of_nat 2) (pow_den e') (pow_den_pos e')) as Hn. fold n in Hn.
  change (10 ^ Z.of_nat 2) with 100 in Hn. set (den := 2 ^ (52 + Z.max 0 (- d))) in *. set (num := m * 2 ^ Z.max 0 d) in *.
  assert (0 < den) as Hden by (apply Z.pow_pos_nonneg; lia). pose proof (pow_den_pos e') as Hpd. pose proof (pow_den_pos e) as Hq.
  pose proof (Z.pow_pos_nonneg 2 k ltac:(lia) Hk) as Hu.
  assert (2 * Z.abs (n * den - 100 * num) <= den) as H1 by (apply (abs_scale (pow_den e')); [done|]; nia).
  assert (num * (2 ^ k * pow_den e) = m * pow_num e * den) as H2.
  { unfold num, den, pow_num, pow_den. rewrite <- !Z.mul_assoc, <- !Z.pow_add_r by lia. do 2 f_equal. lia. }
  assert (2 * Z.abs (n * (2 ^ k * pow_den e) - 100 * (m * pow_num e)) <= 2 ^ k * pow_den e) as H3.
  { apply (abs_scale den); [done|].
    replace (den * (n * (2 ^ k * pow_den e) - 100 * (m * pow_num e))) with ((2 ^ k * pow_den e) * (n * den - 100 * num)) by nia.
    rewrite Z.abs_mul, (Z.abs_eq (2 ^ k * pow_den e)) by nia. nia. }
  destruct (Z.ltb_spec bytes (2 ^ 53)) as [Hsmall|Hlarge].
  - rewrite (Hlow Hsmall) in H3. apply (abs_scale (pow_den e)); [done|].
    replace (pow_den e * (n * 2 ^ k - 100 * bytes)) with (n * (2 ^ k * pow_den e) - 100 * (bytes * pow_den e)) by ring. lia.
  - destruct (Hhigh Hlarge) as [He Herr]. assert (pow_den e = 1) as Hd1 by (unfold pow_den; by rewrite Z.max_l by lia).
    rewrite Hd1, Z.mul_1_r in H3. lia.
Qed.

(** ** Properties *)

(** The unit [format_bytes] counts in. *)
Definition size_unit (bytes : Z) : Z * list Z :=
  if GIB <=? bytes then (GIB, str " GiB")
  else if MIB <=? bytes then (MIB, str " MiB")
  else if KIB <=? bytes then (KIB, str " KiB")
  else (1, str " B").

(** C31: the number [format_bytes] prints, two decimals in the largest unit not above
    the size, differs from the size by at most half a hundredth of the unit, and for
    sizes of [2 ^ 53] bytes and more by at most 1024 bytes beyond that; below 1024
    bytes the size is printed as it is. *)
Theorem format_bytes_accurate bytes :
  0 <= bytes < 2 ^ 64 ->
  let '(unit_bytes, name) := size_unit bytes in
  if bytes <? KIB then format_bytes bytes = decimal bytes ++ name
  else exists n, format_bytes bytes = fixed_point 2 n ++ name
    /\ 2 * Z.abs (n * unit_bytes - 100 * bytes) <= unit_bytes + (if bytes <? 2 ^ 53 then 0 else 204800).
Proof.
  intros Hb. unfold size_unit, format_bytes. assert (KIB <= MIB <= GIB) as Hu by done.
  destruct (Z.leb_spec GIB bytes); [|destruct (Z.leb_spec MIB bytes); [|destruct (Z.leb_spec KIB bytes)]];
    destruct (Z.ltb_spec bytes KIB); try lia; [..|done]; assert (0 < KIB) by done.
  - destruct (size_number bytes 30 ltac:(lia) ltac:(lia) eq_refl) as (n & E & Hn). exists n.
    change (2 ^ 30) with GIB in E, Hn. by rewrite E.
  - destruct (size_number bytes 20 ltac:(lia) ltac:(lia) eq_refl) as (n & E & Hn). exists n.
    change (2 ^ 20) with MIB in E, Hn. by rewrite E.
  - destruct (size_number bytes 10 ltac:(lia) ltac:(lia) eq_refl) as (n & E & Hn). exists n.
    change (2 ^ 10) with KIB in E, Hn. by rewrite E.
Qed.

(** ** Witnesses *)

Lemma format_bytes_accurate_witness : format_bytes 1536 = str "1.50 KiB" /\ 2 * Z.abs (150 * KIB - 100 * 1536) <= KIB.
Proof.
  destruct (format_bytes_accurate 1536 ltac:(lia)) as (n & E & Hn).
  change (2 * Z.abs (n * 1024 - 100 * 1536) <= 1024) in Hn. assert (n = 150) as Hn150 by lia.
  rewrite Hn150 in E, Hn. split; [exact E|exact Hn].
Defined.
