(* ===== verification/Checksum.v ===== *)
(** * Checksum: the CRC32C of src/src/checksum.rs

    The table-driven [compute_crc32c] as the code has it, a bit-serial reference
    ([crc32c_reference]), their equivalence, and what the checksum detects. *)

From S2P Require Import Prelude.

(** ** The code *)

Definition CASTAGNOLI_POLYNOMIAL_REVERSED : Z := 0x82F63B78.

(** One iteration of the inner loop of [build_crc32c_lookup_table]. *)
Definition crc_bit (remainder : Z) : Z :=
  if negb (Z.land remainder 1 =? 0)
  then Z.lxor (Z.shiftr remainder 1) CASTAGNOLI_POLYNOMIAL_REVERSED
  else Z.shiftr remainder 1.

Fixpoint crc_bits (n : nat) (remainder : Z) : Z :=
  match n with
  | O => remainder
  | S n => crc_bits n (crc_bit remainder)
  end.

Definition build_crc32c_lookup_table : list Z := crc_bits 8 <$> seqZ 0 256.

(** The table is a constant evaluated at compile time. *)
Definition CRC32C_LOOKUP_TABLE : list Z := Eval vm_compute in build_crc32c_lookup_table.

Definition crc_step (accumulator byte : Z) : Z :=
  let table_index := Z.to_nat (Z.land (Z.lxor accumulator byte) 0xFF) in
  Z.lxor (Z.shiftr accumulator 8) (default 0 (CRC32C_LOOKUP_TABLE !! table_index)).

Definition compute_crc32c (data : list Z) : Z :=
  Z.lxor (fold_left crc_step data 0xFFFFFFFF) 0xFFFFFFFF.

Definition verify_crc32c (data : list Z) (expected_checksum : Z) : bool :=
  compute_crc32c data =? expected_checksum.

Definition write_checksum_into_buffer_header {E} (data_after_header destination_buffer : list Z)
    : outcome E (list Z) :=
  put_slice destination_buffer 0 (le_bytes 4 (compute_crc32c data_after_header)).

(** ** The reference: one bit per step, no table *)

Definition crc_step_ref (accumulator byte : Z) : Z := crc_bits 8 (Z.lxor accumulator byte).

Definition crc32c_reference (data : list Z) : Z :=
  Z.lxor (fold_left crc_step_ref data 0xFFFFFFFF) 0xFFFFFFFF.

(** ** Algebra of the shift register *)

Lemma crc_bit_spec r :
  crc_bit r = Z.lxor (Z.shiftr r 1) (if Z.testbit r 0 then CASTAGNOLI_POLYNOMIAL_REVERSED else 0).
Proof.
  unfold crc_bit. change 1 with (Z.ones 1) at 1. rewrite Z.land_ones by lia.
  rewrite Z.pow_1_r, Zmod_odd, <- Z.bit0_odd. destruct (Z.testbit r 0); simpl; [done|].
  by rewrite Z.lxor_0_r.
Qed.

Lemma crc_bit_lxor a b : crc_bit (Z.lxor a b) = Z.lxor (crc_bit a) (crc_bit b).
Proof.
  rewrite !crc_bit_spec, Z.shiftr_lxor, Z.lxor_spec.
  apply Z.bits_inj'. intros i Hi. rewrite !Z.lxor_spec.
  destruct (Z.testbit a 0), (Z.testbit b 0); simpl; rewrite ?Z.bits_0;
    generalize (Z.testbit (Z.shiftr a 1) i), (Z.testbit (Z.shiftr b 1) i),
      (Z.testbit CASTAGNOLI_POLYNOMIAL_REVERSED i); by intros [] [] [].
Qed.

Lemma crc_bits_lxor n a b : crc_bits n (Z.lxor a b) = Z.lxor (crc_bits n a) (crc_bits n b).
Proof. revert a b. induction n; intros; simpl; [done|]. by rewrite crc_bit_lxor. Qed.

Lemma crc_bits_add m n r : crc_bits (m + n) r = crc_bits n (crc_bits m r).
Proof. revert r. induction m; intros; simpl; auto. Qed.

(** Shifting in zeros only moves the register. *)
Lemma crc_bits_shiftl n v : crc_bits n (Z.shiftl v (Z.of_nat n)) = v.
Proof.
  revert v. induction n as [|n IH]; intros v; cbn [crc_bits]; [by rewrite Z.shiftl_0_r|].
  rewrite crc_bit_spec, Z.shiftl_spec by lia.
  rewrite (Z.testbit_neg_r v) by lia.
  rewrite Z.lxor_0_r, Z.shiftr_shiftl_l by lia.
  replace (Z.of_nat (S n) - 1) with (Z.of_nat n) by lia. apply IH.
Qed.

Lemma lxor_bound w a b : 0 <= w -> 0 <= a < 2 ^ w -> 0 <= b < 2 ^ w -> 0 <= Z.lxor a b < 2 ^ w.
Proof.
  intros Hw Ha Hb.
  assert (Z.lxor a b = Z.lxor a b mod 2 ^ w) as ->.
  { apply Z.bits_inj'. intros i Hi. rewrite Z.testbit_mod_pow2 by done.
    destruct (Z.ltb_spec i w); [done|]. simpl. rewrite Z.lxor_spec.
    rewrite <- (Z.mod_small a (2 ^ w)), <- (Z.mod_small b (2 ^ w)) by done.
    by rewrite !Z.mod_pow2_bits_high by lia. }
  apply Z.mod_pos_bound. by apply Z.pow_pos_nonneg.
Qed.

Lemma crc_bit_u32 r : is_u32 r -> is_u32 (crc_bit r).
Proof.
  intros Hr. rewrite crc_bit_spec. apply (lxor_bound 32); [lia| |].
  - rewrite Z.shiftr_div_pow2 by lia. change (2 ^ 1) with 2. dlia.
  - destruct (Z.testbit r 0); vm_compute; intuition congruence.
Qed.

Lemma crc_bits_u32 n r : is_u32 r -> is_u32 (crc_bits n r).
Proof. revert r. induction n; simpl; auto using crc_bit_u32. Qed.

(** The top bit of the polynomial is set, so no register state is lost. *)
Lemma crc_bit_zero r : is_u32 r -> crc_bit r = 0 -> r = 0.
Proof.
  intros Hr. rewrite crc_bit_spec, Z.bit0_odd.
  destruct (Z.odd r) eqn:Hodd; intros Hz; apply Z.lxor_eq in Hz;
    rewrite Z.shiftr_div_pow2 in Hz by lia; change (2 ^ 1) with 2 in Hz.
  - unfold CASTAGNOLI_POLYNOMIAL_REVERSED in Hz. dlia.
  - rewrite <- Z.negb_even in Hodd. apply negb_false_iff, Z.even_spec in Hodd as [k ->]. dlia.
Qed.

Lemma crc_bits_inj n a b : is_u32 a -> is_u32 b -> crc_bits n a = crc_bits n b -> a = b.
Proof.
  intros Ha Hb Heq. apply Z.lxor_eq.
  assert (is_u32 (Z.lxor a b)) as Hab by (apply (lxor_bound 32); [lia|done..]).
  assert (crc_bits n (Z.lxor a b) = 0) as H0 by (by rewrite crc_bits_lxor, Heq, Z.lxor_nilpotent).
  clear Heq. revert Hab H0. generalize (Z.lxor a b). induction n; simpl; [auto|].
  intros d Hd H0. apply crc_bit_zero; auto using crc_bit_u32.
Qed.

Lemma crc_table_lookup i :
  0 <= i < 256 -> CRC32C_LOOKUP_TABLE !! Z.to_nat i = Some (crc_bits 8 i).
Proof.
  intros. change CRC32C_LOOKUP_TABLE with build_crc32c_lookup_table.
  unfold build_crc32c_lookup_table. rewrite list_lookup_fmap.
  rewrite lookup_seqZ_lt by lia. cbn [fmap option_fmap option_map].
  by rewrite Z.add_0_l, Z2Nat.id by lia.
Qed.

(** The table step is eight bit steps. *)
Lemma crc_step_correct acc b : is_u8 b -> crc_step acc b = crc_step_ref acc b.
Proof.
  intros Hb. unfold crc_step, crc_step_ref.
  set (x := Z.lxor acc b).
  assert (0 <= Z.land x 255 < 256) as Hlow.
  { change 255 with (Z.ones 8). rewrite Z.land_ones by lia. apply Z.mod_pos_bound. lia. }
  rewrite (crc_table_lookup (Z.land x 255)) by done.
  change (default 0 (Some (crc_bits 8 (Z.land x 255)))) with (crc_bits 8 (Z.land x 255)).
  assert (Z.shiftr acc 8 = Z.shiftr x 8) as ->.
  { unfold x. rewrite Z.shiftr_lxor, (Z.shiftr_div_pow2 b) by lia.
    rewrite (Z.div_small b) by ilia. by rewrite Z.lxor_0_r. }
  rewrite <- (crc_bits_shiftl 8 (Z.shiftr x 8)) at 1. rewrite <- crc_bits_lxor. f_equal.
  change (Z.of_nat 8) with 8. apply Z.bits_inj'. intros i Hi.
  change 255 with (Z.ones 8).
  rewrite Z.lxor_spec, Z.shiftl_spec, Z.land_spec by lia.
  destruct (Z.lt_ge_cases i 8).
  - rewrite (Z.testbit_neg_r _ (i - 8)) by lia. rewrite Z.ones_spec_low by lia.
    by rewrite andb_true_r, xorb_false_l.
  - rewrite Z.shiftr_spec, Z.ones_spec_high by lia.
    by rewrite andb_false_r, xorb_false_r, Z.sub_add.
Qed.

Lemma crc_step_ref_u32 acc b : is_u32 acc -> is_u8 b -> is_u32 (crc_step_ref acc b).
Proof. intros. apply crc_bits_u32, (lxor_bound 32); [lia|done|ilia]. Qed.

Lemma crc_fold_ref acc data :
  bytes_ok data -> fold_left crc_step data acc = fold_left crc_step_ref data acc.
Proof.
  intros Hd. revert acc. induction Hd as [|b l Hb _ IH]; intros; simpl; [done|].
  by rewrite crc_step_correct, IH.
Qed.

Lemma crc_fold_u32 acc data :
  is_u32 acc -> bytes_ok data -> is_u32 (fold_left crc_step_ref data acc).
Proof.
  intros Hacc Hd. revert acc Hacc. induction Hd; intros; simpl; auto using crc_step_ref_u32.
Qed.

(** Feeding bytes is feeding their little-endian number. *)
Lemma crc_fold_word acc w :
  bytes_ok w ->
  fold_left crc_step_ref w acc = crc_bits (8 * length w) (Z.lxor acc (le_val w)).
Proof.
  intros Hw. revert acc. induction Hw as [|b w Hb Hw IH]; intros acc.
  { simpl. by rewrite Z.lxor_0_r. }
  cbn [fold_left length le_val]. rewrite IH. unfold crc_step_ref.
  replace (8 * S (length w))%nat with (8 + 8 * length w)%nat by lia.
  rewrite crc_bits_add. f_equal.
  assert (b + 256 * le_val w = Z.lxor b (Z.shiftl (le_val w) 8)) as ->.
  { rewrite Z.add_nocarry_lxor.
    - f_equal. rewrite Z.shiftl_mul_pow2 by lia. lia.
    - apply Z.bits_inj'. intros i Hi. rewrite Z.land_spec, Z.bits_0.
      replace (256 * le_val w) with (Z.shiftl (le_val w) 8) by (rewrite Z.shiftl_mul_pow2; lia).
      rewrite Z.shiftl_spec by lia. destruct (Z.lt_ge_cases i 8).
      + rewrite (Z.testbit_neg_r _ (i - 8)) by lia. apply andb_false_r.
      + rewrite <- (Z.mod_small b (2 ^ 8)) by ilia. by rewrite Z.mod_pow2_bits_high by lia. }
  rewrite <- (crc_bits_shiftl 8 (le_val w)) at 1. change (Z.of_nat 8) with 8.
  by rewrite <- crc_bits_lxor, Z.lxor_assoc.
Qed.

Lemma crc_fold_inj data a b :
  bytes_ok data -> is_u32 a -> is_u32 b ->
  fold_left crc_step_ref data a = fold_left crc_step_ref data b -> a = b.
Proof.
  intros Hd. revert a b. induction Hd as [|x l Hx _ IH]; intros a b Ha Hb Heq; [done|].
  simpl in Heq. apply IH in Heq; auto using crc_step_ref_u32.
  unfold crc_step_ref in Heq. apply crc_bits_inj in Heq; [|apply (lxor_bound 32); [lia|done|ilia]..].
  apply (f_equal (fun z => Z.lxor z x)) in Heq.
  by rewrite !Z.lxor_assoc, Z.lxor_nilpotent, !Z.lxor_0_r in Heq.
Qed.

Lemma compute_crc32c_u32 data : bytes_ok data -> is_u32 (compute_crc32c data).
Proof.
  intros. unfold compute_crc32c. rewrite crc_fold_ref by done.
  apply (lxor_bound 32); [lia| |lia]. apply crc_fold_u32; [ilia|done].
Qed.

Lemma verify_crc32c_compute data : verify_crc32c data (compute_crc32c data) = true.
Proof. unfold verify_crc32c. apply Z.eqb_refl. Qed.

(** Bursts of at most 32 bits change the checksum. *)
Lemma crc_burst_differs pre good bad post :
  bytes_ok (pre ++ good ++ post) -> bytes_ok bad ->
  length good = length bad -> (length good <= 4)%nat -> good <> bad ->
  compute_crc32c (pre ++ bad ++ post) <> compute_crc32c (pre ++ good ++ post).
Proof.
  unfold bytes_ok. intros Hgood Hbad Hlen H4 Hne.
  apply Forall_app in Hgood as [Hpre Hgood]. apply Forall_app in Hgood as [Hgood Hpost].
  unfold compute_crc32c.
  rewrite !crc_fold_ref by (unfold bytes_ok; rewrite !Forall_app; done).
  intros Heq. apply (f_equal (fun z => Z.lxor z 0xFFFFFFFF)) in Heq.
  rewrite !Z.lxor_assoc, Z.lxor_nilpotent, !Z.lxor_0_r, !fold_left_app in Heq.
  assert (is_u32 (fold_left crc_step_ref pre 0xFFFFFFFF)) as Hacc
    by (apply crc_fold_u32; [ilia|done]).
  apply crc_fold_inj in Heq; auto using crc_fold_u32.
  revert Hacc Heq. generalize (fold_left crc_step_ref pre 0xFFFFFFFF). intros acc Hacc Heq.
  rewrite !crc_fold_word, Hlen in Heq by done.
  assert (forall w, bytes_ok w -> (length w <= 4)%nat -> is_u32 (le_val w)) as Hw.
  { intros w Hw Hl. pose proof (le_val_bound w Hw).
    pose proof (Z.pow_le_mono_r 2 (8 * len w) 32). ilia. }
  apply crc_bits_inj in Heq; [|apply (lxor_bound 32); [lia|exact Hacc|apply Hw; [assumption|lia]]..].
  apply (f_equal (Z.lxor acc)) in Heq.
  rewrite <- !Z.lxor_assoc, Z.lxor_nilpotent, !Z.lxor_0_l in Heq.
  apply Hne. rewrite <- (le_bytes_val good), <- (le_bytes_val bad) by done.
  by rewrite Hlen, Heq.
Qed.

(** ** Properties *)

(** C29: the table-driven [compute_crc32c] computes the same checksum as the
    bit-serial Castagnoli shift register, for every byte string. *)
Theorem compute_crc32c_reference data :
  bytes_ok data -> compute_crc32c data = crc32c_reference data.
Proof. intros. unfold compute_crc32c, crc32c_reference. by rewrite crc_fold_ref. Qed.

Lemma compute_crc32c_reference_witness :
  compute_crc32c [49; 50; 51; 52; 53; 54; 55; 56; 57] = 0xE3069283
  /\ crc32c_reference [49; 50; 51; 52; 53; 54; 55; 56; 57] = 0xE3069283.
Proof.
  assert (bytes_ok [49; 50; 51; 52; 53; 54; 55; 56; 57]) as H by (repeat constructor; ilia).
  split; [vm_compute; reflexivity|].
  rewrite <- (compute_crc32c_reference [49; 50; 51; 52; 53; 54; 55; 56; 57] H).
  vm_compute. reflexivity.
Defined.

(** [verify_crc32c] rejects every corruption confined to at most four
    consecutive bytes (any burst of up to 32 bits, aligned or not inside them),
    whatever the length of the data and wherever the corruption sits. *)
Theorem verify_crc32c_detects_burst pre good bad post :
  bytes_ok (pre ++ good ++ post) -> bytes_ok bad ->
  length good = length bad -> (length good <= 4)%nat -> good <> bad ->
  verify_crc32c (pre ++ bad ++ post) (compute_crc32c (pre ++ good ++ post)) = false.
Proof. intros. unfold verify_crc32c. apply Z.eqb_neq. by apply crc_burst_differs. Qed.

Lemma verify_crc32c_detects_burst_witness :
  verify_crc32c ([104] ++ [101; 108; 108] ++ [111]) (compute_crc32c ([104] ++ [101; 109; 108] ++ [111]))
  = false.
Proof.
  apply (verify_crc32c_detects_burst [104] [101; 109; 108] [101; 108; 108] [111]);
    [repeat constructor; ilia|repeat constructor; ilia|reflexivity|simpl; lia|discriminate].
Defined.
