(* ===== verification/Device.v ===== *)
(** * Device: errors and the block-device interface

    [BafsError] (src/src/error.rs), the [BlockDevice] trait
    (src/src/block_device.rs) as a class with the documented behaviour of its
    implementations as a second class of laws, and three implementations the
    repository holds: [MemoryDisk] and [FaultInjectionDisk] of
    src/tests/integration_test.rs and [FileBlockDevice] of
    src/bafs-tools/src/main.rs. *)

From stdpp Require Import strings pretty.
From S2P Require Import Prelude.

(** ** Errors *)

Inductive BafsError : Type :=
  | InputOutputError
  | InvalidChecksum (block_address : Z)
  | InvalidMagicNumber
  | UnsupportedVersion (found_version : Z)
  | OutOfSpace
  | NotFound
  | NotADirectory
  | NotARegularFile
  | AlreadyExists
  | InvalidArgument
  | CorruptedStructure
  | NotSupported.

#[global] Instance BafsError_eq_dec : EqDecision BafsError.
Proof. solve_decision. Defined.

(** [Result<A, BafsError>] *)
Abbreviation result := (outcome BafsError).

(** [impl Display for BafsError] *)
Definition BafsError_fmt (e : BafsError) : string :=
  match e with
  | InputOutputError => "I/O error on the underlying block device"
  | InvalidChecksum block_address => "CRC32C checksum mismatch on block " +:+ pretty block_address
  | InvalidMagicNumber => "not a BAFS filesystem (invalid magic number)"
  | UnsupportedVersion found_version =>
      "unsupported BAFS version " +:+ pretty found_version
        +:+ " (this implementation supports v1 only)"
  | OutOfSpace => "no free space left on the filesystem"
  | NotFound => "no such file or directory"
  | NotADirectory => "not a directory"
  | NotARegularFile => "not a regular file"
  | AlreadyExists => "file or directory already exists"
  | InvalidArgument => "invalid argument"
  | CorruptedStructure => "filesystem metadata is corrupted"
  | NotSupported => "operation not supported"
  end.

(** ** The trait

    [read_sectors d lba n buffer] is the returned flag with the destination
    buffer afterwards; [write_sectors d lba n buffer] is the device afterwards
    (the trait's methods take [&self] over interior mutability) with the
    returned flag.  Either may panic on a buffer shorter than its contract. *)
Class BlockDevice (D : Type) := {
  read_sectors : D -> Z -> Z -> list Z -> result (bool * list Z);
  write_sectors : D -> Z -> Z -> list Z -> D * result bool;
  total_sector_count : D -> Z;
}.

(** The trait's default method. *)
Definition sector_size_in_bytes : Z := 512.

(** What the trait's documentation promises of an implementation, over the
    bytes [content d] the device holds: a read that reports success delivered
    the sectors asked for, an in-range write that reports success replaced exactly those
    sectors, a write that reports failure touched nothing outside them, and
    [device_up d] means that no in-range request is refused. *)
Class BlockDeviceLaws (D : Type) `{BlockDevice D} := {
  content : D -> list Z;
  device_up : D -> Prop;
  read_true : forall d lba n buffer buffer',
    0 <= lba -> 0 < n -> n * 512 <= len buffer ->
    read_sectors d lba n buffer = Ok (true, buffer') ->
    exists sectors, get_slice (E:=BafsError) (content d) (lba * 512) (n * 512) = Ok sectors
      /\ buffer' = sectors ++ drop (Z.to_nat (n * 512)) buffer;
  read_up : forall d lba n buffer,
    device_up d -> 0 <= lba -> 0 <= n -> n * 512 <= len buffer ->
    (lba + n) * 512 <= len (content d) ->
    exists buffer', read_sectors d lba n buffer = Ok (true, buffer');
  write_true : forall d lba n buffer d',
    0 <= lba -> 0 <= n -> n * 512 <= len buffer -> (lba + n) * 512 <= len (content d) ->
    write_sectors d lba n buffer = (d', Ok true) ->
    put_slice (E:=BafsError) (content d) (lba * 512) (take (Z.to_nat (n * 512)) buffer)
      = Ok (content d');
  write_up : forall d lba n buffer,
    device_up d -> 0 <= lba -> 0 <= n -> n * 512 <= len buffer ->
    (lba + n) * 512 <= len (content d) ->
    exists d', write_sectors d lba n buffer = (d', Ok true) /\ device_up d';
  write_false : forall d lba n buffer d' r,
    0 <= lba -> 0 <= n ->
    write_sectors d lba n buffer = (d', r) -> r <> Ok true ->
    length (content d') = length (content d)
    /\ forall i : nat, (Z.of_nat i < lba * 512 \/ (lba + n) * 512 <= Z.of_nat i) ->
       content d' !! i = content d !! i;
}.

(** ** MemoryDisk *)

Record MemoryDisk := { md_data : list Z; md_total_sectors : Z }.

Definition MemoryDisk_new (size_bytes : Z) : MemoryDisk :=
  {| md_data := zeros size_bytes; md_total_sectors := size_bytes / 512 |}.

(** The byte range of a request: [start_byte], [byte_count] and their sum. *)
Definition md_range (start_lba sector_count : Z) : result (Z * Z * Z) :=
  let? start_byte := checked_mul 64 start_lba 512 in
  let? byte_count := checked_mul 64 sector_count 512 in
  let? end_byte := checked_add 64 start_byte byte_count in
  Ok (start_byte, byte_count, end_byte).

Definition MemoryDisk_read_sectors (d : MemoryDisk) (start_lba sector_count : Z) (dest : list Z)
    : result (bool * list Z) :=
  let? (start_byte, byte_count, end_byte) := md_range start_lba sector_count in
  if len (md_data d) <? end_byte then Ok (false, dest)
  else
    let? s := get_slice (md_data d) start_byte byte_count in
    let? dest' := put_slice dest 0 s in
    Ok (true, dest').

Definition MemoryDisk_write_sectors (d : MemoryDisk) (start_lba sector_count : Z) (src : list Z)
    : MemoryDisk * result bool :=
  match md_range start_lba sector_count with
  | Ok (start_byte, byte_count, end_byte) =>
      if len (md_data d) <? end_byte then (d, Ok false)
      else
        match (let? s := get_slice (E:=BafsError) src 0 byte_count in
               put_slice (md_data d) start_byte s) with
        | Ok data => ({| md_data := data; md_total_sectors := md_total_sectors d |}, Ok true)
        | _ => (d, Panic)
        end
  | _ => (d, Panic)
  end.

#[global] Instance MemoryDisk_BlockDevice : BlockDevice MemoryDisk := {
  read_sectors := MemoryDisk_read_sectors;
  write_sectors := MemoryDisk_write_sectors;
  total_sector_count := md_total_sectors;
}.

(** ** FaultInjectionDisk: fails every write from a chosen one on *)

Record FaultInjectionDisk := { fi_inner : MemoryDisk; fi_countdown : option Z }.

Definition FaultInjectionDisk_new (inner : MemoryDisk) (fail_after : Z) : FaultInjectionDisk :=
  {| fi_inner := inner; fi_countdown := Some (saturating_sub fail_after 1) |}.

Definition FaultInjectionDisk_write_sectors (d : FaultInjectionDisk) (start_lba sector_count : Z)
    (src : list Z) : FaultInjectionDisk * result bool :=
  match fi_countdown d with
  | None =>
      let '(inner, r) := MemoryDisk_write_sectors (fi_inner d) start_lba sector_count src in
      ({| fi_inner := inner; fi_countdown := None |}, r)
  | Some n =>
      if n =? 0 then (d, Ok false)
      else
        let '(inner, r) := MemoryDisk_write_sectors (fi_inner d) start_lba sector_count src in
        ({| fi_inner := inner; fi_countdown := Some (n - 1) |}, r)
  end.

#[global] Instance FaultInjectionDisk_BlockDevice : BlockDevice FaultInjectionDisk := {
  read_sectors d := MemoryDisk_read_sectors (fi_inner d);
  write_sectors := FaultInjectionDisk_write_sectors;
  total_sector_count d := md_total_sectors (fi_inner d);
}.

(** ** FileBlockDevice: a disk image of the host

    [File::read_at] may return fewer bytes than asked at the end of the file;
    [File::write_at] past the end extends the file (with zeros in the gap). *)

Record FileBlockDevice := { fd_file : list Z; fd_total_sector_count : Z }.

Definition file_read_at (file : list Z) (byte_offset byte_count : Z) : list Z :=
  take (Z.to_nat byte_count) (drop (Z.to_nat byte_offset) file).

Definition file_write_at (file : list Z) (byte_offset : Z) (src : list Z) : list Z :=
  let padded := file ++ zeros (byte_offset + len src - len file) in
  splice padded byte_offset src.

(** [FileBlockDevice::open] on an image of the given bytes; [None] is the
    [InvalidData] error. *)
Definition FileBlockDevice_open (file : list Z) : option FileBlockDevice :=
  if negb (len file mod 512 =? 0) then None
  else Some {| fd_file := file; fd_total_sector_count := len file / 512 |}.

Definition FileBlockDevice_read_sectors (d : FileBlockDevice) (start_lba sector_count : Z)
    (destination_buffer : list Z) : result (bool * list Z) :=
  let? byte_offset := checked_mul 64 start_lba 512 in
  let byte_count := sector_count * 512 in
  if len destination_buffer <? byte_count then Panic
  else
    let s := file_read_at (fd_file d) byte_offset byte_count in
    Ok (len s =? byte_count, s ++ drop (length s) destination_buffer).

Definition FileBlockDevice_write_sectors (d : FileBlockDevice) (start_lba sector_count : Z)
    (source_buffer : list Z) : FileBlockDevice * result bool :=
  match (let? byte_offset := checked_mul (E:=BafsError) 64 start_lba 512 in
         let? s := get_slice source_buffer 0 (sector_count * 512) in Ok (byte_offset, s)) with
  | Ok (byte_offset, s) =>
      ({| fd_file := file_write_at (fd_file d) byte_offset s;
          fd_total_sector_count := fd_total_sector_count d |}, Ok true)
  | _ => (d, Panic)
  end.

#[global] Instance FileBlockDevice_BlockDevice : BlockDevice FileBlockDevice := {
  read_sectors := FileBlockDevice_read_sectors;
  write_sectors := FileBlockDevice_write_sectors;
  total_sector_count := fd_total_sector_count;
}.

(** ** The implementations satisfy the laws *)

Lemma md_range_Ok lba n :
  0 <= lba -> 0 <= n -> (lba + n) * 512 < 2 ^ 64 ->
  md_range lba n = Ok (lba * 512, n * 512, lba * 512 + n * 512).
Proof.
  intros. unfold md_range. rewrite checked_mul_Ok by lia. simpl.
  rewrite checked_mul_Ok by lia. simpl. by rewrite checked_add_Ok by lia.
Qed.

Lemma md_range_inv lba n a b c :
  md_range lba n = Ok (a, b, c) -> a = lba * 512 /\ b = n * 512 /\ c = lba * 512 + n * 512.
Proof.
  unfold md_range. intros (x & [-> _]%checked_mul_inv & Hr)%obind_Ok.
  apply obind_Ok in Hr as (y & [-> _]%checked_mul_inv & Hr).
  apply obind_Ok in Hr as (z & [-> _]%checked_add_inv & Hr). by simplify_eq.
Qed.

Lemma put_slice_prefix {E} buf src :
  len src <= len buf -> put_slice (E:=E) buf 0 src = Ok (src ++ drop (length src) buf).
Proof.
  intros. unfold put_slice, splice. repeat case_bool. by rewrite Z.add_0_l, Nat2Z.id.
Qed.

Lemma splice_lookup_outside l off src (i : nat) :
  0 <= off -> off + len src <= len l -> (Z.of_nat i < off \/ off + len src <= Z.of_nat i) ->
  splice l off src !! i = l !! i.
Proof.
  intros Ho Hr Hi. unfold splice. destruct Hi.
  - rewrite lookup_app_l by solve_len. by rewrite lookup_take_lt by lia.
  - rewrite lookup_app_r by solve_len. rewrite lookup_app_r by solve_len.
    rewrite lookup_drop, length_take. f_equal. lia.
Qed.

#[global] Program Instance MemoryDisk_laws : BlockDeviceLaws MemoryDisk := {
  content := md_data;
  device_up d := len (md_data d) < 2 ^ 64;
}.
Next Obligation.
  intros d lba n buffer buffer' Hl Hn Hb Hr. simpl in Hr. unfold MemoryDisk_read_sectors in Hr.
  apply obind_Ok in Hr as ([[a b] c] & (-> & -> & ->)%md_range_inv & Hr).
  case_match; [done|]. apply obind_Ok in Hr as (s & Hs & Hr).
  apply obind_Ok in Hr as (dest & Hd & [= <-]).
  pose proof (get_slice_length _ _ _ _ Hs).
  rewrite put_slice_prefix in Hd by lia. injection Hd as <-.
  exists s. split; [done|]. do 2 f_equal. lia.
Qed.
Next Obligation.
  intros d lba n buffer Hup Hl Hn Hb Hr. simpl in *. unfold MemoryDisk_read_sectors.
  rewrite md_range_Ok by lia. simpl. case_bool.
  rewrite get_slice_Ok by lia. simpl. rewrite put_slice_prefix by solve_len. eauto.
Qed.
Next Obligation.
  intros d lba n buffer d' Hl Hn Hb Hr Hw. simpl in Hw. unfold MemoryDisk_write_sectors in Hw.
  destruct (md_range lba n) as [[[a b] c]| | |] eqn:Hm; try done.
  apply md_range_inv in Hm as (-> & -> & ->). revert Hw. case_bool.
  rewrite get_slice_Ok by lia. simpl. rewrite drop_0.
  destruct (put_slice (md_data d) (lba * 512) (take (Z.to_nat (n * 512)) buffer)) eqn:Hp;
    intros [= <-]. done.
Qed.
Next Obligation.
  intros d lba n buffer Hup Hl Hn Hb Hr. simpl in *. unfold MemoryDisk_write_sectors.
  rewrite md_range_Ok by lia. case_bool. rewrite get_slice_Ok by lia. simpl. rewrite drop_0.
  destruct (put_slice (E:=BafsError) (md_data d) (lba * 512) (take (Z.to_nat (n * 512)) buffer))
    as [data| | |] eqn:Hp.
  1: { eexists. split; [done|]. simpl. by rewrite (put_slice_length _ _ _ _ Hp). }
  all: revert Hp; unfold put_slice; rewrite length_take; repeat case_bool; done.
Qed.
Next Obligation.
  intros d lba n buffer d' r Hl Hn Hw Hne. simpl in Hw. unfold MemoryDisk_write_sectors in Hw.
  repeat case_match; simplify_eq; done.
Qed.

#[global] Program Instance FaultInjectionDisk_laws : BlockDeviceLaws FaultInjectionDisk := {
  content d := md_data (fi_inner d);
  device_up d := fi_countdown d = None /\ len (md_data (fi_inner d)) < 2 ^ 64;
}.
Next Obligation. intros d lba n buffer buffer'. exact (read_true (fi_inner d) lba n buffer buffer'). Qed.
Next Obligation.
  intros d lba n buffer [_ Hup]. exact (read_up (fi_inner d) lba n buffer Hup).
Qed.
Next Obligation.
  intros d lba n buffer d' Hl Hn Hb Hr Hw. simpl in *. unfold FaultInjectionDisk_write_sectors in Hw.
  repeat case_match; simplify_eq/=;
    by match goal with Hm : _ = (?m, Ok true) |- _ =>
      exact (write_true (fi_inner d) lba n buffer m Hl Hn Hb Hr Hm) end.
Qed.
Next Obligation.
  intros d lba n buffer [Hc Hup] Hl Hn Hb Hr. simpl in *. unfold FaultInjectionDisk_write_sectors.
  rewrite Hc. destruct (write_up (fi_inner d) lba n buffer) as (d' & Hw & Hup');
    [done..|]. simpl in Hw. rewrite Hw. eauto.
Qed.
Next Obligation.
  intros d lba n buffer d' r Hl Hn Hw Hne. simpl in *. unfold FaultInjectionDisk_write_sectors in Hw.
  repeat case_match; simplify_eq/=; try done;
    by match goal with Hm : _ = (?m, ?r) |- _ =>
      exact (write_false (fi_inner d) lba n buffer m r Hl Hn Hm Hne) end.
Qed.

Lemma file_write_at_in_range file off src :
  0 <= off -> off + len src <= len file -> file_write_at file off src = splice file off src.
Proof.
  intros. unfold file_write_at. by rewrite zeros_nonpos, app_nil_r by lia.
Qed.

#[global] Program Instance FileBlockDevice_laws : BlockDeviceLaws FileBlockDevice := {
  content := fd_file;
  device_up d := len (fd_file d) < 2 ^ 64;
}.
Next Obligation.
  intros d lba n buffer buffer' Hl Hn Hb Hr. simpl in Hr. unfold FileBlockDevice_read_sectors in Hr.
  apply obind_Ok in Hr as (off & [-> Ho]%checked_mul_inv & Hr).
  revert Hr. case_bool. intros [= Hlen <-]. apply Z.eqb_eq in Hlen.
  unfold file_read_at in *. rewrite length_take, length_drop in Hlen.
  rewrite get_slice_Ok by lia. eexists. split; [done|]. rewrite length_take, length_drop.
  do 2 f_equal. lia.
Qed.
Next Obligation.
  intros d lba n buffer Hup Hl Hn Hb Hr. simpl in *. unfold FileBlockDevice_read_sectors.
  rewrite checked_mul_Ok by lia. simpl. case_bool. unfold file_read_at.
  eexists. do 2 f_equal. apply Z.eqb_eq. rewrite length_take, length_drop. lia.
Qed.
Next Obligation.
  intros d lba n buffer d' Hl Hn Hb Hr Hw. simpl in *. unfold FileBlockDevice_write_sectors in Hw.
  unfold checked_mul in Hw. revert Hw. case_bool; [|by intros [=]].
  cbn [obind]. rewrite get_slice_Ok by lia. simpl. rewrite drop_0. intros [= <-]. simpl.
  unfold put_slice. rewrite length_take. repeat case_bool.
  by rewrite file_write_at_in_range by (rewrite ?length_take; lia).
Qed.
Next Obligation.
  intros d lba n buffer Hup Hl Hn Hb Hr. simpl in *. unfold FileBlockDevice_write_sectors.
  rewrite checked_mul_Ok by lia. cbn [obind]. rewrite get_slice_Ok by lia. simpl. rewrite drop_0.
  eexists. split; [done|]. simpl. rewrite file_write_at_in_range by (rewrite ?length_take; lia).
  unfold splice. rewrite !length_app, length_drop, !length_take. lia.
Qed.
Next Obligation.
  intros d lba n buffer d' r Hl Hn Hw Hne. simpl in *. unfold FileBlockDevice_write_sectors in Hw.
  repeat case_match; simplify_eq; done.
Qed.

(** ** Whole-block requests

    Every module of the crate reads and writes the device in 4 KiB blocks of
    eight sectors, with the same address computation and error. *)

Abbreviation BAFS_DEFAULT_BLOCK_SIZE_BYTES := 4096.
Abbreviation BAFS_SECTOR_SIZE_BYTES := 512.
Abbreviation BAFS_SECTORS_PER_BLOCK := 8.

Section block_io.
Context `{BlockDevice D}.

Definition device_read_block (device : D) (block_address : Z) : result (list Z) :=
  let buffer := zeros BAFS_DEFAULT_BLOCK_SIZE_BYTES in
  let? start_lba := checked_mul 64 block_address BAFS_SECTORS_PER_BLOCK in
  let? (ok, buffer) := read_sectors device start_lba BAFS_SECTORS_PER_BLOCK buffer in
  if negb ok then Err InputOutputError else Ok buffer.

Definition device_write_block (block_address : Z) (block_data : list Z) : ST D BafsError unit :=
  let! start_lba := st_lift (checked_mul 64 block_address BAFS_SECTORS_PER_BLOCK) in
  let! ok := fun device => write_sectors device start_lba BAFS_SECTORS_PER_BLOCK block_data in
  if negb ok then st_err InputOutputError else st_ret tt.
End block_io.

(** The block at [a] of a device's bytes. *)
Definition block_at (bytes : list Z) (a : Z) : list Z :=
  take (Z.to_nat 4096) (drop (Z.to_nat (a * 4096)) bytes).

Section block_io_laws.
Context `{BlockDeviceLaws D}.

(** Block [a] lies on the device. *)
Definition on_device (d : D) (a : Z) : Prop := 0 <= a /\ (a + 1) * 4096 <= len (content d).

Lemma device_read_block_Ok d a b :
  0 <= a -> device_read_block d a = Ok b -> b = block_at (content d) a.
Proof.
  intros Ha Hr. unfold device_read_block in Hr.
  apply obind_Ok in Hr as (lba & [-> Hl]%checked_mul_inv & Hr). apply obind_Ok in Hr as ([ok buf] & Hr & Hok).
  destruct ok; [|done]. injection Hok as <-.
  apply read_true in Hr as (s & Hs & ->); [|rewrite ?length_zeros; lia..].
  pose proof (get_slice_length _ _ _ _ Hs).
  rewrite drop_ge by (rewrite length_zeros; lia). rewrite app_nil_r.
  apply get_slice_inv in Hs as (_ & _ & _ & ->).
  unfold block_at. do 3 f_equal. lia.
Qed.

Lemma device_read_block_up d a :
  device_up d -> on_device d a -> a * 8 < 2 ^ 64 ->
  device_read_block d a = Ok (block_at (content d) a).
Proof.
  intros Hup [Ha Hr] Hw.
  destruct (read_up d (a * 8) 8 (zeros 4096)) as [buf Hb]; [done|rewrite ?length_zeros; lia..|].
  assert (device_read_block d a = Ok buf) as Hread.
  { unfold device_read_block. rewrite checked_mul_Ok by done. simpl. by rewrite Hb. }
  by rewrite Hread, <- (device_read_block_Ok d a buf).
Qed.

Lemma length_block_at d a : on_device d a -> len (block_at (content d) a) = 4096.
Proof. intros [??]. unfold block_at. rewrite length_take, length_drop. lia. Qed.

Lemma block_at_splice_eq bytes a data :
  0 <= a -> len data = 4096 -> (a + 1) * 4096 <= len bytes ->
  block_at (splice bytes (a * 4096) data) a = data.
Proof.
  intros. unfold block_at, splice.
  rewrite drop_app_length' by (rewrite length_take; lia).
  apply take_app_length'. lia.
Qed.

Lemma block_at_splice_ne bytes a b data :
  0 <= a -> 0 <= b -> a <> b -> len data = 4096 -> (a + 1) * 4096 <= len bytes ->
  block_at (splice bytes (a * 4096) data) b = block_at bytes b.
Proof.
  intros. unfold block_at. apply list_eq. intros i.
  destruct (decide (i < Z.to_nat 4096)%nat); [|by rewrite !lookup_take_ge by lia].
  rewrite !lookup_take_lt, !lookup_drop by lia. apply splice_lookup_outside; lia.
Qed.

(** A block write on a device that is up replaces that block and no other. *)
Lemma device_write_block_up d a data :
  device_up d -> on_device d a -> a * 8 < 2 ^ 64 -> len data = 4096 ->
  exists d', device_write_block a data d = (d', Ok tt) /\ device_up d'
    /\ content d' = splice (content d) (a * 4096) data.
Proof.
  intros Hup [Ha Hr] Hw Hd.
  destruct (write_up d (a * 8) 8 data) as (d' & Hwr & Hup'); [done|lia..|].
  exists d'. split; [|split; [done|]].
  - unfold device_write_block. rewrite (st_bind_lift _ _ _ (a * 8)) by by apply checked_mul_Ok.
    by rewrite (st_bind_Ok _ _ _ _ _ Hwr).
  - apply write_true in Hwr; [|lia..]. rewrite take_ge in Hwr by lia.
    unfold put_slice in Hwr. case_match; [|done]. injection Hwr as <-. f_equal. lia.
Qed.

Lemma length_content_write d a data d' :
  on_device d a -> len data = 4096 -> content d' = splice (content d) (a * 4096) data ->
  length (content d') = length (content d).
Proof.
  intros [??] ? ->. unfold splice. rewrite !length_app, length_take, length_drop. lia.
Qed.
End block_io_laws.
