(* ===== verification/Superblock.v ===== *)
(** * Superblock: src/src/superblock.rs

    The 512-byte superblock, its serialisation and checksum, its two copies on
    the device, and the layout arithmetic of a volume. *)

From S2P Require Import Prelude Checksum Device.

(** ** Constants *)

(** b"BAFS\x1B\x00\x00\x00" *)
Definition BAFS_MAGIC_NUMBER : list Z := [66; 65; 70; 83; 27; 0; 0; 0].
Definition BAFS_SUPPORTED_VERSION : Z := 1.
Definition BAFS_PRIMARY_SUPERBLOCK_BLOCK_ADDRESS : Z := 1.
Definition BAFS_BACKUP_SUPERBLOCK_BLOCK_ADDRESS : Z := 2.
Definition BAFS_JOURNAL_START_BLOCK_ADDRESS : Z := 3.
Definition BAFS_JOURNAL_SIZE_MIN_BLOCKS : Z := 256.
Definition BAFS_JOURNAL_SIZE_MAX_BLOCKS : Z := 16384.
Definition BAFS_CHECKSUM_ALGORITHM_CRC32C : Z := 0.
Definition BAFS_ROOT_INODE_NUMBER : Z := 1.
Definition BAFS_FREE_EXTENT_OBJECT_ID : Z := 0xFFFFFFFFFFFFFFFE.
Definition BAFS_CHECKSUM_OBJECT_ID : Z := 0xFFFFFFFFFFFFFFFD.

(** ** Layout arithmetic *)

Definition compute_journal_size_in_blocks (total_block_count : Z) : Z :=
  let one_percent_of_total := total_block_count / 100 in
  Z.min (Z.max one_percent_of_total BAFS_JOURNAL_SIZE_MIN_BLOCKS) BAFS_JOURNAL_SIZE_MAX_BLOCKS.

Definition compute_data_area_start_block (total_block_count : Z) : Z :=
  BAFS_JOURNAL_START_BLOCK_ADDRESS + compute_journal_size_in_blocks total_block_count.

(** ** The structure *)

Record BafsSuperblock := {
  sb_magic_number : list Z;
  sb_version : Z;
  sb_block_size_in_bytes : Z;
  sb_total_block_count : Z;
  sb_free_block_count : Z;
  sb_allocated_inode_count : Z;
  sb_last_committed_transaction_id : Z;
  sb_root_inode_number : Z;
  sb_inode_tree_root_block : Z;
  sb_free_extent_tree_root_block : Z;
  sb_checksum_tree_root_block : Z;
  sb_journal_start_block : Z;
  sb_journal_size_in_blocks : Z;
  sb_volume_uuid : list Z;
  sb_volume_label : list Z;
  sb_feature_flags : Z;
  sb_checksum_algorithm : Z;
  sb_next_cow_block_address : Z;
  sb_reserved : list Z;
  sb_superblock_checksum : Z;
}.

(** Field updates. *)
Definition sb_set_checksum (sb : BafsSuperblock) (c : Z) : BafsSuperblock :=
  {| sb_magic_number := sb_magic_number sb; sb_version := sb_version sb;
     sb_block_size_in_bytes := sb_block_size_in_bytes sb;
     sb_total_block_count := sb_total_block_count sb;
     sb_free_block_count := sb_free_block_count sb;
     sb_allocated_inode_count := sb_allocated_inode_count sb;
     sb_last_committed_transaction_id := sb_last_committed_transaction_id sb;
     sb_root_inode_number := sb_root_inode_number sb;
     sb_inode_tree_root_block := sb_inode_tree_root_block sb;
     sb_free_extent_tree_root_block := sb_free_extent_tree_root_block sb;
     sb_checksum_tree_root_block := sb_checksum_tree_root_block sb;
     sb_journal_start_block := sb_journal_start_block sb;
     sb_journal_size_in_blocks := sb_journal_size_in_blocks sb;
     sb_volume_uuid := sb_volume_uuid sb; sb_volume_label := sb_volume_label sb;
     sb_feature_flags := sb_feature_flags sb; sb_checksum_algorithm := sb_checksum_algorithm sb;
     sb_next_cow_block_address := sb_next_cow_block_address sb;
     sb_reserved := sb_reserved sb; sb_superblock_checksum := c |}.

(** The bytes of the [repr(C)] struct in memory on a little-endian host: the
    fields in order, without padding (the source asserts the size is 512). *)
Definition superblock_header_bytes (sb : BafsSuperblock) : list Z :=
  sb_magic_number sb
  ++ le_bytes 4 (sb_version sb)
  ++ le_bytes 4 (sb_block_size_in_bytes sb)
  ++ le_bytes 8 (sb_total_block_count sb)
  ++ le_bytes 8 (sb_free_block_count sb)
  ++ le_bytes 8 (sb_allocated_inode_count sb)
  ++ le_bytes 8 (sb_last_committed_transaction_id sb)
  ++ le_bytes 8 (sb_root_inode_number sb)
  ++ le_bytes 8 (sb_inode_tree_root_block sb)
  ++ le_bytes 8 (sb_free_extent_tree_root_block sb)
  ++ le_bytes 8 (sb_checksum_tree_root_block sb)
  ++ le_bytes 8 (sb_journal_start_block sb)
  ++ le_bytes 8 (sb_journal_size_in_blocks sb)
  ++ concat (le_bytes 8 <$> sb_volume_uuid sb)
  ++ concat (le_bytes 8 <$> sb_volume_label sb)
  ++ le_bytes 4 (sb_feature_flags sb)
  ++ le_bytes 4 (sb_checksum_algorithm sb)
  ++ le_bytes 8 (sb_next_cow_block_address sb)
  ++ sb_reserved sb.

Definition serialise_superblock_to_bytes (sb : BafsSuperblock) : list Z :=
  superblock_header_bytes sb ++ le_bytes 4 (sb_superblock_checksum sb).

Definition deserialise_superblock_from_bytes (bytes : list Z) : BafsSuperblock :=
  let '(magic, l) := next_bytes 8 bytes in
  let '(version, l) := next_le 4 l in
  let '(block_size, l) := next_le 4 l in
  let '(total, l) := next_le 8 l in
  let '(free, l) := next_le 8 l in
  let '(inodes, l) := next_le 8 l in
  let '(txid, l) := next_le 8 l in
  let '(root_ino, l) := next_le 8 l in
  let '(inode_root, l) := next_le 8 l in
  let '(free_root, l) := next_le 8 l in
  let '(checksum_root, l) := next_le 8 l in
  let '(journal_start, l) := next_le 8 l in
  let '(journal_size, l) := next_le 8 l in
  let '(uuid, l) := next_les 2 8 l in
  let '(label, l) := next_les 4 8 l in
  let '(features, l) := next_le 4 l in
  let '(algorithm, l) := next_le 4 l in
  let '(next_cow, l) := next_le 8 l in
  let '(reserved, l) := next_bytes 348 l in
  let '(checksum, _) := next_le 4 l in
  {| sb_magic_number := magic; sb_version := version; sb_block_size_in_bytes := block_size;
     sb_total_block_count := total; sb_free_block_count := free;
     sb_allocated_inode_count := inodes; sb_last_committed_transaction_id := txid;
     sb_root_inode_number := root_ino; sb_inode_tree_root_block := inode_root;
     sb_free_extent_tree_root_block := free_root; sb_checksum_tree_root_block := checksum_root;
     sb_journal_start_block := journal_start; sb_journal_size_in_blocks := journal_size;
     sb_volume_uuid := uuid; sb_volume_label := label; sb_feature_flags := features;
     sb_checksum_algorithm := algorithm; sb_next_cow_block_address := next_cow;
     sb_reserved := reserved; sb_superblock_checksum := checksum |}.

(** [BafsSuperblock::compute_checksum]: the first 508 bytes of the struct. *)
Definition compute_checksum (sb : BafsSuperblock) : Z :=
  compute_crc32c (take 508 (serialise_superblock_to_bytes sb)).

Definition seal_with_checksum (sb : BafsSuperblock) : BafsSuperblock :=
  sb_set_checksum sb (compute_checksum sb).

Definition verify_checksum (sb : BafsSuperblock) : bool :=
  verify_crc32c (take 508 (serialise_superblock_to_bytes sb)) (sb_superblock_checksum sb).

(** ** Device I/O *)

Section superblock_io.
Context `{BlockDevice D}.

Definition read_superblock_from_device (device : D) (block_address : Z) : result BafsSuperblock :=
  let? block_buffer := device_read_block device block_address in
  let? superblock_bytes := get_slice block_buffer 0 512 in
  let superblock := deserialise_superblock_from_bytes superblock_bytes in
  if negb (bool_decide (sb_magic_number superblock = BAFS_MAGIC_NUMBER)) then Err InvalidMagicNumber
  else if negb (sb_version superblock =? BAFS_SUPPORTED_VERSION) then
    Err (UnsupportedVersion (sb_version superblock))
  else if negb (verify_checksum superblock) then Err (InvalidChecksum block_address)
  else Ok superblock.

(** [write_at_block], the closure of [write_superblock_to_device]. *)
Definition write_superblock_at (serialised : list Z) (block_address : Z) : ST D BafsError unit :=
  let! block_buffer := st_lift (put_slice (zeros BAFS_DEFAULT_BLOCK_SIZE_BYTES) 0 serialised) in
  device_write_block block_address block_buffer.

(** The state is the device and the caller's [&mut superblock], which stays
    sealed even when a write fails. *)
Definition write_superblock_to_device : ST (D * BafsSuperblock) BafsError unit :=
  let! _ := st_modify (fun '(device, superblock) => (device, seal_with_checksum superblock)) in
  let! (_, superblock) := st_get in
  let serialised := serialise_superblock_to_bytes superblock in
  st_zoom fst (fun s device => (device, s.2))
    (let! _ := write_superblock_at serialised BAFS_BACKUP_SUPERBLOCK_BLOCK_ADDRESS in
     write_superblock_at serialised BAFS_PRIMARY_SUPERBLOCK_BLOCK_ADDRESS).
End superblock_io.

(** ** Well-formed superblocks: every field at its width *)

Record sb_wf (sb : BafsSuperblock) : Prop := {
  wf_magic : bytes_ok (sb_magic_number sb) /\ length (sb_magic_number sb) = 8%nat;
  wf_version : is_u32 (sb_version sb);
  wf_block_size : is_u32 (sb_block_size_in_bytes sb);
  wf_total : is_u64 (sb_total_block_count sb);
  wf_free : is_u64 (sb_free_block_count sb);
  wf_inodes : is_u64 (sb_allocated_inode_count sb);
  wf_txid : is_u64 (sb_last_committed_transaction_id sb);
  wf_root_ino : is_u64 (sb_root_inode_number sb);
  wf_inode_root : is_u64 (sb_inode_tree_root_block sb);
  wf_free_root : is_u64 (sb_free_extent_tree_root_block sb);
  wf_checksum_root : is_u64 (sb_checksum_tree_root_block sb);
  wf_journal_start : is_u64 (sb_journal_start_block sb);
  wf_journal_size : is_u64 (sb_journal_size_in_blocks sb);
  wf_uuid : Forall is_u64 (sb_volume_uuid sb) /\ length (sb_volume_uuid sb) = 2%nat;
  wf_label : Forall is_u64 (sb_volume_label sb) /\ length (sb_volume_label sb) = 4%nat;
  wf_features : is_u32 (sb_feature_flags sb);
  wf_algorithm : is_u32 (sb_checksum_algorithm sb);
  wf_next_cow : is_u64 (sb_next_cow_block_address sb);
  wf_reserved : bytes_ok (sb_reserved sb) /\ length (sb_reserved sb) = 348%nat;
  wf_checksum : is_u32 (sb_superblock_checksum sb);
}.

Lemma length_superblock_header sb : sb_wf sb -> length (superblock_header_bytes sb) = 508%nat.
Proof.
  intros []. unfold superblock_header_bytes. split_hyps.
  autorewrite with len. lia.
Qed.

Lemma superblock_header_bytes_ok sb : sb_wf sb -> bytes_ok (superblock_header_bytes sb).
Proof.
  intros []. unfold superblock_header_bytes. split_hyps.
  rewrite !bytes_ok_app. auto 30 with bytes.
Qed.

Lemma serialise_superblock_header sb :
  sb_wf sb -> take 508 (serialise_superblock_to_bytes sb) = superblock_header_bytes sb.
Proof.
  intros. unfold serialise_superblock_to_bytes. apply take_app_length'.
  by rewrite length_superblock_header.
Qed.

Lemma length_serialise_superblock sb :
  sb_wf sb -> length (serialise_superblock_to_bytes sb) = 512%nat.
Proof.
  intros. unfold serialise_superblock_to_bytes.
  by rewrite length_app, length_superblock_header, length_le_bytes.
Qed.

Lemma compute_checksum_u32 sb : sb_wf sb -> is_u32 (compute_checksum sb).
Proof.
  intros. unfold compute_checksum. rewrite serialise_superblock_header by done.
  by apply compute_crc32c_u32, superblock_header_bytes_ok.
Qed.

Lemma sb_wf_set_checksum sb c : sb_wf sb -> is_u32 c -> sb_wf (sb_set_checksum sb c).
Proof. intros [] ?. by constructor. Qed.

Lemma sb_wf_seal sb : sb_wf sb -> sb_wf (seal_with_checksum sb).
Proof. intros. apply sb_wf_set_checksum; auto using compute_checksum_u32. Qed.

Lemma seal_verifies sb : sb_wf sb -> verify_checksum (seal_with_checksum sb) = true.
Proof.
  intros Hwf. unfold verify_checksum.
  rewrite serialise_superblock_header by by apply sb_wf_seal. simpl.
  unfold compute_checksum. rewrite serialise_superblock_header by done.
  apply verify_crc32c_compute.
Qed.

Lemma deserialise_serialise_superblock sb :
  sb_wf sb -> deserialise_superblock_from_bytes (serialise_superblock_to_bytes sb) = sb.
Proof.
  intros []. split_hyps. unfold serialise_superblock_to_bytes, superblock_header_bytes.
  rewrite <- !app_assoc. rewrite <- (app_nil_r (le_bytes 4 (sb_superblock_checksum sb))).
  unfold deserialise_superblock_from_bytes. repeat next_field. by destruct sb.
Qed.

(** A concrete superblock, that of a freshly formatted 300-block volume. *)
Definition example_superblock : BafsSuperblock :=
  {| sb_magic_number := BAFS_MAGIC_NUMBER; sb_version := 1; sb_block_size_in_bytes := 4096;
     sb_total_block_count := 300; sb_free_block_count := 34; sb_allocated_inode_count := 1;
     sb_last_committed_transaction_id := 1; sb_root_inode_number := 1;
     sb_inode_tree_root_block := 262; sb_free_extent_tree_root_block := 265;
     sb_checksum_tree_root_block := 261; sb_journal_start_block := 3;
     sb_journal_size_in_blocks := 256; sb_volume_uuid := [0xBAF5000100000001; 0];
     sb_volume_label := [0x6C6F562053464142; 0x656D75; 0; 0]; sb_feature_flags := 0;
     sb_checksum_algorithm := 0; sb_next_cow_block_address := 266;
     sb_reserved := replicate 348 0; sb_superblock_checksum := 0 |}.

Lemma example_superblock_wf : sb_wf example_superblock.
Proof.
  constructor; try (simpl; ilia); split; try reflexivity;
    try (repeat constructor; ilia); apply Forall_replicate; ilia.
Qed.

(** Every 512-byte string is the image of the superblock read from it. *)
Lemma superblock_bytes_roundtrip bytes :
  bytes_ok bytes -> length bytes = 512%nat ->
  serialise_superblock_to_bytes (deserialise_superblock_from_bytes bytes) = bytes.
Proof.
  intros Hb Hlen. unfold deserialise_superblock_from_bytes. repeat parse_field.
  unfold serialise_superblock_to_bytes, superblock_header_bytes. simpl.
  assert (l0 = []) as ->.
  { apply nil_length_inv. autorewrite with len in Hlen. lia. }
  by rewrite app_nil_r, <- !app_assoc.
Qed.

(** A superblock survives its 512-byte encoding, and every string of 512 bytes
    is the encoding of the superblock read from it. *)
Lemma superblock_roundtrip sb bytes :
  sb_wf sb -> bytes_ok bytes -> length bytes = 512%nat ->
  deserialise_superblock_from_bytes (serialise_superblock_to_bytes sb) = sb
  /\ serialise_superblock_to_bytes (deserialise_superblock_from_bytes bytes) = bytes.
Proof. intros. auto using deserialise_serialise_superblock, superblock_bytes_roundtrip. Qed.

Lemma deserialise_superblock_wf bytes :
  bytes_ok bytes -> length bytes = 512%nat -> sb_wf (deserialise_superblock_from_bytes bytes).
Proof.
  intros Hb Hlen. unfold deserialise_superblock_from_bytes. repeat parse_field.
  by constructor.
Qed.

(** The block image of a sealed superblock. *)
Definition superblock_block (sb : BafsSuperblock) : list Z :=
  serialise_superblock_to_bytes (seal_with_checksum sb) ++ zeros 3584.

Lemma length_superblock_block sb : sb_wf sb -> len (superblock_block sb) = 4096.
Proof.
  intros. unfold superblock_block. rewrite length_app, length_serialise_superblock, length_zeros
    by by apply sb_wf_seal. lia.
Qed.

Section superblock_io_proofs.
Context `{BlockDeviceLaws D}.

Lemma write_superblock_at_eq sb a d :
  sb_wf sb ->
  write_superblock_at (serialise_superblock_to_bytes (seal_with_checksum sb)) a d
  = device_write_block a (superblock_block sb) d.
Proof.
  intros Hwf. unfold write_superblock_at.
  assert (length (serialise_superblock_to_bytes (seal_with_checksum sb)) = 512%nat) as Hl
    by by apply length_serialise_superblock, sb_wf_seal.
  rewrite (st_bind_lift _ _ _ (superblock_block sb)); [done|].
  rewrite put_slice_prefix by (rewrite length_zeros; lia). unfold superblock_block.
  do 2 f_equal. rewrite drop_zeros. f_equal. lia.
Qed.

(** Reading a block that holds a sealed superblock. *)
Lemma read_superblock_block d a sb :
  device_up d -> on_device d a -> a * 8 < 2 ^ 64 -> sb_wf sb ->
  sb_magic_number sb = BAFS_MAGIC_NUMBER -> sb_version sb = BAFS_SUPPORTED_VERSION ->
  block_at (content d) a = superblock_block sb ->
  read_superblock_from_device d a = Ok (seal_with_checksum sb).
Proof.
  intros Hup Ha Hw Hwf Hm Hv Hblk. unfold read_superblock_from_device.
  rewrite device_read_block_up, Hblk by done. cbn [obind]. unfold superblock_block.
  assert (sb_wf (seal_with_checksum sb)) as Hwf' by by apply sb_wf_seal.
  rewrite get_slice_prefix by by rewrite length_serialise_superblock.
  cbn [obind]. rewrite deserialise_serialise_superblock by done.
  change (sb_magic_number (seal_with_checksum sb)) with (sb_magic_number sb).
  change (sb_version (seal_with_checksum sb)) with (sb_version sb).
  rewrite Hm, Hv, bool_decide_eq_true_2 by done. simpl. by rewrite seal_verifies.
Qed.
End superblock_io_proofs.

Section superblock_io_properties.
Context `{BlockDeviceLaws D}.

(** Writing both copies: what the device holds afterwards. *)
Lemma write_superblock_effect d sb :
  device_up d -> on_device d 2 -> sb_wf sb ->
  exists d', write_superblock_to_device (d, sb) = ((d', seal_with_checksum sb), Ok tt)
    /\ device_up d' /\ length (content d') = length (content d)
    /\ content d' = splice (splice (content d) (2 * 4096) (superblock_block sb))
                      (1 * 4096) (superblock_block sb).
Proof.
  intros Hup H2 Hwf.
  assert (on_device d 1) as H1 by (destruct H2; split; lia).
  pose proof (length_superblock_block sb Hwf) as Hlen.
  destruct (device_write_block_up d 2 (superblock_block sb)) as (d1 & Hw1 & Hup1 & Hc1);
    [done|done|lia|done|].
  pose proof (length_content_write _ _ _ _ H2 Hlen Hc1) as Hl1.
  assert (on_device d1 1) as H1' by (unfold on_device in *; rewrite Hl1; lia).
  destruct (device_write_block_up d1 1 (superblock_block sb)) as (d2 & Hw2 & Hup2 & Hc2);
    [done|done|lia|done|].
  pose proof (length_content_write _ _ _ _ H1' Hlen Hc2) as Hl2.
  exists d2. split; [|split; [done|split; [congruence|]]].
  - unfold write_superblock_to_device, st_modify, st_get. unfold st_bind at 1 2. cbn [fst snd].
    unfold st_zoom. cbn [fst snd].
    rewrite (st_bind_Ok _ _ _ d1 tt)
      by (by rewrite write_superblock_at_eq).
    unfold BAFS_PRIMARY_SUPERBLOCK_BLOCK_ADDRESS. by rewrite write_superblock_at_eq, Hw2.
  - by rewrite Hc2, Hc1.
Qed.

(** After [write_superblock_to_device] succeeds, both the primary copy
    (block 1) and the backup copy (block 2) read back as the sealed
    superblock, and no other block of the device has changed. *)
Theorem superblock_write_read d sb :
  device_up d -> on_device d 2 -> sb_wf sb ->
  sb_magic_number sb = BAFS_MAGIC_NUMBER -> sb_version sb = BAFS_SUPPORTED_VERSION ->
  exists d', write_superblock_to_device (d, sb) = ((d', seal_with_checksum sb), Ok tt)
    /\ read_superblock_from_device d' BAFS_PRIMARY_SUPERBLOCK_BLOCK_ADDRESS
       = Ok (seal_with_checksum sb)
    /\ read_superblock_from_device d' BAFS_BACKUP_SUPERBLOCK_BLOCK_ADDRESS
       = Ok (seal_with_checksum sb)
    /\ forall a, 0 <= a -> a <> 1 -> a <> 2 ->
       block_at (content d') a = block_at (content d) a.
Proof.
  intros Hup H2 Hwf Hm Hv.
  destruct (write_superblock_effect d sb) as (d' & Hw & Hup' & Hl & Hc); [done..|].
  pose proof (length_superblock_block sb Hwf) as Hlen.
  assert (len (splice (content d) (2 * 4096) (superblock_block sb)) = len (content d)) as Hls.
  { destruct H2. unfold splice. rewrite !length_app, length_take, length_drop. lia. }
  destruct H2 as [_ H2].
  unfold BAFS_PRIMARY_SUPERBLOCK_BLOCK_ADDRESS, BAFS_BACKUP_SUPERBLOCK_BLOCK_ADDRESS.
  exists d'. split; [done|]. split; [|split].
  - apply read_superblock_block; try done; [unfold on_device; rewrite Hl; lia|].
    rewrite Hc. apply block_at_splice_eq; lia.
  - apply read_superblock_block; try done; [unfold on_device; rewrite Hl; lia|].
    rewrite Hc, block_at_splice_ne by lia. apply block_at_splice_eq; lia.
  - intros a Ha H1a H2a. rewrite Hc, !block_at_splice_ne by lia. done.
Qed.

(** C28: a superblock block in which up to four consecutive bytes of the
    checksummed area were altered is never accepted: the read fails with a
    magic, version or checksum error. *)
Theorem corrupted_superblock_rejected d a sb pre good bad post :
  device_up d -> on_device d a -> a * 8 < 2 ^ 64 -> sb_wf sb ->
  superblock_header_bytes sb = pre ++ good ++ post ->
  bytes_ok bad -> length good = length bad -> (length good <= 4)%nat -> good <> bad ->
  block_at (content d) a
    = pre ++ bad ++ post ++ le_bytes 4 (compute_checksum sb) ++ zeros 3584 ->
  exists e, read_superblock_from_device d a = Err e
    /\ (e = InvalidMagicNumber \/ (exists v, e = UnsupportedVersion v)
        \/ e = InvalidChecksum a).
Proof.
  intros Hup Ha Hw Hwf Hsb Hbad Hlen H4 Hne Hblk. unfold read_superblock_from_device.
  rewrite device_read_block_up, Hblk by done. cbn [obind].
  pose proof (superblock_header_bytes_ok sb Hwf) as Hok. rewrite Hsb in Hok.
  pose proof (length_superblock_header sb Hwf) as Hhl. rewrite Hsb, !length_app in Hhl.
  set (hdr := pre ++ bad ++ post). set (ck := le_bytes 4 (compute_checksum sb)).
  assert (pre ++ bad ++ post ++ ck ++ zeros 3584 = (hdr ++ ck) ++ zeros 3584) as ->
    by (unfold hdr; by rewrite <- !app_assoc).
  assert (length hdr = 508%nat) as Hhdr by (unfold hdr; rewrite !length_app; lia).
  assert (length (hdr ++ ck) = 512%nat) as H512
    by (unfold ck; rewrite length_app, length_le_bytes; lia).
  rewrite get_slice_prefix by lia. cbn [obind].
  assert (bytes_ok hdr /\ bytes_ok ck) as [Hhok Hck].
  { unfold hdr, ck. rewrite !bytes_ok_app in *. auto with bytes. split_hyps. auto 10 with bytes. }
  assert (bytes_ok (hdr ++ ck)) as Hbok by by apply bytes_ok_app.
  assert (verify_checksum (deserialise_superblock_from_bytes (hdr ++ ck)) = false) as ->.
  { pose proof (superblock_bytes_roundtrip (hdr ++ ck) Hbok H512) as Hrt.
    unfold verify_checksum. rewrite Hrt, take_app_length' by done.
    assert (sb_superblock_checksum (deserialise_superblock_from_bytes (hdr ++ ck))
            = compute_checksum sb) as ->.
    { apply (f_equal (drop 508)) in Hrt. unfold serialise_superblock_to_bytes in Hrt.
      rewrite !drop_app_length' in Hrt
        by (rewrite ?length_superblock_header; auto using deserialise_superblock_wf).
      apply (f_equal le_val) in Hrt. unfold ck in Hrt.
      pose proof (wf_checksum _ (deserialise_superblock_wf (hdr ++ ck) Hbok H512)).
      pose proof (compute_checksum_u32 sb Hwf).
      by rewrite !le_val_bytes_id in Hrt. }
    unfold compute_checksum. rewrite serialise_superblock_header, Hsb by done.
    unfold verify_crc32c. apply Z.eqb_neq. by apply crc_burst_differs. }
  repeat case_match; simpl in *; try done; eauto 10.
Qed.
End superblock_io_properties.

(** ** Layout *)

(** The journal is between 256 and 16384 blocks, exactly one percent of the
    volume in between (25600 to 1638400 blocks), grows monotonically with the
    volume, and the data area starts right behind it. *)
Lemma journal_layout total :
  0 <= total ->
  256 <= compute_journal_size_in_blocks total <= 16384
  /\ (25600 <= total <= 1638400 -> compute_journal_size_in_blocks total = total / 100)
  /\ (forall total', total <= total' ->
        compute_journal_size_in_blocks total <= compute_journal_size_in_blocks total')
  /\ compute_data_area_start_block total
     = BAFS_JOURNAL_START_BLOCK_ADDRESS + compute_journal_size_in_blocks total.
Proof.
  intros Ht. unfold compute_data_area_start_block, compute_journal_size_in_blocks,
    BAFS_JOURNAL_SIZE_MIN_BLOCKS, BAFS_JOURNAL_SIZE_MAX_BLOCKS.
  split; [lia|]. split; [dlia|]. split; [|done].
  intros total' Hle. pose proof (Z.div_le_mono total total' 100). lia.
Qed.

(** A 256 MiB volume gets 655 journal blocks (2.6 MiB). *)
(** ** Witnesses *)

Definition example_disk : MemoryDisk := MemoryDisk_new 12288.

Lemma example_disk_up : device_up example_disk.
Proof. simpl. rewrite length_zeros. lia. Qed.

Lemma example_disk_on a : 0 <= a <= 2 -> on_device example_disk a.
Proof. intros. unfold on_device. simpl. rewrite length_zeros. lia. Qed.

Lemma superblock_write_read_witness :
  exists d', read_superblock_from_device (D:=MemoryDisk) d' 1 = Ok (seal_with_checksum example_superblock).
Proof.
  destruct (superblock_write_read example_disk example_superblock) as (d' & _ & Hr & _);
    [apply example_disk_up|apply example_disk_on; lia|apply example_superblock_wf
    |reflexivity|reflexivity|].
  exists d'. exact Hr.
Defined.

(** The first byte of the magic number changed from ['B'] to ['C']. *)
Definition corrupted_disk : MemoryDisk :=
  {| md_data := zeros 4096 ++ [67] ++ drop 1 (superblock_header_bytes example_superblock)
       ++ le_bytes 4 (compute_checksum example_superblock) ++ zeros 3584;
     md_total_sectors := 16 |}.

Lemma length_corrupted_disk : len (md_data corrupted_disk) = 8192.
Proof.
  unfold corrupted_disk. cbn [md_data]. autorewrite with len.
  rewrite (length_superblock_header _ example_superblock_wf). lia.
Qed.

Lemma corrupted_superblock_rejected_witness :
  exists e, read_superblock_from_device corrupted_disk 1 = Err e.
Proof.
  destruct (corrupted_superblock_rejected corrupted_disk 1 example_superblock []
              [66] [67] (drop 1 (superblock_header_bytes example_superblock))) as (e & He & _).
  - change (len (md_data corrupted_disk) < 2 ^ 64). rewrite length_corrupted_disk. lia.
  - change (0 <= 1 /\ (1 + 1) * 4096 <= len (md_data corrupted_disk)).
    rewrite length_corrupted_disk. lia.
  - lia.
  - apply example_superblock_wf.
  - reflexivity.
  - repeat constructor; ilia.
  - reflexivity.
  - simpl; lia.
  - discriminate.
  - unfold block_at. change (content corrupted_disk) with (md_data corrupted_disk).
    pose proof length_corrupted_disk as Hl. unfold corrupted_disk in *. cbn [md_data] in *.
    rewrite drop_app_length' by (rewrite length_zeros; lia).
    apply take_ge. autorewrite with len in *. lia.
  - exists e. exact He.
Defined.
