(* ===== verification/Node.v ===== *)
(** * Node: B-tree keys and the node codec of src/src/btree.rs

    Keys and their order, the in-memory node, [serialise_node_to_block] and
    [deserialise_node_from_block]; the round trip, the rejection of corrupted
    blocks, and that parsing an arbitrary block never panics. *)

From S2P Require Import Prelude Checksum Device.

(** ** Keys *)

Definition ITEM_TYPE_INODE : Z := 0x01.
Definition ITEM_TYPE_DIRECTORY_ENTRY : Z := 0x02.
Definition ITEM_TYPE_EXTENT_DATA : Z := 0x03.
Definition ITEM_TYPE_CHECKSUM_ENTRY : Z := 0x05.

(** [BafsKey], with its constructor [BafsKey::new]. *)
Record BafsKey := BafsKey_new { object_id : Z; item_type : Z; offset : Z }.

#[global] Instance BafsKey_eq_dec : EqDecision BafsKey.
Proof. solve_decision. Defined.

#[global] Program Instance BafsKey_countable : Countable BafsKey :=
  inj_countable' (fun k => (object_id k, item_type k, offset k))
    (fun '(o, t, f) => BafsKey_new o t f) _.
Next Obligation. by intros []. Qed.

(** The derived [Ord]: lexicographic in declaration order. *)
Definition key_compare (a b : BafsKey) : comparison :=
  match object_id a ?= object_id b with
  | Eq => match item_type a ?= item_type b with
          | Eq => offset a ?= offset b
          | c => c
          end
  | c => c
  end.

Definition key_ltb (a b : BafsKey) : bool := match key_compare a b with Lt => true | _ => false end.
Definition key_leb (a b : BafsKey) : bool := match key_compare a b with Gt => false | _ => true end.

(** [BafsKey::new(u64::MAX, u8::MAX, u64::MAX)] *)
Definition max_BafsKey : BafsKey := BafsKey_new (2 ^ 64 - 1) (2 ^ 8 - 1) (2 ^ 64 - 1).

Lemma key_compare_lex a b :
  match key_compare a b with
  | Lt => object_id a < object_id b
          \/ object_id a = object_id b /\ (item_type a < item_type b
             \/ item_type a = item_type b /\ offset a < offset b)
  | Eq => a = b
  | Gt => object_id b < object_id a
          \/ object_id a = object_id b /\ (item_type b < item_type a
             \/ item_type a = item_type b /\ offset b < offset a)
  end.
Proof.
  destruct a as [o t f], b as [o' t' f']. unfold key_compare. simpl.
  destruct (Z.compare_spec o o'); [|lia..]. destruct (Z.compare_spec t t'); [|lia..].
  destruct (Z.compare_spec f f'); [congruence|lia..].
Qed.

Definition key_lt (a b : BafsKey) : Prop := key_compare a b = Lt.
Definition key_le (a b : BafsKey) : Prop := key_compare a b <> Gt.

Lemma key_lt_lex a b :
  key_lt a b <-> object_id a < object_id b
        \/ object_id a = object_id b /\ (item_type a < item_type b
           \/ item_type a = item_type b /\ offset a < offset b).
Proof.
  unfold key_lt. pose proof (key_compare_lex a b) as Hc.
  destruct (key_compare a b); simpl in *; subst; split; intros; (done || lia).
Qed.

Lemma key_le_lteq a b : key_le a b <-> key_lt a b \/ a = b.
Proof.
  unfold key_le. pose proof (key_compare_lex a b) as Hc. unfold key_lt.
  destruct (key_compare a b) eqn:Hab; split; intros Hl; auto; try done.
  destruct Hl as [Hl | ->]; [done|]. lia.
Qed.

Lemma key_lt_or_le a b : key_lt a b \/ key_le b a.
Proof.
  pose proof (key_compare_lex a b) as Hc. rewrite key_le_lteq, !key_lt_lex.
  destruct (key_compare a b); subst; auto; lia.
Qed.

Lemma key_lt_irrefl a : ~ key_lt a a.
Proof. rewrite key_lt_lex. lia. Qed.
Lemma key_lt_trans a b c : key_lt a b -> key_lt b c -> key_lt a c.
Proof. rewrite !key_lt_lex. lia. Qed.
Lemma key_le_refl a : key_le a a.
Proof. apply key_le_lteq. auto. Qed.
Lemma key_lt_le a b : key_lt a b -> key_le a b.
Proof. intros. apply key_le_lteq. auto. Qed.
Lemma key_lt_le_trans a b c : key_lt a b -> key_le b c -> key_lt a c.
Proof. rewrite key_le_lteq. intros ? [ | <-]; eauto using key_lt_trans. Qed.
Lemma key_le_lt_trans a b c : key_le a b -> key_lt b c -> key_lt a c.
Proof. rewrite key_le_lteq. intros [ | ->]; eauto using key_lt_trans. Qed.
Lemma key_le_trans a b c : key_le a b -> key_le b c -> key_le a c.
Proof. rewrite !key_le_lteq. intros [ | ->] [ | ->]; eauto using key_lt_trans. Qed.
Lemma key_nlt_le a b : ~ key_lt a b -> key_le b a.
Proof. destruct (key_lt_or_le a b); done. Qed.
Lemma key_nle_lt a b : ~ key_le a b -> key_lt b a.
Proof. destruct (key_lt_or_le b a); done. Qed.
Lemma key_le_ne a b : key_le a b -> a <> b -> key_lt a b.
Proof. rewrite key_le_lteq. by intros []. Qed.
Lemma key_le_antisymm a b : key_le a b -> key_le b a -> a = b.
Proof.
  intros [Hab|Hab]%key_le_lteq Hba; [|done].
  destruct (key_lt_irrefl a). eauto using key_lt_le_trans.
Qed.

#[global] Instance key_lt_transitive : Transitive key_lt.
Proof. exact key_lt_trans. Qed.
#[global] Instance key_lt_irreflexive : Irreflexive key_lt.
Proof. exact key_lt_irrefl. Qed.

(** Decide goals about the order of keys: negate the goal, then close the
    context under transitivity until a key is below itself. *)
Ltac key_pose P pf :=
  lazymatch goal with
  | _ : P |- _ => fail
  | _ => pose proof (pf : P)
  end.
Ltac key_step :=
  match goal with
  | H : key_lt ?a ?a |- _ => destruct (key_lt_irrefl a H)
  | H : ~ key_lt ?a ?b |- _ => apply key_nlt_le in H
  | H : ~ key_le ?a ?b |- _ => apply key_nle_lt in H
  | H1 : key_le ?a ?b, H2 : ?a <> ?b |- _ => key_pose (key_lt a b) (key_le_ne a b H1 H2)
  | H1 : key_le ?a ?b, H2 : ?b <> ?a |- _ =>
      key_pose (key_lt a b) (key_le_ne a b H1 (not_eq_sym H2))
  | H1 : key_le ?a ?b, H2 : key_le ?b ?a |- _ =>
      pose proof (key_le_antisymm a b H1 H2); subst; clear H1 H2
  | H1 : key_lt ?a ?b, H2 : key_lt ?b ?c |- _ => key_pose (key_lt a c) (key_lt_trans a b c H1 H2)
  | H1 : key_lt ?a ?b, H2 : key_le ?b ?c |- _ =>
      key_pose (key_lt a c) (key_lt_le_trans a b c H1 H2)
  | H1 : key_le ?a ?b, H2 : key_lt ?b ?c |- _ =>
      key_pose (key_lt a c) (key_le_lt_trans a b c H1 H2)
  | H1 : key_le ?a ?b, H2 : key_le ?b ?c |- _ => key_pose (key_le a c) (key_le_trans a b c H1 H2)
  end.
Ltac key_order :=
  intros;
  lazymatch goal with
  | |- key_lt ?a ?b =>
      let Hg := fresh in destruct (key_lt_or_le a b) as [Hg|Hg]; [exact Hg|exfalso]
  | |- key_le ?a ?b =>
      let Hg := fresh in destruct (key_lt_or_le b a) as [Hg|Hg]; [exfalso|exact Hg]
  | |- ?a <> ?b => let Hg := fresh in intros Hg
  | |- ~ _ => let Hg := fresh in intros Hg
  | |- ?a = ?b :> BafsKey => apply key_le_antisymm; key_order
  | |- False => idtac
  | _ => exfalso
  end; subst; repeat key_step.

Lemma key_ltb_spec a b : reflect (key_lt a b) (key_ltb a b).
Proof. unfold key_ltb, key_lt. destruct (key_compare a b); constructor; congruence. Qed.

Lemma key_leb_spec a b : reflect (key_le a b) (key_leb a b).
Proof. unfold key_leb, key_le. destruct (key_compare a b); constructor; congruence. Qed.

Lemma key_compare_spec a b : CompareSpec (a = b) (key_lt a b) (key_lt b a) (key_compare a b).
Proof.
  pose proof (key_compare_lex a b) as Hc. destruct (key_compare a b) eqn:E; constructor; auto.
  apply key_lt_lex. lia.
Qed.

(** A key whose fields have their widths. *)
Definition key_wf (k : BafsKey) : Prop :=
  is_u64 (object_id k) /\ is_u8 (item_type k) /\ is_u64 (offset k).

(** ** Nodes *)

Definition NODE_HEADER_SIZE_BYTES : Z := 24.
Definition LEAF_ITEM_HEADER_SIZE_BYTES : Z := 25.
Definition INTERNAL_MAX_ITEMS : Z := 90.

Record BafsLeafItem := BafsLeafItem_new { li_key : BafsKey; li_value : list Z }.

Record BafsInternalItem := BafsInternalItem_new {
  ii_key : BafsKey;
  ii_child_block : Z;
  ii_child_generation : Z;
}.

Record BafsTreeNode := {
  node_checksum : Z;
  node_level : Z;
  node_flags : Z;
  node_item_count : Z;
  node_self_block_address : Z;
  node_generation : Z;
  node_leaf_items : list BafsLeafItem;
  node_internal_items : list BafsInternalItem;
}.

(** [leaf_items.iter().map(|item| item.value.len()).sum()] *)
Fixpoint total_value_bytes (leaf_items : list BafsLeafItem) : Z :=
  match leaf_items with
  | [] => 0
  | item :: rest => len (li_value item) + total_value_bytes rest
  end.

Definition leaf_serialised_size (leaf_items : list BafsLeafItem) : Z :=
  let headers_end := NODE_HEADER_SIZE_BYTES + len leaf_items * LEAF_ITEM_HEADER_SIZE_BYTES in
  headers_end + total_value_bytes leaf_items.

Definition leaf_node_would_overflow (leaf_items : list BafsLeafItem) : bool :=
  BAFS_DEFAULT_BLOCK_SIZE_BYTES <? leaf_serialised_size leaf_items.

(** ** Serialisation *)

(** The 17 bytes [serialise_key] stores. *)
Definition serialise_key (key : BafsKey) : list Z :=
  le_bytes 8 (object_id key) ++ [item_type key] ++ le_bytes 8 (offset key).

Definition deserialise_key (source : list Z) : result BafsKey :=
  let? object_id := get_le source 0 8 in
  let? item_type := get_byte source 8 in
  let? offset := get_le source 9 8 in
  Ok (BafsKey_new object_id item_type offset).

(** The loop over [internal_items]. *)
Fixpoint serialise_internal_items (buffer : list Z) (write_cursor : Z)
    (items : list BafsInternalItem) : result (list Z) :=
  match items with
  | [] => Ok buffer
  | item :: rest =>
      let? buffer := put_slice buffer write_cursor (serialise_key (ii_key item)) in
      let? buffer := put_slice buffer (write_cursor + 17) (le_bytes 8 (ii_child_block item)) in
      let? buffer := put_slice buffer (write_cursor + 25) (le_bytes 8 (ii_child_generation item)) in
      serialise_internal_items buffer (write_cursor + 33) rest
  end.

(** The loop over [leaf_items]: headers upward, values downward. *)
Fixpoint serialise_leaf_items (buffer : list Z) (header_cursor value_cursor : Z)
    (items : list BafsLeafItem) : result (list Z) :=
  match items with
  | [] => Ok buffer
  | item :: rest =>
      let value_size := len (li_value item) in
      let? value_cursor := checked_sub value_cursor value_size in
      let data_offset := wrap 32 value_cursor in
      let? buffer := put_slice buffer value_cursor (li_value item) in
      let? buffer := put_slice buffer header_cursor (serialise_key (li_key item)) in
      let? buffer := put_slice buffer (header_cursor + 17) (le_bytes 4 data_offset) in
      let? buffer := put_slice buffer (header_cursor + 21) (le_bytes 4 (wrap 32 value_size)) in
      serialise_leaf_items buffer (header_cursor + 25) value_cursor rest
  end.

Definition serialise_node_to_block (node : BafsTreeNode) : result (list Z) :=
  let buffer := zeros BAFS_DEFAULT_BLOCK_SIZE_BYTES in
  let? buffer := put_slice buffer 4 [node_level node] in
  let? buffer := put_slice buffer 5 [node_flags node] in
  let? buffer := put_slice buffer 6 (le_bytes 2 (node_item_count node)) in
  let? buffer := put_slice buffer 8 (le_bytes 8 (node_self_block_address node)) in
  let? buffer := put_slice buffer 16 (le_bytes 8 (node_generation node)) in
  let? buffer :=
    if 0 <? node_level node
    then serialise_internal_items buffer NODE_HEADER_SIZE_BYTES (node_internal_items node)
    else serialise_leaf_items buffer NODE_HEADER_SIZE_BYTES BAFS_DEFAULT_BLOCK_SIZE_BYTES
           (node_leaf_items node) in
  let checksum := compute_crc32c (drop 4 buffer) in
  put_slice buffer 0 (le_bytes 4 checksum).

(** ** Deserialisation *)

(** [&block_data[cursor..]] *)
Definition get_tail (buf : list Z) (cursor : Z) : result (list Z) :=
  get_slice buf cursor (len buf - cursor).

Fixpoint deserialise_internal_items (count : nat) (block_data : list Z) (read_cursor : Z)
    : result (list BafsInternalItem) :=
  match count with
  | O => Ok []
  | S count =>
      let? tail := get_tail block_data read_cursor in
      let? key := deserialise_key tail in
      let? child_block := get_le block_data (read_cursor + 17) 8 in
      let? child_generation := get_le block_data (read_cursor + 25) 8 in
      let? rest := deserialise_internal_items count block_data (read_cursor + 33) in
      Ok (BafsInternalItem_new key child_block child_generation :: rest)
  end.

Fixpoint deserialise_leaf_items (count : nat) (block_data : list Z) (header_cursor : Z)
    : result (list BafsLeafItem) :=
  match count with
  | O => Ok []
  | S count =>
      let? tail := get_tail block_data header_cursor in
      let? key := deserialise_key tail in
      let? data_offset := get_le block_data (header_cursor + 17) 4 in
      let? data_size := get_le block_data (header_cursor + 21) 4 in
      if BAFS_DEFAULT_BLOCK_SIZE_BYTES <? data_offset + data_size then Err CorruptedStructure
      else
        let? value := get_slice block_data data_offset data_size in
        let? rest := deserialise_leaf_items count block_data (header_cursor + 25) in
        Ok (BafsLeafItem_new key value :: rest)
  end.

Definition deserialise_node_from_block (block_data : list Z) (block_address : Z)
    : result BafsTreeNode :=
  let? stored_checksum := get_le block_data 0 4 in
  let? covered := get_tail block_data 4 in
  if negb (verify_crc32c covered stored_checksum) then Err (InvalidChecksum block_address)
  else
    let? level := get_byte block_data 4 in
    let? flags := get_byte block_data 5 in
    let? item_count := get_le block_data 6 2 in
    let? self_block_address := get_le block_data 8 8 in
    let? generation := get_le block_data 16 8 in
    let node leaf_items internal_items :=
      {| node_checksum := stored_checksum; node_level := level; node_flags := flags;
         node_item_count := item_count; node_self_block_address := self_block_address;
         node_generation := generation; node_leaf_items := leaf_items;
         node_internal_items := internal_items |} in
    if 0 <? level then
      if BAFS_DEFAULT_BLOCK_SIZE_BYTES <? NODE_HEADER_SIZE_BYTES + item_count * 33
      then Err CorruptedStructure
      else
        let? items := deserialise_internal_items (Z.to_nat item_count) block_data
                        NODE_HEADER_SIZE_BYTES in
        Ok (node [] items)
    else
      if BAFS_DEFAULT_BLOCK_SIZE_BYTES <? NODE_HEADER_SIZE_BYTES + item_count * 25
      then Err CorruptedStructure
      else
        let? items := deserialise_leaf_items (Z.to_nat item_count) block_data
                        NODE_HEADER_SIZE_BYTES in
        Ok (node items []).
