(* ===== verification/NodeCodec.v ===== *)
(** * NodeCodec: correctness of the node codec of src/src/btree.rs

    The byte layout [serialise_node_to_block] produces, the round trip through
    [deserialise_node_from_block], detection of corrupted blocks, and absence of
    panics when parsing an arbitrary block. *)

From S2P Require Import Prelude Checksum Device Superblock Node.

(** ** Well-formed nodes *)

Definition leaf_item_wf (item : BafsLeafItem) : Prop :=
  key_wf (li_key item) /\ bytes_ok (li_value item).

Definition internal_item_wf (item : BafsInternalItem) : Prop :=
  key_wf (ii_key item) /\ is_u64 (ii_child_block item) /\ is_u64 (ii_child_generation item).

(** Every field at its width, the count that of the items, and the items of the
    node's kind fitting into one block. *)
Record node_wf (n : BafsTreeNode) : Prop := {
  nwf_level : is_u8 (node_level n);
  nwf_flags : is_u8 (node_flags n);
  nwf_self : is_u64 (node_self_block_address n);
  nwf_generation : is_u64 (node_generation n);
  nwf_leaf : node_level n = 0 ->
    node_internal_items n = [] /\ node_item_count n = len (node_leaf_items n)
    /\ Forall leaf_item_wf (node_leaf_items n)
    /\ leaf_serialised_size (node_leaf_items n) <= 4096;
  nwf_internal : node_level n <> 0 ->
    node_leaf_items n = [] /\ node_item_count n = len (node_internal_items n)
    /\ Forall internal_item_wf (node_internal_items n)
    /\ 24 + 33 * len (node_internal_items n) <= 4096;
}.

(** ** Layout *)

Definition internal_item_bytes (item : BafsInternalItem) : list Z :=
  serialise_key (ii_key item) ++ le_bytes 8 (ii_child_block item)
  ++ le_bytes 8 (ii_child_generation item).

Fixpoint leaf_headers (value_cursor : Z) (items : list BafsLeafItem) : list Z :=
  match items with
  | [] => []
  | item :: rest =>
      let value_cursor := value_cursor - len (li_value item) in
      (serialise_key (li_key item) ++ le_bytes 4 value_cursor ++ le_bytes 4 (len (li_value item)))
      ++ leaf_headers value_cursor rest
  end.

Fixpoint leaf_values (items : list BafsLeafItem) : list Z :=
  match items with
  | [] => []
  | item :: rest => leaf_values rest ++ li_value item
  end.

Lemma length_serialise_key k : length (serialise_key k) = 17%nat.
Proof. unfold serialise_key. by autorewrite with len. Qed.

Lemma length_internal_item_bytes it : length (internal_item_bytes it) = 33%nat.
Proof.
  unfold internal_item_bytes. autorewrite with len. by rewrite length_serialise_key.
Qed.

Lemma length_internal_items_bytes its :
  length (concat (internal_item_bytes <$> its)) = (33 * length its)%nat.
Proof.
  induction its; csimpl; [done|]. rewrite length_app, length_internal_item_bytes, IHits. lia.
Qed.

Lemma length_leaf_headers vc its : length (leaf_headers vc its) = (25 * length its)%nat.
Proof.
  revert vc. induction its as [|it its IH]; intros vc; cbn [leaf_headers]; [done|].
  rewrite !length_app, IH, length_serialise_key, !length_le_bytes. simpl. lia.
Qed.

Lemma length_leaf_values its : len (leaf_values its) = total_value_bytes its.
Proof. induction its; simpl; [done|]. rewrite length_app. lia. Qed.

#[export] Hint Rewrite length_serialise_key length_internal_item_bytes length_internal_items_bytes
  length_leaf_headers : len.

Lemma total_value_bytes_nonneg its : 0 <= total_value_bytes its.
Proof. rewrite <- length_leaf_values. lia. Qed.

Lemma leaf_serialised_size_eq its :
  leaf_serialised_size its = 24 + 25 * len its + total_value_bytes its.
Proof.
  unfold leaf_serialised_size, NODE_HEADER_SIZE_BYTES, LEAF_ITEM_HEADER_SIZE_BYTES. lia.
Qed.

(** ** Writing into the zeroed gap of a buffer *)

Lemma put_gap_low pre g post off src :
  off = len pre -> len src <= g ->
  put_slice (E:=BafsError) (pre ++ zeros g ++ post) off src
  = Ok ((pre ++ src) ++ zeros (g - len src) ++ post).
Proof.
  intros -> Hg. replace g with (len src + (g - len src)) at 1 by lia.
  rewrite zeros_app, <- app_assoc by lia.
  rewrite (put_slice_app pre (zeros (len src))) by (rewrite ?length_zeros; lia).
  by rewrite <- app_assoc.
Qed.

Lemma put_gap_high pre g post off src :
  off = len pre + g - len src -> len src <= g ->
  put_slice (E:=BafsError) (pre ++ zeros g ++ post) off src
  = Ok (pre ++ zeros (g - len src) ++ src ++ post).
Proof.
  intros -> Hg. replace g with ((g - len src) + len src) at 1 by lia.
  rewrite zeros_app, <- app_assoc, app_assoc by lia.
  rewrite (put_slice_app _ (zeros (len src)))
    by (rewrite ?length_app, ?length_zeros; lia).
  by rewrite <- app_assoc.
Qed.

Lemma serialise_internal_items_layout pre g its :
  33 * len its <= g ->
  serialise_internal_items (pre ++ zeros g ++ []) (len pre) its
  = Ok ((pre ++ concat (internal_item_bytes <$> its)) ++ zeros (g - 33 * len its) ++ []).
Proof.
  revert pre g. induction its as [|it its IH]; intros pre g Hg; csimpl.
  { rewrite !app_nil_r. do 3 f_equal. lia. }
  cbn [length] in *.
  rewrite put_gap_low by (autorewrite with len; lia). cbn [obind].
  rewrite put_gap_low by (autorewrite with len; lia). cbn [obind].
  rewrite put_gap_low by (autorewrite with len; lia). cbn [obind].
  replace (len pre + 33)
    with (len (((pre ++ serialise_key (ii_key it)) ++ le_bytes 8 (ii_child_block it))
               ++ le_bytes 8 (ii_child_generation it)))
    by (autorewrite with len; lia).
  rewrite IH by (autorewrite with len; lia). do 2 f_equal.
  - unfold internal_item_bytes. by rewrite <- !app_assoc.
  - do 2 f_equal. autorewrite with len. lia.
Qed.

Lemma serialise_leaf_items_layout pre g post hc vc its :
  hc = len pre -> vc = len pre + g ->
  25 * len its + total_value_bytes its <= g -> len pre + g < 2 ^ 32 ->
  serialise_leaf_items (pre ++ zeros g ++ post) hc vc its
  = Ok ((pre ++ leaf_headers vc its)
        ++ zeros (g - 25 * len its - total_value_bytes its) ++ leaf_values its ++ post).
Proof.
  revert pre g post hc vc.
  induction its as [|it its IH]; intros pre g post hc vc Hhc Hvc Hg Hw; cbn [serialise_leaf_items].
  { simpl. rewrite app_nil_r. do 4 f_equal. lia. }
  cbn [length total_value_bytes leaf_headers leaf_values] in *.
  pose proof (total_value_bytes_nonneg its) as Hnn.
  rewrite checked_sub_Ok by lia. cbn [obind].
  rewrite put_gap_high by lia. cbn [obind].
  rewrite put_gap_low by (autorewrite with len; lia). cbn [obind].
  rewrite put_gap_low by (autorewrite with len; lia). cbn [obind].
  rewrite put_gap_low by (autorewrite with len; lia). cbn [obind].
  rewrite !wrap_small by lia. rewrite (IH _ _ _ _ _) by (autorewrite with len; lia).
  do 2 f_equal; [by rewrite <- !app_assoc|].
  f_equal; [f_equal; autorewrite with len; lia|by rewrite <- app_assoc].
Qed.

(** ** Reading a laid-out block back *)

Lemma get_tail_app pre tail cursor :
  cursor = len pre -> get_tail (pre ++ tail) cursor = Ok tail.
Proof.
  intros ->. unfold get_tail. rewrite <- (app_nil_r tail) at 1.
  apply get_slice_app; [done|]. rewrite length_app. lia.
Qed.

Lemma deserialise_serialise_key k rest :
  key_wf k -> deserialise_key (serialise_key k ++ rest) = Ok k.
Proof.
  intros (Ho & _ & Hf). unfold deserialise_key, serialise_key. rewrite <- !app_assoc.
  rewrite get_le_bytes_prefix by ilia. cbn [obind].
  rewrite get_byte_app by (autorewrite with len; lia). cbn [obind].
  rewrite (app_assoc (le_bytes 8 _)), get_le_bytes_app by (autorewrite with len; simpl; ilia).
  by destruct k.
Qed.

Lemma deserialise_internal_items_layout block pre its post cursor :
  block = pre ++ concat (internal_item_bytes <$> its) ++ post ->
  cursor = len pre -> Forall internal_item_wf its ->
  deserialise_internal_items (length its) block cursor = Ok its.
Proof.
  intros Hb Hc Hwf. revert pre cursor Hb Hc.
  induction Hwf as [|it its (Hk & Hcb & Hcg) Hwf IH]; intros pre cursor Hb ->; [done|].
  cbn [length deserialise_internal_items]. csimpl in *.
  set (k := serialise_key (ii_key it)). set (cb := le_bytes 8 (ii_child_block it)).
  set (cg := le_bytes 8 (ii_child_generation it)).
  set (rest := concat (internal_item_bytes <$> its) ++ post).
  assert (block = pre ++ k ++ (cb ++ cg ++ rest)) as H1 by (by rewrite Hb, <- !app_assoc).
  assert (block = (pre ++ k) ++ cb ++ (cg ++ rest)) as H2 by (by rewrite H1, <- !app_assoc).
  assert (block = (pre ++ k ++ cb) ++ cg ++ rest) as H3 by (by rewrite H1, <- !app_assoc).
  rewrite H1 at 1. rewrite get_tail_app by done. cbn [obind]. unfold k at 1.
  rewrite deserialise_serialise_key by done. cbn [obind].
  rewrite H2 at 1. unfold cb at 1. rewrite get_le_bytes_app by (unfold k; autorewrite with len; ilia).
  cbn [obind]. rewrite H3 at 1. unfold cg at 1.
  rewrite get_le_bytes_app by (unfold k, cb; autorewrite with len; ilia). cbn [obind].
  rewrite (IH (pre ++ k ++ cb ++ cg)); [by destruct it|by rewrite H1, <- !app_assoc|].
  unfold k, cb, cg. autorewrite with len. lia.
Qed.

Lemma deserialise_leaf_items_layout block pre its mid post vc cursor :
  block = pre ++ leaf_headers vc its ++ mid ++ leaf_values its ++ post ->
  cursor = len pre -> vc = len block - len post -> len block = 4096 ->
  Forall leaf_item_wf its ->
  deserialise_leaf_items (length its) block cursor = Ok its.
Proof.
  intros Hb Hc Hvc Hlen Hwf. revert pre vc cursor post Hb Hc Hvc.
  induction Hwf as [|it its [Hk _] Hwf IH]; intros pre vc cursor post Hb -> Hvc; [done|].
  cbn [length deserialise_leaf_items leaf_headers leaf_values] in *.
  set (vc' := vc - len (li_value it)) in *.
  set (k := serialise_key (li_key it)) in *. set (vo := le_bytes 4 vc') in *.
  set (vs := le_bytes 4 (len (li_value it))) in *.
  set (rest := leaf_headers vc' its ++ mid ++ leaf_values its ++ li_value it ++ post).
  assert (block = pre ++ k ++ (vo ++ vs ++ rest)) as H1
    by (unfold rest; by rewrite Hb, <- !app_assoc).
  assert (block = (pre ++ k) ++ vo ++ (vs ++ rest)) as H2 by (by rewrite H1, <- !app_assoc).
  assert (block = (pre ++ k ++ vo) ++ vs ++ rest) as H3 by (by rewrite H1, <- !app_assoc).
  assert (block = (pre ++ k ++ vo ++ vs) ++ rest) as H4 by (by rewrite H1, <- !app_assoc).
  assert (len block = len pre + (25 + 25 * len its) + len mid
                      + (total_value_bytes its + len (li_value it)) + len post) as Hl.
  { rewrite H4. unfold rest, k, vo, vs. autorewrite with len. rewrite <- length_leaf_values. lia. }
  pose proof (total_value_bytes_nonneg its).
  rewrite H1 at 1. rewrite get_tail_app by done. cbn [obind]. unfold k at 1.
  rewrite deserialise_serialise_key by done. cbn [obind].
  rewrite H2 at 1. unfold vo at 1. rewrite get_le_bytes_app by (unfold k; autorewrite with len; lia).
  cbn [obind]. rewrite H3 at 1. unfold vs at 1.
  rewrite get_le_bytes_app by (unfold k, vo; autorewrite with len; lia). cbn [obind].
  case_bool.
  assert (get_slice (E:=BafsError) block vc' (len (li_value it)) = Ok (li_value it)) as ->.
  { assert (block = (pre ++ k ++ vo ++ vs ++ leaf_headers vc' its ++ mid ++ leaf_values its)
                    ++ li_value it ++ post) as H5 by (by rewrite H4; unfold rest; rewrite <- !app_assoc).
    rewrite H5. apply get_slice_app; [|done].
    apply (f_equal (fun l => len l)) in H5. rewrite !length_app in *. lia. }
  cbn [obind]. rewrite (IH (pre ++ k ++ vo ++ vs) vc' _ (li_value it ++ post)); [by destruct it|done|..].
  - unfold k, vo, vs. autorewrite with len. lia.
  - rewrite length_app. lia.
Qed.

(** ** Whole blocks *)

Definition node_header (n : BafsTreeNode) : list Z :=
  [node_level n] ++ [node_flags n] ++ le_bytes 2 (node_item_count n)
  ++ le_bytes 8 (node_self_block_address n) ++ le_bytes 8 (node_generation n).

Definition node_body (n : BafsTreeNode) : list Z :=
  if 0 <? node_level n
  then concat (internal_item_bytes <$> node_internal_items n)
       ++ zeros (4072 - 33 * len (node_internal_items n))
  else leaf_headers 4096 (node_leaf_items n)
       ++ zeros (4072 - 25 * len (node_leaf_items n) - total_value_bytes (node_leaf_items n))
       ++ leaf_values (node_leaf_items n).

(** The bytes the node checksum covers. *)
Definition node_payload (n : BafsTreeNode) : list Z := node_header n ++ node_body n.

Definition node_block (n : BafsTreeNode) : list Z :=
  le_bytes 4 (compute_crc32c (node_payload n)) ++ node_payload n.

Lemma length_node_header n : length (node_header n) = 20%nat.
Proof. unfold node_header. by autorewrite with len. Qed.

Lemma length_node_body n : node_wf n -> length (node_body n) = 4072%nat.
Proof.
  intros [Hl _ _ _ Hleaf Hint]. unfold node_body. destruct (Z.ltb_spec 0 (node_level n)).
  - destruct Hint as (_ & _ & _ & Hs); [lia|]. autorewrite with len. lia.
  - destruct Hleaf as (_ & _ & _ & Hs); [ilia|]. rewrite leaf_serialised_size_eq in Hs.
    pose proof (total_value_bytes_nonneg (node_leaf_items n)).
    pose proof (length_leaf_values (node_leaf_items n)). autorewrite with len. lia.
Qed.

Lemma length_node_payload n : node_wf n -> length (node_payload n) = 4092%nat.
Proof.
  intros. unfold node_payload. by rewrite length_app, length_node_header, length_node_body.
Qed.

Lemma length_node_block n : node_wf n -> length (node_block n) = 4096%nat.
Proof.
  intros. unfold node_block. by rewrite length_app, length_le_bytes, length_node_payload.
Qed.

Lemma serialise_key_ok k : key_wf k -> bytes_ok (serialise_key k).
Proof.
  intros (_ & Ht & _). unfold serialise_key. rewrite !bytes_ok_app.
  auto with bytes.
Qed.
#[export] Hint Resolve serialise_key_ok : bytes.

Lemma internal_items_bytes_ok its :
  Forall internal_item_wf its -> bytes_ok (concat (internal_item_bytes <$> its)).
Proof.
  induction 1 as [|it its (Hk & _) _ IH]; csimpl; [constructor|].
  unfold internal_item_bytes. rewrite !bytes_ok_app. auto with bytes.
Qed.

Lemma leaf_headers_ok vc its : Forall leaf_item_wf its -> bytes_ok (leaf_headers vc its).
Proof.
  intros Hwf. revert vc. induction Hwf as [|it its [Hk _] _ IH]; intros; cbn [leaf_headers];
    [constructor|]. rewrite !bytes_ok_app. auto with bytes.
Qed.

Lemma leaf_values_ok its : Forall leaf_item_wf its -> bytes_ok (leaf_values its).
Proof.
  induction 1 as [|it its [_ Hv] _ IH]; cbn [leaf_values]; [constructor|]. by apply bytes_ok_app.
Qed.
#[export] Hint Resolve internal_items_bytes_ok leaf_headers_ok leaf_values_ok : bytes.

Lemma node_payload_ok n : node_wf n -> bytes_ok (node_payload n).
Proof.
  intros [Hl Hf _ _ Hleaf Hint]. unfold node_payload, node_header, node_body.
  rewrite !bytes_ok_app. repeat split; auto with bytes.
  destruct (Z.ltb_spec 0 (node_level n)).
  - destruct Hint as (_ & _ & ? & _); [lia|]. rewrite bytes_ok_app. auto with bytes.
  - destruct Hleaf as (_ & _ & ? & _); [ilia|]. rewrite !bytes_ok_app. auto with bytes.
Qed.

Lemma node_block_ok n : node_wf n -> bytes_ok (node_block n).
Proof. intros. apply bytes_ok_app. auto using node_payload_ok with bytes. Qed.

Lemma node_payload_crc_u32 n : node_wf n -> is_u32 (compute_crc32c (node_payload n)).
Proof. intros. by apply compute_crc32c_u32, node_payload_ok. Qed.

(** [serialise_node_to_block] produces the layout. *)
Lemma serialise_node_layout n : node_wf n -> serialise_node_to_block n = Ok (node_block n).
Proof.
  intros Hwf. pose proof (length_node_body n Hwf) as Hbody. destruct Hwf as [Hl _ _ _ Hleaf Hint].
  unfold serialise_node_to_block.
  change (zeros 4096) with (zeros 4 ++ zeros 4092 ++ []).
  do 5 (rewrite put_gap_low by (autorewrite with len; lia); cbn [obind]).
  set (pre := ((((zeros 4 ++ [node_level n]) ++ _) ++ _) ++ _) ++ _).
  assert (length pre = 24%nat) as Hpre by (unfold pre; by autorewrite with len).
  assert (pre = zeros 4 ++ node_header n) as Epre
    by (unfold pre, node_header; by rewrite <- !app_assoc).
  replace (4092 - _ - _ - _ - _ - _) with 4072 by (autorewrite with len; lia).
  clearbody pre.
  match goal with |- obind ?m _ = _ => assert (m = Ok (pre ++ node_body n)) as -> end.
  { unfold node_body, NODE_HEADER_SIZE_BYTES. destruct (Z.ltb_spec 0 (node_level n)).
    - destruct Hint as (_ & _ & _ & Hs); [lia|].
      replace 24 with (len pre) by lia. rewrite serialise_internal_items_layout by lia.
      by rewrite app_nil_r, <- app_assoc.
    - destruct Hleaf as (_ & _ & _ & Hs); [ilia|]. rewrite leaf_serialised_size_eq in Hs.
      rewrite serialise_leaf_items_layout by lia. by rewrite app_nil_r, <- app_assoc. }
  cbn [obind]. rewrite Epre, <- app_assoc. fold (node_payload n).
  rewrite drop_app_length' by (by rewrite length_zeros).
  apply (put_slice_app [] (zeros 4)); [done|]. by autorewrite with len.
Qed.

(** The node as it comes back: the checksum field holds the stored checksum. *)
Definition node_sealed (n : BafsTreeNode) : BafsTreeNode :=
  {| node_checksum := compute_crc32c (node_payload n); node_level := node_level n;
     node_flags := node_flags n; node_item_count := node_item_count n;
     node_self_block_address := node_self_block_address n; node_generation := node_generation n;
     node_leaf_items := node_leaf_items n; node_internal_items := node_internal_items n |}.

(** The header fields of a block that starts with a checksum and a node header. *)
Lemma node_header_fields ck n body :
  node_wf n -> length ck = 4%nat ->
  let block := ck ++ node_header n ++ body in
  get_byte (E:=BafsError) block 4 = Ok (node_level n)
  /\ get_byte (E:=BafsError) block 5 = Ok (node_flags n)
  /\ get_le (E:=BafsError) block 6 2 = Ok (node_item_count n)
  /\ get_le (E:=BafsError) block 8 8 = Ok (node_self_block_address n)
  /\ get_le (E:=BafsError) block 16 8 = Ok (node_generation n).
Proof.
  intros [Hl Hf Hs Hg Hleaf Hint] Hck block. unfold block, node_header. rewrite <- !app_assoc.
  assert (is_u16 (node_item_count n)).
  { destruct (decide (node_level n = 0)) as [H0|H0].
    - destruct (Hleaf H0) as (_ & -> & _ & Hsz). rewrite leaf_serialised_size_eq in Hsz.
      pose proof (total_value_bytes_nonneg (node_leaf_items n)). ilia.
    - destruct (Hint H0) as (_ & -> & _ & Hsz). ilia. }
  split; [apply get_byte_app; lia|]. rewrite (app_assoc ck).
  split; [apply get_byte_app; autorewrite with len; lia|]. rewrite (app_assoc (ck ++ _)).
  split; [apply get_le_bytes_app; autorewrite with len; ilia|]. rewrite (app_assoc (_ ++ _)).
  split; [apply get_le_bytes_app; autorewrite with len; ilia|]. rewrite (app_assoc (_ ++ _)).
  apply get_le_bytes_app; autorewrite with len; ilia.
Qed.

(** A laid-out block parses back to the node. *)
Lemma deserialise_node_layout n a :
  node_wf n -> deserialise_node_from_block (node_block n) a = Ok (node_sealed n).
Proof.
  intros Hwf. unfold deserialise_node_from_block.
  pose proof (node_payload_crc_u32 n Hwf). pose proof (length_node_block n Hwf) as Hlen.
  unfold node_block at 1. rewrite get_le_bytes_prefix by ilia. cbn [obind].
  unfold node_block at 1. rewrite get_tail_app by (by rewrite length_le_bytes). cbn [obind].
  rewrite verify_crc32c_compute. cbn [negb].
  set (ck := le_bytes 4 (compute_crc32c (node_payload n))).
  assert (length ck = 4%nat) as Hck by apply length_le_bytes.
  destruct (node_header_fields ck n (node_body n) Hwf Hck) as (E1 & E2 & E3 & E4 & E5).
  change (ck ++ node_header n ++ node_body n) with (node_block n) in *.
  rewrite E1, E2, E3, E4, E5. cbn [obind].
  assert (node_block n = (ck ++ node_header n) ++ node_body n) as Eb
    by (unfold node_block, node_payload; by rewrite <- app_assoc).
  assert (length (ck ++ node_header n) = 24%nat) as Hpre
    by (by rewrite length_app, Hck, length_node_header).
  destruct Hwf as [Hl _ _ _ Hleaf Hint]. unfold NODE_HEADER_SIZE_BYTES.
  unfold node_body in Eb. destruct (Z.ltb_spec 0 (node_level n)).
  - destruct Hint as (Hnl & Hc & Hits & Hs); [lia|]. rewrite Hc. case_bool.
    rewrite Nat2Z.id, (deserialise_internal_items_layout _ _ _ _ _ Eb) by (lia || done).
    unfold node_sealed. cbn [obind]. by rewrite Hnl, Hc.
  - destruct Hleaf as (Hni & Hc & Hits & Hs); [ilia|]. rewrite leaf_serialised_size_eq in Hs.
    pose proof (total_value_bytes_nonneg (node_leaf_items n)). rewrite Hc. case_bool.
    rewrite <- (app_nil_r (leaf_values _)) in Eb.
    rewrite Nat2Z.id, (deserialise_leaf_items_layout _ _ _ _ _ _ _ Eb)
      by (rewrite ?Hlen, ?Hpre; simpl; lia || done).
    unfold node_sealed. cbn [obind]. by rewrite Hni, Hc.
Qed.

(** ** Parsing an arbitrary block *)

(** What a parsed node guarantees to its users, corrupted or not: the fields
    have their widths, the count is that of the items, items of the other kind
    are absent, keys and values have their widths. *)
Definition node_parsed (n : BafsTreeNode) : Prop :=
  is_u32 (node_checksum n) /\ is_u8 (node_level n) /\ is_u8 (node_flags n)
  /\ is_u64 (node_self_block_address n) /\ is_u64 (node_generation n)
  /\ Forall leaf_item_wf (node_leaf_items n) /\ Forall internal_item_wf (node_internal_items n)
  /\ if 0 <? node_level n
     then node_leaf_items n = [] /\ node_item_count n = len (node_internal_items n)
          /\ 24 + 33 * len (node_internal_items n) <= 4096
     else node_internal_items n = [] /\ node_item_count n = len (node_leaf_items n)
          /\ 24 + 25 * len (node_leaf_items n) <= 4096.

(** The errors parsing reports. *)
Definition parse_error (a : Z) (e : BafsError) : Prop :=
  e = InvalidChecksum a \/ e = CorruptedStructure.

Section parsing.
Context (block : list Z) (a : Z) (Hok : bytes_ok block) (Hlen : length block = 4096%nat).

Lemma deserialise_key_returns cursor :
  0 <= cursor -> cursor + 17 <= 4096 ->
  returns key_wf (parse_error a) (let? tail := get_tail block cursor in deserialise_key tail).
Proof.
  intros H0 Hc. rbind (apply get_slice_returns; [done|lia..]).
  intros tail [Ht Hl]. rbind (apply get_le_returns; [done|lia..]).
  intros o Ho. rbind (apply get_byte_returns; [done|lia..]).
  intros t Hty. rbind (apply get_le_returns; [done|lia..]).
  intros f Hf. split; [|split]; simpl; [ilia|done|ilia].
Qed.

Lemma deserialise_internal_items_returns count cursor :
  0 <= cursor -> cursor + 33 * Z.of_nat count <= 4096 ->
  returns (fun its => length its = count /\ Forall internal_item_wf its) (parse_error a)
    (deserialise_internal_items count block cursor).
Proof.
  revert cursor. induction count as [|count IH]; intros cursor H0 Hc; [done|].
  cbn [deserialise_internal_items].
  pose proof (deserialise_key_returns cursor H0 ltac:(lia)) as Hk.
  destruct (get_tail block cursor) as [tail| | | ]; cbn [obind] in *; try done.
  rbind (exact Hk). intros k Hkw.
  rbind (apply get_le_returns; [done|lia..]). intros cb Hcb.
  rbind (apply get_le_returns; [done|lia..]). intros cg Hcg.
  rbind (apply IH; lia). intros its [<- Hits]. simpl.
  split; [done|]. constructor; [|done]. split; [done|]. simpl. ilia.
Qed.

Lemma deserialise_leaf_items_returns count cursor :
  0 <= cursor -> cursor + 25 * Z.of_nat count <= 4096 ->
  returns (fun its => length its = count /\ Forall leaf_item_wf its) (parse_error a)
    (deserialise_leaf_items count block cursor).
Proof.
  revert cursor. induction count as [|count IH]; intros cursor H0 Hc; [done|].
  cbn [deserialise_leaf_items].
  pose proof (deserialise_key_returns cursor H0 ltac:(lia)) as Hk.
  destruct (get_tail block cursor) as [tail| | | ]; cbn [obind] in *; try done.
  rbind (exact Hk). intros k Hkw.
  rbind (apply get_le_returns; [done|lia..]). intros cb Hcb.
  rbind (apply get_le_returns; [done|lia..]). intros cg Hcg.
  case_bool; [by right|].
  rbind (apply get_slice_returns; [done|lia..]). intros v [Hv _].
  rbind (apply IH; lia). intros its [<- Hits]. simpl.
  split; [done|]. by constructor.
Qed.

Lemma deserialise_node_returns :
  returns node_parsed (parse_error a) (deserialise_node_from_block block a).
Proof.
  unfold deserialise_node_from_block, NODE_HEADER_SIZE_BYTES.
  rbind (apply get_le_returns; [done|lia..]). intros ck Hck.
  rbind (apply get_slice_returns; [done|lia..]). intros cov _.
  destruct (verify_crc32c cov ck); cbn [negb]; [|by left].
  rbind (apply get_byte_returns; [done|lia..]). intros lv Hlv.
  rbind (apply get_byte_returns; [done|lia..]). intros fl Hfl.
  rbind (apply get_le_returns; [done|lia..]). intros ic Hic.
  rbind (apply get_le_returns; [done|lia..]). intros self Hself.
  rbind (apply get_le_returns; [done|lia..]). intros gen Hgen.
  destruct (Z.ltb_spec 0 lv); case_bool; try (by right).
  - rbind (apply deserialise_internal_items_returns; lia).
    intros its [Hl Hits]. unfold node_parsed. simpl. case_bool. intuition (ilia || auto).
  - rbind (apply deserialise_leaf_items_returns; lia).
    intros its [Hl Hits]. unfold node_parsed. simpl. case_bool. intuition (ilia || auto).
Qed.
End parsing.

(** ** Properties *)

(** C25: a well-formed node serialises to a full block of bytes, and parsing that
    block returns the same node, its checksum field now that of the block. *)
Theorem node_roundtrip n a :
  node_wf n ->
  exists block, serialise_node_to_block n = Ok block /\ length block = 4096%nat /\ bytes_ok block
    /\ deserialise_node_from_block block a = Ok (node_sealed n).
Proof.
  intros Hwf. exists (node_block n).
  auto using serialise_node_layout, length_node_block, node_block_ok, deserialise_node_layout.
Qed.

(** C26: parsing any block of 4096 bytes terminates without panic: it yields a node
    whose fields, counts and items are within their widths, or reports a checksum
    mismatch or a corrupted structure. *)
Theorem deserialise_node_total block a :
  bytes_ok block -> length block = 4096%nat ->
  returns node_parsed (parse_error a) (deserialise_node_from_block block a).
Proof. apply deserialise_node_returns. Qed.

(** C27: a node block with up to four consecutive altered bytes behind the checksum
    field is rejected with [InvalidChecksum] naming its address. *)
Theorem corrupted_node_rejected n a pre good bad post block :
  node_wf n -> serialise_node_to_block n = Ok block ->
  drop 4 block = pre ++ good ++ post ->
  bytes_ok bad -> length good = length bad -> (length good <= 4)%nat -> good <> bad ->
  deserialise_node_from_block (take 4 block ++ pre ++ bad ++ post) a = Err (InvalidChecksum a).
Proof.
  intros Hwf Hs Hd Hbad Hlen H4 Hne. rewrite serialise_node_layout in Hs by done.
  injection Hs as <-. unfold node_block in *.
  rewrite take_app_length', drop_app_length' in * by (by rewrite length_le_bytes).
  unfold deserialise_node_from_block. pose proof (node_payload_crc_u32 n Hwf).
  rewrite get_le_bytes_prefix by ilia. cbn [obind].
  rewrite get_tail_app by (by rewrite length_le_bytes). cbn [obind].
  pose proof (node_payload_ok n Hwf) as Hok. rewrite Hd in *.
  assert (verify_crc32c (pre ++ bad ++ post) (compute_crc32c (pre ++ good ++ post)) = false) as ->;
    [|done]. apply Z.eqb_neq. by apply crc_burst_differs.
Qed.

(** *** Witnesses *)

Definition example_leaf : BafsTreeNode :=
  {| node_checksum := 0; node_level := 0; node_flags := 0; node_item_count := 2;
     node_self_block_address := 300; node_generation := 1;
     node_leaf_items := [BafsLeafItem_new (BafsKey_new 1 1 0) [1; 2; 3];
                         BafsLeafItem_new (BafsKey_new 1 3 4096) [9]];
     node_internal_items := [] |}.

Lemma example_leaf_wf : node_wf example_leaf.
Proof.
  split; simpl; try ilia. intros _. repeat split; simpl; try ilia; [|vm_compute; discriminate].
  repeat constructor; simpl; ilia.
Qed.

Lemma node_roundtrip_witness :
  exists block, serialise_node_to_block example_leaf = Ok block
    /\ deserialise_node_from_block block 300 = Ok (node_sealed example_leaf).
Proof.
  destruct (node_roundtrip example_leaf 300 example_leaf_wf) as (b & H1 & _ & _ & H2).
  exists b. split; [exact H1|exact H2].
Defined.

Lemma deserialise_node_total_witness :
  returns node_parsed (parse_error 7) (deserialise_node_from_block (zeros 4096) 7).
Proof.
  apply (deserialise_node_total (zeros 4096) 7); [apply zeros_bytes_ok|by rewrite length_zeros].
Defined.

Lemma corrupted_node_rejected_witness :
  deserialise_node_from_block
    (take 4 (node_block example_leaf) ++ [] ++ [1] ++ drop 5 (node_block example_leaf)) 300
  = Err (InvalidChecksum 300).
Proof.
  apply (corrupted_node_rejected example_leaf 300 [] [0] [1] (drop 5 (node_block example_leaf))
           (node_block example_leaf));
    [exact example_leaf_wf|apply serialise_node_layout, example_leaf_wf| |
     repeat constructor; ilia|reflexivity|simpl; lia|discriminate].
  rewrite <- (drop_drop _ 4 1). unfold node_block. rewrite drop_app_length' by (by rewrite length_le_bytes).
  reflexivity.
Defined.
