(* ===== verification/BTree.v ===== *)
(** * BTree: the copy-on-write B-tree operations of src/src/btree.rs

    Block access through the dirty cache, search, range scan, insertion with
    node splits, deletion, and creation of an empty tree.  The definitions
    follow the code; their theorems are in BTreeInv, BTreeWrite, BTreeInsert,
    BTreeDelete and TreeStore. *)

From S2P Require Import Prelude Checksum Device Superblock Node.

(** The mutable arguments the tree operations share: the dirty-block cache, the
    bump allocator for new blocks, and the list of superseded blocks. *)
Record cow := {
  dirty_cache : gmap Z (list Z);
  next_free_block : Z;
  freed_blocks : list Z;
}.

Definition cow_set_cache (c : cow) (m : gmap Z (list Z)) : cow :=
  {| dirty_cache := m; next_free_block := next_free_block c; freed_blocks := freed_blocks c |}.

(** ** Slices: [binary_search_by] and [partition_point] of the standard library *)

(** The loop of [binary_search_by]: while [size > 1], probe [base + size / 2] and
    keep the half the comparison selects. *)
Fixpoint binary_search_loop {A} (fuel : nat) (f : A -> comparison) (l : list A)
    (base size : nat) : nat :=
  match fuel with
  | O => base
  | S fuel =>
      if (size <=? 1)%nat then base
      else
        let half := Nat.div2 size in
        let mid := (base + half)%nat in
        let base := match f <$> (l !! mid) with Some Gt => base | _ => mid end in
        binary_search_loop fuel f l base (size - half)
  end.

(** [slice.binary_search_by(f)]: [inl] is the source's [Ok], [inr] its [Err]. *)
Definition binary_search_by {A} (f : A -> comparison) (l : list A) : nat + nat :=
  match l with
  | [] => inr O
  | _ =>
      let base := binary_search_loop (length l) f l 0 (length l) in
      match f <$> (l !! base) with
      | Some Eq => inl base
      | Some Lt => inr (S base)
      | _ => inr base
      end
  end.

(** [slice.partition_point(pred)] *)
Definition partition_point {A} (pred : A -> bool) (l : list A) : nat :=
  match binary_search_by (fun x => if pred x then Lt else Gt) l with
  | inl i | inr i => i
  end.

(** [leaf_items.binary_search_by_key(&key, |item| item.key)] *)
Definition search_leaf (key : BafsKey) (items : list BafsLeafItem) : nat + nat :=
  binary_search_by (fun item => key_compare (li_key item) key) items.

Definition find_child_index_for_key (internal_items : list BafsInternalItem) (target_key : BafsKey)
    : nat :=
  (partition_point (fun item => key_leb (ii_key item) target_key) internal_items - 1)%nat.

(** [vec[i]] *)
Definition index {A} (l : list A) (i : nat) : result A :=
  match l !! i with Some x => Ok x | None => Panic end.

(** [vec.insert(i, x)] *)
Definition vec_insert {A} (l : list A) (i : nat) (x : A) : result (list A) :=
  if (i <=? length l)%nat then Ok (take i l ++ x :: drop i l) else Panic.

(** [vec.remove(i)]: the element and the remaining vector. *)
Definition vec_remove {A} (l : list A) (i : nat) : result (A * list A) :=
  match l !! i with Some x => Ok (x, take i l ++ drop (S i) l) | None => Panic end.

(** ** Block access *)

Section block_access.
Context {D : Type} `{BlockDevice D}.

Definition read_block (device : D) (cache : gmap Z (list Z)) (block_address : Z)
    : result (list Z) :=
  match cache !! block_address with
  | Some cached_data => Ok cached_data
  | None => device_read_block device block_address
  end.

Definition read_tree_node (device : D) (cache : gmap Z (list Z)) (block_address : Z)
    : result BafsTreeNode :=
  let? block_data := read_block device cache block_address in
  deserialise_node_from_block block_data block_address.
End block_access.

(** The length is a [debug_assert_eq!]. *)
Definition write_block_to_cache (block_address : Z) (block_data : list Z) : ST cow BafsError unit :=
  if len block_data =? BAFS_DEFAULT_BLOCK_SIZE_BYTES
  then st_modify (fun c => cow_set_cache c (<[block_address := block_data]> (dirty_cache c)))
  else st_panic.

Definition write_tree_node_to_cache (node : BafsTreeNode) : ST cow BafsError unit :=
  let! block_data := st_lift (serialise_node_to_block node) in
  write_block_to_cache (node_self_block_address node) block_data.

(** [let new_block = *next_free_block; *next_free_block += 1;] *)
Definition take_next_free_block : ST cow BafsError Z :=
  let! c := st_get in
  let! next := st_lift (checked_add 64 (next_free_block c) 1) in
  let! _ := st_modify (fun c => {| dirty_cache := dirty_cache c; next_free_block := next;
                                   freed_blocks := freed_blocks c |}) in
  st_ret (next_free_block c).

(** [freed_blocks.push(block_address)] *)
Definition push_freed_block (block_address : Z) : ST cow BafsError unit :=
  st_modify (fun c => {| dirty_cache := dirty_cache c; next_free_block := next_free_block c;
                         freed_blocks := freed_blocks c ++ [block_address] |}).

(** Assignments to fields of a node. *)
Definition node_set_leaf_items (n : BafsTreeNode) (items : list BafsLeafItem) (count : Z)
    : BafsTreeNode :=
  {| node_checksum := node_checksum n; node_level := node_level n; node_flags := node_flags n;
     node_item_count := count; node_self_block_address := node_self_block_address n;
     node_generation := node_generation n; node_leaf_items := items;
     node_internal_items := node_internal_items n |}.

Definition node_set_internal_items (n : BafsTreeNode) (items : list BafsInternalItem) (count : Z)
    : BafsTreeNode :=
  {| node_checksum := node_checksum n; node_level := node_level n; node_flags := node_flags n;
     node_item_count := count; node_self_block_address := node_self_block_address n;
     node_generation := node_generation n; node_leaf_items := node_leaf_items n;
     node_internal_items := items |}.

Definition node_set_location (n : BafsTreeNode) (self_block_address generation : Z) : BafsTreeNode :=
  {| node_checksum := node_checksum n; node_level := node_level n; node_flags := node_flags n;
     node_item_count := node_item_count n; node_self_block_address := self_block_address;
     node_generation := generation; node_leaf_items := node_leaf_items n;
     node_internal_items := node_internal_items n |}.

(** The copy-on-write step: the node moves to a fresh block, the old block is
    recorded as superseded. *)
Definition write_cow_clone (node : BafsTreeNode) (block_address generation : Z)
    : ST cow BafsError Z :=
  let! _ := push_freed_block block_address in
  let! new_block := take_next_free_block in
  let! _ := write_tree_node_to_cache (node_set_location node new_block generation) in
  st_ret new_block.

(** ** Search and range scan *)

(** Nodes carry their level in one byte, so 256 levels of recursion reach the
    leaves of every tree. *)
Definition TREE_FUEL : nat := 256.

Section search.
Context {D : Type} `{BlockDevice D}.

(** The [loop] of [lookup_in_tree]. *)
Fixpoint lookup_loop (fuel : nat) (device : D) (cache : gmap Z (list Z))
    (current_block_address : Z) (target_key : BafsKey) : result (option (list Z)) :=
  match fuel with
  | O => OutOfFuel
  | S fuel =>
      let? node := read_tree_node device cache current_block_address in
      if node_level node =? 0 then
        match search_leaf target_key (node_leaf_items node) with
        | inl i => let? item := index (node_leaf_items node) i in Ok (Some (li_value item))
        | inr _ => Ok None
        end
      else
        let child_index := find_child_index_for_key (node_internal_items node) target_key in
        let? item := index (node_internal_items node) child_index in
        lookup_loop fuel device cache (ii_child_block item) target_key
  end.

Definition lookup_in_tree (device : D) (cache : gmap Z (list Z)) (root_block_address : Z)
    (target_key : BafsKey) : result (option (list Z)) :=
  lookup_loop TREE_FUEL device cache root_block_address target_key.

(** The loop of [collect_range] over the children of an internal node; [rec] is
    the recursive call, its result the items appended to [output]. *)
Fixpoint collect_children (rec : Z -> result (list BafsLeafItem)) (min_key max_key : BafsKey)
    (items : list BafsInternalItem) : result (list BafsLeafItem) :=
  match items with
  | [] => Ok []
  | item :: rest =>
      let child_min_key := ii_key item in
      let child_max_key := match rest with next :: _ => ii_key next | [] => max_BafsKey end in
      if key_ltb child_max_key min_key || key_ltb max_key child_min_key
      then collect_children rec min_key max_key rest
      else
        let? collected := rec (ii_child_block item) in
        let? more := collect_children rec min_key max_key rest in
        Ok (collected ++ more)
  end.

Definition key_in_range (min_key max_key key : BafsKey) : bool :=
  key_leb min_key key && key_leb key max_key.

Fixpoint collect_range (fuel : nat) (device : D) (cache : gmap Z (list Z)) (block_address : Z)
    (min_key max_key : BafsKey) : result (list BafsLeafItem) :=
  match fuel with
  | O => OutOfFuel
  | S fuel =>
      let? node := read_tree_node device cache block_address in
      if node_level node =? 0 then
        Ok (filter (fun item => key_in_range min_key max_key (li_key item) = true)
              (node_leaf_items node))
      else
        collect_children (fun child => collect_range fuel device cache child min_key max_key)
          min_key max_key (node_internal_items node)
  end.

Definition iterate_tree_range (device : D) (cache : gmap Z (list Z)) (root_block_address : Z)
    (min_key max_key : BafsKey) : result (list BafsLeafItem) :=
  collect_range TREE_FUEL device cache root_block_address min_key max_key.
End search.

(** ** Splitting nodes *)

(** [while split_index > 1 && leaf_serialised_size(&items[..split_index]) > block_size] *)
Fixpoint split_move_left (items : list BafsLeafItem) (split_index : nat) : nat :=
  match split_index with
  | O => O
  | S smaller =>
      if (1 <? split_index)%nat
         && (BAFS_DEFAULT_BLOCK_SIZE_BYTES <? leaf_serialised_size (take split_index items))
      then split_move_left items smaller
      else split_index
  end.

(** [while split_index < items.len() - 1 && leaf_serialised_size(&items[split_index..])
    > block_size]; at most [items.len()] rounds. *)
Fixpoint split_move_right (fuel : nat) (items : list BafsLeafItem) (split_index : nat) : nat :=
  match fuel with
  | O => split_index
  | S fuel =>
      if (split_index <? length items - 1)%nat
         && (BAFS_DEFAULT_BLOCK_SIZE_BYTES <? leaf_serialised_size (drop split_index items))
      then split_move_right fuel items (S split_index)
      else split_index
  end.

Definition leaf_split_index (items : list BafsLeafItem) : nat :=
  split_move_right (length items) items (split_move_left items (Nat.div2 (length items))).

(** A node built from scratch. *)
Definition fresh_node (level self_block_address generation : Z) (leaf_items : list BafsLeafItem)
    (internal_items : list BafsInternalItem) (item_count : Z) : BafsTreeNode :=
  {| node_checksum := 0; node_level := level; node_flags := 0; node_item_count := item_count;
     node_self_block_address := self_block_address; node_generation := generation;
     node_leaf_items := leaf_items; node_internal_items := internal_items |}.

Definition split_leaf_node (full_node : BafsTreeNode) (generation old_block_address : Z)
    : ST cow BafsError (BafsTreeNode * BafsTreeNode * BafsKey) :=
  let! _ := push_freed_block old_block_address in
  let items := node_leaf_items full_node in
  let! _ := st_lift (checked_sub (len items) 1) in
  let split_index := leaf_split_index items in
  let right_items := drop split_index items in
  let left_items := take split_index items in
  let! first := st_lift (index right_items 0) in
  let split_key := li_key first in
  let! right_block := take_next_free_block in
  let! left_block := take_next_free_block in
  let right_node := fresh_node 0 right_block generation right_items []
                      (wrap 16 (len right_items)) in
  let left_node := node_set_location
                     (node_set_leaf_items full_node left_items (wrap 16 (len left_items)))
                     left_block generation in
  st_ret (left_node, right_node, split_key).

Definition split_internal_node (full_node : BafsTreeNode) (generation old_block_address : Z)
    : ST cow BafsError (BafsTreeNode * BafsTreeNode * BafsKey) :=
  let! _ := push_freed_block old_block_address in
  let split_index := Nat.div2 (length (node_internal_items full_node)) in
  let! (promoted_item, items) := st_lift (vec_remove (node_internal_items full_node) split_index) in
  let right_items := drop split_index items in
  let left_items := take split_index items in
  let split_key := ii_key promoted_item in
  let! right_block := take_next_free_block in
  let! left_block := take_next_free_block in
  let right_items_with_first := promoted_item :: right_items in
  let right_node := fresh_node (node_level full_node) right_block generation []
                      right_items_with_first (wrap 16 (len right_items_with_first)) in
  let left_node := node_set_location
                     (node_set_internal_items full_node left_items (wrap 16 (len left_items)))
                     left_block generation in
  st_ret (left_node, right_node, split_key).

(** ** Insertion *)

Record SplitResult := { sr_key : BafsKey; sr_child_block : Z }.

(** Write both halves of a split node, the left one first. *)
Definition write_split (halves : BafsTreeNode * BafsTreeNode * BafsKey)
    : ST cow BafsError (Z * option SplitResult) :=
  let '(left_node, right_node, split_key) := halves in
  let left_block := node_self_block_address left_node in
  let right_block := node_self_block_address right_node in
  let! _ := write_tree_node_to_cache left_node in
  let! _ := write_tree_node_to_cache right_node in
  st_ret (left_block, Some {| sr_key := split_key; sr_child_block := right_block |}).

(** The leaf with [key] bound to [value]: replaced in place or inserted in order. *)
Definition leaf_put (node : BafsTreeNode) (key : BafsKey) (value : list Z) : result BafsTreeNode :=
  match search_leaf key (node_leaf_items node) with
  | inl existing_index =>
      let? item := index (node_leaf_items node) existing_index in
      Ok (node_set_leaf_items node
            (<[existing_index := BafsLeafItem_new (li_key item) value]> (node_leaf_items node))
            (node_item_count node))
  | inr insertion_index =>
      let? items := vec_insert (node_leaf_items node) insertion_index
                      (BafsLeafItem_new key value) in
      let? count := checked_add 16 (node_item_count node) 1 in
      Ok (node_set_leaf_items node items count)
  end.

(** [node.internal_items[i].child_block = child; ....child_generation = generation] *)
Definition set_child (items : list BafsInternalItem) (i : nat) (child generation : Z)
    : result (list BafsInternalItem) :=
  let? item := index items i in
  Ok (<[i := BafsInternalItem_new (ii_key item) child generation]> items).

(** The promoted separator of a split child goes right behind it. *)
Definition insert_promoted (node : BafsTreeNode) (child_index : nat) (split : option SplitResult)
    (generation : Z) : result BafsTreeNode :=
  match split with
  | None => Ok node
  | Some promoted =>
      let? items := vec_insert (node_internal_items node) (S child_index)
                      (BafsInternalItem_new (sr_key promoted) (sr_child_block promoted)
                         generation) in
      let? count := checked_add 16 (node_item_count node) 1 in
      Ok (node_set_internal_items node items count)
  end.

Section insert.
Context {D : Type} `{BlockDevice D}.

Fixpoint insert_recursive (fuel : nat) (device : D) (block_address : Z) (key : BafsKey)
    (value : list Z) (generation : Z) : ST cow BafsError (Z * option SplitResult) :=
  match fuel with
  | O => st_lift OutOfFuel
  | S fuel =>
      let! c := st_get in
      let! node := st_lift (read_tree_node device (dirty_cache c) block_address) in
      if node_level node =? 0 then
        let! node := st_lift (leaf_put node key value) in
        if negb (leaf_node_would_overflow (node_leaf_items node)) then
          let! new_block := write_cow_clone node block_address generation in
          st_ret (new_block, None)
        else
          let! halves := split_leaf_node node generation block_address in
          write_split halves
      else
        let child_index := find_child_index_for_key (node_internal_items node) key in
        let! item := st_lift (index (node_internal_items node) child_index) in
        let! (new_child_block, split_result) :=
          insert_recursive fuel device (ii_child_block item) key value generation in
        let! items := st_lift (set_child (node_internal_items node) child_index new_child_block
                                 generation) in
        let node := node_set_internal_items node items (node_item_count node) in
        let! node := st_lift (insert_promoted node child_index split_result generation) in
        if len (node_internal_items node) <=? INTERNAL_MAX_ITEMS then
          let! new_block := write_cow_clone node block_address generation in
          st_ret (new_block, None)
        else
          let! halves := split_internal_node node generation block_address in
          write_split halves
  end.

(** The first key of a node, as the separator of the left child of a new root. *)
Definition first_key (node : BafsTreeNode) : result BafsKey :=
  if node_level node =? 0
  then let? item := index (node_leaf_items node) 0 in Ok (li_key item)
  else let? item := index (node_internal_items node) 0 in Ok (ii_key item).

Definition insert_into_tree (device : D) (root_block_address : Z) (key : BafsKey)
    (value : list Z) (generation : Z) : ST cow BafsError Z :=
  let! (new_root_address, split_result) :=
    insert_recursive TREE_FUEL device root_block_address key value generation in
  match split_result with
  | None => st_ret new_root_address
  | Some promoted_item =>
      let! _ := push_freed_block root_block_address in
      let! new_root_block := take_next_free_block in
      let! c := st_get in
      let! old_root_node :=
        st_lift (read_tree_node device (dirty_cache c) new_root_address) in
      let! left_first_key := st_lift (first_key old_root_node) in
      let! level := st_lift (checked_add 8 (node_level old_root_node) 1) in
      let new_root :=
        fresh_node level new_root_block generation []
          [BafsInternalItem_new left_first_key new_root_address generation;
           BafsInternalItem_new (sr_key promoted_item) (sr_child_block promoted_item) generation]
          2 in
      let! _ := write_tree_node_to_cache new_root in
      st_ret new_root_block
  end.

(** ** Deletion *)

Fixpoint delete_recursive (fuel : nat) (device : D) (block_address : Z) (target_key : BafsKey)
    (generation : Z) : ST cow BafsError (Z * bool) :=
  match fuel with
  | O => st_lift OutOfFuel
  | S fuel =>
      let! c := st_get in
      let! node := st_lift (read_tree_node device (dirty_cache c) block_address) in
      if node_level node =? 0 then
        match search_leaf target_key (node_leaf_items node) with
        | inl i =>
            let! (_, items) := st_lift (vec_remove (node_leaf_items node) i) in
            let! count := st_lift (checked_sub (node_item_count node) 1) in
            let! new_block :=
              write_cow_clone (node_set_leaf_items node items count) block_address generation in
            st_ret (new_block, true)
        | inr _ => st_err NotFound
        end
      else
        let child_index := find_child_index_for_key (node_internal_items node) target_key in
        let! item := st_lift (index (node_internal_items node) child_index) in
        let! (new_child_block, deleted) :=
          delete_recursive fuel device (ii_child_block item) target_key generation in
        if negb deleted then st_err NotFound
        else
          let! items := st_lift (set_child (node_internal_items node) child_index new_child_block
                                   generation) in
          let! new_block :=
            write_cow_clone (node_set_internal_items node items (node_item_count node))
              block_address generation in
          st_ret (new_block, true)
  end.

Definition delete_from_tree (device : D) (root_block_address : Z) (target_key : BafsKey)
    (generation : Z) : ST cow BafsError Z :=
  let! (new_root, _) := delete_recursive TREE_FUEL device root_block_address target_key generation in
  st_ret new_root.
End insert.

Definition create_empty_tree (block_address generation : Z) : ST cow BafsError unit :=
  write_tree_node_to_cache (fresh_node 0 block_address generation [] [] 0).
