(* ===== verification/BTreeInv.v ===== *)
(** * BTreeInv: the B-tree invariant and search

    The binary searches meet their contract, the invariant of a tree stored in
    blocks ([tree_at]), its frame rule, the bound on its height, and the
    correctness of [lookup_in_tree]. *)

From S2P Require Import Prelude Checksum Device Superblock Node NodeCodec BTree.

(** ** Binary search *)

(** The loop finds the threshold [p] of the comparison; the first element is
    only probed last, so nothing is required of it. *)
Lemma binary_search_loop_threshold {A} fuel (f : A -> comparison) l p base size :
  (base < p <= base + size)%nat -> (base + size <= length l)%nat -> (size <= fuel)%nat ->
  (forall i x, l !! i = Some x -> (1 <= i < p)%nat -> f x <> Gt) ->
  (forall i x, l !! i = Some x -> (p <= i)%nat -> f x = Gt) ->
  binary_search_loop fuel f l base size = (p - 1)%nat.
Proof.
  intros Hp Hl Hf Hlo Hhi. revert base size Hp Hl Hf.
  induction fuel as [|fuel IH]; intros base size Hp Hl Hf; cbn [binary_search_loop]; [lia|].
  destruct (Nat.leb_spec size 1); [lia|].
  pose proof (Nat.div2_odd size). assert (0 < Nat.div2 size < size)%nat as Hh.
  { destruct (Nat.odd size); simpl in *; lia. }
  assert (2 * Nat.div2 size <= size)%nat by (destruct (Nat.odd size); simpl in *; lia).
  destruct (lookup_lt_is_Some_2 l (base + Nat.div2 size)) as [x Hx]; [lia|].
  rewrite Hx. cbn [fmap option_fmap option_map].
  destruct (decide (p <= base + Nat.div2 size)%nat).
  - rewrite (Hhi _ _ Hx) by lia. apply IH; lia.
  - pose proof (Hlo _ _ Hx ltac:(lia)) as Hng. destruct (f x); [apply IH; lia..|done].
Qed.

Lemma partition_point_threshold {A} (pred : A -> bool) l p :
  (1 <= p <= length l)%nat ->
  (forall i x, l !! i = Some x -> (1 <= i < p)%nat -> pred x = true) ->
  (forall i x, l !! i = Some x -> (p <= i)%nat -> pred x = false) ->
  (partition_point pred l - 1 = p - 1)%nat.
Proof.
  intros Hp Hlo Hhi. unfold partition_point, binary_search_by.
  destruct l as [|y l']; [simpl in *; lia|]. set (l := y :: l') in *.
  rewrite (binary_search_loop_threshold _ _ _ p); [|lia..| |].
  - destruct (lookup_lt_is_Some_2 l (p - 1)) as [x Hx]; [lia|]. rewrite Hx.
    cbn [fmap option_fmap option_map]. destruct (pred x) eqn:Hpx; [lia|].
    destruct (decide (p = 1)%nat); [lia|]. by rewrite (Hlo _ _ Hx) in Hpx by lia.
  - intros i x Hi Hr. by rewrite (Hlo i x).
  - intros i x Hi Hr. by rewrite (Hhi i x).
Qed.

(** A sorted list splits at a key. *)
Lemma sorted_split {A} (key : A -> BafsKey) (l : list A) k :
  StronglySorted key_lt (key <$> l) ->
  exists l1 l2, l = l1 ++ l2 /\ Forall (fun x => key_le (key x) k) l1
    /\ Forall (fun x => key_lt k (key x)) l2.
Proof.
  induction l as [|x l IH]; csimpl; intros Hs; [by exists [], []|].
  apply StronglySorted_inv in Hs as [Hs Hx]. rewrite Forall_fmap in Hx.
  destruct (key_lt_or_le k (key x)) as [Hk|Hk].
  - exists [], (x :: l). split; [done|]. split; [constructor|]. constructor; [done|].
    eapply Forall_impl; [exact Hx|]. simpl. intros y Hy. key_order.
  - destruct (IH Hs) as (l1 & l2 & -> & H1 & H2). exists (x :: l1), l2. auto.
Qed.

Lemma lookup_app_cases {A} (l1 l2 : list A) i x :
  (l1 ++ l2) !! i = Some x ->
  (i < length l1)%nat /\ x ∈ l1 \/ (length l1 <= i)%nat /\ x ∈ l2.
Proof.
  intros [Hi|[Hl Hi]]%lookup_app_Some.
  - left. split; [by eapply lookup_lt_Some|by eapply list_elem_of_lookup_2].
  - right. split; [done|by eapply list_elem_of_lookup_2].
Qed.

(** [find_child_index_for_key] on separators sorted from the second on selects
    the child before the first separator above the key. *)
Lemma find_child_split it0 rest k :
  StronglySorted key_lt (ii_key <$> rest) ->
  exists a it b, it0 :: rest = a ++ it :: b
    /\ length a = find_child_index_for_key (it0 :: rest) k
    /\ (a <> [] -> key_le (ii_key it) k)
    /\ (forall x b', b = x :: b' -> key_lt k (ii_key x)).
Proof.
  intros Hs. destruct (sorted_split ii_key rest k Hs) as (l1 & l2 & -> & H1 & H2).
  unfold find_child_index_for_key. rewrite Forall_forall in H1, H2.
  rewrite (partition_point_threshold _ _ (S (length l1))).
  - assert (forall x b', l2 = x :: b' -> key_lt k (ii_key x)) as Hb.
    { intros x b' ->. apply H2. left. }
    destruct l1 as [|it l1'] using rev_ind.
    + by exists [], it0, l2.
    + exists (it0 :: l1'), it, l2. rewrite <- app_assoc. repeat split; [|intros _|done].
      * rewrite length_app. simpl. lia.
      * apply H1. rewrite elem_of_app. right. by left.
  - simpl. rewrite length_app. lia.
  - intros i x Hi Hr. destruct i as [|i]; [lia|]. simpl in Hi.
    apply lookup_app_cases in Hi as [[_ Hx]|[? _]]; [|lia].
    destruct (key_leb_spec (ii_key x) k) as [|Hn]; [done|]. destruct Hn. auto.
  - intros i x Hi Hr. destruct i as [|i]; [lia|]. simpl in Hi.
    apply lookup_app_cases in Hi as [[? _]|[_ Hx]]; [lia|].
    destruct (key_leb_spec (ii_key x) k) as [Hle|]; [|done]. specialize (H2 x Hx). key_order.
Qed.

Lemma key_compare_gt a b : key_lt b a -> key_compare a b = Gt.
Proof. intros H. destruct (key_compare_spec a b); [key_order..|done]. Qed.

Lemma key_compare_le a b : key_le a b -> key_compare a b <> Gt.
Proof. done. Qed.

(** The probe of [search_leaf] ends at the last item not above the key. *)
Lemma search_leaf_probe k l1 it l2 :
  Forall (fun x => key_le (li_key x) k) (l1 ++ [it]) -> Forall (fun x => key_lt k (li_key x)) l2 ->
  search_leaf k (l1 ++ it :: l2)
  = match key_compare (li_key it) k with
    | Eq => inl (length l1) | Lt => inr (S (length l1)) | Gt => inr (length l1) end.
Proof.
  intros H1 H2. rewrite Forall_forall in H1, H2. unfold search_leaf, binary_search_by.
  rewrite (binary_search_loop_threshold _ _ _ (S (length l1))); [|rewrite ?length_app; simpl; lia..| |].
  - replace (S (length l1) - 1)%nat with (length l1) by lia. rewrite list_lookup_middle by done.
    cbn [fmap option_fmap option_map].
    destruct (l1 ++ it :: l2) eqn:E; [by destruct l1|]. by destruct (key_compare (li_key it) k).
  - intros i x Hi Hr. rewrite (cons_middle it), app_assoc in Hi.
    apply lookup_app_cases in Hi as [[_ Hx]|[Hx _]];
      [by apply key_compare_le, H1|rewrite length_app in Hx; simpl in Hx; lia].
  - intros i x Hi Hr. rewrite (cons_middle it), app_assoc in Hi.
    apply lookup_app_cases in Hi as [[Hx _]|[_ Hx]];
      [rewrite length_app in Hx; simpl in Hx; lia|by apply key_compare_gt, H2].
Qed.

Lemma search_leaf_above k l2 :
  Forall (fun x => key_lt k (li_key x)) l2 -> search_leaf k l2 = inr 0%nat.
Proof.
  intros H2. destruct l2 as [|it l2]; [done|]. rewrite Forall_forall in H2.
  unfold search_leaf, binary_search_by.
  rewrite (binary_search_loop_threshold _ _ _ 1); [|simpl; lia..| |].
  - simpl. rewrite key_compare_gt; [done|]. apply H2. left.
  - lia.
  - intros i x Hi Hr. apply key_compare_gt, H2. by eapply list_elem_of_lookup_2.
Qed.

(** [search_leaf] finds the item or the place for it. *)
Lemma search_leaf_spec k items :
  StronglySorted key_lt (li_key <$> items) ->
  exists l1 l2, Forall (fun x => key_lt (li_key x) k) l1 /\ Forall (fun x => key_lt k (li_key x)) l2
    /\ (items = l1 ++ l2 /\ search_leaf k items = inr (length l1)
        \/ exists v, items = l1 ++ BafsLeafItem_new k v :: l2 /\ search_leaf k items = inl (length l1)).
Proof.
  intros Hs. destruct (sorted_split li_key items k Hs) as (l1 & l2 & -> & H1 & H2).
  destruct l1 as [|it l1 _] using rev_ind.
  { exists [], l2. split; [constructor|]. split; [done|]. left. split; [done|].
    by apply search_leaf_above. }
  rewrite <- app_assoc in *. simpl. rewrite search_leaf_probe by done.
  assert (Forall (fun x => key_lt (li_key x) (li_key it)) l1) as Hl1.
  { rewrite fmap_app in Hs. csimpl in Hs. apply Forall_forall. intros x Hx.
    eapply StronglySorted_app_1_elem_of; [exact Hs| |left]. by apply list_elem_of_fmap_2. }
  apply Forall_app in H1 as [_ Hit]. apply Forall_inv in Hit.
  destruct (key_compare_spec (li_key it) k) as [E|E|E]; [| |key_order].
  - exists l1, l2. subst k. split; [done|]. split; [done|]. right. exists (li_value it).
    by destruct it.
  - exists (l1 ++ [it]), l2. split; [|split; [done|]].
    + apply Forall_app. split; [|by apply Forall_singleton]. eapply Forall_impl; [exact Hl1|].
      simpl. intros x Hx. key_order.
    + left. rewrite <- app_assoc, length_app. simpl. split; [done|]. f_equal. lia.
Qed.

(** ** Key intervals

    The keys a subtree may hold: from [lo] (inclusive) to [hi] (exclusive),
    [None] for no bound. *)

Definition ge_lo (lo : option BafsKey) (k : BafsKey) : Prop :=
  match lo with Some l => key_le l k | None => True end.
Definition lt_hi (hi : option BafsKey) (k : BafsKey) : Prop :=
  match hi with Some h => key_lt k h | None => True end.
Definition in_bounds (lo hi : option BafsKey) (k : BafsKey) : Prop := ge_lo lo k /\ lt_hi hi k.
Definition below (lo hi : option BafsKey) : Prop :=
  match lo, hi with Some l, Some h => key_lt l h | _, _ => True end.

Ltac bounds :=
  intros;
  unfold in_bounds, ge_lo, lt_hi, below in *;
  repeat match goal with H : _ /\ _ |- _ => destruct H end;
  repeat match goal with
         | H : context [match ?o with Some _ => _ | None => _ end] |- _ =>
             is_var o; destruct o
         | |- context [match ?o with Some _ => _ | None => _ end] => is_var o; destruct o
         end; repeat split; trivial; try key_order.

Lemma below_trans lo s hi : below lo (Some s) -> below (Some s) hi -> below lo hi.
Proof. bounds. Qed.

Lemma in_bounds_widen_hi lo s hi k : in_bounds lo (Some s) k -> below (Some s) hi -> in_bounds lo hi k.
Proof. bounds. Qed.

Lemma in_bounds_widen_lo lo s hi k : in_bounds (Some s) hi k -> below lo (Some s) -> in_bounds lo hi k.
Proof. bounds. Qed.

(** ** Item lists: what a tree holds, in key order *)

Definition VALUE_MAX : Z := 2011.

Definition item_ok (P : BafsKey -> Prop) (lo hi : option BafsKey) (it : BafsLeafItem) : Prop :=
  P (li_key it) /\ in_bounds lo hi (li_key it) /\ len (li_value it) <= VALUE_MAX.

Definition items_sorted (ms : list BafsLeafItem) : Prop := StronglySorted key_lt (li_key <$> ms).

(** The value bound to a key. *)
Definition items_get (k : BafsKey) (ms : list BafsLeafItem) : option (list Z) :=
  li_value <$> head (filter (fun x => li_key x = k) ms).

(** Binding a key, removing a key. *)
Definition items_put (k : BafsKey) (v : list Z) (ms : list BafsLeafItem) : list BafsLeafItem :=
  filter (fun x => key_ltb (li_key x) k = true) ms ++ [BafsLeafItem_new k v]
  ++ filter (fun x => key_ltb k (li_key x) = true) ms.
Definition items_remove (k : BafsKey) (ms : list BafsLeafItem) : list BafsLeafItem :=
  filter (fun x => li_key x <> k) ms.

Lemma filter_none {A} (Q : A -> Prop) `{forall x, Decision (Q x)} l :
  Forall (fun x => ~ Q x) l -> filter Q l = [].
Proof. induction 1; [done|]. by rewrite filter_cons_False. Qed.

Lemma key_ltb_true a b : key_lt a b -> key_ltb a b = true.
Proof. by destruct (key_ltb_spec a b). Qed.
Lemma key_ltb_not a b : key_le b a -> key_ltb a b <> true.
Proof. destruct (key_ltb_spec a b); [|done]. intros. exfalso. key_order. Qed.

(** Operations at a key act on the part of the list around it. *)
Section around_key.
Context (k : BafsKey) (m1 m m2 : list BafsLeafItem).
Context (H1 : Forall (fun x => key_lt (li_key x) k) m1).
Context (H2 : Forall (fun x => key_lt k (li_key x)) m2).

Lemma items_get_around : items_get k (m1 ++ m ++ m2) = items_get k m.
Proof.
  unfold items_get. rewrite !filter_app, (filter_none _ m1), (filter_none _ m2).
  - by rewrite app_nil_r.
  - eapply Forall_impl; [exact H2|]. simpl. intros x Hx E. rewrite E in Hx. key_order.
  - eapply Forall_impl; [exact H1|]. simpl. intros x Hx E. rewrite E in Hx. key_order.
Qed.

Lemma items_put_around v : items_put k v (m1 ++ m ++ m2) = m1 ++ items_put k v m ++ m2.
Proof.
  unfold items_put. rewrite !filter_app.
  rewrite (filter_all (fun x => key_ltb (li_key x) k = true) m1),
    (filter_none (fun x => key_ltb (li_key x) k = true) m2),
    (filter_none (fun x => key_ltb k (li_key x) = true) m1),
    (filter_all (fun x => key_ltb k (li_key x) = true) m2).
  - rewrite app_nil_r. simpl. by rewrite <- !app_assoc.
  - eapply Forall_impl; [exact H2|]. simpl. auto using key_ltb_true.
  - eapply Forall_impl; [exact H1|]. simpl. auto using key_ltb_not, key_lt_le.
  - eapply Forall_impl; [exact H2|]. simpl. auto using key_ltb_not, key_lt_le.
  - eapply Forall_impl; [exact H1|]. simpl. auto using key_ltb_true.
Qed.

Lemma items_remove_around : items_remove k (m1 ++ m ++ m2) = m1 ++ items_remove k m ++ m2.
Proof.
  unfold items_remove. rewrite !filter_app, (filter_all _ m1), (filter_all _ m2); [done|..].
  - eapply Forall_impl; [exact H2|]. simpl. intros x Hx E. rewrite E in Hx. key_order.
  - eapply Forall_impl; [exact H1|]. simpl. intros x Hx E. rewrite E in Hx. key_order.
Qed.
End around_key.

Lemma items_put_nil k v : items_put k v [] = [BafsLeafItem_new k v].
Proof. done. Qed.
Lemma items_put_same k v w : items_put k v [BafsLeafItem_new k w] = [BafsLeafItem_new k v].
Proof.
  unfold items_put. by rewrite !filter_cons_False by (apply key_ltb_not, key_le_refl).
Qed.

(** ** The invariant *)

(** Fewest children of an internal node other than the root: the smaller half of
    a split of [INTERNAL_MAX_ITEMS + 1] items. *)
Definition MIN_CHILDREN : Z := 45.

Section invariant.
Context (P : BafsKey -> Prop).

(** The first separator of a list of children, when there is one. *)
Definition starts_at (mid : option BafsKey) (its : list BafsInternalItem) : Prop :=
  match its with [] => True | it :: _ => mid = Some (ii_key it) end.

(** Consecutive children covering the interval from [lo] to [hi]: the first child
    starts at [lo], every later one at its separator. *)
Fixpoint seg (R : Z -> option BafsKey -> option BafsKey -> list BafsLeafItem -> list Z -> Prop)
    (lo : option BafsKey) (its : list BafsInternalItem) (hi : option BafsKey)
    (ms : list BafsLeafItem) (fp : list Z) : Prop :=
  match its with
  | [] => lo = hi /\ ms = [] /\ fp = []
  | it :: rest => exists mid m1 m2 f1 f2,
      ms = m1 ++ m2 /\ fp = f1 ++ f2 /\ R (ii_child_block it) lo mid m1 f1
      /\ starts_at mid rest /\ seg R mid rest hi m2 f2
  end.

(** A node with a lower bound stores it as its first separator. *)
Definition first_sep (lo : option BafsKey) (its : list BafsInternalItem) : Prop :=
  match lo, its with Some l, it :: _ => ii_key it = l | _, _ => True end.

(** [tree_at rd lvl minc a lo hi ms fp]: the block at [a], read through [rd], is
    the root of a subtree of height [lvl] with at least [minc] children, for keys
    between [lo] and [hi], holding the items [ms] in order, stored in the blocks
    [fp]. *)
Fixpoint tree_at (rd : Z -> result BafsTreeNode) (lvl : nat) (minc : Z) (a : Z)
    (lo hi : option BafsKey) (ms : list BafsLeafItem) (fp : list Z) : Prop :=
  exists node, rd a = Ok node /\ node_wf node /\ node_level node = Z.of_nat lvl /\ below lo hi
  /\ match lvl with
     | O => ms = node_leaf_items node /\ fp = [a] /\ items_sorted ms /\ Forall (item_ok P lo hi) ms
     | S lvl' =>
         minc <= len (node_internal_items node) <= INTERNAL_MAX_ITEMS
         /\ Forall (fun it => P (ii_key it)) (node_internal_items node)
         /\ first_sep lo (node_internal_items node)
         /\ exists fp', fp = a :: fp'
            /\ seg (tree_at rd lvl' MIN_CHILDREN) lo (node_internal_items node) hi ms fp'
     end.

Lemma item_ok_widen_hi lo s hi it :
  item_ok P lo (Some s) it -> below (Some s) hi -> item_ok P lo hi it.
Proof. intros (? & ? & ?) ?. split; eauto using in_bounds_widen_hi. Qed.

Lemma item_ok_widen_lo lo s hi it :
  item_ok P (Some s) hi it -> below lo (Some s) -> item_ok P lo hi it.
Proof. intros (? & ? & ?) ?. split; eauto using in_bounds_widen_lo. Qed.

Section segments.
Context (R R' : Z -> option BafsKey -> option BafsKey -> list BafsLeafItem -> list Z -> Prop).

Lemma seg_app lo a b hi ms fp :
  seg R lo (a ++ b) hi ms fp <->
  exists mid m1 m2 f1 f2, ms = m1 ++ m2 /\ fp = f1 ++ f2 /\ seg R lo a mid m1 f1
    /\ (a <> [] -> starts_at mid b) /\ seg R mid b hi m2 f2.
Proof.
  revert lo ms fp. induction a as [|it a IH]; intros lo ms fp; simpl.
  { split.
    - intros Hb. by exists lo, [], ms, [], fp.
    - intros (mid & m1 & m2 & f1 & f2 & -> & -> & (-> & -> & ->) & _ & Hb). done. }
  split.
  - intros (mid & m1 & m2 & f1 & f2 & -> & -> & HR & Hst & Hseg).
    apply IH in Hseg as (mid' & m3 & m4 & f3 & f4 & -> & -> & Ha & Hst' & Hb).
    exists mid', (m1 ++ m3), m4, (f1 ++ f3), f4. rewrite <- !app_assoc.
    split; [done|]. split; [done|]. split; [|split; [|done]].
    + exists mid, m1, m3, f1, f3. do 3 (split; [done|]). split; [by destruct a|done].
    + intros _. destruct a; [|by apply Hst']. destruct Ha as (-> & _ & _). done.
  - intros (mid & m1 & m2 & f1 & f2 & -> & -> & (mid' & m3 & m4 & f3 & f4 & -> & -> & HR & Hst & Ha) & Hst' & Hb).
    exists mid', m3, (m4 ++ m2), f3, (f4 ++ f2). rewrite <- !app_assoc.
    do 3 (split; [done|]). split.
    + destruct a; [|done]. destruct Ha as (-> & _ & _). by apply Hst'.
    + apply IH. exists mid, m4, m2, f4, f2. do 3 (split; [done|]). split; [by intros; apply Hst'|done].
Qed.

Lemma seg_mono lo its hi ms fp :
  (forall it lo hi m f, it ∈ its -> R (ii_child_block it) lo hi m f -> incl f fp ->
     R' (ii_child_block it) lo hi m f) ->
  seg R lo its hi ms fp -> seg R' lo its hi ms fp.
Proof.
  revert lo ms fp. induction its as [|it its IH]; intros lo ms fp HR; simpl; [done|].
  intros (mid & m1 & m2 & f1 & f2 & -> & -> & Hr & Hst & Hseg).
  exists mid, m1, m2, f1, f2. do 2 (split; [done|]). split; [|split; [done|]].
  - apply HR; [left|done|]. by apply incl_appl, incl_refl.
  - apply IH; [|done]. intros it' lo' hi' m f Hit Hr' Hf. apply HR; [by right|done|].
    by apply incl_appr.
Qed.

(** What every child guarantees, a segment guarantees. *)
Context (HR : forall a lo hi m f, R a lo hi m f ->
           items_sorted m /\ Forall (item_ok P lo hi) m /\ below lo hi).

Lemma seg_items lo its hi ms fp :
  seg R lo its hi ms fp -> its <> [] ->
  items_sorted ms /\ Forall (item_ok P lo hi) ms /\ below lo hi.
Proof.
  revert lo ms fp. induction its as [|it its IH]; intros lo ms fp; simpl; [done|].
  intros (mid & m1 & m2 & f1 & f2 & -> & -> & Hr & Hst & Hseg) _.
  destruct (HR _ _ _ _ _ Hr) as (Hs1 & Hi1 & Hb1). destruct its as [|it' its].
  { destruct Hseg as (-> & -> & ->). by rewrite app_nil_r. }
  simpl in Hst. subst mid. destruct (IH _ _ _ Hseg) as (Hs2 & Hi2 & Hb2); [done|].
  split; [|split; [|by eapply below_trans]].
  - unfold items_sorted in *. rewrite fmap_app. apply StronglySorted_app_2; [|done..].
    intros x1 x2 (y1 & -> & Hy1)%list_elem_of_fmap (y2 & -> & Hy2)%list_elem_of_fmap.
    rewrite Forall_forall in Hi1, Hi2. destruct (Hi1 _ Hy1) as (_ & H1 & _).
    destruct (Hi2 _ Hy2) as (_ & H2 & _). bounds.
  - apply Forall_app. split; eapply Forall_impl; eauto using item_ok_widen_hi, item_ok_widen_lo.
Qed.

Lemma seg_seps lo its hi ms fp :
  seg R lo its hi ms fp ->
  StronglySorted key_lt (ii_key <$> tail its)
  /\ Forall (fun it => below lo (Some (ii_key it)) /\ below (Some (ii_key it)) hi) (tail its).
Proof.
  revert lo ms fp. induction its as [|it its IH]; intros lo ms fp; simpl.
  { split; constructor. }
  intros (mid & m1 & m2 & f1 & f2 & -> & -> & Hr & Hst & Hseg).
  destruct (HR _ _ _ _ _ Hr) as (_ & _ & Hb1). destruct its as [|it' its]; [split; constructor|].
  simpl in Hst. subst mid. destruct (seg_items _ _ _ _ _ Hseg) as (_ & _ & Hb2); [done|].
  destruct (IH _ _ _ Hseg) as [Hs Hall]. simpl in *. csimpl. split.
  - constructor; [done|]. apply Forall_fmap. eapply Forall_impl; [exact Hall|]. by intros x [? _].
  - constructor; [done|]. eapply Forall_impl; [exact Hall|]. intros x [H1 H2].
    split; [by eapply below_trans|done].
Qed.
End segments.

Lemma tree_at_items rd lvl minc a lo hi ms fp :
  tree_at rd lvl minc a lo hi ms fp ->
  items_sorted ms /\ Forall (item_ok P lo hi) ms /\ below lo hi.
Proof.
  revert minc a lo hi ms fp. induction lvl as [|lvl IH]; intros minc a lo hi ms fp; simpl.
  - by intros (node & _ & _ & _ & Hb & -> & _ & ? & ?).
  - intros (node & _ & _ & _ & Hb & Hc & _ & _ & fp' & -> & Hseg).
    destruct (node_internal_items node) as [|it its] eqn:E.
    + destruct Hseg as (-> & -> & ->). split; [constructor|]. split; [constructor|done].
    + eapply seg_items; [|exact Hseg|done]. intros. by eapply IH.
Qed.

Lemma seg_Forall (R : Z -> option BafsKey -> option BafsKey -> list BafsLeafItem -> list Z -> Prop)
    (Q : BafsLeafItem -> Prop) lo its hi ms fp :
  (forall a lo hi m f, R a lo hi m f -> Forall Q m) -> seg R lo its hi ms fp -> Forall Q ms.
Proof.
  intros HR. revert lo ms fp. induction its as [|it its IH]; intros lo ms fp; simpl.
  - by intros (_ & -> & _).
  - intros (mid & m1 & m2 & f1 & f2 & -> & -> & Hr & _ & Hseg). apply Forall_app. eauto.
Qed.

Lemma tree_at_leaf_items_wf rd lvl minc a lo hi ms fp :
  tree_at rd lvl minc a lo hi ms fp -> Forall leaf_item_wf ms.
Proof.
  revert minc a lo hi ms fp. induction lvl as [|lvl IH]; intros minc a lo hi ms fp; simpl.
  - intros (node & _ & Hwf & Hl & _ & -> & _). by apply (nwf_leaf _ Hwf Hl).
  - intros (node & _ & _ & _ & _ & _ & _ & _ & fp' & -> & Hseg). eapply seg_Forall; [|exact Hseg]. eauto.
Qed.

Lemma tree_at_frame rd rd' lvl minc a lo hi ms fp :
  (forall x, x ∈ fp -> rd' x = rd x) ->
  tree_at rd lvl minc a lo hi ms fp -> tree_at rd' lvl minc a lo hi ms fp.
Proof.
  revert minc a lo hi ms fp. induction lvl as [|lvl IH]; intros minc a lo hi ms fp Hrd; simpl.
  - intros (node & Ha & Hwf & Hl & Hb & -> & -> & ? & ?). exists node.
    rewrite Hrd by (by left). do 7 (split; [done|]). done.
  - intros (node & Ha & Hwf & Hl & Hb & Hc & HP & Hf & fp' & -> & Hseg). exists node.
    rewrite Hrd by (by left). do 4 (split; [done|]). split; [done|]. split; [done|]. split; [done|].
    exists fp'. split; [done|]. eapply seg_mono; [|exact Hseg].
    intros it lo' hi' m f _ Ht Hincl. eapply IH; [|exact Ht].
    intros x Hx. apply Hrd. right. apply list_elem_of_In, Hincl, list_elem_of_In, Hx.
Qed.

Lemma tree_at_root_in_fp rd lvl minc a lo hi ms fp :
  tree_at rd lvl minc a lo hi ms fp -> a ∈ fp.
Proof. destruct lvl; intros; simpl in *; split_hyps; subst; by left. Qed.

Lemma tree_at_minc rd lvl minc minc' a lo hi ms fp :
  minc' <= minc -> tree_at rd lvl minc a lo hi ms fp -> tree_at rd lvl minc' a lo hi ms fp.
Proof.
  intros Hm. destruct lvl; [done|]. simpl.
  intros (node & Ha & Hwf & Hl & Hb & Hc & ?). exists node. do 4 (split; [done|]).
  split; [lia|done].
Qed.

(** *** Height *)

Lemma seg_length (R : Z -> option BafsKey -> option BafsKey -> list BafsLeafItem -> list Z -> Prop)
    n lo its hi ms fp :
  (forall a lo hi m f, R a lo hi m f -> n <= len f) ->
  seg R lo its hi ms fp -> n * len its <= len fp.
Proof.
  intros HR. revert lo ms fp. induction its as [|it its IH]; intros lo ms fp; simpl; [lia|].
  intros (mid & m1 & m2 & f1 & f2 & -> & -> & Hr & _ & Hseg).
  apply HR in Hr. apply IH in Hseg. rewrite length_app. lia.
Qed.

Lemma tree_at_size rd lvl a lo hi ms fp :
  tree_at rd lvl MIN_CHILDREN a lo hi ms fp -> 45 ^ Z.of_nat lvl <= len fp.
Proof.
  revert a lo hi ms fp. induction lvl as [|lvl IH]; intros a lo hi ms fp; simpl.
  - intros (node & _ & _ & _ & _ & _ & -> & _). simpl. lia.
  - intros (node & _ & _ & _ & _ & Hc & _ & _ & fp' & -> & Hseg).
    apply (seg_length _ (45 ^ Z.of_nat lvl)) in Hseg; [|apply IH].
    unfold MIN_CHILDREN in *. replace (Z.of_nat (S lvl)) with (1 + Z.of_nat lvl) by lia.
    rewrite Z.pow_add_r by lia. pose proof (Z.pow_pos_nonneg 45 (Z.of_nat lvl)).
    simpl length. nia.
Qed.

(** A tree that fits into the address space has at most twelve levels of internal
    nodes. *)
Lemma tree_height rd lvl a lo hi ms fp :
  tree_at rd lvl 2 a lo hi ms fp -> len fp < 2 ^ 64 -> (lvl <= 12)%nat.
Proof.
  destruct lvl as [|lvl]; simpl; [lia|].
  intros (node & _ & _ & _ & _ & Hc & _ & _ & fp' & -> & Hseg) Hl.
  apply (seg_length _ (45 ^ Z.of_nat lvl)) in Hseg; [|apply tree_at_size].
  destruct (decide (lvl <= 11)%nat); [lia|].
  pose proof (Z.pow_le_mono_r 45 12 (Z.of_nat lvl)) as Hm.
  assert (45 ^ 12 * 2 <= len fp') by nia. simpl length in Hl. lia.
Qed.

(** *** Descending towards a key *)

(** The children of an internal node, split around the one
    [find_child_index_for_key] selects for [k]. *)
Record focus (rd : Z -> result BafsTreeNode) (lvl : nat) (lo hi : option BafsKey)
    (its : list BafsInternalItem) (ms : list BafsLeafItem) (fp : list Z) (k : BafsKey)
    (its1 : list BafsInternalItem) (it : BafsInternalItem) (its2 : list BafsInternalItem)
    (mid1 mid2 : option BafsKey) (m1 m m2 : list BafsLeafItem) (f1 f f2 : list Z) : Prop := {
  fo_items : its = its1 ++ it :: its2;
  fo_index : find_child_index_for_key its k = length its1;
  fo_ms : ms = m1 ++ m ++ m2;
  fo_fp : fp = f1 ++ f ++ f2;
  fo_left : seg (tree_at rd lvl MIN_CHILDREN) lo its1 mid1 m1 f1;
  fo_child : tree_at rd lvl MIN_CHILDREN (ii_child_block it) mid1 mid2 m f;
  fo_right : seg (tree_at rd lvl MIN_CHILDREN) mid2 its2 hi m2 f2;
  fo_mid1 : its1 <> [] -> mid1 = Some (ii_key it);
  fo_mid2 : starts_at mid2 its2;
  fo_bounds : in_bounds mid1 mid2 k;
  fo_before : Forall (fun x => key_lt (li_key x) k) m1;
  fo_after : Forall (fun x => key_lt k (li_key x)) m2;
}.

Lemma tree_focus rd lvl lo hi its ms fp k :
  seg (tree_at rd lvl MIN_CHILDREN) lo its hi ms fp -> its <> [] -> in_bounds lo hi k ->
  exists its1 it its2 mid1 mid2 m1 m m2 f1 f f2,
    focus rd lvl lo hi its ms fp k its1 it its2 mid1 mid2 m1 m m2 f1 f f2.
Proof.
  intros Hseg Hne Hk. destruct its as [|it0 rest]; [done|].
  destruct (seg_seps _ (tree_at_items rd lvl MIN_CHILDREN) _ _ _ _ _ Hseg) as [Hs _].
  destruct (find_child_split it0 rest k Hs) as (a & it & b & E & Hlen & Ha & Hb).
  rewrite E in *. apply seg_app in Hseg as (mid1 & m1 & m' & f1 & f' & -> & -> & Hl & Hst1 & Hseg).
  destruct Hseg as (mid2 & m & m2 & f & f2 & -> & -> & Hc & Hst2 & Hr). simpl in Hst1.
  assert (ge_lo mid1 k /\ Forall (fun x => key_lt (li_key x) k) m1) as [Hlo Hm1].
  { destruct a as [|a0 a'].
    - destruct Hl as (<- & -> & _). split; [apply Hk|constructor].
    - rewrite Hst1 in * by done. specialize (Ha ltac:(done)). split; [exact Ha|].
      destruct (seg_items _ (tree_at_items rd lvl MIN_CHILDREN) _ _ _ _ _ Hl) as (_ & Hi & _); [done|].
      eapply Forall_impl; [exact Hi|]. intros x (_ & Hx & _). bounds. }
  assert (lt_hi mid2 k /\ Forall (fun x => key_lt k (li_key x)) m2) as [Hhi Hm2].
  { destruct b as [|b0 b'].
    - destruct Hr as (-> & -> & _). split; [apply Hk|constructor].
    - simpl in Hst2. subst mid2. specialize (Hb _ _ eq_refl). split; [exact Hb|].
      destruct (seg_items _ (tree_at_items rd lvl MIN_CHILDREN) _ _ _ _ _ Hr) as (_ & Hi & _); [done|].
      eapply Forall_impl; [exact Hi|]. intros x (_ & Hx & _). bounds. }
  exists a, it, b, mid1, mid2, m1, m, m2, f1, f, f2. by split.
Qed.
End invariant.

(** ** Search *)

Section lookup.
Context {D : Type} `{BlockDevice D} (P : BafsKey -> Prop) (device : D) (cache : gmap Z (list Z)).

Lemma items_get_found k v l1 l2 :
  Forall (fun x => key_lt (li_key x) k) l1 -> Forall (fun x => key_lt k (li_key x)) l2 ->
  items_get k (l1 ++ BafsLeafItem_new k v :: l2) = Some v.
Proof.
  intros H1 H2. rewrite (cons_middle (BafsLeafItem_new k v)), items_get_around by done.
  unfold items_get. by rewrite filter_cons_True.
Qed.

Lemma items_get_absent k l1 l2 :
  Forall (fun x => key_lt (li_key x) k) l1 -> Forall (fun x => key_lt k (li_key x)) l2 ->
  items_get k (l1 ++ l2) = None.
Proof. intros H1 H2. by rewrite <- (app_nil_l l2), items_get_around. Qed.

Lemma lookup_loop_correct fuel lvl minc a lo hi ms fp k :
  1 <= minc -> (lvl < fuel)%nat ->
  tree_at P (read_tree_node device cache) lvl minc a lo hi ms fp -> in_bounds lo hi k ->
  lookup_loop fuel device cache a k = Ok (items_get k ms).
Proof.
  revert fuel minc a lo hi ms fp. induction lvl as [|lvl IH];
    intros [|fuel] minc a lo hi ms fp Hm Hf Ht Hk; try lia;
    destruct Ht as (node & Ha & Hwf & Hl & Hb & Ht); cbn [lookup_loop]; rewrite Ha; cbn [obind]; rewrite Hl.
  - destruct Ht as (-> & _ & Hs & _). case_bool.
    destruct (search_leaf_spec k _ Hs) as (l1 & l2 & H1 & H2 & [[E ->]|(v & E & ->)]); rewrite E.
    + by rewrite items_get_absent.
    + unfold index. rewrite list_lookup_middle by done. simpl. by rewrite items_get_found.
  - destruct Ht as (Hc & _ & _ & fp' & -> & Hseg). case_bool.
    destruct (tree_focus P _ _ _ _ _ _ _ k Hseg) as (a1 & it & b & mid1 & mid2 & m1 & m & m2 & f1 & f & f2 & Hfo);
      [intros E; rewrite E in Hc; simpl in Hc; lia|done|]. destruct Hfo.
    rewrite fo_index0. unfold index. rewrite fo_items0, list_lookup_middle by done. cbn [obind].
    rewrite (IH _ MIN_CHILDREN _ mid1 mid2 m f); [|unfold MIN_CHILDREN; lia|lia|done..].
    by rewrite fo_ms0, items_get_around.
Qed.
End lookup.
