(* ===== verification/BTreeWrite.v ===== *)
(** * BTreeWrite: copy-on-write steps and rewriting of internal nodes

    Every write of a tree operation goes to a block the bump allocator has not
    handed out before ([extends]).  The path from a rewritten child up to the
    root is rewritten with it, in one block or split in two ([rewritten]), and
    the blocks of the old tree, the new tree and the list of superseded blocks
    add up ([blocks_accounted]). *)

From S2P Require Import Prelude Checksum Device Superblock Node NodeCodec BTree BTreeInv.

(** ** Copy-on-write steps *)

(** [c'] extends [c]: blocks below the allocator mark of [c] are untouched, new
    cache entries are whole blocks behind it, and [fr] was appended to the list
    of superseded blocks. *)
Record extends (c c' : cow) (fr : list Z) : Prop := {
  ext_next : next_free_block c <= next_free_block c';
  ext_freed : freed_blocks c' = freed_blocks c ++ fr;
  ext_old : forall x, x < next_free_block c -> dirty_cache c' !! x = dirty_cache c !! x;
  ext_new : forall x b, dirty_cache c' !! x = Some b ->
    dirty_cache c !! x = Some b
    \/ next_free_block c <= x < next_free_block c' /\ length b = 4096%nat /\ bytes_ok b;
}.

Lemma extends_refl c : extends c c [].
Proof. split; [lia|by rewrite app_nil_r|done|auto]. Qed.

Lemma extends_trans c1 c2 c3 fr1 fr2 :
  extends c1 c2 fr1 -> extends c2 c3 fr2 -> extends c1 c3 (fr1 ++ fr2).
Proof.
  intros [N1 F1 O1 W1] [N2 F2 O2 W2]. split.
  - lia.
  - by rewrite F2, F1, app_assoc.
  - intros x Hx. rewrite O2 by lia. by apply O1.
  - intros x b [Hb|(Hx & Hb)]%W2; [|right; split; [lia|done]].
    apply W1 in Hb as [Hb|(Hx & Hb)]; [by left|right; split; [lia|done]].
Qed.

Section writes.
Context {D : Type} `{BlockDevice D} (device : D).

Abbreviation rd c := (read_tree_node device (dirty_cache c)).

Lemma extends_rd c c' fr x : extends c c' fr -> x < next_free_block c -> rd c' x = rd c x.
Proof. intros He Hx. unfold read_tree_node, read_block. by rewrite (ext_old _ _ _ He). Qed.

Lemma extends_tree P c c' fr lvl minc a lo hi ms fp :
  extends c c' fr -> Forall (fun x => x < next_free_block c) fp ->
  tree_at P (rd c) lvl minc a lo hi ms fp -> tree_at P (rd c') lvl minc a lo hi ms fp.
Proof.
  intros He Hfp. apply tree_at_frame. intros x Hx. rewrite Forall_forall in Hfp.
  eapply extends_rd; eauto.
Qed.

Lemma extends_seg P c c' fr lvl lo its hi ms fp :
  extends c c' fr -> Forall (fun x => x < next_free_block c) fp ->
  seg (tree_at P (rd c) lvl MIN_CHILDREN) lo its hi ms fp ->
  seg (tree_at P (rd c') lvl MIN_CHILDREN) lo its hi ms fp.
Proof.
  intros He Hfp. apply seg_mono. intros it lo' hi' m f _ Ht Hincl.
  eapply extends_tree; [done| |exact Ht]. rewrite Forall_forall in *.
  intros x Hx. apply Hfp, list_elem_of_In, Hincl, list_elem_of_In, Hx.
Qed.

Lemma push_freed_block_extends a c :
  exists c', push_freed_block a c = (c', Ok tt) /\ extends c c' [a]
    /\ next_free_block c' = next_free_block c.
Proof.
  eexists. split; [reflexivity|]. split; [|done]. split; simpl; auto. lia.
Qed.

Lemma take_next_free_block_extends c :
  next_free_block c + 1 < 2 ^ 64 ->
  exists c', take_next_free_block c = (c', Ok (next_free_block c)) /\ extends c c' []
    /\ next_free_block c' = next_free_block c + 1 /\ dirty_cache c' = dirty_cache c.
Proof.
  intros Hn. unfold take_next_free_block, st_bind, st_get, st_lift, st_modify, st_ret.
  rewrite checked_add_Ok by done. eexists. split; [reflexivity|].
  split; [|done]. split; simpl; [lia|by rewrite app_nil_r|done|auto].
Qed.

Lemma node_sealed_wf n : node_wf n -> node_wf (node_sealed n).
Proof. by intros []. Qed.

(** Writing a node to a block the allocator handed out since [c0]. *)
Lemma write_node_extends c0 c fr n :
  extends c0 c fr -> node_wf n ->
  next_free_block c0 <= node_self_block_address n < next_free_block c ->
  exists c', write_tree_node_to_cache n c = (c', Ok tt) /\ extends c0 c' fr
    /\ next_free_block c' = next_free_block c
    /\ rd c' (node_self_block_address n) = Ok (node_sealed n)
    /\ (forall x, x <> node_self_block_address n -> rd c' x = rd c x).
Proof.
  intros [Hn Hf Ho Hw] Hwf Ha. unfold write_tree_node_to_cache.
  rewrite (st_bind_lift _ _ _ (node_block n)) by by apply serialise_node_layout.
  unfold write_block_to_cache. pose proof (length_node_block n Hwf) as Hlen.
  destruct (Z.eqb_spec (len (node_block n)) 4096); [|lia].
  eexists. split; [reflexivity|]. split; [split; simpl|split; [done|split]].
  - done.
  - done.
  - intros x Hx. rewrite lookup_insert_ne by lia. by apply Ho.
  - intros x b Hb. destruct (decide (node_self_block_address n = x)) as [<-|Hne].
    + rewrite lookup_insert_eq in Hb. injection Hb as <-. right. split; [done|].
      split; [done|]. by apply node_block_ok.
    + rewrite lookup_insert_ne in Hb by done. auto.
  - unfold read_tree_node, read_block. simpl. rewrite lookup_insert_eq. simpl.
    by apply deserialise_node_layout.
  - intros x Hx. unfold read_tree_node, read_block. simpl. by rewrite lookup_insert_ne.
Qed.

(** The copy-on-write step of insertion and deletion. *)
Lemma write_cow_clone_extends node a g c :
  next_free_block c + 1 < 2 ^ 64 -> node_wf (node_set_location node (next_free_block c) g) ->
  exists c', write_cow_clone node a g c = (c', Ok (next_free_block c)) /\ extends c c' [a]
    /\ next_free_block c' = next_free_block c + 1
    /\ rd c' (next_free_block c) = Ok (node_sealed (node_set_location node (next_free_block c) g)).
Proof.
  intros Hn Hwf. unfold write_cow_clone.
  destruct (push_freed_block_extends a c) as (c1 & E1 & X1 & N1). rewrite (st_bind_Ok _ _ _ _ _ E1).
  destruct (take_next_free_block_extends c1) as (c2 & E2 & X2 & N2 & _); [lia|].
  rewrite (st_bind_Ok _ _ _ _ _ E2), N1.
  pose proof (extends_trans _ _ _ _ _ X1 X2) as X12.
  destruct (write_node_extends c c2 _ _ X12 Hwf) as (c3 & E3 & X3 & N3 & R3 & _); [simpl; lia|].
  rewrite (st_bind_Ok _ _ _ _ _ E3). exists c3. split; [done|]. split; [done|]. split; [lia|done].
Qed.

(** Writing both halves of a split. *)
Lemma write_split_extends c0 c fr l r k :
  extends c0 c fr -> node_wf l -> node_wf r ->
  node_self_block_address l <> node_self_block_address r ->
  next_free_block c0 <= node_self_block_address l < next_free_block c ->
  next_free_block c0 <= node_self_block_address r < next_free_block c ->
  exists c', write_split (l, r, k) c
    = (c', Ok (node_self_block_address l,
               Some {| sr_key := k; sr_child_block := node_self_block_address r |}))
    /\ extends c0 c' fr /\ next_free_block c' = next_free_block c
    /\ rd c' (node_self_block_address l) = Ok (node_sealed l)
    /\ rd c' (node_self_block_address r) = Ok (node_sealed r).
Proof.
  intros X Hl Hr Hne Hal Har. unfold write_split.
  destruct (write_node_extends c0 c _ _ X Hl Hal) as (c1 & E1 & X1 & N1 & R1 & O1).
  rewrite (st_bind_Ok _ _ _ _ _ E1).
  destruct (write_node_extends c0 c1 _ _ X1 Hr) as (c2 & E2 & X2 & N2 & R2 & O2); [lia|].
  rewrite (st_bind_Ok _ _ _ _ _ E2). exists c2. split; [done|]. split; [done|]. split; [lia|].
  split; [by rewrite O2|done].
Qed.
End writes.

(** ** The result of rewriting a subtree *)

Section rewriting.
Context {D : Type} `{BlockDevice D} (device : D) (P : BafsKey -> Prop).

Abbreviation rd c := (read_tree_node device (dirty_cache c)).

(** One subtree over the same interval, or two subtrees around a new separator. *)
Definition subtree_result (rd : Z -> result BafsTreeNode) (lvl : nat) (minc : Z)
    (lo hi : option BafsKey) (ms : list BafsLeafItem) (a : Z) (split : option SplitResult)
    (fp : list Z) : Prop :=
  match split with
  | None => tree_at P rd lvl minc a lo hi ms fp
  | Some s => exists m1 m2 f1 f2,
      ms = m1 ++ m2 /\ fp = f1 ++ f2 /\ P (sr_key s) /\ key_wf (sr_key s)
      /\ (lvl = 0%nat -> m1 <> [])
      /\ tree_at P rd lvl MIN_CHILDREN a lo (Some (sr_key s)) m1 f1
      /\ tree_at P rd lvl MIN_CHILDREN (sr_child_block s) (Some (sr_key s)) hi m2 f2
  end.

(** The blocks of the old tree and the newly allocated ones are those of the new
    tree and the superseded ones. *)
Definition blocks_accounted (c c' : cow) (fp fp' fr : list Z) : Prop :=
  fp ++ seqZ (next_free_block c) (next_free_block c' - next_free_block c) ≡ₚ fp' ++ fr.

Lemma seqZ_1 a : seqZ a 1 = [a].
Proof. rewrite seqZ_cons by lia. by rewrite seqZ_nil. Qed.
Lemma seqZ_2 a : seqZ a 2 = [a; a + 1].
Proof. rewrite seqZ_cons by lia. by rewrite seqZ_1. Qed.

(** Nodes as the operations write them. *)
Lemma leaf_wf_intro n :
  node_level n = 0 -> is_u8 (node_flags n) -> is_u64 (node_self_block_address n) ->
  is_u64 (node_generation n) -> node_internal_items n = [] ->
  node_item_count n = len (node_leaf_items n) -> Forall leaf_item_wf (node_leaf_items n) ->
  leaf_serialised_size (node_leaf_items n) <= 4096 -> node_wf n.
Proof. intros Hl. split; auto; rewrite Hl; [ilia|done]. Qed.

Lemma internal_wf_intro n :
  0 < node_level n -> is_u8 (node_level n) -> is_u8 (node_flags n) ->
  is_u64 (node_self_block_address n) -> is_u64 (node_generation n) -> node_leaf_items n = [] ->
  node_item_count n = len (node_internal_items n) ->
  Forall internal_item_wf (node_internal_items n) -> len (node_internal_items n) <= INTERNAL_MAX_ITEMS ->
  node_wf n.
Proof.
  unfold INTERNAL_MAX_ITEMS. intros Hl. split; [done..|lia|]. intros _. do 3 (split; [done|]). lia.
Qed.

Lemma leaf_at_intro (r : Z -> result BafsTreeNode) a n lo hi minc :
  r a = Ok (node_sealed n) -> node_wf n -> node_level n = 0 -> below lo hi ->
  items_sorted (node_leaf_items n) -> Forall (item_ok P lo hi) (node_leaf_items n) ->
  tree_at P r 0 minc a lo hi (node_leaf_items n) [a].
Proof. intros. exists (node_sealed n). auto 10 using node_sealed_wf. Qed.

Lemma internal_at_intro (r : Z -> result BafsTreeNode) a n lvl lo hi ms fp minc :
  r a = Ok (node_sealed n) -> node_wf n -> node_level n = Z.of_nat (S lvl) -> below lo hi ->
  minc <= len (node_internal_items n) <= INTERNAL_MAX_ITEMS ->
  Forall (fun it => P (ii_key it)) (node_internal_items n) ->
  first_sep lo (node_internal_items n) ->
  seg (tree_at P r lvl MIN_CHILDREN) lo (node_internal_items n) hi ms fp ->
  tree_at P r (S lvl) minc a lo hi ms (a :: fp).
Proof. intros. exists (node_sealed n). eauto 15 using node_sealed_wf. Qed.

Lemma items_sorted_app_inv a b :
  items_sorted (a ++ b) -> items_sorted a /\ items_sorted b
  /\ forall x y, x ∈ a -> y ∈ b -> key_lt (li_key x) (li_key y).
Proof.
  unfold items_sorted. rewrite fmap_app, StronglySorted_app. intros (Hab & Ha & Hb).
  repeat split; auto. intros x y Hx Hy. apply Hab; by apply list_elem_of_fmap_2.
Qed.

Lemma blocks_accounted_bound c c' fr fp fp' :
  extends c c' fr -> blocks_accounted c c' fp fp' fr ->
  Forall (fun x => 0 <= x < next_free_block c) fp -> 0 <= next_free_block c ->
  Forall (fun x => 0 <= x < next_free_block c') fp'.
Proof.
  intros X Hacc Hfp Hn. pose proof (ext_next _ _ _ X). apply Forall_forall. intros x Hx.
  assert (x ∈ fp ++ seqZ (next_free_block c) (next_free_block c' - next_free_block c)) as Hin.
  { unfold blocks_accounted in Hacc. rewrite Hacc. apply elem_of_app. by left. }
  apply elem_of_app in Hin as [Hin|Hin].
  - rewrite Forall_forall in Hfp. specialize (Hfp x Hin). simpl in Hfp. lia.
  - apply elem_of_seqZ in Hin. lia.
Qed.

(** Where the results of an insertion live. *)
Lemma subtree_result_addresses r lvl minc lo hi ms a split fp (Q : Z -> Prop) :
  subtree_result r lvl minc lo hi ms a split fp -> Forall Q fp ->
  Q a /\ forall s, split = Some s -> Q (sr_child_block s).
Proof.
  rewrite Forall_forall. destruct split as [s|]; simpl.
  - intros (m1 & m2 & f1 & f2 & -> & -> & _ & _ & _ & H1 & H2) HQ.
    apply tree_at_root_in_fp in H1, H2. setoid_rewrite elem_of_app in HQ.
    split; [auto|]. intros ? [= <-]. auto.
  - intros H1 HQ. apply tree_at_root_in_fp in H1. split; [auto|done].
Qed.

(** Accounting for an internal node from that of its child. *)
Lemma blocks_accounted_node c c1 c2 a f1 f f2 f' fp' fr :
  next_free_block c <= next_free_block c1 <= next_free_block c2 ->
  blocks_accounted c c1 f f' fr ->
  (f1 ++ f' ++ f2) ++ seqZ (next_free_block c1) (next_free_block c2 - next_free_block c1) ≡ₚ fp' ->
  blocks_accounted c c2 (a :: f1 ++ f ++ f2) fp' (fr ++ [a]).
Proof.
  unfold blocks_accounted. intros Hn H1 H2.
  replace (next_free_block c2 - next_free_block c)
    with ((next_free_block c1 - next_free_block c) + (next_free_block c2 - next_free_block c1)) by lia.
  rewrite seqZ_app by lia.
  replace (next_free_block c + (next_free_block c1 - next_free_block c)) with (next_free_block c1) by lia.
  set (s1 := seqZ (next_free_block c) _) in *. set (s2 := seqZ (next_free_block c1) _) in *.
  rewrite <- H2. transitivity (a :: f1 ++ (f ++ s1) ++ f2 ++ s2); [solve_Permutation|].
  rewrite H1. solve_Permutation.
Qed.
(** *** Internal nodes *)

Context (g : Z) (Hg : is_u64 g).

(** The items that replace the item of a child: its new location and, after a
    split, the promoted separator. *)
Definition child_items (key : BafsKey) (a : Z) (split : option SplitResult) : list BafsInternalItem :=
  BafsInternalItem_new key a g
  :: match split with
     | None => []
     | Some p => [BafsInternalItem_new (sr_key p) (sr_child_block p) g]
     end.

Lemma subtree_result_seg r lvl lo hi ms a split fp key :
  subtree_result r lvl MIN_CHILDREN lo hi ms a split fp ->
  seg (tree_at P r lvl MIN_CHILDREN) lo (child_items key a split) hi ms fp.
Proof.
  destruct split as [s|]; simpl.
  - intros (m1 & m2 & f1 & f2 & -> & -> & _ & _ & _ & H1 & H2).
    exists (Some (sr_key s)), m1, m2, f1, f2. do 3 (split; [done|]). split; [done|].
    exists hi, m2, [], f2, []. rewrite !app_nil_r. auto 10.
  - intros H1. exists hi, ms, [], fp, []. rewrite !app_nil_r. auto 10.
Qed.

(** Replacing the child in focus. *)
Lemma focus_replace k c c1 fr lvl lo hi its ms fp its1 it its2 mid1 mid2 m1 m m2 f1 f f2 m' a1 split f' :
  focus P (rd c) lvl lo hi its ms fp k its1 it its2 mid1 mid2 m1 m m2 f1 f f2 ->
  extends c c1 fr -> Forall (fun x => x < next_free_block c) fp ->
  subtree_result (rd c1) lvl MIN_CHILDREN mid1 mid2 m' a1 split f' ->
  seg (tree_at P (rd c1) lvl MIN_CHILDREN) lo (its1 ++ child_items (ii_key it) a1 split ++ its2) hi
    (m1 ++ m' ++ m2) (f1 ++ f' ++ f2).
Proof.
  intros [_ _ _ -> Hleft _ Hright Hm1 Hm2 _ _ _] X Hfp Hr. rewrite !Forall_app in Hfp. destruct Hfp as (Hf1 & _ & Hf2).
  apply seg_app. exists mid1, m1, (m' ++ m2), f1, (f' ++ f2). do 2 (split; [done|]).
  split; [by eapply extends_seg|]. split; [exact Hm1|].
  apply seg_app. exists mid2, m', m2, f', f2. do 2 (split; [done|]).
  split; [by apply subtree_result_seg|]. split; [done|]. by eapply extends_seg.
Qed.

Lemma first_sep_replace lo its1 it its2 a1 split :
  first_sep lo (its1 ++ it :: its2) -> first_sep lo (its1 ++ child_items (ii_key it) a1 split ++ its2).
Proof. by destruct lo, its1. Qed.

Lemma child_items_wf r lvl lo hi ms it a1 split fp :
  internal_item_wf it -> P (ii_key it) -> is_u64 a1 ->
  (forall s, split = Some s -> is_u64 (sr_child_block s)) ->
  subtree_result r lvl MIN_CHILDREN lo hi ms a1 split fp ->
  Forall internal_item_wf (child_items (ii_key it) a1 split)
  /\ Forall (fun it => P (ii_key it)) (child_items (ii_key it) a1 split).
Proof.
  intros (Hkw & _) HPk Ha Hs Hr. unfold child_items. destruct split as [s|]; simpl in Hr.
  - destruct Hr as (_ & _ & _ & _ & _ & _ & HPs & Hks & _). specialize (Hs s eq_refl).
    split; repeat (apply Forall_cons; split); try constructor; simpl; auto.
  - split; repeat (apply Forall_cons; split); try constructor; simpl; auto.
Qed.

(** [set_child] and [insert_promoted] together install [child_items]. *)
Lemma set_child_correct its1 it its2 a1 :
  set_child (its1 ++ it :: its2) (length its1) a1 g
  = Ok (its1 ++ BafsInternalItem_new (ii_key it) a1 g :: its2).
Proof.
  unfold set_child, index. rewrite list_lookup_middle by done. cbn [obind].
  by rewrite insert_app_r_alt, Nat.sub_diag by lia.
Qed.

Lemma insert_promoted_correct node its1 it its2 a1 split :
  len (its1 ++ it :: its2) <= 90 ->
  let its' := its1 ++ child_items (ii_key it) a1 split ++ its2 in
  insert_promoted
    (node_set_internal_items node (its1 ++ BafsInternalItem_new (ii_key it) a1 g :: its2)
       (len (its1 ++ it :: its2))) (length its1) split g
  = Ok (node_set_internal_items node its' (len its')).
Proof.
  intros Hc its'. unfold its', child_items. destruct split as [s|]; simpl insert_promoted.
  - unfold vec_insert. rewrite !length_app in *. simpl length in *.
    destruct (Nat.leb_spec (S (length its1)) (length its1 + S (length its2))); [|lia].
    cbn [obind]. rewrite checked_add_Ok by lia. cbn [obind]. unfold node_set_internal_items. simpl.
    do 2 f_equal; [rewrite ?length_app; simpl; lia|].
    rewrite (cons_middle _ its1 its2).
    rewrite app_assoc, take_app_length', drop_app_length' by (rewrite length_app; simpl; lia).
    by rewrite <- app_assoc.
  - rewrite !length_app. done.
Qed.

(** Rewriting an internal node with new children, in one block or split in two. *)
Definition rewritten (lvl : nat) (minc : Z) (lo hi : option BafsKey) (ms : list BafsLeafItem)
    (a : Z) (fp : list Z) (c : cow) (r : cow * result (Z * option SplitResult)) : Prop :=
  exists c' a' split fp', r = (c', Ok (a', split)) /\ extends c c' [a]
    /\ next_free_block c' <= next_free_block c + 2
    /\ fp ++ seqZ (next_free_block c) (next_free_block c' - next_free_block c) ≡ₚ fp'
    /\ subtree_result (rd c') (S lvl) minc lo hi ms a' split fp'.

Section rewrite_internal.
Context (node : BafsTreeNode) (its : list BafsInternalItem) (a : Z) (c : cow) (lvl : nat) (minc : Z)
  (lo hi : option BafsKey) (ms : list BafsLeafItem) (fp : list Z).
Let node' := node_set_internal_items node its (len its).
Context (Hwf : node_wf node) (Hl : node_level node = Z.of_nat (S lvl)) (Hne : its <> [])
  (Hiw : Forall internal_item_wf its) (HPi : Forall (fun it => P (ii_key it)) its)
  (Hfs : first_sep lo its) (Hseg : seg (tree_at P (rd c) lvl MIN_CHILDREN) lo its hi ms fp)
  (Hfp : Forall (fun x => x < next_free_block c) fp)
  (Hn0 : 0 <= next_free_block c) (Hn : next_free_block c + 2 < 2 ^ 64).

(** The copy-on-write clone of the node with its new children. *)
Lemma clone_internal :
  minc <= len its <= 90 ->
  exists c', write_cow_clone node' a g c = (c', Ok (next_free_block c)) /\ extends c c' [a]
    /\ next_free_block c' = next_free_block c + 1
    /\ tree_at P (rd c') (S lvl) minc (next_free_block c) lo hi ms (next_free_block c :: fp).
Proof.
  intros Hc. destruct (nwf_internal _ Hwf) as (Hnl & _); [lia|].
  assert (node_wf (node_set_location node' (next_free_block c) g)) as Hwf'.
  { apply internal_wf_intro; simpl; auto using nwf_flags, nwf_level; unfold INTERNAL_MAX_ITEMS; ilia. }
  destruct (write_cow_clone_extends device node' a g c) as (c' & E & X & N & R); [lia|done|].
  exists c'. split; [done|]. split; [done|]. split; [done|].
  destruct (seg_items P _ (tree_at_items P (rd c) lvl MIN_CHILDREN) _ _ _ _ _ Hseg Hne) as (_ & _ & Hb).
  apply (internal_at_intro _ _ (node_set_location node' (next_free_block c) g)); simpl; auto.
  by eapply extends_seg.
Qed.

Lemma rewrite_internal_fits :
  minc <= len its <= 90 ->
  rewritten lvl minc lo hi ms a fp c
    ((let! new_block := write_cow_clone node' a g in st_ret (new_block, None)) c).
Proof.
  intros Hc. destruct (clone_internal Hc) as (c' & E & X & N & Ht).
  rewrite (st_bind_Ok _ _ _ _ _ E).
  exists c', (next_free_block c), None, (next_free_block c :: fp).
  split; [done|]. split; [done|]. split; [lia|]. split; [|done].
  rewrite N. replace (_ + 1 - _) with 1 by lia. rewrite seqZ_1. solve_Permutation.
Qed.

Lemma rewrite_internal_split_run l1 it l2 :
  its = l1 ++ it :: l2 -> Nat.div2 (length its) = length l1 -> len its < 2 ^ 16 ->
  let right := fresh_node (node_level node) (next_free_block c) g [] (it :: l2) (len (it :: l2)) in
  let left := node_set_location (node_set_internal_items node l1 (len l1)) (next_free_block c + 1) g in
  exists c', split_internal_node node' g a c = (c', Ok (left, right, ii_key it)) /\ extends c c' [a]
    /\ next_free_block c' = next_free_block c + 2.
Proof.
  intros E Hi H16. unfold split_internal_node.
  destruct (push_freed_block_extends a c) as (c1 & E1 & X1 & N1). rewrite (st_bind_Ok _ _ _ _ _ E1).
  change (node_internal_items node') with its. rewrite Hi.
  rewrite (st_bind_lift _ _ _ (it, l1 ++ l2))
    by (unfold vec_remove; rewrite E, list_lookup_middle, take_app_length by done;
        rewrite (cons_middle it), app_assoc, drop_app_length' by (rewrite length_app; simpl; lia); done).
  rewrite drop_app_length, take_app_length. cbn zeta.
  destruct (take_next_free_block_extends c1) as (c2 & E2 & X2 & N2 & _); [lia|].
  rewrite (st_bind_Ok _ _ _ _ _ E2).
  destruct (take_next_free_block_extends c2) as (c3 & E3 & X3 & N3 & _); [lia|].
  rewrite (st_bind_Ok _ _ _ _ _ E3). exists c3. subst its. rewrite length_app in H16. simpl in H16.
  rewrite N2, N1, !wrap_small by (simpl length; lia). split; [done|].
  split; [|lia]. exact (extends_trans _ _ _ _ _ X1 (extends_trans _ _ _ _ _ X2 X3)).
Qed.

Lemma rewrite_internal_splits :
  len its = 91 ->
  rewritten lvl minc lo hi ms a fp c
    ((let! halves := split_internal_node node' g a in write_split halves) c).
Proof.
  intros Hc. destruct (nwf_internal _ Hwf) as (Hnl & _); [lia|].
  assert (length its = 91)%nat as H91 by lia.
  destruct (drop 45 its) as [|it l2] eqn:Ed.
  { apply (f_equal length) in Ed. rewrite length_drop in Ed. simpl in Ed. lia. }
  set (l1 := take 45 its). assert (its = l1 ++ it :: l2) as Eit by (unfold l1; by rewrite <- Ed, take_drop).
  assert (length l1 = 45%nat) as Hl1 by (unfold l1; rewrite length_take; lia).
  assert (length l2 = 45%nat) as Hl2.
  { apply (f_equal length) in Ed. rewrite length_drop in Ed. simpl in Ed. lia. }
  assert (l1 <> []) as Hl1ne by (intros E0; rewrite E0 in Hl1; done).
  destruct (rewrite_internal_split_run l1 it l2 Eit) as (c1 & E1 & X1 & N1); [by rewrite H91, Hl1|lia|].
  rewrite (st_bind_Ok _ _ _ _ _ E1). clearbody l1. rewrite Eit in Hiw, HPi, Hfs, Hseg.
  apply Forall_app in Hiw as [Hiw1 Hiw2]. apply Forall_app in HPi as [HPi1 HPi2].
  set (left := node_set_location _ _ _). set (right := fresh_node _ _ _ _ _ _).
  assert (node_wf left) as HwL.
  { apply internal_wf_intro; simpl; auto using nwf_flags, nwf_level; unfold INTERNAL_MAX_ITEMS; ilia. }
  assert (node_wf right) as HwR.
  { apply internal_wf_intro; simpl; auto using nwf_level; unfold INTERNAL_MAX_ITEMS; ilia. }
  destruct (write_split_extends device c c1 _ left right (ii_key it) X1 HwL HwR)
    as (c2 & E2 & X2 & N2 & Rl & Rr); simpl; [lia..|].
  apply seg_app in Hseg as (mid & m1 & m2 & f1 & f2 & -> & -> & Hs1 & Hst & Hs2).
  specialize (Hst Hl1ne). simpl in Hst. subst mid. apply Forall_app in Hfp as [Hf1 Hf2].
  destruct (seg_items P _ (tree_at_items P (rd c) lvl MIN_CHILDREN) _ _ _ _ _ Hs1 Hl1ne) as (_ & _ & Hb1).
  destruct (seg_items P _ (tree_at_items P (rd c) lvl MIN_CHILDREN) _ _ _ _ _ Hs2) as (_ & _ & Hb2); [done|].
  eexists c2, (next_free_block c + 1), _, ((next_free_block c + 1 :: f1) ++ (next_free_block c :: f2)).
  split; [exact E2|]. split; [done|]. split; [lia|]. split.
  { rewrite N2, N1. replace (_ + 2 - _) with 2 by lia. rewrite seqZ_2. solve_Permutation. }
  cbn [subtree_result sr_key sr_child_block].
  exists m1, m2, (next_free_block c + 1 :: f1), (next_free_block c :: f2).
  do 2 (split; [done|]). split; [by apply Forall_inv in HPi2|].
  split; [by apply Forall_inv in Hiw2 as (? & _)|]. split; [done|]. split.
  - apply (internal_at_intro _ _ left _ _ _ _ _ _ Rl HwL Hl Hb1);
      [|exact HPi1|by destruct lo, l1|exact (extends_seg device P _ _ _ _ _ _ _ _ _ X2 Hf1 Hs1)].
    unfold MIN_CHILDREN, INTERNAL_MAX_ITEMS. simpl. lia.
  - apply (internal_at_intro _ _ right _ _ _ _ _ _ Rr HwR Hl Hb2);
      [|exact HPi2|done|exact (extends_seg device P _ _ _ _ _ _ _ _ _ X2 Hf2 Hs2)].
    unfold MIN_CHILDREN, INTERNAL_MAX_ITEMS. simpl. lia.
Qed.
End rewrite_internal.
End rewriting.
