(* ===== verification/BTreeInsert.v ===== *)
(** * BTreeInsert: insertion into the copy-on-write tree

    Insertion yields a tree with the key bound, through node splits and the
    growth of a new root. *)

From S2P Require Import Prelude Checksum Device Superblock Node NodeCodec BTree BTreeInv BTreeWrite.

(** ** Leaves *)

(** How a sorted list looks around a key, before and after binding it. *)
Lemma items_put_cases k v ms :
  items_sorted ms ->
  exists l1 l2, Forall (fun x => key_lt (li_key x) k) l1 /\ Forall (fun x => key_lt k (li_key x)) l2
    /\ items_put k v ms = l1 ++ BafsLeafItem_new k v :: l2
    /\ (ms = l1 ++ l2 /\ search_leaf k ms = inr (length l1)
        \/ exists w, ms = l1 ++ BafsLeafItem_new k w :: l2 /\ search_leaf k ms = inl (length l1)).
Proof.
  intros Hs. destruct (search_leaf_spec k ms Hs) as (l1 & l2 & H1 & H2 & Hc).
  exists l1, l2. split; [done|]. split; [done|]. split; [|done].
  destruct Hc as [[-> _]|(w & -> & _)].
  - rewrite <- (app_nil_l l2) at 1. by rewrite items_put_around.
  - rewrite (cons_middle _ l1 l2), items_put_around, items_put_same by done. done.
Qed.

Lemma items_put_sorted k v ms : items_sorted ms -> items_sorted (items_put k v ms).
Proof.
  intros Hs. destruct (items_put_cases k v ms Hs) as (l1 & l2 & H1 & H2 & -> & Hc).
  assert (items_sorted l1 /\ items_sorted l2) as [Hs1 Hs2].
  { unfold items_sorted in *. destruct Hc as [[-> _]|(w & -> & _)]; rewrite fmap_app in Hs; csimpl in Hs.
    - split; [by eapply StronglySorted_app_1_l|by eapply StronglySorted_app_1_r].
    - split; [by eapply StronglySorted_app_1_l|].
      apply StronglySorted_app_1_r in Hs. by apply StronglySorted_inv in Hs as [? _]. }
  unfold items_sorted in *. rewrite fmap_app. csimpl. rewrite Forall_forall in H1.
  apply StronglySorted_app_2; [|done|constructor; [done|by apply Forall_fmap]].
  intros x y (x' & -> & Hx)%list_elem_of_fmap [->|(y' & -> & Hy)%list_elem_of_fmap]%elem_of_cons; [by apply H1|].
  rewrite Forall_forall in H2. specialize (H1 _ Hx). specialize (H2 _ Hy). simpl in *. key_order.
Qed.

Lemma items_put_Forall (Q : BafsLeafItem -> Prop) k v ms :
  Q (BafsLeafItem_new k v) -> Forall Q ms -> Forall Q (items_put k v ms).
Proof.
  intros Hq Hms. unfold items_put. rewrite Forall_forall in *. intros x.
  rewrite !elem_of_app, list_elem_of_singleton, !list_elem_of_filter.
  intros [[_ ?]|[->|[_ ?]]]; auto.
Qed.

Lemma total_value_bytes_app a b :
  total_value_bytes (a ++ b) = total_value_bytes a + total_value_bytes b.
Proof. induction a; simpl; lia. Qed.

Lemma leaf_serialised_size_app a b :
  leaf_serialised_size (a ++ b) = leaf_serialised_size a + leaf_serialised_size b - 24.
Proof. rewrite !leaf_serialised_size_eq, length_app, total_value_bytes_app. lia. Qed.

Lemma leaf_serialised_size_cons it l :
  leaf_serialised_size (it :: l) = 25 + len (li_value it) + leaf_serialised_size l.
Proof. rewrite !leaf_serialised_size_eq. simpl. lia. Qed.

Lemma leaf_serialised_size_ge l : 24 <= leaf_serialised_size l.
Proof. rewrite leaf_serialised_size_eq. pose proof (total_value_bytes_nonneg l). lia. Qed.

Lemma items_put_size k v ms :
  items_sorted ms ->
  leaf_serialised_size (items_put k v ms) <= leaf_serialised_size ms + 25 + len v
  /\ len ms <= len (items_put k v ms) <= len ms + 1.
Proof.
  intros Hs. destruct (items_put_cases k v ms Hs) as (l1 & l2 & _ & _ & -> & Hc).
  destruct Hc as [[-> _]|(w & -> & _)];
    rewrite ?leaf_serialised_size_app, ?leaf_serialised_size_cons, !length_app; simpl; lia.
Qed.

(** [leaf_put] binds the key in the node's items. *)
Lemma leaf_put_correct node k v :
  node_wf node -> node_level node = 0 -> items_sorted (node_leaf_items node) ->
  let items := items_put k v (node_leaf_items node) in
  leaf_put node k v = Ok (node_set_leaf_items node items (len items)).
Proof.
  intros Hwf H0 Hs items. destruct (nwf_leaf _ Hwf H0) as (_ & Hc & _ & Hsz).
  unfold leaf_put, items. rewrite leaf_serialised_size_eq in Hsz.
  pose proof (total_value_bytes_nonneg (node_leaf_items node)).
  destruct (items_put_cases k v _ Hs) as (l1 & l2 & _ & _ & -> & [[E ->]|(w & E & ->)]); rewrite E, Hc in *.
  - unfold vec_insert. rewrite length_app in *. destruct (Nat.leb_spec (length l1) (length l1 + length l2)); [|lia].
    cbn [obind]. rewrite take_app_length, drop_app_length, checked_add_Ok by lia.
    cbn [obind]. do 2 f_equal. rewrite !length_app. simpl. lia.
  - unfold index. rewrite list_lookup_middle by done. cbn [obind].
    rewrite insert_app_r_alt, Nat.sub_diag by lia. rewrite !length_app. done.
Qed.

(** *** The split point *)

Section split_point.
Context (items : list BafsLeafItem).
Context (Hv : Forall (fun it => len (li_value it) <= VALUE_MAX) items).
Context (Hbig : 4096 < leaf_serialised_size items <= 6132).

Lemma split_sizes i : leaf_serialised_size (take i items) + leaf_serialised_size (drop i items)
  = leaf_serialised_size items + 24.
Proof. rewrite <- (take_drop i items) at 3. rewrite leaf_serialised_size_app. lia. Qed.

Lemma split_size_step i :
  (i < length items)%nat ->
  leaf_serialised_size (take (S i) items) <= leaf_serialised_size (take i items) + 2036.
Proof.
  intros Hi. destruct (lookup_lt_is_Some_2 items i Hi) as [it Hit].
  rewrite (take_S_r _ _ it), leaf_serialised_size_app, leaf_serialised_size_cons by done.
  rewrite Forall_forall in Hv. pose proof (Hv it ltac:(by eapply list_elem_of_lookup_2)) as H.
  unfold VALUE_MAX in H. change (leaf_serialised_size []) with 24. lia.
Qed.

Lemma split_items_many : (2 <= length items)%nat.
Proof.
  destruct items as [|it1 [|it2 l]] eqn:E; simpl; [..|lia].
  - change (leaf_serialised_size []) with 24 in Hbig. lia.
  - rewrite leaf_serialised_size_cons in Hbig. change (leaf_serialised_size []) with 24 in Hbig.
    apply Forall_inv in Hv. unfold VALUE_MAX in Hv. lia.
Qed.

Lemma split_move_left_fits i :
  (1 <= i <= length items)%nat ->
  let r := split_move_left items i in
  (1 <= r <= i)%nat /\ leaf_serialised_size (take r items) <= 4096.
Proof.
  induction i as [|i IH]; intros Hi; [lia|]. cbn [split_move_left].
  destruct (Nat.ltb_spec 1 (S i)) as [H1|H1]; simpl.
  - destruct (Z.ltb_spec 4096 (leaf_serialised_size (take (S i) items))); simpl; [|lia].
    destruct IH; [lia|]. lia.
  - assert (i = 0%nat) as -> by lia. split; [lia|].
    pose proof (split_size_step 0 ltac:(lia)) as H. change (take 0 items) with (@nil BafsLeafItem) in H.
    change (leaf_serialised_size []) with 24 in H. lia.
Qed.

Lemma split_move_right_fits fuel i :
  (1 <= i <= length items - 1)%nat -> (length items - 1 - i <= fuel)%nat ->
  leaf_serialised_size (take i items) <= 4096 ->
  let r := split_move_right fuel items i in
  (1 <= r <= length items - 1)%nat /\ leaf_serialised_size (take r items) <= 4096
  /\ leaf_serialised_size (drop r items) <= 4096.
Proof.
  pose proof split_items_many. revert i. induction fuel as [|fuel IH]; intros i Hi Hf Hl; simpl.
  all: assert (i = (length items - 1)%nat -> leaf_serialised_size (drop i items) <= 4096) as Hlast.
  1, 3: intros ->; pose proof (split_sizes (length items - 1)) as Hsz;
    pose proof (split_size_step (length items - 1) ltac:(lia)) as Hst;
    rewrite (take_ge items (S _)) in Hst by lia; lia.
  - split; [lia|]. split; [done|]. apply Hlast. lia.
  - destruct (Nat.ltb_spec i (length items - 1)) as [H1|H1]; simpl; [|split; [lia|auto with lia]].
    destruct (Z.ltb_spec 4096 (leaf_serialised_size (drop i items))); simpl; [|lia].
    apply IH; [lia|lia|]. pose proof (split_sizes i). pose proof (split_size_step i ltac:(lia)). lia.
Qed.

(** Both halves fit into a block. *)
Lemma leaf_split_fits :
  let i := leaf_split_index items in
  (1 <= i <= length items - 1)%nat /\ leaf_serialised_size (take i items) <= 4096
  /\ leaf_serialised_size (drop i items) <= 4096.
Proof.
  pose proof split_items_many. unfold leaf_split_index. pose proof (Nat.div2_odd (length items)) as Ho.
  assert (1 <= Nat.div2 (length items) <= length items - 1)%nat as Hd.
  { destruct (Nat.odd (length items)); simpl in Ho; lia. }
  destruct (split_move_left_fits (Nat.div2 (length items))) as [Hr Hl]; [lia|].
  apply split_move_right_fits; [lia|lia|done].
Qed.
End split_point.

(** ** Inserting into a subtree *)

Section insertion.
Context {D : Type} `{BlockDevice D} (device : D) (P : BafsKey -> Prop).

Abbreviation rd c := (read_tree_node device (dirty_cache c)).
(** [split_leaf_node] cuts the items in two. *)
Lemma split_leaf_node_run node g a c l1 it l2 :
  node_leaf_items node = l1 ++ it :: l2 -> leaf_split_index (node_leaf_items node) = length l1 ->
  next_free_block c + 2 < 2 ^ 64 -> len (node_leaf_items node) < 2 ^ 16 ->
  let right := fresh_node 0 (next_free_block c) g (it :: l2) [] (len (it :: l2)) in
  let left := node_set_location (node_set_leaf_items node l1 (len l1)) (next_free_block c + 1) g in
  exists c', split_leaf_node node g a c = (c', Ok (left, right, li_key it)) /\ extends c c' [a]
    /\ next_free_block c' = next_free_block c + 2.
Proof.
  intros E Hi Hn H16. unfold split_leaf_node.
  destruct (push_freed_block_extends a c) as (c1 & E1 & X1 & N1). rewrite (st_bind_Ok _ _ _ _ _ E1).
  rewrite E, length_app in *. simpl length in *.
  rewrite (st_bind_lift _ _ _ (Z.of_nat (length l1 + S (length l2)) - 1)) by (apply checked_sub_Ok; lia).
  rewrite Hi, drop_app_length, take_app_length. cbn zeta.
  rewrite (st_bind_lift _ _ _ it) by done.
  destruct (take_next_free_block_extends c1) as (c2 & E2 & X2 & N2 & _); [lia|].
  rewrite (st_bind_Ok _ _ _ _ _ E2).
  destruct (take_next_free_block_extends c2) as (c3 & E3 & X3 & N3 & _); [lia|].
  rewrite (st_bind_Ok _ _ _ _ _ E3). exists c3.
  rewrite N2, N1, !wrap_small by (simpl length; lia). split; [done|].
  split; [|lia]. exact (extends_trans _ _ _ _ _ X1 (extends_trans _ _ _ _ _ X2 X3)).
Qed.

(** The two halves of a split leaf as subtrees. *)
Lemma write_leaf_halves c0 c fr n l1 it l2 lb rb g lo hi :
  extends c0 c fr -> lb <> rb ->
  next_free_block c0 <= lb < next_free_block c -> next_free_block c0 <= rb < next_free_block c ->
  node_wf n -> node_level n = 0 -> is_u64 g -> is_u64 lb -> is_u64 rb -> l1 <> [] ->
  Forall leaf_item_wf (l1 ++ it :: l2) -> items_sorted (l1 ++ it :: l2) ->
  Forall (item_ok P lo hi) (l1 ++ it :: l2) ->
  leaf_serialised_size l1 <= 4096 -> leaf_serialised_size (it :: l2) <= 4096 ->
  let right := fresh_node 0 rb g (it :: l2) [] (len (it :: l2)) in
  let left := node_set_location (node_set_leaf_items n l1 (len l1)) lb g in
  exists c' s, write_split (left, right, li_key it) c = (c', Ok (lb, Some s))
    /\ extends c0 c' fr /\ next_free_block c' = next_free_block c
    /\ subtree_result P (rd c') 0 MIN_CHILDREN lo hi (l1 ++ it :: l2) lb (Some s) [lb; rb].
Proof.
  intros X Hne Hlb Hrb Hwf Hl Hg Hlu Hru Hl1 Hw Hs Hok Hz1 Hz2 right left.
  rewrite Forall_app in Hw, Hok. destruct Hw as [Hw1 Hw2], Hok as [Hok1 Hok2].
  destruct (nwf_leaf _ Hwf Hl) as (Hni & _).
  assert (node_wf left) as HwL by (apply leaf_wf_intro; simpl; auto using nwf_flags).
  assert (node_wf right) as HwR by (apply leaf_wf_intro; simpl; auto; ilia).
  destruct (write_split_extends device c0 c fr left right (li_key it) X HwL HwR Hne Hlb Hrb)
    as (c' & E & X' & N' & Rl & Rr).
  eexists c', _. split; [exact E|]. split; [done|]. split; [done|].
  cbn [subtree_result sr_key sr_child_block].
  apply items_sorted_app_inv in Hs as (Hs1 & Hs2 & Hs12).
  pose proof (Forall_inv Hok2) as (HPit & Hbit & _). pose proof (Forall_inv Hw2) as [Hkit _].
  assert (below lo (Some (li_key it))) as Hb1.
  { destruct l1 as [|x l1']; [done|]. specialize (Hs12 x it ltac:(left) ltac:(left)).
    apply Forall_inv in Hok1 as (_ & Hx & _). bounds. }
  exists l1, (it :: l2), [lb], [rb]. do 5 (split; [done|]). split.
  - apply (leaf_at_intro P _ lb left _ _ MIN_CHILDREN Rl); auto. simpl. apply Forall_forall. intros x Hx.
    rewrite Forall_forall in Hok1. destruct (Hok1 x Hx) as (? & ? & ?).
    specialize (Hs12 x it Hx ltac:(left)). split; [done|]. split; [bounds|done].
  - apply (leaf_at_intro P _ rb right _ _ MIN_CHILDREN Rr); auto; simpl; [bounds|].
    apply Forall_forall. intros x Hx. rewrite Forall_forall in Hok2.
    destruct (Hok2 x Hx) as (? & ? & ?). split; [done|]. split; [|done].
    apply elem_of_cons in Hx as [->|Hx]; [bounds|].
    unfold items_sorted in Hs2. csimpl in Hs2. apply StronglySorted_inv in Hs2 as [_ Hs2].
    rewrite Forall_fmap, Forall_forall in Hs2. specialize (Hs2 x Hx). simpl in Hs2. bounds.
Qed.

(** *** Inserting one item *)

Context (k : BafsKey) (v : list Z) (g : Z).
Context (HP : P k) (Hk : key_wf k) (Hv : bytes_ok v) (Hvl : len v <= VALUE_MAX) (Hg : is_u64 g).

(** A run that turned the subtree at [a] of height [lvl], stored in [fp], into one
    holding [ms], allocating at most two blocks per level and superseding blocks
    of the old subtree only, its root among them. *)
Definition inserted (lvl : nat) (minc : Z) (lo hi : option BafsKey) (ms : list BafsLeafItem)
    (a : Z) (fp : list Z) (c : cow) (r : cow * result (Z * option SplitResult)) : Prop :=
  exists c' a' split fp' fr, r = (c', Ok (a', split)) /\ extends c c' fr
    /\ next_free_block c' <= next_free_block c + 2 * (Z.of_nat lvl + 1)
    /\ blocks_accounted c c' fp fp' fr /\ a ∈ fr /\ (forall x, x ∈ fr -> x ∈ fp)
    /\ subtree_result P (rd c') lvl minc lo hi ms a' split fp'.

Lemma insert_leaf_fits node a c lo hi minc :
  let items := items_put k v (node_leaf_items node) in
  let node' := node_set_leaf_items node items (len items) in
  node_wf node -> node_level node = 0 -> below lo hi -> items_sorted items ->
  Forall leaf_item_wf items -> Forall (item_ok P lo hi) items ->
  leaf_serialised_size items <= 4096 ->
  0 <= next_free_block c -> next_free_block c + 2 < 2 ^ 64 ->
  inserted 0 minc lo hi items a [a] c
    ((let! new_block := write_cow_clone node' a g in st_ret (new_block, None)) c).
Proof.
  intros items node' Hwf Hl Hb Hs Hw Hok Hsz Hn0 Hn. destruct (nwf_leaf _ Hwf Hl) as (Hni & _).
  assert (node_wf (node_set_location node' (next_free_block c) g)) as Hwf'
    by (apply leaf_wf_intro; simpl; auto using nwf_flags; ilia).
  destruct (write_cow_clone_extends device node' a g c) as (c' & E & X & N & R); [lia|done|].
  rewrite (st_bind_Ok _ _ _ _ _ E). exists c', (next_free_block c), None, [next_free_block c], [a].
  split; [done|]. split; [done|]. split; [lia|]. split.
  - unfold blocks_accounted. rewrite N. replace (_ + 1 - _) with 1 by lia. rewrite seqZ_1.
    simpl. apply perm_swap.
  - split; [left|]. split; [done|].
    exact (leaf_at_intro P _ _ (node_set_location node' (next_free_block c) g) lo hi minc R Hwf' Hl Hb Hs Hok).
Qed.

Lemma insert_leaf_splits node a c lo hi minc :
  let items := items_put k v (node_leaf_items node) in
  let node' := node_set_leaf_items node items (len items) in
  node_wf node -> node_level node = 0 -> below lo hi -> items_sorted items ->
  Forall leaf_item_wf items -> Forall (item_ok P lo hi) items ->
  4096 < leaf_serialised_size items <= 6132 ->
  0 <= next_free_block c -> next_free_block c + 2 < 2 ^ 64 ->
  inserted 0 minc lo hi items a [a] c
    ((let! halves := split_leaf_node node' g a in write_split halves) c).
Proof.
  intros items node' Hwf Hl Hb Hs Hw Hok Hsz Hn0 Hn.
  destruct (leaf_split_fits items) as (Hi & Hz1 & Hz2); [|done|].
  { eapply Forall_impl; [exact Hok|]. by intros x (_ & _ & ?). }
  set (i := leaf_split_index items) in *.
  destruct (drop i items) as [|it l2] eqn:Ed.
  { apply (f_equal length) in Ed. rewrite length_drop in Ed. simpl in Ed. lia. }
  assert (items = take i items ++ it :: l2) as Eit by (by rewrite <- Ed, take_drop).
  assert (length (take i items) = i) as Hti by (rewrite length_take; lia).
  destruct (split_leaf_node_run node' g a c (take i items) it l2) as (c1 & E1 & X1 & N1);
    [done|by rewrite Hti|done| |].
  { simpl. rewrite leaf_serialised_size_eq in Hsz. pose proof (total_value_bytes_nonneg items). lia. }
  rewrite (st_bind_Ok _ _ _ _ _ E1).
  rewrite Eit in Hs, Hw, Hok.
  destruct (write_leaf_halves c c1 [a] node (take i items) it l2 (next_free_block c + 1)
              (next_free_block c) g lo hi) as (c2 & s & E2 & X2 & N2 & Hr); auto; try ilia.
  { intros E0. rewrite E0 in Hti. simpl in Hti. lia. }
  exists c2, (next_free_block c + 1), (Some s), [next_free_block c + 1; next_free_block c], [a].
  split; [exact E2|]. split; [done|]. split; [lia|]. split.
  - unfold blocks_accounted. rewrite N2, N1. replace (_ + 2 - _) with 2 by lia. rewrite seqZ_2.
    simpl. solve_Permutation.
  - split; [left|]. split; [done|]. rewrite Eit. exact Hr.
Qed.

Lemma insert_leaf node a c lo hi minc :
  let items := items_put k v (node_leaf_items node) in
  let node' := node_set_leaf_items node items (len items) in
  node_wf node -> node_level node = 0 -> below lo hi -> items_sorted (node_leaf_items node) ->
  Forall (item_ok P lo hi) (node_leaf_items node) -> in_bounds lo hi k ->
  0 <= next_free_block c -> next_free_block c + 2 < 2 ^ 64 ->
  inserted 0 minc lo hi items a [a] c
    ((if negb (leaf_node_would_overflow (node_leaf_items node')) then
        let! new_block := write_cow_clone node' a g in st_ret (new_block, None)
      else let! halves := split_leaf_node node' g a in write_split halves) c).
Proof.
  intros items node' Hwf Hl Hb Hs Hok Hkb Hn0 Hn. destruct (nwf_leaf _ Hwf Hl) as (_ & _ & Hw & Hsz).
  pose proof (items_put_sorted k v _ Hs) as Hs'. destruct (items_put_size k v _ Hs) as [Hz _].
  assert (Forall leaf_item_wf items) by (by apply items_put_Forall).
  assert (Forall (item_ok P lo hi) items) by (by apply items_put_Forall).
  change (node_leaf_items node') with items. unfold leaf_node_would_overflow, VALUE_MAX in *.
  destruct (Z.ltb_spec 4096 (leaf_serialised_size items)); simpl negb; cbn iota.
  - apply insert_leaf_splits; auto. unfold items in *. lia.
  - apply insert_leaf_fits; auto.
Qed.

(** *** Internal nodes *)

(** The rest of the internal case, after the child has been rewritten. *)
Definition insert_after_child (node : BafsTreeNode) (child_index : nat) (a new_child_block : Z)
    (split_result : option SplitResult) : ST cow BafsError (Z * option SplitResult) :=
  let! items := st_lift (set_child (node_internal_items node) child_index new_child_block g) in
  let node := node_set_internal_items node items (node_item_count node) in
  let! node := st_lift (insert_promoted node child_index split_result g) in
  if len (node_internal_items node) <=? INTERNAL_MAX_ITEMS then
    let! new_block := write_cow_clone node a g in
    st_ret (new_block, None)
  else
    let! halves := split_internal_node node g a in
    write_split halves.

Lemma length_child_items key a split : (1 <= length (child_items g key a split) <= 2)%nat.
Proof. destruct split; simpl; lia. Qed.

Lemma insert_after_child_correct node lvl minc a lo hi ms fp c c1 fr
    its1 it its2 mid1 mid2 m1 m m2 f1 f f2 a1 split f' :
  node_wf node -> node_level node = Z.of_nat (S lvl) ->
  1 <= minc <= len (node_internal_items node) -> len (node_internal_items node) <= 90 ->
  Forall (fun it => P (ii_key it)) (node_internal_items node) ->
  first_sep lo (node_internal_items node) ->
  focus P (rd c) lvl lo hi (node_internal_items node) ms fp k
    its1 it its2 mid1 mid2 m1 m m2 f1 f f2 ->
  Forall (fun x => 0 <= x < next_free_block c) fp -> 0 <= next_free_block c ->
  extends c c1 fr -> blocks_accounted c c1 f f' fr ->
  subtree_result P (rd c1) lvl MIN_CHILDREN mid1 mid2 (items_put k v m) a1 split f' ->
  next_free_block c1 + 2 < 2 ^ 64 ->
  rewritten device P lvl minc lo hi (items_put k v ms) a (f1 ++ f' ++ f2) c1
    (insert_after_child node (length its1) a a1 split c1).
Proof.
  intros Hwf Hl Hc H90 HPi Hfs Hfo Hfp Hn0 X1 Hacc Hres Hn.
  pose proof Hfo as [Eits _ -> Efp _ _ _ _ _ _ Hbef Haft].
  destruct (nwf_internal _ Hwf) as (_ & Hcount & Hiw & _); [lia|].
  unfold insert_after_child. rewrite Hcount, Eits in *.
  rewrite (st_bind_lift _ _ _ _ (set_child_correct g its1 it its2 a1)). cbn zeta.
  rewrite (st_bind_lift _ _ _ _ (insert_promoted_correct g node its1 it its2 a1 split H90)).
  set (its' := its1 ++ child_items g (ii_key it) a1 split ++ its2).
  pose proof (ext_next _ _ _ X1). pose proof (Forall_impl _ _ _ Hfp (fun x Hx => proj2 Hx)) as Hfp2.
  rewrite Efp, !Forall_app in Hfp. destruct Hfp as (Hf1 & Hf & Hf2).
  pose proof (blocks_accounted_bound _ _ _ _ _ X1 Hacc Hf Hn0) as Hf'.
  destruct (subtree_result_addresses P _ _ _ _ _ _ _ _ _ _ Hres Hf') as [Hu1 Hu2].
  rewrite Forall_app, Forall_cons in Hiw, HPi. destruct Hiw as (Hiw1 & Hiw2 & Hiw3), HPi as (HPi1 & HPi2 & HPi3).
  destruct (child_items_wf P g Hg _ _ _ _ _ it a1 split _ Hiw2 HPi2 ltac:(ilia)
              ltac:(intros s Hs; specialize (Hu2 s Hs); ilia) Hres) as [Hciw HciP].
  pose proof (length_child_items (ii_key it) a1 split).
  assert (len (its1 ++ it :: its2) <= len its' <= len (its1 ++ it :: its2) + 1) as Hlen
    by (unfold its'; rewrite !length_app; cbn [length]; lia).
  rewrite items_put_around by done.
  change (node_internal_items (node_set_internal_items node its' (len its'))) with its'.
  pose proof (focus_replace device P g k _ _ _ _ _ _ _ _ _ _ _ _ _ _ _ _ _ _ _ _ _ _ _ _ Hfo X1 Hfp2 Hres) as Hseg.
  assert (Forall (fun x => x < next_free_block c1) (f1 ++ f' ++ f2)) as Hfp'.
  { rewrite !Forall_app. repeat split; (eapply Forall_impl; [eassumption|]); simpl; lia. }
  assert (its' <> []) as Hne by (unfold its', child_items; by destruct its1).
  assert (Forall internal_item_wf its') by (unfold its'; by rewrite !Forall_app).
  assert (Forall (fun it => P (ii_key it)) its') by (unfold its'; by rewrite !Forall_app).
  assert (first_sep lo its') by by apply first_sep_replace.
  unfold INTERNAL_MAX_ITEMS. destruct (Z.leb_spec (len its') 90).
  - apply rewrite_internal_fits; auto; lia.
  - apply rewrite_internal_splits; auto; lia.
Qed.

Lemma insert_recursive_correct fuel lvl minc a lo hi ms fp c :
  1 <= minc -> (lvl < fuel)%nat ->
  tree_at P (rd c) lvl minc a lo hi ms fp -> in_bounds lo hi k ->
  Forall (fun x => 0 <= x < next_free_block c) fp -> 0 <= next_free_block c ->
  next_free_block c + 2 * (Z.of_nat lvl + 1) < 2 ^ 64 ->
  inserted lvl minc lo hi (items_put k v ms) a fp c (insert_recursive fuel device a k v g c).
Proof.
  revert fuel minc a lo hi ms fp. induction lvl as [|lvl IH];
    intros [|fuel] minc a lo hi ms fp Hm Hf Ht Hkb Hfp Hn0 Hn; try lia;
    destruct Ht as (node & Ha & Hwf & Hl & Hb & Ht); cbn [insert_recursive];
    unfold st_get at 1, st_bind at 1; rewrite (st_bind_lift _ _ _ node Ha), Hl.
  { destruct Ht as (-> & -> & Hs & Hok). case_bool.
    rewrite (st_bind_lift _ _ _ _ (leaf_put_correct node k v Hwf Hl Hs)).
    apply insert_leaf; auto. }
  destruct Ht as (Hc & HPi & Hfs & fp' & -> & Hseg). case_bool. unfold INTERNAL_MAX_ITEMS in Hc.
  destruct (tree_focus P _ _ _ _ _ _ _ k Hseg)
    as (its1 & it & its2 & mid1 & mid2 & m1 & m & m2 & f1 & f & f2 & Hfo);
    [intros E; rewrite E in Hc; simpl in Hc; lia|done|].
  pose proof Hfo as [Eits Hidx _ Efp _ Hch _ _ _ Hkb' _ _].
  rewrite Hidx. apply Forall_cons in Hfp as [Hfa Hfp].
  rewrite (st_bind_lift _ _ _ it) by (unfold index; by rewrite Eits, list_lookup_middle).
  destruct (IH fuel MIN_CHILDREN (ii_child_block it) mid1 mid2 m f)
    as (c1 & a1 & split & f' & fr & Er & X1 & N1 & Hacc & _ & Hold & Hres);
    [unfold MIN_CHILDREN; lia|lia|done|done|by rewrite Efp, !Forall_app in Hfp; apply Hfp|done|lia|].
  rewrite (st_bind_Ok _ _ _ _ _ Er).
  change (inserted (S lvl) minc lo hi (items_put k v ms) a (a :: fp') c
            (insert_after_child node (length its1) a a1 split c1)).
  destruct (insert_after_child_correct node lvl minc a lo hi ms fp' c c1 fr
              its1 it its2 mid1 mid2 m1 m m2 f1 f f2 a1 split f')
    as (c2 & a2 & split2 & fp2 & E2 & X2 & N2 & Hacc2 & Hres2); auto; [lia..|].
  pose proof (ext_next _ _ _ X1). pose proof (ext_next _ _ _ X2).
  exists c2, a2, split2, fp2, (fr ++ [a]). split; [done|]. split; [by eapply extends_trans|].
  split; [lia|]. split; [rewrite Efp; by eapply blocks_accounted_node|].
  split; [apply elem_of_app; right; left|]. split; [|done].
  intros x [Hx| ->%list_elem_of_singleton]%elem_of_app; [|left]. right. rewrite Efp, !elem_of_app. auto.
Qed.

End insertion.

(** *** The root *)

Section root_growth.
Context {D : Type} `{BlockDevice D} (device : D) (P : BafsKey -> Prop) (g : Z) (Hg : is_u64 g).

Abbreviation rd c := (read_tree_node device (dirty_cache c)).

(** The first separator of a new root is the lower bound of the tree, when it has
    one and the bound is among its keys. *)
Definition anchored (lo : option BafsKey) (ms : list BafsLeafItem) : Prop :=
  forall l, lo = Some l -> l ∈ li_key <$> ms.

Lemma sorted_head_min l it ms :
  items_sorted (it :: ms) -> ge_lo (Some l) (li_key it) -> l ∈ li_key <$> (it :: ms) -> li_key it = l.
Proof.
  unfold items_sorted. csimpl. intros [_ Hs]%StronglySorted_inv Hge [->|Hin]%elem_of_cons; [done|].
  rewrite Forall_forall in Hs. specialize (Hs _ Hin). simpl in Hge. exfalso. key_order.
Qed.

Lemma first_key_correct r lvl lo s m1 m2 a f1 :
  tree_at P r lvl MIN_CHILDREN a lo (Some s) m1 f1 -> (lvl = 0%nat -> m1 <> []) ->
  anchored lo (m1 ++ m2) -> items_sorted (m1 ++ m2) -> (lvl <= 12)%nat ->
  exists node key, r a = Ok node /\ node_level node = Z.of_nat lvl /\ first_key node = Ok key
    /\ P key /\ key_wf key /\ (forall l, lo = Some l -> key = l).
Proof.
  intros Ht Hm1 Hanc Hs Hlvl. unfold first_key. destruct lvl as [|lvl];
    destruct Ht as (node & Ha & Hwf & Hl & Hb & Ht); exists node; rewrite Hl.
  - destruct Ht as (Em & _ & Hs1 & Hok). destruct (nwf_leaf _ Hwf Hl) as (_ & _ & Hw & _).
    rewrite <- Em in *. destruct m1 as [|it m1]; [by destruct Hm1|].
    exists (li_key it). apply Forall_inv in Hok as (HPi & Hbi & _). apply Forall_inv in Hw as [Hkw _].
    case_bool. simpl. do 5 (split; [done|]). intros l ->.
    eapply (sorted_head_min l it (m1 ++ m2)); [exact Hs|apply Hbi|by apply Hanc].
  - destruct Ht as (Hc & HPi & Hfs & _). destruct (nwf_internal _ Hwf) as (_ & _ & Hw & _); [lia|].
    destruct (node_internal_items node) as [|it its] eqn:E; [simpl in Hc; unfold MIN_CHILDREN in Hc; lia|].
    exists (ii_key it). apply Forall_inv in HPi. apply Forall_inv in Hw as [Hkw _].
    case_bool. simpl. do 5 (split; [done|]). intros l ->. exact Hfs.
Qed.

(** A new root over the two halves of the old one. *)
Lemma new_root_correct c lvl lo ms a s fp b :
  subtree_result P (rd c) lvl MIN_CHILDREN lo None ms a (Some s) fp ->
  anchored lo ms -> items_sorted ms -> (lvl <= 12)%nat ->
  Forall (fun x => 0 <= x < next_free_block c) fp -> 0 <= next_free_block c ->
  next_free_block c + 1 < 2 ^ 64 ->
  exists c',
    (let! _ := push_freed_block b in
     let! new_root_block := take_next_free_block in
     let! c := st_get in
     let! old_root_node := st_lift (read_tree_node device (dirty_cache c) a) in
     let! left_first_key := st_lift (first_key old_root_node) in
     let! level := st_lift (checked_add 8 (node_level old_root_node) 1) in
     let new_root :=
       fresh_node level new_root_block g []
         [BafsInternalItem_new left_first_key a g;
          BafsInternalItem_new (sr_key s) (sr_child_block s) g] 2 in
     let! _ := write_tree_node_to_cache new_root in
     st_ret new_root_block) c = (c', Ok (next_free_block c))
    /\ extends c c' [b] /\ next_free_block c' = next_free_block c + 1
    /\ tree_at P (rd c') (S lvl) 2 (next_free_block c) lo None ms (next_free_block c :: fp).
Proof.
  intros Hres Hanc Hs Hlvl Hfp Hn0 Hn.
  destruct (subtree_result_addresses P _ _ _ _ _ _ _ _ _ _ Hres Hfp) as [Hu1 Hu2].
  specialize (Hu2 s eq_refl). simpl in Hu1, Hu2.
  pose proof Hres as (m1 & m2 & f1 & f2 & -> & -> & HPs & Hks & Hm1 & Hl & Hr).
  destruct (first_key_correct _ _ _ _ _ m2 _ _ Hl Hm1 Hanc Hs Hlvl) as (node & key & Hrd & Hlv & Hfk & HPk & Hkw & Hanck).
  destruct (push_freed_block_extends b c) as (c1 & E1 & X1 & N1). rewrite (st_bind_Ok _ _ _ _ _ E1).
  destruct (take_next_free_block_extends c1) as (c2 & E2 & X2 & N2 & _); [lia|].
  rewrite (st_bind_Ok _ _ _ _ _ E2), N1. pose proof (extends_trans _ _ _ _ _ X1 X2) as X12.
  unfold st_get at 1, st_bind at 1.
  rewrite (st_bind_lift _ _ _ node) by (rewrite <- Hrd; apply (extends_rd device _ _ _ _ X12); lia).
  rewrite (st_bind_lift _ _ _ _ Hfk).
  rewrite (st_bind_lift _ _ _ (Z.of_nat lvl + 1)) by (rewrite Hlv; apply checked_add_Ok; lia).
  cbn zeta. set (root := fresh_node _ _ _ _ _ _).
  assert (node_wf root) as Hwr.
  { apply internal_wf_intro; simpl; auto; unfold INTERNAL_MAX_ITEMS; try ilia.
    repeat (apply Forall_cons; split); [..|constructor]; (split; [done|split; simpl; ilia]). }
  destruct (write_node_extends device c c2 _ root X12 Hwr) as (c3 & E3 & X3 & N3 & R3 & _); [simpl; lia|].
  rewrite (st_bind_Ok _ _ _ _ _ E3). exists c3. split; [done|]. split; [done|]. split; [lia|].
  apply (internal_at_intro P _ _ root _ _ _ _ _ _ R3 Hwr); simpl node_level; [lia| | | | |].
  - by destruct lo.
  - unfold INTERNAL_MAX_ITEMS. simpl. lia.
  - repeat (apply Forall_cons; split); [done..|constructor].
  - destruct lo as [l|]; simpl; [by apply Hanck|done].
  - apply (extends_seg device P c c3 _ _ _ _ _ _ _ X3); [by eapply Forall_impl; [exact Hfp|]; intros ? []|].
    exact (subtree_result_seg P g _ _ _ _ _ _ _ _ key Hres).
Qed.
End root_growth.

(** ** Whole trees *)

Section whole_trees.
Context {D : Type} `{BlockDevice D} (device : D) (P : BafsKey -> Prop).

Abbreviation rd c := (read_tree_node device (dirty_cache c)).

(** [root] is the root of a tree holding [ms], stored in the distinct blocks [fp]
    behind the allocator mark. *)
Definition rooted (c : cow) (anchor : option BafsKey) (root : Z) (ms : list BafsLeafItem)
    (fp : list Z) : Prop :=
  (exists lvl, tree_at P (rd c) lvl 2 root anchor None ms fp)
  /\ NoDup fp /\ Forall (fun x => 0 <= x < next_free_block c) fp /\ anchored anchor ms.

Lemma NoDup_below fp n : NoDup fp -> Forall (fun x => 0 <= x < n) fp -> len fp <= Z.max 0 n.
Proof.
  intros Hnd Hfp. assert (fp ⊆+ seqZ 0 n) as Hsub.
  { apply NoDup_submseteq; [done|]. intros x Hx. rewrite Forall_forall in Hfp.
    apply elem_of_seqZ. specialize (Hfp x Hx). simpl in Hfp. lia. }
  apply submseteq_length in Hsub. rewrite length_seqZ in Hsub. lia.
Qed.

Lemma blocks_accounted_NoDup c c' fr fp fp' :
  extends c c' fr -> blocks_accounted c c' fp fp' fr ->
  NoDup fp -> Forall (fun x => 0 <= x < next_free_block c) fp -> NoDup (fp' ++ fr).
Proof.
  intros X Hacc Hnd Hfp. unfold blocks_accounted in Hacc. rewrite <- Hacc.
  apply NoDup_app. split; [done|]. split; [|apply NoDup_seqZ].
  intros x Hx Hin%elem_of_seqZ. rewrite Forall_forall in Hfp. specialize (Hfp x Hx). simpl in Hfp. lia.
Qed.

Lemma blocks_accounted_root c c1 c2 fp fp1 fr root :
  next_free_block c <= next_free_block c1 -> next_free_block c2 = next_free_block c1 + 1 ->
  root = next_free_block c1 ->
  blocks_accounted c c1 fp fp1 fr -> blocks_accounted c c2 fp (root :: fp1) fr.
Proof.
  unfold blocks_accounted. intros Hn -> -> H1.
  replace (next_free_block c1 + 1 - next_free_block c)
    with ((next_free_block c1 - next_free_block c) + 1) by lia.
  rewrite seqZ_app, seqZ_1 by lia. rewrite app_assoc, H1.
  replace (next_free_block c + (next_free_block c1 - next_free_block c)) with (next_free_block c1) by lia.
  solve_Permutation.
Qed.

Lemma anchored_put anchor k v ms : anchored anchor ms -> anchored anchor (items_put k v ms).
Proof.
  intros Ha l Hl. apply Ha in Hl as (it & -> & Hit)%list_elem_of_fmap. unfold items_put.
  rewrite !fmap_app, !elem_of_app. csimpl.
  destruct (key_lt_or_le (li_key it) k) as [Hlt|Hle].
  - left. apply list_elem_of_fmap_2, list_elem_of_filter. auto using key_ltb_true.
  - right. apply key_le_lteq in Hle as [Hlt| ->]; [right|left; left].
    apply list_elem_of_fmap_2, list_elem_of_filter. auto using key_ltb_true.
Qed.

Lemma rooted_height c lvl anchor root ms fp :
  tree_at P (rd c) lvl 2 root anchor None ms fp -> NoDup fp ->
  Forall (fun x => 0 <= x < next_free_block c) fp -> next_free_block c < 2 ^ 64 -> (lvl <= 12)%nat.
Proof.
  intros Ht Hnd Hfp Hn. eapply tree_height; [exact Ht|]. pose proof (NoDup_below _ _ Hnd Hfp). lia.
Qed.

Lemma insert_into_tree_correct c anchor root ms fp k v g :
  rooted c anchor root ms fp -> ge_lo anchor k ->
  P k -> key_wf k -> bytes_ok v -> len v <= VALUE_MAX -> is_u64 g ->
  0 <= next_free_block c -> next_free_block c + 27 < 2 ^ 64 ->
  exists c' root' fp' fr again, insert_into_tree device root k v g c = (c', Ok root')
    /\ extends c c' (fr ++ again) /\ (again = [] \/ again = [root])
    /\ root ∈ fr /\ (forall x, x ∈ fr -> x ∈ fp)
    /\ next_free_block c' <= next_free_block c + 27
    /\ blocks_accounted c c' fp fp' fr /\ rooted c' anchor root' (items_put k v ms) fp'.
Proof.
  intros ((lvl & Ht) & Hnd & Hfp & Hanc) Hge HP Hk Hv Hvl Hg Hn0 Hn.
  assert (lvl <= 12)%nat as Hlvl by (eapply rooted_height; eauto; lia).
  pose proof (tree_at_items _ _ _ _ _ _ _ _ _ Ht) as (Hs & _ & _).
  pose proof (items_put_sorted k v _ Hs) as Hs'. pose proof (anchored_put anchor k v ms Hanc) as Hanc'.
  destruct (insert_recursive_correct device P k v g HP Hk Hv Hvl Hg TREE_FUEL lvl 2 root anchor None ms fp c)
    as (c1 & a1 & split & fp1 & fr & E1 & X1 & N1 & Hacc & Hrt & Hold & Hres);
    [lia|unfold TREE_FUEL; lia|done|done|done|done|lia|].
  unfold insert_into_tree. rewrite (st_bind_Ok _ _ _ _ _ E1). cbn beta iota.
  pose proof (blocks_accounted_bound _ _ _ _ _ X1 Hacc Hfp Hn0) as Hfp1.
  pose proof (blocks_accounted_NoDup _ _ _ _ _ X1 Hacc Hnd Hfp) as Hnd1. pose proof (ext_next _ _ _ X1).
  destruct split as [s|].
  - assert (subtree_result P (rd c1) lvl MIN_CHILDREN anchor None (items_put k v ms) a1 (Some s) fp1)
      as Hres' by exact Hres.
    destruct (new_root_correct device P g Hg c1 lvl anchor (items_put k v ms) a1 s fp1 root Hres')
      as (c2 & E2 & X2 & N2 & Ht2); [done|done|done|done|lia|lia|].
    pose proof (blocks_accounted_root _ _ _ _ _ _ _ H0 N2 eq_refl Hacc) as Hacc2.
    pose proof (extends_trans _ _ _ _ _ X1 X2) as X12.
    exists c2, (next_free_block c1), (next_free_block c1 :: fp1), fr, [root].
    split; [exact E2|]. split; [done|]. split; [by right|]. do 2 (split; [done|]). split; [lia|]. split; [done|].
    split; [by eexists|]. split; [|split; [|done]].
    + apply NoDup_cons. split; [|by apply NoDup_app in Hnd1 as (? & _)].
      intros Hin. rewrite Forall_forall in Hfp1. specialize (Hfp1 _ Hin). simpl in Hfp1. lia.
    + apply Forall_cons. split; [lia|]. eapply Forall_impl; [exact Hfp1|]. simpl. lia.
  - exists c1, a1, fp1, fr, []. rewrite app_nil_r. split; [done|]. split; [done|]. split; [by left|].
    do 2 (split; [done|]). split; [lia|]. split; [done|]. split; [by exists lvl|].
    split; [by apply NoDup_app in Hnd1 as (? & _)|]. done.
Qed.
End whole_trees.
