(* ===== verification/BTreeDelete.v ===== *)
(** * BTreeDelete: deletion and range scans on the copy-on-write tree *)

From S2P Require Import Prelude Checksum Device Superblock Node NodeCodec BTree BTreeInv BTreeWrite.
From S2P Require Import BTreeInsert.

(** ** Deletion *)

Section deletion.
Context {D : Type} `{BlockDevice D} (device : D) (P : BafsKey -> Prop).
Context (k : BafsKey) (g : Z) (Hg : is_u64 g).

Abbreviation rd c := (read_tree_node device (dirty_cache c)).

(** The outcome of a deletion from a subtree: the key is gone and the path to it
    rewritten, or the key was not there and nothing changed. *)
Definition deleted (lvl : nat) (minc : Z) (lo hi : option BafsKey) (ms : list BafsLeafItem)
    (fp : list Z) (c : cow) (r : cow * result (Z * bool)) : Prop :=
  match items_get k ms with
  | None => r = (c, Err NotFound)
  | Some _ => exists c' a' fp' fr, r = (c', Ok (a', true)) /\ extends c c' fr
      /\ next_free_block c' = next_free_block c + (Z.of_nat lvl + 1)
      /\ blocks_accounted c c' fp fp' fr /\ (forall x, x ∈ fr -> x ∈ fp)
      /\ tree_at P (rd c') lvl minc a' lo hi (items_remove k ms) fp'
  end.

Lemma items_remove_found v l1 l2 :
  Forall (fun x => key_lt (li_key x) k) l1 -> Forall (fun x => key_lt k (li_key x)) l2 ->
  items_remove k (l1 ++ BafsLeafItem_new k v :: l2) = l1 ++ l2.
Proof.
  intros H1 H2. rewrite (cons_middle _ l1 l2), items_remove_around by done.
  unfold items_remove. rewrite filter_cons_False by (simpl; auto). done.
Qed.

Lemma items_sorted_remove_middle l1 it l2 : items_sorted (l1 ++ it :: l2) -> items_sorted (l1 ++ l2).
Proof.
  unfold items_sorted. rewrite !fmap_app, !StronglySorted_app. csimpl.
  intros (H12 & H1 & [H2 _]%StronglySorted_inv). split; [|done].
  intros x y Hx Hy. apply H12; [done|by right].
Qed.

(** Rewriting a leaf without one of its items. *)
Lemma delete_leaf_found node a c lo hi minc l1 v l2 :
  node_wf node -> node_level node = 0 -> below lo hi ->
  node_leaf_items node = l1 ++ BafsLeafItem_new k v :: l2 ->
  items_sorted (node_leaf_items node) -> Forall (item_ok P lo hi) (node_leaf_items node) ->
  0 <= next_free_block c -> next_free_block c + 1 < 2 ^ 64 ->
  exists c', (let! (_, items) := st_lift (vec_remove (node_leaf_items node) (length l1)) in
              let! count := st_lift (checked_sub (node_item_count node) 1) in
              let! new_block := write_cow_clone (node_set_leaf_items node items count) a g in
              st_ret (new_block, true)) c = (c', Ok (next_free_block c, true))
    /\ extends c c' [a] /\ next_free_block c' = next_free_block c + 1
    /\ tree_at P (rd c') 0 minc (next_free_block c) lo hi (l1 ++ l2) [next_free_block c].
Proof.
  intros Hwf Hl Hb E Hs Hok Hn0 Hn. destruct (nwf_leaf _ Hwf Hl) as (Hni & Hc & Hw & Hsz).
  rewrite Hc, E in *.
  rewrite (st_bind_lift _ _ _ (BafsLeafItem_new k v, l1 ++ l2))
    by (unfold vec_remove; rewrite list_lookup_middle, take_app_length by done;
        rewrite (cons_middle _ l1), app_assoc, drop_app_length' by (rewrite length_app; simpl; lia); done).
  rewrite (st_bind_lift _ _ _ (len (l1 ++ l2)))
    by (rewrite checked_sub_Ok; rewrite !length_app; simpl; [f_equal|]; lia).
  assert (forall Q, Forall Q (l1 ++ BafsLeafItem_new k v :: l2) -> Forall Q (l1 ++ l2)) as Hsub.
  { intros Q. rewrite !Forall_app, Forall_cons. by intros (? & _ & ?). }
  set (node' := node_set_leaf_items node (l1 ++ l2) (len (l1 ++ l2))).
  assert (node_wf (node_set_location node' (next_free_block c) g)) as Hwf'.
  { apply leaf_wf_intro; simpl; auto using nwf_flags; try ilia.
    rewrite leaf_serialised_size_app, leaf_serialised_size_cons in *. lia. }
  destruct (write_cow_clone_extends device node' a g c) as (c' & E1 & X & N & R); [lia|done|].
  rewrite (st_bind_Ok _ _ _ _ _ E1). exists c'. split; [done|]. split; [done|]. split; [done|].
  apply (leaf_at_intro P _ _ (node_set_location node' (next_free_block c) g) _ _ _ R Hwf'); simpl; auto.
  by eapply items_sorted_remove_middle.
Qed.

(** Rewriting an internal node after the deletion in its child. *)
Lemma delete_after_child node lvl minc a lo hi ms fp c c1 fr
    its1 it its2 mid1 mid2 m1 m m2 f1 f f2 m' a1 f' :
  node_wf node -> node_level node = Z.of_nat (S lvl) ->
  1 <= minc <= len (node_internal_items node) -> len (node_internal_items node) <= 90 ->
  Forall (fun it => P (ii_key it)) (node_internal_items node) ->
  first_sep lo (node_internal_items node) ->
  focus P (rd c) lvl lo hi (node_internal_items node) ms fp k
    its1 it its2 mid1 mid2 m1 m m2 f1 f f2 ->
  Forall (fun x => 0 <= x < next_free_block c) fp -> 0 <= next_free_block c ->
  extends c c1 fr -> blocks_accounted c c1 f f' fr ->
  tree_at P (rd c1) lvl MIN_CHILDREN a1 mid1 mid2 m' f' ->
  next_free_block c1 + 2 < 2 ^ 64 ->
  exists c2,
    (let! items := st_lift (set_child (node_internal_items node) (length its1) a1 g) in
     let! new_block := write_cow_clone (node_set_internal_items node items (node_item_count node)) a g in
     st_ret (new_block, true)) c1 = (c2, Ok (next_free_block c1, true))
    /\ extends c1 c2 [a] /\ next_free_block c2 = next_free_block c1 + 1
    /\ tree_at P (rd c2) (S lvl) minc (next_free_block c1) lo hi (m1 ++ m' ++ m2)
         (next_free_block c1 :: f1 ++ f' ++ f2).
Proof.
  intros Hwf Hl Hc H90 HPi Hfs Hfo Hfp Hn0 X1 Hacc Hres Hn.
  pose proof Hfo as [Eits _ _ Efp _ _ _ _ _ _ _ _].
  destruct (nwf_internal _ Hwf) as (_ & Hcount & Hiw & _); [lia|]. rewrite Hcount, Eits in *.
  rewrite (st_bind_lift _ _ _ _ (set_child_correct g its1 it its2 a1)).
  set (its' := its1 ++ BafsInternalItem_new (ii_key it) a1 g :: its2).
  replace (len (its1 ++ it :: its2)) with (len its') in * by (unfold its'; rewrite !length_app; done).
  pose proof (ext_next _ _ _ X1). pose proof (Forall_impl _ _ _ Hfp (fun x Hx => proj2 Hx)) as Hfp2.
  pose proof (focus_replace device P g k _ _ _ _ _ _ _ _ _ _ _ _ _ _ _ _ _ _ _ _ _ _ None _ Hfo X1 Hfp2 Hres)
    as Hseg.
  rewrite Efp, !Forall_app in Hfp. destruct Hfp as (Hf1 & Hf & Hf2).
  pose proof (blocks_accounted_bound _ _ _ _ _ X1 Hacc Hf Hn0) as Hf'.
  pose proof (tree_at_root_in_fp _ _ _ _ _ _ _ _ _ Hres) as Ha1.
  assert (0 <= a1 < next_free_block c1) as Hu1 by (rewrite Forall_forall in Hf'; by apply Hf').
  rewrite Forall_app, Forall_cons in Hiw, HPi. destruct Hiw as (Hiw1 & (Hkw & _) & Hiw3), HPi as (HPi1 & HPi2 & HPi3).
  destruct (clone_internal device P g Hg node its' a c1 lvl minc lo hi (m1 ++ m' ++ m2) (f1 ++ f' ++ f2))
    as (c2 & E2 & X2 & N2 & Ht); auto; try lia.
  - by destruct its1.
  - unfold its'. rewrite Forall_app, Forall_cons. split; [done|]. split; [|done].
    split; [done|]. simpl. split; [ilia|done].
  - unfold its'. by rewrite Forall_app, Forall_cons.
  - unfold its'. by destruct lo, its1.
  - rewrite !Forall_app. repeat split; (eapply Forall_impl; [eassumption|]); simpl; lia.
  - rewrite (st_bind_Ok _ _ _ _ _ E2). by exists c2.
Qed.

Lemma delete_recursive_correct fuel lvl minc a lo hi ms fp c :
  1 <= minc -> (lvl < fuel)%nat ->
  tree_at P (rd c) lvl minc a lo hi ms fp -> in_bounds lo hi k ->
  Forall (fun x => 0 <= x < next_free_block c) fp -> 0 <= next_free_block c ->
  next_free_block c + (Z.of_nat lvl + 2) < 2 ^ 64 ->
  deleted lvl minc lo hi ms fp c (delete_recursive fuel device a k g c).
Proof.
  revert fuel minc a lo hi ms fp. induction lvl as [|lvl IH];
    intros [|fuel] minc a lo hi ms fp Hm Hf Ht Hkb Hfp Hn0 Hn; try lia;
    destruct Ht as (node & Ha & Hwf & Hl & Hb & Ht); cbn [delete_recursive];
    unfold st_get at 1, st_bind at 1; rewrite (st_bind_lift _ _ _ node Ha), Hl.
  { destruct Ht as (-> & -> & Hs & Hok). case_bool. unfold deleted.
    destruct (search_leaf_spec k _ Hs) as (l1 & l2 & H1 & H2 & [[E ->]|(v & E & ->)]).
    - rewrite E, items_get_absent by done. done.
    - destruct (delete_leaf_found node a c lo hi minc l1 v l2) as (c' & Er & X & N & Ht); auto; [lia|].
      rewrite Er. rewrite E, items_get_found, items_remove_found by done.
      exists c', (next_free_block c), [next_free_block c], [a]. split; [done|]. split; [done|].
      split; [lia|]. split; [|by split]. unfold blocks_accounted. rewrite N.
      replace (_ + 1 - _) with 1 by lia. rewrite seqZ_1. solve_Permutation. }
  destruct Ht as (Hc & HPi & Hfs & fp' & -> & Hseg). case_bool. unfold INTERNAL_MAX_ITEMS in Hc.
  destruct (tree_focus P _ _ _ _ _ _ _ k Hseg)
    as (its1 & it & its2 & mid1 & mid2 & m1 & m & m2 & f1 & f & f2 & Hfo);
    [intros E; rewrite E in Hc; simpl in Hc; lia|done|].
  pose proof Hfo as [Eits Hidx Ems Efp _ Hch _ _ _ Hkb' Hbef Haft].
  rewrite Hidx. apply Forall_cons in Hfp as [Hfa Hfp].
  rewrite (st_bind_lift _ _ _ it) by (unfold index; by rewrite Eits, list_lookup_middle).
  assert (Forall (fun x => 0 <= x < next_free_block c) f) as Hff
    by (rewrite Efp, !Forall_app in Hfp; apply Hfp).
  pose proof (IH fuel MIN_CHILDREN (ii_child_block it) mid1 mid2 m f
    ltac:(unfold MIN_CHILDREN; lia) ltac:(lia) Hch Hkb' Hff Hn0 ltac:(lia)) as Hdel.
  unfold deleted in *. rewrite Ems, items_get_around, items_remove_around by done.
  destruct (items_get k m) as [v|] eqn:Eg; [|by rewrite (st_bind_Err _ _ _ _ _ Hdel)].
  destruct Hdel as (c1 & a1 & f' & fr & Er & X1 & N1 & Hacc & Hold & Hres).
  rewrite (st_bind_Ok _ _ _ _ _ Er). cbn [negb].
  destruct (delete_after_child node lvl minc a lo hi ms fp' c c1 fr its1 it its2 mid1 mid2 m1 m m2
              f1 f f2 (items_remove k m) a1 f') as (c2 & E2 & X2 & N2 & Ht2); auto; [lia..|].
  exists c2, (next_free_block c1), (next_free_block c1 :: f1 ++ f' ++ f2), (fr ++ [a]).
  split; [exact E2|]. split; [by eapply extends_trans|]. split; [lia|]. split; [|split; [|done]].
  2: { intros x [Hx| ->%list_elem_of_singleton]%elem_of_app; [|left]. right. rewrite Efp, !elem_of_app. auto. }
  rewrite Efp. eapply blocks_accounted_node; [|exact Hacc|]; [lia|].
  rewrite N2. replace (_ + 1 - _) with 1 by lia. rewrite seqZ_1. solve_Permutation.
Qed.
End deletion.

(** ** Range scans *)

Section range.
Context {D : Type} `{BlockDevice D} (device : D) (cache : gmap Z (list Z)) (P : BafsKey -> Prop).
Context (min_key max_key : BafsKey) (Hmin : key_wf min_key).

(** Whether a scan of a subtree starting at [lo] sees its leftmost child: the
    subtree has a lower bound, or no separator lies above the range. *)
Definition scannable (lo : option BafsKey) : Prop :=
  lo <> None \/ forall k, P k -> key_le k max_key.

Definition in_range_items (ms : list BafsLeafItem) : list BafsLeafItem :=
  filter (fun item => key_in_range min_key max_key (li_key item) = true) ms.

Lemma key_in_range_true k : key_in_range min_key max_key k = true <-> key_le min_key k /\ key_le k max_key.
Proof.
  unfold key_in_range. destruct (key_leb_spec min_key k), (key_leb_spec k max_key); simpl;
    (split; [try done|by intros []]).
Qed.

Lemma max_key_not_below : ~ key_lt max_BafsKey min_key.
Proof. destruct Hmin as (? & ? & ?). rewrite key_lt_lex. simpl. ilia. Qed.

Lemma collect_children_correct rec
    (R : Z -> option BafsKey -> option BafsKey -> list BafsLeafItem -> list Z -> Prop) lo its hi ms fp :
  (forall a lo hi m f, R a lo hi m f -> scannable lo ->
     rec a = Ok (in_range_items m) /\ Forall (item_ok P lo hi) m) ->
  seg R lo its hi ms fp -> Forall (fun it => P (ii_key it)) its -> first_sep lo its -> scannable lo ->
  collect_children rec min_key max_key its = Ok (in_range_items ms).
Proof.
  intros HR. revert lo ms fp. induction its as [|it its IH]; intros lo ms fp Hseg HP Hfs Hsc.
  { by destruct Hseg as (_ & -> & _). }
  destruct Hseg as (mid & m1 & m2 & f1 & f2 & -> & -> & Hr & Hst & Hseg).
  destruct (HR _ _ _ _ _ Hr Hsc) as [Hrec Hok]. apply Forall_cons in HP as [HPit HP].
  assert (collect_children rec min_key max_key its = Ok (in_range_items m2)) as IH'.
  { destruct its as [|it2 its]; [by destruct Hseg as (_ & -> & _)|]. simpl in Hst. subst mid.
    eapply (IH (Some (ii_key it2))); [exact Hseg|done|done|by left]. }
  cbn [collect_children]. unfold in_range_items. rewrite filter_app. fold (in_range_items m2).
  match goal with |- (if ?b then _ else _) = _ => destruct b eqn:Hb end.
  - rewrite IH'. rewrite filter_none; [done|]. eapply Forall_impl; [exact Hok|].
    intros x (_ & [Hlo Hhi] & _) [H1 H2]%key_in_range_true. apply orb_prop in Hb as [Hb|Hb].
    + destruct (key_ltb_spec (match its with [] => max_BafsKey | next :: _ => ii_key next end) min_key)
        as [Hlt|]; [|done].
      destruct its as [|it2 its]; [by apply max_key_not_below in Hlt|].
      simpl in Hst. subst mid. simpl in Hhi. key_order.
    + destruct (key_ltb_spec max_key (ii_key it)) as [Hlt|]; [|done]. destruct lo as [l|].
      * simpl in Hfs, Hlo. subst l. key_order.
      * destruct Hsc as [?|Hall]; [done|]. specialize (Hall _ HPit). key_order.
  - rewrite Hrec, IH'. done.
Qed.

Lemma collect_range_correct fuel lvl minc a lo hi ms fp :
  (lvl < fuel)%nat -> tree_at P (read_tree_node device cache) lvl minc a lo hi ms fp -> scannable lo ->
  collect_range fuel device cache a min_key max_key = Ok (in_range_items ms).
Proof.
  revert fuel minc a lo hi ms fp. induction lvl as [|lvl IH];
    intros [|fuel] minc a lo hi ms fp Hf Ht Hsc; try lia;
    destruct Ht as (node & Ha & Hwf & Hl & Hb & Ht); cbn [collect_range]; rewrite Ha; cbn [obind]; rewrite Hl.
  - destruct Ht as (-> & _). by case_bool.
  - destruct Ht as (_ & HPi & Hfs & fp' & -> & Hseg). case_bool.
    eapply collect_children_correct; [|exact Hseg|done|done|done].
    intros a' lo' hi' m f Ht Hsc'. split; [by eapply IH; [lia|..]|].
    by apply tree_at_items in Ht as (_ & ? & _).
Qed.
End range.

(** ** Whole trees *)

Section whole_trees.
Context {D : Type} `{BlockDevice D} (device : D) (P : BafsKey -> Prop).

Lemma lookup_in_tree_correct c anchor root ms fp k :
  rooted device P c anchor root ms fp -> ge_lo anchor k -> next_free_block c < 2 ^ 64 ->
  lookup_in_tree device (dirty_cache c) root k = Ok (items_get k ms).
Proof.
  intros ((lvl & Ht) & Hnd & Hfp & _) Hge Hn.
  assert (lvl <= 12)%nat by (eapply rooted_height; eauto).
  eapply (lookup_loop_correct P _ _ _ lvl 2); [lia|unfold TREE_FUEL; lia|exact Ht|done].
Qed.

Lemma iterate_tree_range_correct c anchor root ms fp min_key max_key :
  rooted device P c anchor root ms fp -> next_free_block c < 2 ^ 64 -> key_wf min_key ->
  scannable P max_key anchor ->
  iterate_tree_range device (dirty_cache c) root min_key max_key
  = Ok (in_range_items min_key max_key ms).
Proof.
  intros ((lvl & Ht) & Hnd & Hfp & _) Hn Hmin Hsc.
  assert (lvl <= 12)%nat by (eapply rooted_height; eauto).
  eapply (collect_range_correct _ _ P _ _ Hmin TREE_FUEL lvl 2); [unfold TREE_FUEL; lia|exact Ht|done].
Qed.

Lemma anchored_remove anchor k ms :
  anchor <> Some k -> anchored anchor ms -> anchored anchor (items_remove k ms).
Proof.
  intros Hne Ha l Hl. apply Ha in Hl as Hin. apply list_elem_of_fmap in Hin as (it & -> & Hit).
  apply list_elem_of_fmap_2, list_elem_of_filter. split; [|done]. congruence.
Qed.

Lemma delete_from_tree_correct c anchor root ms fp k g :
  rooted device P c anchor root ms fp -> ge_lo anchor k -> is_u64 g -> anchor <> Some k ->
  0 <= next_free_block c -> next_free_block c + 14 < 2 ^ 64 ->
  match items_get k ms with
  | None => delete_from_tree device root k g c = (c, Err NotFound)
  | Some _ => exists c' root' fp' fr, delete_from_tree device root k g c = (c', Ok root')
      /\ extends c c' fr /\ next_free_block c' <= next_free_block c + 13
      /\ blocks_accounted c c' fp fp' fr /\ (forall x, x ∈ fr -> x ∈ fp)
      /\ rooted device P c' anchor root' (items_remove k ms) fp'
  end.
Proof.
  intros ((lvl & Ht) & Hnd & Hfp & Hanc) Hge Hg Hne Hn0 Hn.
  assert (lvl <= 12)%nat as Hlvl by (eapply rooted_height; eauto; lia).
  pose proof (delete_recursive_correct device P k g Hg TREE_FUEL lvl 2 root anchor None ms fp c
    ltac:(lia) ltac:(unfold TREE_FUEL; lia) Ht ltac:(done) Hfp Hn0 ltac:(lia)) as Hd.
  unfold deleted in Hd. unfold delete_from_tree.
  destruct (items_get k ms) as [v|]; [|by rewrite (st_bind_Err _ _ _ _ _ Hd)].
  destruct Hd as (c' & a' & fp' & fr & E & X & N & Hacc & Hold & Ht'). rewrite (st_bind_Ok _ _ _ _ _ E).
  exists c', a', fp', fr. split; [done|]. split; [done|]. split; [lia|]. split; [done|]. split; [done|].
  split; [by exists lvl|]. pose proof (blocks_accounted_NoDup _ _ _ _ _ X Hacc Hnd Hfp) as Hnd'.
  split; [by apply NoDup_app in Hnd' as (? & _)|].
  split; [by eapply blocks_accounted_bound|by apply anchored_remove].
Qed.

(** An empty tree. *)
Lemma create_empty_tree_correct c a g :
  0 <= a < next_free_block c -> next_free_block c < 2 ^ 64 -> is_u64 g ->
  exists c', create_empty_tree a g c = (c', Ok tt)
    /\ next_free_block c' = next_free_block c /\ freed_blocks c' = freed_blocks c
    /\ (exists b, dirty_cache c' = <[a := b]> (dirty_cache c) /\ length b = 4096%nat /\ bytes_ok b)
    /\ rooted device P c' None a [] [a].
Proof.
  intros Ha Hn Hg. unfold create_empty_tree, write_tree_node_to_cache.
  set (n := fresh_node 0 a g [] [] 0).
  assert (node_wf n) as Hwf by (apply leaf_wf_intro; simpl; auto; try ilia; vm_compute; discriminate).
  rewrite (st_bind_lift _ _ _ (node_block n)) by by apply serialise_node_layout.
  unfold write_block_to_cache. pose proof (length_node_block n Hwf) as Hlen.
  destruct (Z.eqb_spec (len (node_block n)) 4096); [|lia].
  eexists. split; [reflexivity|]. split; [done|]. split; [done|]. split.
  { exists (node_block n). split; [done|]. split; [done|]. by apply node_block_ok. }
  split; [|split; [|split]].
  - exists 0%nat. apply (leaf_at_intro P _ a n); auto; [|constructor..].
    unfold read_tree_node, read_block. simpl. rewrite lookup_insert_eq. simpl.
    by apply deserialise_node_layout.
  - apply NoDup_singleton.
  - by apply Forall_singleton.
  - by intros l [=].
Qed.
End whole_trees.
