(* ===== verification/TreeStore.v ===== *)
(** * TreeStore: the B-tree as a map

    What the tree promises to the rest of the file system, as a class
    ([TreeStore]) over maps from keys to values, and the proof that the
    copy-on-write B-tree keeps the promise.  The record layers (inodes,
    directories, extents, checksums) are verified against the class. *)

From S2P Require Import Prelude Checksum Device Superblock Node NodeCodec BTree BTreeInv BTreeWrite.
From S2P Require Import BTreeInsert BTreeDelete.

(** ** Item lists as maps *)

Definition item_pair (it : BafsLeafItem) : BafsKey * list Z := (li_key it, li_value it).

Definition items_map (ms : list BafsLeafItem) : gmap BafsKey (list Z) :=
  list_to_map (item_pair <$> ms).

Lemma items_map_lookup k ms : items_map ms !! k = items_get k ms.
Proof.
  unfold items_map, items_get. induction ms as [|it ms IH]; csimpl; [done|].
  destruct (decide (li_key it = k)) as [<-|Hne].
  - by rewrite lookup_insert_eq, filter_cons_True.
  - by rewrite lookup_insert_ne, filter_cons_False.
Qed.

Lemma items_get_put_eq k v ms : items_get k (items_put k v ms) = Some v.
Proof.
  unfold items_put. apply items_get_found; apply Forall_forall; intros x [Hx _]%list_elem_of_filter.
  - by destruct (key_ltb_spec (li_key x) k).
  - by destruct (key_ltb_spec k (li_key x)).
Qed.

Lemma filter_filter_same {A} (Q R : A -> Prop) `{forall x, Decision (Q x)} `{forall x, Decision (R x)} (l : list A) :
  (forall x, Q x -> R x) -> filter Q (filter R l) = filter Q l.
Proof.
  intros HQR. induction l as [|x l IH]; [done|]. destruct (decide (R x)).
  - rewrite (filter_cons_True R) by done. destruct (decide (Q x)).
    + by rewrite !(filter_cons_True Q), IH.
    + by rewrite !(filter_cons_False Q), IH.
  - rewrite (filter_cons_False R), (filter_cons_False Q) by auto. done.
Qed.

Lemma items_get_put_ne k k' v ms : k <> k' -> items_get k' (items_put k v ms) = items_get k' ms.
Proof.
  intros Hne. unfold items_put, items_get. rewrite !filter_app, (filter_cons_False _ (BafsLeafItem_new k v)) by done.
  simpl. f_equal. destruct (key_lt_or_le k' k) as [Hlt|Hle].
  - rewrite filter_filter_same by (simpl; intros x ->; by apply key_ltb_true).
    rewrite (filter_none _ (filter _ ms)); [by rewrite app_nil_r|].
    apply Forall_forall. intros x [Hx _]%list_elem_of_filter E. rewrite E in Hx.
    destruct (key_ltb_spec k k') as [H|]; [key_order|done].
  - rewrite (filter_none _ (filter (fun x => key_ltb (li_key x) k = true) ms)).
    + rewrite filter_filter_same; [done|]. simpl. intros x ->. apply key_ltb_true. key_order.
    + apply Forall_forall. intros x [Hx _]%list_elem_of_filter E. rewrite E in Hx.
      destruct (key_ltb_spec k' k) as [H|]; [key_order|done].
Qed.

Lemma items_map_put k v ms : items_map (items_put k v ms) = <[k := v]> (items_map ms).
Proof.
  apply map_eq. intros k'. rewrite items_map_lookup. destruct (decide (k = k')) as [<-|Hne].
  - by rewrite lookup_insert_eq, items_get_put_eq.
  - by rewrite lookup_insert_ne, items_map_lookup, items_get_put_ne.
Qed.

Lemma items_map_remove k ms : items_map (items_remove k ms) = delete k (items_map ms).
Proof.
  apply map_eq. intros k'. rewrite items_map_lookup. unfold items_get, items_remove.
  destruct (decide (k = k')) as [<-|Hne].
  - rewrite lookup_delete_eq, filter_none; [done|]. apply Forall_forall.
    by intros x [Hx _]%list_elem_of_filter.
  - rewrite lookup_delete_ne, items_map_lookup by done. rewrite filter_filter_same; [done|]. congruence.
Qed.

Lemma items_sorted_NoDup ms : items_sorted ms -> NoDup (item_pair <$> ms).*1.
Proof.
  unfold items_sorted. rewrite <- list_fmap_compose. change (fst ∘ item_pair) with li_key.
  induction ms as [|it ms IH]; csimpl; [constructor|]. intros [Hs Hall]%StronglySorted_inv.
  constructor; [|auto]. intros Hin. rewrite Forall_forall in Hall. specialize (Hall _ Hin).
  by apply key_lt_irrefl in Hall.
Qed.

(** A sorted list holds exactly the bindings of its map. *)
Lemma items_map_elem k v ms :
  items_sorted ms -> items_map ms !! k = Some v <-> BafsLeafItem_new k v ∈ ms.
Proof.
  intros Hs. unfold items_map. rewrite <- elem_of_list_to_map by by apply items_sorted_NoDup.
  rewrite list_elem_of_fmap. split.
  - intros ([k' v'] & [= -> ->] & Hin). done.
  - intros Hin. by exists (BafsLeafItem_new k v).
Qed.

(** The bindings of [m] in a range of keys, in key order. *)
Definition range_of (m : gmap BafsKey (list Z)) (min_key max_key : BafsKey)
    (items : list BafsLeafItem) : Prop :=
  items_sorted items
  /\ forall k v, BafsLeafItem_new k v ∈ items
       <-> m !! k = Some v /\ key_le min_key k /\ key_le k max_key.

Lemma sorted_filter (Q : BafsLeafItem -> Prop) `{forall x, Decision (Q x)} ms :
  items_sorted ms -> items_sorted (filter Q ms).
Proof.
  unfold items_sorted. induction ms as [|it ms IH]; csimpl; [done|].
  intros [Hs Hall]%StronglySorted_inv. destruct (decide (Q it)).
  - rewrite filter_cons_True by done. csimpl. constructor; [auto|]. rewrite Forall_fmap in *.
    rewrite Forall_forall in *. intros x [_ Hx]%list_elem_of_filter. auto.
  - rewrite filter_cons_False by done. auto.
Qed.

Lemma in_range_items_range min_key max_key ms :
  items_sorted ms -> range_of (items_map ms) min_key max_key (in_range_items min_key max_key ms).
Proof.
  intros Hs. split; [by apply sorted_filter|]. intros k v. unfold in_range_items.
  rewrite list_elem_of_filter, key_in_range_true, items_map_elem by done. simpl. tauto.
Qed.

(** Two listings of the same range are the same list. *)
Lemma range_of_unique m a b l1 l2 : range_of m a b l1 -> range_of m a b l2 -> l1 = l2.
Proof.
  intros [Hs1 H1] [Hs2 H2].
  assert (forall x, x ∈ l1 <-> x ∈ l2) as Heq by (intros [k v]; by rewrite H1, H2).
  clear H1 H2. revert l2 Hs2 Heq. induction l1 as [|x l1 IH]; intros [|y l2] Hs2 Heq; [done|..].
  - destruct (not_elem_of_nil y). apply Heq. left.
  - destruct (not_elem_of_nil x). apply Heq. left.
  - unfold items_sorted in *. csimpl in *. apply StronglySorted_inv in Hs1 as [Hs1 H1], Hs2 as [Hs2 H2].
    rewrite Forall_fmap, Forall_forall in H1, H2. simpl in H1, H2.
    assert (x = y) as <-.
    { destruct (proj1 (elem_of_cons _ _ _) (proj1 (Heq x) ltac:(left))) as [E|Hx]; [done|].
      destruct (proj1 (elem_of_cons _ _ _) (proj2 (Heq y) ltac:(left))) as [E|Hy]; [done|].
      specialize (H1 _ Hy). specialize (H2 _ Hx). exfalso. simpl in *. key_order. }
    f_equal. apply IH; [done|done|]. intros z. specialize (Heq z). rewrite !elem_of_cons in Heq.
    split; intros Hz.
    + destruct (proj1 Heq (or_intror Hz)) as [E|?]; [subst z|done].
      specialize (H1 _ Hz). by apply key_lt_irrefl in H1.
    + destruct (proj2 Heq (or_intror Hz)) as [E|?]; [subst z|done].
      specialize (H2 _ Hz). by apply key_lt_irrefl in H2.
Qed.

(** ** The interface *)

(** What the trees of the file system store: which keys, and the smallest key when
    it is always present (the inode tree holds the root directory's inode). *)
Record tree_kind := { tk_keys : BafsKey -> Prop; tk_anchor : option BafsKey }.

Definition key_allowed (K : tree_kind) (k : BafsKey) : Prop :=
  tk_keys K k /\ ge_lo (tk_anchor K) k /\ key_wf k.

Definition value_ok (v : list Z) : Prop := bytes_ok v /\ len v <= VALUE_MAX.

(** A scan up to [max_key] sees the whole tree. *)
Definition scan_allowed (K : tree_kind) (min_key max_key : BafsKey) : Prop :=
  key_wf min_key /\ scannable (tk_keys K) max_key (tk_anchor K).

(** Room for [n] more blocks. *)
Definition room (c : cow) (n : Z) : Prop :=
  0 <= next_free_block c /\ next_free_block c + n < 2 ^ 64.

(** The new tree consists of blocks of the old one and newly allocated ones; what
    the old tree no longer needs has been recorded as superseded, each block at
    most twice. *)
Definition tree_moves (c c' : cow) (fp fp' fr : list Z) : Prop :=
  (forall x, x ∈ fp' -> x ∈ fp \/ next_free_block c <= x < next_free_block c')
  /\ (forall x, x ∈ fr <-> x ∈ fp /\ x ∉ fp')
  /\ exists once again, fr = once ++ again /\ NoDup once /\ NoDup again.

Definition INSERT_BLOCKS : Z := 27.
Definition DELETE_BLOCKS : Z := 14.

Class TreeStore (D : Type) `{BlockDevice D} := {
  (** [tree_rep K d c root m fp]: with the cache of [c] over [d], the tree at
      [root] stores the map [m] in the blocks [fp]. *)
  tree_rep : tree_kind -> D -> cow -> Z -> gmap BafsKey (list Z) -> list Z -> Prop;
  tree_blocks K d c root m fp : tree_rep K d c root m fp ->
    root ∈ fp /\ Forall (fun x => 0 <= x < next_free_block c) fp;
  tree_frame K d c d' c' root m fp : tree_rep K d c root m fp ->
    (forall x, x ∈ fp -> read_block d' (dirty_cache c') x = read_block d (dirty_cache c) x) ->
    next_free_block c <= next_free_block c' -> tree_rep K d' c' root m fp;
  tree_lookup K d c root m fp k : tree_rep K d c root m fp -> room c 0 -> key_allowed K k ->
    lookup_in_tree d (dirty_cache c) root k = Ok (m !! k);
  tree_range K d c root m fp min_key max_key : tree_rep K d c root m fp -> room c 0 ->
    scan_allowed K min_key max_key ->
    exists items, iterate_tree_range d (dirty_cache c) root min_key max_key = Ok items
      /\ range_of m min_key max_key items;
  tree_insert K d c root m fp k v g : tree_rep K d c root m fp -> key_allowed K k -> value_ok v ->
    is_u64 g -> room c INSERT_BLOCKS ->
    exists c' root' fp' fr, insert_into_tree d root k v g c = (c', Ok root')
      /\ extends c c' fr /\ next_free_block c' <= next_free_block c + INSERT_BLOCKS
      /\ tree_moves c c' fp fp' fr /\ tree_rep K d c' root' (<[k := v]> m) fp';
  tree_delete K d c root m fp k g : tree_rep K d c root m fp -> key_allowed K k ->
    tk_anchor K <> Some k -> is_u64 g -> room c DELETE_BLOCKS ->
    match m !! k with
    | None => delete_from_tree d root k g c = (c, Err NotFound)
    | Some _ => exists c' root' fp' fr, delete_from_tree d root k g c = (c', Ok root')
        /\ extends c c' fr /\ next_free_block c' <= next_free_block c + DELETE_BLOCKS
        /\ tree_moves c c' fp fp' fr /\ tree_rep K d c' root' (delete k m) fp'
    end;
  tree_values K d c root m fp k v : tree_rep K d c root m fp -> m !! k = Some v -> value_ok v;
  tree_unique K d c root m m' fp fp' : tree_rep K d c root m fp -> tree_rep K d c root m' fp' -> fp = fp';
}.

(** ** Sequences of updates *)

Definition blocks_below (boundary : Z) (l : list Z) : list Z := filter (fun x => x < boundary) l.

(** How many blocks below a boundary a tree occupies. *)
Definition committed (boundary : Z) (fp : list Z) : Z := Z.of_nat (size (list_to_set (blocks_below boundary fp) : gset Z)).

Lemma committed_from lo boundary fp :
  Forall (fun x => lo <= x) fp -> lo <= boundary -> 0 <= committed boundary fp <= boundary - lo.
Proof.
  intros Hfp Hb. unfold committed. split; [lia|].
  assert ((list_to_set (blocks_below boundary fp) : gset Z) ⊆ list_to_set (seqZ lo (boundary - lo))) as Hsub.
  { intros x. rewrite !elem_of_list_to_set, elem_of_seqZ. unfold blocks_below. rewrite list_elem_of_filter.
    intros [Hx Hin]. rewrite Forall_forall in Hfp. specialize (Hfp x Hin). simpl in Hfp. lia. }
  apply subseteq_size in Hsub. rewrite (size_list_to_set (seqZ lo (boundary - lo))) in Hsub by apply NoDup_seqZ.
  rewrite length_seqZ in Hsub. lia.
Qed.

Lemma committed_bounds boundary fp :
  Forall (fun x => 0 <= x) fp -> 0 <= boundary -> 0 <= committed boundary fp <= boundary.
Proof. intros Hfp Hb. pose proof (committed_from 0 boundary fp Hfp Hb). lia. Qed.

(** The new tree lies in blocks of the old tree and new ones; what was superseded
    is in neither the new tree nor anywhere but these blocks; nothing of the old
    tree is lost; a block below the allocator is superseded at most twice. *)
Record tree_evolves (c c' : cow) (fp fp' fr : list Z) : Prop := {
  te_blocks : forall x, x ∈ fp' -> x ∈ fp \/ next_free_block c <= x < next_free_block c';
  te_freed : forall x, x ∈ fr ->
    (x ∈ fp \/ next_free_block c <= x < next_free_block c') /\ x ∉ fp';
  te_complete : forall x, x ∈ fp -> x ∉ fp' -> x ∈ fr;
  te_count : forall boundary, boundary <= next_free_block c ->
    len (blocks_below boundary fr) <= 2 * (committed boundary fp - committed boundary fp');
}.

Lemma NoDup_lost_blocks boundary (fp fp' l : list Z) :
  NoDup l -> (forall x, x ∈ l -> x ∈ fp /\ x ∉ fp') -> (forall x, x ∈ fp' -> x < boundary -> x ∈ fp) ->
  len (blocks_below boundary l) <= committed boundary fp - committed boundary fp'.
Proof.
  intros Hnd Hin Hsub. unfold committed.
  set (X := list_to_set (blocks_below boundary fp) : gset Z). set (Y := list_to_set (blocks_below boundary fp') : gset Z).
  assert (Y ⊆ X) as HYX.
  { intros x. unfold X, Y, blocks_below. rewrite !elem_of_list_to_set, !list_elem_of_filter. naive_solver. }
  pose proof (size_difference X Y HYX) as Hdiff. pose proof (subseteq_size _ _ HYX).
  enough (length (blocks_below boundary l) <= size (X ∖ Y))%nat by lia.
  rewrite <- (size_list_to_set (C:=gset Z)) by by apply NoDup_filter.
  apply subseteq_size. intros x. unfold X, Y, blocks_below.
  rewrite elem_of_difference, !elem_of_list_to_set, !list_elem_of_filter. naive_solver.
Qed.

Lemma blocks_below_app boundary l1 l2 : blocks_below boundary (l1 ++ l2) = blocks_below boundary l1 ++ blocks_below boundary l2.
Proof. apply filter_app. Qed.

Lemma tree_moves_evolves c c' fp fp' fr : tree_moves c c' fp fp' fr -> tree_evolves c c' fp fp' fr.
Proof.
  intros (H1 & H2 & once & again & Hfr & Hn1 & Hn2). split; [done|intros x; rewrite H2; tauto..|].
  intros boundary Hb. rewrite Hfr, blocks_below_app, length_app.
  assert (forall x, x ∈ fp' -> x < boundary -> x ∈ fp) as Hsub by (intros x Hx Hlt; destruct (H1 x Hx); [done|lia]).
  assert (forall l, NoDup l -> (forall x, x ∈ l -> x ∈ fr) ->
    len (blocks_below boundary l) <= committed boundary fp - committed boundary fp') as Hlost.
  { intros l Hl Hin. apply NoDup_lost_blocks; [done| |done]. intros x Hx. by apply H2, Hin. }
  pose proof (Hlost once Hn1 ltac:(set_solver)). pose proof (Hlost again Hn2 ltac:(set_solver)). lia.
Qed.

Lemma tree_evolves_refl c fp : tree_evolves c c fp fp [].
Proof. split; [auto|by intros x Hx%elem_of_nil|by intros x Hx Hn|]. intros b _. simpl. lia. Qed.

Lemma tree_evolves_trans c1 c2 c3 fp1 fp2 fp3 fr1 fr2 :
  next_free_block c1 <= next_free_block c2 <= next_free_block c3 ->
  Forall (fun x => 0 <= x < next_free_block c1) fp1 ->
  tree_evolves c1 c2 fp1 fp2 fr1 -> tree_evolves c2 c3 fp2 fp3 fr2 ->
  tree_evolves c1 c3 fp1 fp3 (fr1 ++ fr2).
Proof.
  intros Hn Hfp [B1 F1 C1 K1] [B2 F2 C2 K2]. rewrite Forall_forall in Hfp. split; cycle 3.
  { intros b Hb. rewrite blocks_below_app, length_app. pose proof (K1 b Hb). pose proof (K2 b ltac:(lia)). lia. }
  - intros x Hx. apply B2 in Hx as [Hx|Hx]; [|right; lia]. apply B1 in Hx as [Hx|Hx]; [by left|right; lia].
  - intros x [Hx|Hx]%elem_of_app.
    + apply F1 in Hx as [Hx Hnx]. split; [destruct Hx; [by left|right; lia]|].
      intros Hx3. apply B2 in Hx3 as [Hx3|Hx3]; [done|].
      destruct Hx as [Hx|Hx]; [specialize (Hfp x Hx); simpl in Hfp|]; lia.
    + apply F2 in Hx as [Hx Hnx]. split; [|done]. destruct Hx as [Hx|Hx]; [|right; lia].
      apply B1 in Hx as [Hx|Hx]; [by left|right; lia].
  - intros x Hx Hnx. apply elem_of_app. destruct (decide (x ∈ fp2)); auto.
Qed.

Section updates.
Context {D : Type} `{BlockDevice D} `{!TreeStore D}.

(** One or more updates took the tree at [fp] in [c] to one at [root'] storing
    [m'], using at most [n] new blocks. *)
Record tree_updated (K : tree_kind) (d : D) (c : cow) (fp : list Z) (n : Z)
    (c' : cow) (root' : Z) (m' : gmap BafsKey (list Z)) (fp' fr : list Z) : Prop := {
  tu_extends : extends c c' fr;
  tu_next : next_free_block c' <= next_free_block c + n;
  tu_evolves : tree_evolves c c' fp fp' fr;
  tu_rep : tree_rep K d c' root' m' fp';
}.

Lemma tree_updated_refl K d c root m fp : tree_rep K d c root m fp -> tree_updated K d c fp 0 c root m fp [].
Proof. intros. split; [apply extends_refl|lia|apply tree_evolves_refl|done]. Qed.

Lemma tree_updated_trans K d c1 c2 c3 root1 m1 root2 m2 root3 m3 fp1 fp2 fp3 fr1 fr2 n1 n2 :
  tree_rep K d c1 root1 m1 fp1 ->
  tree_updated K d c1 fp1 n1 c2 root2 m2 fp2 fr1 -> tree_updated K d c2 fp2 n2 c3 root3 m3 fp3 fr2 ->
  tree_updated K d c1 fp1 (n1 + n2) c3 root3 m3 fp3 (fr1 ++ fr2).
Proof.
  intros Hr [X1 N1 E1 R1] [X2 N2 E2 R2]. destruct (tree_blocks _ _ _ _ _ _ Hr) as [_ Hfp].
  pose proof (ext_next _ _ _ X1). pose proof (ext_next _ _ _ X2).
  split; [by eapply extends_trans|lia|by eapply tree_evolves_trans|done].
Qed.

Lemma tree_insert_updated K d c root m fp k v g :
  tree_rep K d c root m fp -> key_allowed K k -> value_ok v -> is_u64 g -> room c INSERT_BLOCKS ->
  exists c' root' fp' fr, insert_into_tree d root k v g c = (c', Ok root')
    /\ tree_updated K d c fp INSERT_BLOCKS c' root' (<[k := v]> m) fp' fr.
Proof.
  intros Hr Hk Hv Hg Hroom.
  destruct (tree_insert _ _ _ _ _ _ k v g Hr Hk Hv Hg Hroom) as (c' & root' & fp' & fr & E & X & N & M & R).
  exists c', root', fp', fr. split; [done|]. split; auto using tree_moves_evolves.
Qed.

Lemma tree_delete_updated K d c root m fp k g :
  tree_rep K d c root m fp -> key_allowed K k -> tk_anchor K <> Some k -> is_u64 g ->
  room c DELETE_BLOCKS -> is_Some (m !! k) ->
  exists c' root' fp' fr, delete_from_tree d root k g c = (c', Ok root')
    /\ tree_updated K d c fp DELETE_BLOCKS c' root' (delete k m) fp' fr.
Proof.
  intros Hr Hk Ha Hg Hroom [v Hv]. pose proof (tree_delete _ _ _ _ _ _ k g Hr Hk Ha Hg Hroom) as Hd.
  rewrite Hv in Hd. destruct Hd as (c' & root' & fp' & fr & E & X & N & M & R).
  exists c', root', fp', fr. split; [done|]. split; auto using tree_moves_evolves.
Qed.

Lemma extends_read c c' fr fp (d : D) :
  extends c c' fr -> Forall (fun x => 0 <= x < next_free_block c) fp ->
  forall x, x ∈ fp -> read_block d (dirty_cache c') x = read_block d (dirty_cache c) x.
Proof.
  intros X Hfp x Hx. rewrite Forall_forall in Hfp. specialize (Hfp x Hx). simpl in Hfp.
  unfold read_block. by rewrite (ext_old _ _ _ X) by lia.
Qed.

(** Other trees are not affected. *)
Lemma tree_rep_extends K d c c' fr root m fp :
  extends c c' fr -> tree_rep K d c root m fp -> tree_rep K d c' root m fp.
Proof.
  intros X Hr. destruct (tree_blocks _ _ _ _ _ _ Hr) as [_ Hfp]. eapply tree_frame; [exact Hr| |].
  - by eapply extends_read.
  - apply (ext_next _ _ _ X).
Qed.

Lemma room_mono c n n' : room c n -> n' <= n -> room c n'.
Proof. unfold room. lia. Qed.

Lemma room_extends c c' n n' :
  room c (n + n') -> next_free_block c <= next_free_block c' <= next_free_block c + n -> room c' n'.
Proof. unfold room. lia. Qed.
End updates.

(** ** The B-tree keeps the promise *)

Section implementation.
Context {D : Type} `{BlockDevice D}.

Definition btree_rep (K : tree_kind) (d : D) (c : cow) (root : Z) (m : gmap BafsKey (list Z))
    (fp : list Z) : Prop :=
  exists ms, rooted d (tk_keys K) c (tk_anchor K) root ms fp /\ m = items_map ms.

Lemma rooted_frame P d d' c c' anchor root ms fp :
  rooted d P c anchor root ms fp ->
  (forall x, x ∈ fp -> read_block d' (dirty_cache c') x = read_block d (dirty_cache c) x) ->
  next_free_block c <= next_free_block c' -> rooted d' P c' anchor root ms fp.
Proof.
  intros ((lvl & Ht) & Hnd & Hfp & Hanc) Hrd Hn. split; [|split; [done|split; [|done]]].
  - exists lvl. eapply tree_at_frame; [|exact Ht]. intros x Hx. unfold read_tree_node. by rewrite Hrd.
  - eapply Forall_impl; [exact Hfp|]. simpl. lia.
Qed.

Lemma accounted_moves c c' fp fp' fr again :
  blocks_accounted c c' fp fp' fr -> NoDup (fp' ++ fr) -> (forall x, x ∈ fr -> x ∈ fp) ->
  (forall x, x ∈ again -> x ∈ fr) -> NoDup again -> tree_moves c c' fp fp' (fr ++ again).
Proof.
  intros Hacc Hnd Hold Hagain Hag. unfold blocks_accounted in Hacc.
  assert (forall x, x ∈ fp' \/ x ∈ fr <-> x ∈ fp \/ next_free_block c <= x < next_free_block c') as Hin.
  { intros x. rewrite <- elem_of_app, <- Hacc, elem_of_app, elem_of_seqZ. intuition lia. }
  apply NoDup_app in Hnd as (_ & Hdisj & Hfr). split; [|split; [|by exists fr, again]].
  - intros x Hx. apply Hin. by left.
  - intros x. rewrite elem_of_app. split.
    + intros Hx. assert (x ∈ fr) as Hxfr by (destruct Hx; auto).
      split; [auto|]. intros Hx'. by apply (Hdisj x).
    + intros [Hx Hnx]. destruct (proj2 (Hin x) (or_introl Hx)) as [Hf|Hf]; [by apply Hnx in Hf|auto].
Qed.

(** The blocks of a tree follow from its root. *)
Lemma seg_fp_unique (R : Z -> option BafsKey -> option BafsKey -> list BafsLeafItem -> list Z -> Prop) its :
  (forall a lo hi ms fp lo' hi' ms' fp', R a lo hi ms fp -> R a lo' hi' ms' fp' -> fp = fp') ->
  forall lo hi ms fp lo' hi' ms' fp', seg R lo its hi ms fp -> seg R lo' its hi' ms' fp' -> fp = fp'.
Proof.
  intros HR. induction its as [|it its IH]; simpl; intros lo hi ms fp lo' hi' ms' fp'.
  - by intros (_ & _ & ->) (_ & _ & ->).
  - intros (? & ? & ? & f1 & f2 & _ & -> & H1 & _ & H2) (? & ? & ? & g1 & g2 & _ & -> & H1' & _ & H2').
    f_equal; [by eapply HR|by eapply IH].
Qed.

Lemma tree_at_fp_unique P rd lvl : forall lvl' minc minc' a lo hi ms fp lo' hi' ms' fp',
  tree_at P rd lvl minc a lo hi ms fp -> tree_at P rd lvl' minc' a lo' hi' ms' fp' -> fp = fp'.
Proof.
  induction lvl as [|lvl IH]; intros lvl' minc minc' a lo hi ms fp lo' hi' ms' fp';
    intros (node & Hrd & _ & Hl & _ & Ht); destruct lvl' as [|lvl']; intros (node' & Hrd' & _ & Hl' & _ & Ht');
    rewrite Hrd in Hrd'; injection Hrd' as <-; try lia.
  - destruct Ht as (_ & -> & _), Ht' as (_ & -> & _). done.
  - assert (lvl' = lvl) as -> by lia. destruct Ht as (_ & _ & _ & f & -> & Hs), Ht' as (_ & _ & _ & f' & -> & Hs').
    f_equal. eapply (seg_fp_unique (tree_at P rd lvl MIN_CHILDREN)); [|exact Hs|exact Hs']. intros. by eapply (IH lvl).
Qed.
End implementation.

#[global] Program Instance btree_store {D : Type} `{BlockDevice D} : TreeStore D :=
  { tree_rep := btree_rep }.
Next Obligation.
  intros D HD K d c root m fp (ms & ((lvl & Ht) & _ & Hfp & _) & _).
  split; [by eapply tree_at_root_in_fp|done].
Qed.
Next Obligation.
  intros D HD K d c d' c' root m fp (ms & Hr & Hm) Hrd Hn. exists ms. split; [|done].
  by eapply rooted_frame.
Qed.
Next Obligation.
  intros D HD K d c root m fp k (ms & Hr & ->) Hroom (_ & Hge & _). unfold room in Hroom.
  rewrite items_map_lookup. eapply lookup_in_tree_correct; [exact Hr|done|lia].
Qed.
Next Obligation.
  intros D HD K d c root m fp mn mx (ms & Hr & ->) Hroom [Hmn Hsc]. unfold room in Hroom.
  eexists. split; [eapply iterate_tree_range_correct; [exact Hr|lia|done|done]|].
  apply in_range_items_range. destruct Hr as ((lvl & Ht) & _). by apply tree_at_items in Ht as (? & _).
Qed.
Next Obligation.
  intros D HD K d c root m fp k v g (ms & Hr & ->) (HP & Hge & Hk) [Hv Hvl] Hg [Hn0 Hn].
  pose proof Hr as (_ & Hnd & Hfp & _). unfold INSERT_BLOCKS in *.
  destruct (insert_into_tree_correct d _ c _ root ms fp k v g Hr Hge HP Hk Hv Hvl Hg Hn0 Hn)
    as (c' & root' & fp' & fr & again & E & X & Hag & Hrt & Hold & N & Hacc & Hr').
  exists c', root', fp', (fr ++ again). split; [done|]. split; [done|]. split; [done|]. split.
  - apply accounted_moves; [done| |done|..].
    + unfold blocks_accounted in Hacc. rewrite <- Hacc. apply NoDup_app. split; [done|].
      split; [|apply NoDup_seqZ]. intros x Hx Hin%elem_of_seqZ. rewrite Forall_forall in Hfp.
      specialize (Hfp x Hx). simpl in Hfp. lia.
    + destruct Hag as [->| ->]; intros x Hx; [by apply elem_of_nil in Hx|].
      by apply list_elem_of_singleton in Hx as ->.
    + destruct Hag as [->| ->]; [constructor|apply NoDup_singleton].
  - exists (items_put k v ms). by rewrite items_map_put.
Qed.
Next Obligation.
  intros D HD K d c root m fp k g (ms & Hr & ->) (HP & Hge & Hk) Hanc Hg [Hn0 Hn].
  pose proof Hr as (_ & Hnd & Hfp & _). unfold DELETE_BLOCKS in *. rewrite items_map_lookup.
  pose proof (delete_from_tree_correct d _ c _ root ms fp k g Hr Hge Hg Hanc Hn0 Hn) as Hd.
  destruct (items_get k ms); [|done].
  destruct Hd as (c' & root' & fp' & fr & E & X & N & Hacc & Hold & Hr').
  exists c', root', fp', fr. split; [done|]. split; [done|]. split; [lia|]. split.
  - rewrite <- (app_nil_r fr). apply accounted_moves; [done| |done|by intros x Hx%elem_of_nil|constructor].
    by eapply blocks_accounted_NoDup.
  - exists (items_remove k ms). by rewrite items_map_remove.
Qed.
Next Obligation.
  intros D HD K d c root m fp k v (ms & ((lvl & Ht) & _) & ->) Hkv.
  apply tree_at_items in Ht as Hok. destruct Hok as (Hs & Hok & _).
  apply items_map_elem in Hkv; [|done]. rewrite Forall_forall in Hok.
  destruct (Hok _ Hkv) as (_ & _ & Hl). split; [|exact Hl].
  pose proof (tree_at_leaf_items_wf _ _ _ _ _ _ _ _ _ Ht) as Hw. rewrite Forall_forall in Hw.
  by destruct (Hw _ Hkv).
Qed.
Next Obligation.
  intros D HD K d c root m m' fp fp' (ms & ((lvl & Ht) & _) & _) (ms' & ((lvl' & Ht') & _) & _).
  by eapply tree_at_fp_unique.
Qed.
