(* ===== verification/BTreeTheorems.v ===== *)
(** * BTreeTheorems: the B-tree of src/src/btree.rs implements a map

    Lookup, insertion, deletion and range scan against the map a tree stores, a
    whole history of operations with every earlier version still readable, the
    accounting of blocks, and two behaviours the code has at its edges. *)

From S2P Require Import Prelude Checksum Device Superblock Node NodeCodec BTree BTreeInv BTreeWrite.
From S2P Require Import BTreeInsert BTreeDelete TreeStore.

(** ** Histories *)

(** A sequence of updates, and its meaning on maps. *)
Inductive tree_op := OpInsert (k : BafsKey) (v : list Z) | OpDelete (k : BafsKey).

Definition op_apply (m : gmap BafsKey (list Z)) (op : tree_op) : gmap BafsKey (list Z) :=
  match op with OpInsert k v => <[k := v]> m | OpDelete k => delete k m end.

Definition op_ok (K : tree_kind) (op : tree_op) : Prop :=
  match op with
  | OpInsert k v => key_allowed K k /\ value_ok v
  | OpDelete k => key_allowed K k /\ tk_anchor K <> Some k
  end.

Section histories.
Context {D : Type} `{BlockDevice D} `{!TreeStore D}.

(** A caller that keeps the current root, and keeps it when a key to delete is
    not there. *)
Definition run_op (d : D) (g : Z) (root : Z) (op : tree_op) : ST cow BafsError Z :=
  fun c =>
    match op with
    | OpInsert k v => insert_into_tree d root k v g c
    | OpDelete k =>
        match delete_from_tree d root k g c with
        | (c', Err NotFound) => (c', Ok root)
        | r => r
        end
    end.

Fixpoint run_ops (d : D) (g : Z) (root : Z) (ops : list tree_op) : ST cow BafsError Z :=
  match ops with
  | [] => st_ret root
  | op :: ops => let! root := run_op d g root op in run_ops d g root ops
  end.

Lemma run_op_correct K d g root m fp op c :
  tree_rep K d c root m fp -> op_ok K op -> is_u64 g -> room c INSERT_BLOCKS ->
  exists c' root' fp' fr, run_op d g root op c = (c', Ok root') /\ extends c c' fr
    /\ next_free_block c' <= next_free_block c + INSERT_BLOCKS
    /\ tree_rep K d c' root' (op_apply m op) fp'.
Proof.
  intros Hr Hop Hg Hroom. destruct op as [k v|k]; destruct Hop as [Hk Hop]; cbn [run_op op_apply].
  - destruct (tree_insert _ _ _ _ _ _ k v g Hr Hk Hop Hg Hroom) as (c' & root' & fp' & fr & E & X & N & _ & Hr').
    rewrite E. eauto 10.
  - assert (room c DELETE_BLOCKS) as Hroom'
      by (eapply room_mono; [exact Hroom|unfold INSERT_BLOCKS, DELETE_BLOCKS; lia]).
    pose proof (tree_delete _ _ _ _ _ _ k g Hr Hk Hop Hg Hroom') as Hd.
    destruct (m !! k) as [v|] eqn:Ek.
    + destruct Hd as (c' & root' & fp' & fr & E & X & N & _ & Hr'). rewrite E.
      exists c', root', fp', fr. unfold INSERT_BLOCKS, DELETE_BLOCKS in *. split; [done|]. split; [done|].
      split; [lia|done].
    + rewrite Hd. exists c, root, fp, []. split; [done|]. split; [apply extends_refl|].
      split; [unfold INSERT_BLOCKS; lia|]. by rewrite delete_id.
Qed.

Lemma run_ops_correct K d g root m fp ops c :
  tree_rep K d c root m fp -> Forall (op_ok K) ops -> is_u64 g -> room c (INSERT_BLOCKS * len ops) ->
  exists c' root' fp' fr, run_ops d g root ops c = (c', Ok root') /\ extends c c' fr
    /\ tree_rep K d c' root' (fold_left op_apply ops m) fp' /\ room c' 0.
Proof.
  intros Hr Hops Hg. revert c root m fp Hr. induction Hops as [|op ops Hop Hops IH];
    intros c root m fp Hr Hroom; cbn [run_ops fold_left].
  - exists c, root, fp, []. split; [done|]. split; [apply extends_refl|]. split; [done|by eapply room_mono].
  - simpl length in Hroom. unfold INSERT_BLOCKS in *.
    destruct (run_op_correct K d g root m fp op c Hr Hop Hg) as (c1 & r1 & fp1 & fr1 & E1 & X1 & N1 & Hr1).
    { eapply room_mono; [exact Hroom|unfold INSERT_BLOCKS; lia]. }
    unfold INSERT_BLOCKS in N1. rewrite (st_bind_Ok _ _ _ _ _ E1). pose proof (ext_next _ _ _ X1).
    destruct (IH c1 r1 _ _ Hr1) as (c2 & r2 & fp2 & fr2 & E2 & X2 & Hr2).
    { eapply (room_extends c _ 27); [replace (27 + 27 * len ops) with (27 * Z.of_nat (S (length ops))) by lia; exact Hroom|lia]. }
    exists c2, r2, fp2, (fr1 ++ fr2). split; [done|]. split; [by eapply extends_trans|done].
Qed.
End histories.

(** ** Properties *)

Section properties.
Context {D : Type} `{BlockDevice D}.

(** C6: any history of insertions and deletions on a tree succeeds and leaves a
    tree storing exactly the map the history describes, in which [lookup_in_tree]
    finds what the map binds to a key, or nothing; and, copy-on-write, the root
    from before the history still stores the old map, block for block. *)
Theorem btree_history_refines_map K (d : D) c root m fp g ops :
  btree_rep K d c root m fp -> Forall (op_ok K) ops -> is_u64 g ->
  room c (INSERT_BLOCKS * len ops) ->
  exists c' root' fp', run_ops d g root ops c = (c', Ok root')
    /\ btree_rep K d c' root' (fold_left op_apply ops m) fp'
    /\ (forall k, key_allowed K k -> lookup_in_tree d (dirty_cache c') root' k = Ok (fold_left op_apply ops m !! k))
    /\ btree_rep K d c' root m fp
    /\ (forall x, x < next_free_block c -> dirty_cache c' !! x = dirty_cache c !! x).
Proof.
  intros Hr Hops Hg Hroom. change (tree_rep K d c root m fp) in Hr.
  destruct (run_ops_correct K d g root m fp ops c Hr Hops Hg Hroom) as (c' & root' & fp' & fr & E & X & Hr' & Hroom').
  exists c', root', fp'. split; [done|]. split; [exact Hr'|].
  split; [intros k Hk; by apply (tree_lookup _ _ _ _ _ _ k Hr')|]. split; [|apply (ext_old _ _ _ X)].
  exact (tree_rep_extends K d c c' fr root m fp X Hr).
Qed.

(** C15: [iterate_tree_range] returns exactly the bindings of the map in the range,
    in ascending key order, provided the scan reaches the leftmost child: the tree
    has a fixed smallest key, or no key of it lies above the range. *)
Theorem iterate_tree_range_refines K (d : D) c root m fp min_key max_key :
  btree_rep K d c root m fp -> room c 0 -> scan_allowed K min_key max_key ->
  exists items, iterate_tree_range d (dirty_cache c) root min_key max_key = Ok items
    /\ range_of m min_key max_key items.
Proof.
  intros Hr. change (tree_rep K d c root m fp) in Hr. by apply (tree_range _ _ _ _ _ _ min_key max_key Hr).
Qed.

(** C14: [insert_into_tree] records exactly the blocks of the old tree that the new
    tree does not use as superseded, takes every other block of the new tree from
    the allocator, and allocates at most 27 blocks. *)
Theorem insert_into_tree_accounts K (d : D) c root m fp k v g :
  btree_rep K d c root m fp -> key_allowed K k -> value_ok v -> is_u64 g -> room c INSERT_BLOCKS ->
  exists c' root' fp' fr, insert_into_tree d root k v g c = (c', Ok root')
    /\ freed_blocks c' = freed_blocks c ++ fr
    /\ next_free_block c <= next_free_block c' <= next_free_block c + 27
    /\ (forall x, x ∈ fr <-> x ∈ fp /\ x ∉ fp')
    /\ (forall x, x ∈ fp' -> x ∈ fp \/ next_free_block c <= x < next_free_block c')
    /\ btree_rep K d c' root' (<[k := v]> m) fp'.
Proof.
  intros Hr Hk Hv Hg Hroom. change (tree_rep K d c root m fp) in Hr.
  destruct (tree_insert K d c root m fp k v g Hr Hk Hv Hg Hroom)
    as (c' & root' & fp' & fr & E & X & N & (Hm1 & Hm2 & _) & Hr').
  exists c', root', fp', fr. pose proof (ext_next _ _ _ X). split; [done|].
  split; [apply (ext_freed _ _ _ X)|]. split; [unfold INSERT_BLOCKS in N; lia|]. done.
Qed.

(** [delete_from_tree] removes the key, or reports [NotFound] and changes
    nothing at all. *)
Theorem delete_from_tree_refines K (d : D) c root m fp k g :
  btree_rep K d c root m fp -> key_allowed K k -> tk_anchor K <> Some k -> is_u64 g ->
  room c DELETE_BLOCKS ->
  match m !! k with
  | None => delete_from_tree d root k g c = (c, Err NotFound)
  | Some _ => exists c' root' fp', delete_from_tree d root k g c = (c', Ok root')
      /\ btree_rep K d c' root' (delete k m) fp'
  end.
Proof.
  intros Hr Hk Ha Hg Hroom. change (tree_rep K d c root m fp) in Hr. pose proof (tree_delete K d c root m fp k g Hr Hk Ha Hg Hroom) as Hd.
  destruct (m !! k); [|exact Hd]. destruct Hd as (c' & root' & fp' & fr & E & _ & _ & _ & Hr').
  by exists c', root', fp'.
Qed.
End properties.

(** ** Behaviours at the edges *)

Section edges.
Context {D : Type} `{BlockDevice D}.

Lemma leaf_superseded_once a fr fp' (new : list Z) :
  [a] ++ new ≡ₚ fp' ++ fr -> NoDup (fp' ++ fr) -> a ∈ fr -> (forall x, x ∈ fr -> x ∈ [a]) -> fr = [a].
Proof.
  intros _ [_ [_ Hnd]]%NoDup_app Ha Hin. destruct fr as [|x [|y fr]].
  - by apply elem_of_nil in Ha.
  - by apply list_elem_of_singleton in Ha as ->.
  - pose proof (Hin x ltac:(left)) as Hx%list_elem_of_singleton.
    pose proof (Hin y ltac:(right; left)) as Hy%list_elem_of_singleton. subst.
    apply NoDup_cons in Hnd as [Hnd _]. destruct Hnd. left.
Qed.

(** C39: when the root is a leaf and the insertion splits it, its block is recorded
    as superseded twice. *)
Theorem root_split_supersedes_root_twice P (d : D) c root lo ms k v g :
  tree_at P (read_tree_node d (dirty_cache c)) 0 2 root lo None ms [root] ->
  0 <= root < next_free_block c -> anchored lo ms -> ge_lo lo k ->
  P k -> key_wf k -> bytes_ok v -> len v <= VALUE_MAX -> is_u64 g -> room c INSERT_BLOCKS ->
  4096 < leaf_serialised_size (items_put k v ms) ->
  freed_blocks (fst (insert_into_tree d root k v g c)) = freed_blocks c ++ [root; root].
Proof.
  intros Ht Hroot Hanc Hge HP Hk Hv Hvl Hg [Hn0 Hn] Hbig. unfold INSERT_BLOCKS in Hn.
  assert (Forall (fun x => 0 <= x < next_free_block c) [root]) as Hfp by by apply Forall_singleton.
  destruct (insert_recursive_correct d P k v g HP Hk Hv Hvl Hg TREE_FUEL 0 2 root lo None ms [root] c)
    as (c1 & a1 & split & fp1 & fr & E1 & X1 & N1 & Hacc & Hrt & Hold & Hres);
    [lia|unfold TREE_FUEL; lia|done|done|done|done|lia|].
  assert (fr = [root]) as ->.
  { eapply leaf_superseded_once; [exact Hacc| |done|done].
    eapply blocks_accounted_NoDup; [exact X1|exact Hacc|apply NoDup_singleton|done]. }
  unfold insert_into_tree. rewrite (st_bind_Ok _ _ _ _ _ E1). cbn beta iota.
  destruct split as [s|].
  - pose proof (tree_at_items _ _ _ _ _ _ _ _ _ Ht) as (Hs & _).
    pose proof (blocks_accounted_bound _ _ _ _ _ X1 Hacc Hfp Hn0) as Hfp1.
    pose proof (ext_next _ _ _ X1).
    destruct (new_root_correct d P g Hg c1 0 lo (items_put k v ms) a1 s fp1 root Hres)
      as (c2 & E2 & X2 & _ & _);
      [by apply anchored_put|by apply items_put_sorted|lia|done|lia|lia|].
    etransitivity; [exact (f_equal (fun r => freed_blocks (fst r)) E2)|].
    simpl. by rewrite (ext_freed _ _ _ X2), (ext_freed _ _ _ X1), <- app_assoc.
  - destruct Hres as (node & _ & Hwf & Hl & _ & Ems & _).
    destruct (nwf_leaf _ Hwf Hl) as (_ & _ & _ & Hsz). rewrite <- Ems in Hsz. lia.
Qed.
End edges.

(** A tree whose first separator lies above a key of its leftmost leaf: the key was
    inserted after the root had split, below every key of that time. *)
Definition low_key : BafsKey := BafsKey_new 5 1 10.
Definition low_leaf : BafsTreeNode := fresh_node 0 11 1 [BafsLeafItem_new low_key [7]] [] 1.
Definition high_leaf : BafsTreeNode := fresh_node 0 12 1 [BafsLeafItem_new (BafsKey_new 5 1 100) [8]] [] 1.
Definition skewed_root : BafsTreeNode :=
  fresh_node 1 10 1 [] [BafsInternalItem_new (BafsKey_new 5 1 50) 11 1;
                        BafsInternalItem_new (BafsKey_new 5 1 100) 12 1] 2.
Definition skewed_cow : cow :=
  {| dirty_cache := <[10 := node_block skewed_root]> (<[11 := node_block low_leaf]>
                      (<[12 := node_block high_leaf]> ∅));
     next_free_block := 20; freed_blocks := [] |}.
Definition any_keys : tree_kind := {| tk_keys := key_wf; tk_anchor := None |}.
Definition no_disk : MemoryDisk := MemoryDisk_new 0.

Lemma skewed_nodes_wf : node_wf skewed_root /\ node_wf low_leaf /\ node_wf high_leaf.
Proof.
  split; [|split].
  - apply internal_wf_intro; simpl; try ilia; try done.
    repeat constructor; simpl; ilia.
  - apply leaf_wf_intro; simpl; try ilia; try done. repeat constructor; simpl; ilia.
  - apply leaf_wf_intro; simpl; try ilia; try done. repeat constructor; simpl; ilia.
Qed.

Lemma read_cached_node (d : MemoryDisk) cache a n :
  node_wf n -> cache !! a = Some (node_block n) -> read_tree_node d cache a = Ok (node_sealed n).
Proof.
  intros Hwf Hc. unfold read_tree_node, read_block. rewrite Hc. cbn [obind].
  by apply deserialise_node_layout.
Qed.

Lemma skewed_rep :
  btree_rep any_keys no_disk skewed_cow 10 (items_map (node_leaf_items low_leaf ++ node_leaf_items high_leaf))
    [10; 11; 12].
Proof.
  destruct skewed_nodes_wf as (Hw0 & Hw1 & Hw2). eexists. split; [|reflexivity].
  split; [exists 1%nat|split; [|split; [|by intros ? [=]]]].
  - apply (internal_at_intro _ _ 10 skewed_root 0 None None _ [11; 12] 2);
      [by apply read_cached_node|done|done|done|simpl; unfold INTERNAL_MAX_ITEMS; lia|
       repeat constructor; simpl; ilia|done|].
    exists (Some (BafsKey_new 5 1 100)), (node_leaf_items low_leaf), (node_leaf_items high_leaf), [11], [12].
    do 2 (split; [done|]). split; [|split; [done|]].
    + apply (leaf_at_intro _ _ 11 low_leaf); [by apply read_cached_node|done|done|done|repeat constructor|].
      apply Forall_singleton. split; [repeat split; simpl; ilia|]. split; [|vm_compute; discriminate]. done.
    + exists None, (node_leaf_items high_leaf), [], [12], []. do 2 (split; [done|]). split; [|done].
      apply (leaf_at_intro _ _ 12 high_leaf); [by apply read_cached_node|done|done|done|repeat constructor|].
      apply Forall_singleton. split; [repeat split; simpl; ilia|]. split; [|vm_compute; discriminate].
      split; [|done]. apply key_le_refl.
  - by apply (bool_decide_unpack _).
  - repeat constructor; simpl; lia.
Qed.

(** C40: in a tree without a fixed smallest key, a range scan can miss a key that
    [lookup_in_tree] finds: the scan skips the leftmost child when its separator
    lies above the range, although smaller keys were inserted there. *)
Theorem range_scan_misses_leftmost_child :
  exists c root m fp, btree_rep any_keys no_disk c root m fp
    /\ lookup_in_tree no_disk (dirty_cache c) root low_key = Ok (Some [7])
    /\ key_in_range (BafsKey_new 5 1 0) (BafsKey_new 5 1 20) low_key = true
    /\ iterate_tree_range no_disk (dirty_cache c) root (BafsKey_new 5 1 0) (BafsKey_new 5 1 20) = Ok [].
Proof.
  exists skewed_cow, 10. eexists _, _. split; [exact skewed_rep|].
  pose proof skewed_rep as Hr. change (tree_rep any_keys no_disk skewed_cow 10
    (items_map (node_leaf_items low_leaf ++ node_leaf_items high_leaf)) [10; 11; 12]) in Hr.
  split; [|split; [done|]].
  - rewrite (tree_lookup _ _ _ _ _ _ low_key Hr); [done|unfold room; simpl; lia|].
    repeat split; simpl; ilia.
  - unfold iterate_tree_range. change TREE_FUEL with (S 255). cbn [collect_range].
    rewrite (read_cached_node _ _ _ skewed_root) by (apply skewed_nodes_wf || done). done.
Qed.

(** *** Witnesses *)

Definition example_cow : cow :=
  fst (create_empty_tree 300 1 {| dirty_cache := ∅; next_free_block := 301; freed_blocks := [] |}).

Lemma example_rep_of K : tk_anchor K = None -> btree_rep K no_disk example_cow 300 ∅ [300].
Proof.
  intros HK. destruct (create_empty_tree_correct no_disk (tk_keys K)
    {| dirty_cache := ∅; next_free_block := 301; freed_blocks := [] |} 300 1)
    as (c' & E & _ & _ & _ & Hr); [simpl; lia|simpl; lia|ilia|].
  exists []. unfold example_cow. rewrite E, HK. done.
Qed.

Lemma example_rep : btree_rep any_keys no_disk example_cow 300 ∅ [300].
Proof. by apply example_rep_of. Qed.

Lemma example_next : next_free_block example_cow = 301.
Proof.
  destruct (create_empty_tree_correct no_disk (tk_keys any_keys)
    {| dirty_cache := ∅; next_free_block := 301; freed_blocks := [] |} 300 1)
    as (c' & E & N & _); [simpl; lia|simpl; lia|ilia|].
  unfold example_cow. by rewrite E.
Qed.

Lemma example_cow_room n : 0 <= n < 1000000 -> room example_cow n.
Proof. unfold room. rewrite example_next. lia. Qed.

Lemma example_key k : key_wf k -> key_allowed any_keys k.
Proof. intros. by split. Qed.

Lemma btree_history_refines_map_witness :
  exists c' root' fp', run_ops no_disk 1 300 [OpInsert low_key [7]; OpDelete low_key; OpInsert low_key [9]]
                         example_cow = (c', Ok root')
    /\ btree_rep any_keys no_disk c' root' {[low_key := [9]]} fp'
    /\ btree_rep any_keys no_disk c' 300 ∅ [300].
Proof.
  destruct (btree_history_refines_map any_keys no_disk example_cow 300 ∅ [300] 1
    [OpInsert low_key [7]; OpDelete low_key; OpInsert low_key [9]]) as (c' & root' & fp' & H1 & H2 & _ & H3 & _).
  - exact example_rep.
  - repeat constructor; simpl; try ilia; vm_compute; discriminate.
  - ilia.
  - apply example_cow_room. unfold INSERT_BLOCKS. simpl. lia.
  - exists c', root', fp'. split; [exact H1|]. split; [|exact H3].
    assert (fold_left op_apply [OpInsert low_key [7]; OpDelete low_key; OpInsert low_key [9]] ∅
            = {[low_key := [9]]}) as E by (by vm_compute).
    rewrite <- E. exact H2.
Defined.

Lemma max_BafsKey_top k : key_wf k -> key_le k max_BafsKey.
Proof. intros (? & ? & ?). apply key_nlt_le. rewrite key_lt_lex. simpl. ilia. Qed.

Lemma iterate_tree_range_refines_witness :
  exists items, iterate_tree_range no_disk (dirty_cache skewed_cow) 10 low_key max_BafsKey = Ok items
    /\ range_of (items_map (node_leaf_items low_leaf ++ node_leaf_items high_leaf)) low_key max_BafsKey items.
Proof.
  apply (iterate_tree_range_refines any_keys no_disk skewed_cow 10 _ [10; 11; 12]).
  - exact skewed_rep.
  - unfold room. simpl. lia.
  - split; [repeat split; simpl; ilia|]. right. exact max_BafsKey_top.
Defined.

Lemma insert_into_tree_accounts_witness :
  exists c' root' (fp' fr : list Z), insert_into_tree no_disk 300 low_key [7] 1 example_cow = (c', Ok root')
    /\ (forall x, x ∈ fr <-> x ∈ [300] /\ x ∉ fp').
Proof.
  destruct (insert_into_tree_accounts any_keys no_disk example_cow 300 ∅ [300] low_key [7] 1)
    as (c' & root' & fp' & fr & H1 & _ & _ & H2 & _).
  - exact example_rep.
  - apply example_key. repeat split; simpl; ilia.
  - split; [repeat constructor; ilia|vm_compute; discriminate].
  - ilia.
  - apply example_cow_room. unfold INSERT_BLOCKS. lia.
  - exists c', root', fp', fr. split; [exact H1|exact H2].
Defined.

Lemma delete_from_tree_refines_witness :
  delete_from_tree no_disk 300 low_key 1 example_cow = (example_cow, Err NotFound).
Proof.
  pose proof (delete_from_tree_refines any_keys no_disk example_cow 300 ∅ [300] low_key 1 example_rep
    (example_key low_key ltac:(repeat split; simpl; ilia)) ltac:(discriminate) ltac:(ilia)
    (example_cow_room DELETE_BLOCKS ltac:(unfold DELETE_BLOCKS; lia))) as Hd.
  rewrite lookup_empty in Hd. exact Hd.
Defined.

(** Two values of the largest size fill a leaf. *)
Definition full_items : list BafsLeafItem :=
  [BafsLeafItem_new (BafsKey_new 5 1 50) (zeros 2011); BafsLeafItem_new (BafsKey_new 5 1 60) (zeros 2011)].
Definition full_leaf : BafsTreeNode := fresh_node 0 10 1 full_items [] 2.
Definition full_cow : cow :=
  {| dirty_cache := {[10 := node_block full_leaf]}; next_free_block := 20; freed_blocks := [] |}.

Lemma full_leaf_wf : node_wf full_leaf.
Proof.
  apply leaf_wf_intro; simpl; try ilia; try done.
  repeat (apply Forall_cons; split); [..|constructor];
    (split; [repeat split; simpl; ilia|apply zeros_bytes_ok]).
Qed.

Lemma full_tree :
  tree_at key_wf (read_tree_node no_disk (dirty_cache full_cow)) 0 2 10 None None full_items [10].
Proof.
  apply (leaf_at_intro key_wf _ 10 full_leaf);
    [apply read_cached_node; [exact full_leaf_wf|done]|exact full_leaf_wf|done|done|repeat constructor|].
  repeat (apply Forall_cons; split); [..|constructor];
    (split; [repeat split; simpl; ilia|split; [done|]]); simpl; rewrite length_zeros; unfold VALUE_MAX; lia.
Qed.

Lemma root_split_supersedes_root_twice_witness :
  freed_blocks (fst (insert_into_tree no_disk 10 (BafsKey_new 5 1 70) (zeros 2011) 1 full_cow)) = [10; 10].
Proof.
  apply (root_split_supersedes_root_twice key_wf no_disk full_cow 10 None full_items).
  - exact full_tree.
  - simpl. lia.
  - intros l [=].
  - exact I.
  - repeat split; simpl; ilia.
  - repeat split; simpl; ilia.
  - apply zeros_bytes_ok.
  - rewrite length_zeros. unfold VALUE_MAX. lia.
  - ilia.
  - unfold room, INSERT_BLOCKS. simpl. lia.
  - change (items_put (BafsKey_new 5 1 70) (zeros 2011) full_items)
      with (full_items ++ [BafsLeafItem_new (BafsKey_new 5 1 70) (zeros 2011)]).
    rewrite leaf_serialised_size_app. unfold full_items. rewrite !leaf_serialised_size_cons. simpl.
    rewrite length_zeros. change (leaf_serialised_size []) with 24. lia.
Defined.
