(* ===== verification/Inode.v ===== *)
(** * Inode: inode records (src/src/inode.rs)

    The 128-byte record and its codec, and reading and writing inodes in the
    inode tree. *)

From S2P Require Import Prelude Checksum Device Superblock Node NodeCodec BTree BTreeInv BTreeWrite.
From S2P Require Import BTreeInsert BTreeDelete TreeStore BTreeTheorems.

Definition INODE_MODE_REGULAR_FILE : Z := 0x8000.
Definition INODE_MODE_DIRECTORY : Z := 0x4000.
Definition INODE_DEFAULT_FILE_PERMISSIONS : Z := 0x1A4.
Definition INODE_DEFAULT_DIRECTORY_PERMISSIONS : Z := 0x1ED.

Record BafsInode := {
  inode_number : Z;
  file_size_in_bytes : Z;
  allocated_block_count : Z;
  inode_generation : Z;
  creation_time_nanoseconds : Z;
  modification_time_nanoseconds : Z;
  status_change_time_nanoseconds : Z;
  access_time_nanoseconds : Z;
  posix_mode : Z;
  owner_uid : Z;
  owner_gid : Z;
  hard_link_count : Z;
  inode_flags : Z;
  compression_algorithm : Z;
  encryption_key_id : Z;
  inode_reserved : list Z;
}.

Definition new_regular_file (number generation timestamp_nanoseconds : Z) : BafsInode :=
  {| inode_number := number; file_size_in_bytes := 0; allocated_block_count := 0;
     inode_generation := generation; creation_time_nanoseconds := timestamp_nanoseconds;
     modification_time_nanoseconds := timestamp_nanoseconds;
     status_change_time_nanoseconds := timestamp_nanoseconds;
     access_time_nanoseconds := timestamp_nanoseconds;
     posix_mode := Z.lor INODE_MODE_REGULAR_FILE INODE_DEFAULT_FILE_PERMISSIONS;
     owner_uid := 0; owner_gid := 0; hard_link_count := 1; inode_flags := 0;
     compression_algorithm := 0; encryption_key_id := 0; inode_reserved := zeros 32 |}.

Definition new_directory (number generation timestamp_nanoseconds : Z) : BafsInode :=
  {| inode_number := number; file_size_in_bytes := 0; allocated_block_count := 0;
     inode_generation := generation; creation_time_nanoseconds := timestamp_nanoseconds;
     modification_time_nanoseconds := timestamp_nanoseconds;
     status_change_time_nanoseconds := timestamp_nanoseconds;
     access_time_nanoseconds := timestamp_nanoseconds;
     posix_mode := Z.lor INODE_MODE_DIRECTORY INODE_DEFAULT_DIRECTORY_PERMISSIONS;
     owner_uid := 0; owner_gid := 0; hard_link_count := 2; inode_flags := 0;
     compression_algorithm := 0; encryption_key_id := 0; inode_reserved := zeros 32 |}.

Definition is_regular_file (inode : BafsInode) : bool :=
  Z.land (posix_mode inode) 0xF000 =? INODE_MODE_REGULAR_FILE.

Definition is_directory (inode : BafsInode) : bool :=
  Z.land (posix_mode inode) 0xF000 =? INODE_MODE_DIRECTORY.

(** ** Codec: the bytes of the [repr(C)] struct, 128 without padding *)

Definition serialise_inode_to_bytes (inode : BafsInode) : list Z :=
  le_bytes 8 (inode_number inode) ++ le_bytes 8 (file_size_in_bytes inode)
  ++ le_bytes 8 (allocated_block_count inode) ++ le_bytes 8 (inode_generation inode)
  ++ le_bytes 8 (creation_time_nanoseconds inode) ++ le_bytes 8 (modification_time_nanoseconds inode)
  ++ le_bytes 8 (status_change_time_nanoseconds inode) ++ le_bytes 8 (access_time_nanoseconds inode)
  ++ le_bytes 4 (posix_mode inode) ++ le_bytes 4 (owner_uid inode) ++ le_bytes 4 (owner_gid inode)
  ++ le_bytes 4 (hard_link_count inode) ++ le_bytes 4 (inode_flags inode)
  ++ le_bytes 4 (compression_algorithm inode) ++ le_bytes 8 (encryption_key_id inode)
  ++ inode_reserved inode.

(** The length is a [debug_assert!]. *)
Definition deserialise_inode_from_bytes (bytes : list Z) : result BafsInode :=
  if len bytes <? 128 then Panic
  else
    let '(number, l) := next_le 8 bytes in
    let '(size, l) := next_le 8 l in
    let '(blocks, l) := next_le 8 l in
    let '(generation, l) := next_le 8 l in
    let '(ctime, l) := next_le 8 l in
    let '(mtime, l) := next_le 8 l in
    let '(stime, l) := next_le 8 l in
    let '(atime, l) := next_le 8 l in
    let '(mode, l) := next_le 4 l in
    let '(uid, l) := next_le 4 l in
    let '(gid, l) := next_le 4 l in
    let '(links, l) := next_le 4 l in
    let '(flags, l) := next_le 4 l in
    let '(compression, l) := next_le 4 l in
    let '(encryption, l) := next_le 8 l in
    let '(reserved, _) := next_bytes 32 l in
    Ok {| inode_number := number; file_size_in_bytes := size; allocated_block_count := blocks;
          inode_generation := generation; creation_time_nanoseconds := ctime;
          modification_time_nanoseconds := mtime; status_change_time_nanoseconds := stime;
          access_time_nanoseconds := atime; posix_mode := mode; owner_uid := uid;
          owner_gid := gid; hard_link_count := links; inode_flags := flags;
          compression_algorithm := compression; encryption_key_id := encryption;
          inode_reserved := reserved |}.

(** ** Inodes in the inode tree *)

Definition inode_key (number : Z) : BafsKey := BafsKey_new number ITEM_TYPE_INODE 0.

Section inode_io.
Context {D : Type} `{BlockDevice D}.

Definition read_inode_from_tree (device : D) (cache : gmap Z (list Z)) (inode_tree_root_block : Z)
    (number : Z) : result BafsInode :=
  let? found := lookup_in_tree device cache inode_tree_root_block (inode_key number) in
  match found with
  | Some value_bytes =>
      if len value_bytes <? 128 then Err CorruptedStructure
      else deserialise_inode_from_bytes value_bytes
  | None => Err NotFound
  end.

Definition write_inode_to_tree (device : D) (inode_tree_root_block : Z) (inode : BafsInode)
    (generation : Z) : ST cow BafsError Z :=
  insert_into_tree device inode_tree_root_block (inode_key (inode_number inode))
    (serialise_inode_to_bytes inode) generation.
End inode_io.

Definition allocate_next_inode_number (current_inode_count : Z) : result Z :=
  checked_add 64 current_inode_count 1.

(** ** Well-formed inodes *)

Record inode_wf (i : BafsInode) : Prop := {
  iwf_number : is_u64 (inode_number i);
  iwf_size : is_u64 (file_size_in_bytes i);
  iwf_blocks : is_u64 (allocated_block_count i);
  iwf_generation : is_u64 (inode_generation i);
  iwf_ctime : is_u64 (creation_time_nanoseconds i);
  iwf_mtime : is_u64 (modification_time_nanoseconds i);
  iwf_stime : is_u64 (status_change_time_nanoseconds i);
  iwf_atime : is_u64 (access_time_nanoseconds i);
  iwf_mode : is_u32 (posix_mode i);
  iwf_uid : is_u32 (owner_uid i);
  iwf_gid : is_u32 (owner_gid i);
  iwf_links : is_u32 (hard_link_count i);
  iwf_flags : is_u32 (inode_flags i);
  iwf_compression : is_u32 (compression_algorithm i);
  iwf_encryption : is_u64 (encryption_key_id i);
  iwf_reserved : bytes_ok (inode_reserved i) /\ length (inode_reserved i) = 32%nat;
}.

Lemma length_serialise_inode i : inode_wf i -> length (serialise_inode_to_bytes i) = 128%nat.
Proof. intros []. split_hyps. unfold serialise_inode_to_bytes. autorewrite with len. lia. Qed.

Lemma serialise_inode_ok i : inode_wf i -> bytes_ok (serialise_inode_to_bytes i).
Proof.
  intros []. split_hyps. unfold serialise_inode_to_bytes. rewrite !bytes_ok_app. auto 30 with bytes.
Qed.

Lemma deserialise_serialise_inode i :
  inode_wf i -> deserialise_inode_from_bytes (serialise_inode_to_bytes i) = Ok i.
Proof.
  intros Hwf. unfold deserialise_inode_from_bytes. rewrite length_serialise_inode by done.
  destruct (Z.ltb_spec (Z.of_nat 128) 128); [lia|].
  destruct Hwf. split_hyps. unfold serialise_inode_to_bytes.
  rewrite <- (app_nil_r (inode_reserved i)). repeat next_field. by destruct i.
Qed.

Lemma deserialise_inode_wf bytes i :
  bytes_ok bytes -> deserialise_inode_from_bytes bytes = Ok i -> inode_wf i.
Proof.
  intros Hb. unfold deserialise_inode_from_bytes. destruct (Z.ltb_spec (len bytes) 128); [done|].
  assert (128 <= length bytes)%nat by lia. repeat parse_field. intros [= <-]. by constructor.
Qed.

Lemma new_regular_file_wf n g t : is_u64 n -> is_u64 g -> is_u64 t -> inode_wf (new_regular_file n g t).
Proof.
  intros. constructor; simpl; auto; try ilia; [by vm_compute|]. split; [apply zeros_bytes_ok|done].
Qed.

Lemma new_directory_wf n g t : is_u64 n -> is_u64 g -> is_u64 t -> inode_wf (new_directory n g t).
Proof.
  intros. constructor; simpl; auto; try ilia; [by vm_compute|]. split; [apply zeros_bytes_ok|done].
Qed.

(** ** Inodes as bindings of the inode tree *)

(** The inode tree holds the root directory's inode from [volume_format] on, and
    no smaller key. *)
Definition root_inode_key : BafsKey := inode_key BAFS_ROOT_INODE_NUMBER.
Definition inode_tree : tree_kind := {| tk_keys := key_wf; tk_anchor := Some root_inode_key |}.

Definition inode_at (m : gmap BafsKey (list Z)) (number : Z) (inode : BafsInode) : Prop :=
  m !! inode_key number = Some (serialise_inode_to_bytes inode) /\ inode_wf inode.

Lemma inode_key_allowed number : 1 <= number < 2 ^ 64 -> key_allowed inode_tree (inode_key number).
Proof.
  intros. assert (key_wf (inode_key number)) by (repeat split; simpl; unfold ITEM_TYPE_INODE; ilia).
  split; [done|]. split; [|done]. simpl. apply key_nlt_le. rewrite key_lt_lex. simpl.
  unfold BAFS_ROOT_INODE_NUMBER. lia.
Qed.

Lemma serialise_inode_value_ok i : inode_wf i -> value_ok (serialise_inode_to_bytes i).
Proof.
  intros Hi. split; [by apply serialise_inode_ok|]. rewrite length_serialise_inode by done. unfold VALUE_MAX. lia.
Qed.

Section inode_tree.
Context {D : Type} `{BlockDevice D} `{!TreeStore D}.

Lemma read_inode_correct d c root m fp number inode :
  tree_rep inode_tree d c root m fp -> room c 0 -> 1 <= number < 2 ^ 64 -> inode_at m number inode ->
  read_inode_from_tree d (dirty_cache c) root number = Ok inode.
Proof.
  intros Hr Hroom Hn [Hm Hi]. unfold read_inode_from_tree.
  rewrite (tree_lookup _ _ _ _ _ _ _ Hr Hroom (inode_key_allowed number Hn)). cbn [obind]. rewrite Hm.
  rewrite length_serialise_inode by done. by rewrite deserialise_serialise_inode.
Qed.

Lemma read_inode_missing d c root m fp number :
  tree_rep inode_tree d c root m fp -> room c 0 -> 1 <= number < 2 ^ 64 -> m !! inode_key number = None ->
  read_inode_from_tree d (dirty_cache c) root number = Err NotFound.
Proof.
  intros Hr Hroom Hn Hm. unfold read_inode_from_tree.
  rewrite (tree_lookup _ _ _ _ _ _ _ Hr Hroom (inode_key_allowed number Hn)). cbn [obind]. by rewrite Hm.
Qed.

Lemma write_inode_correct d c root m fp inode g :
  tree_rep inode_tree d c root m fp -> 1 <= inode_number inode -> inode_wf inode -> is_u64 g ->
  room c INSERT_BLOCKS ->
  exists c' root' fp' fr, write_inode_to_tree d root inode g c = (c', Ok root')
    /\ tree_updated inode_tree d c fp INSERT_BLOCKS c' root'
         (<[inode_key (inode_number inode) := serialise_inode_to_bytes inode]> m) fp' fr.
Proof.
  intros Hr Hn Hi Hg Hroom. pose proof (iwf_number _ Hi).
  eapply tree_insert_updated; [exact Hr|apply inode_key_allowed; ilia|by apply serialise_inode_value_ok|done|done].
Qed.

Lemma inode_at_insert_eq m inode :
  inode_wf inode ->
  inode_at (<[inode_key (inode_number inode) := serialise_inode_to_bytes inode]> m) (inode_number inode) inode.
Proof. intros. split; [apply lookup_insert_eq|done]. Qed.

(** After [write_inode_to_tree], [read_inode_from_tree] returns the inode
    written, and every other inode number reads as before. *)
Lemma write_inode_then_read (d : D) c root m fp inode g number :
  tree_rep inode_tree d c root m fp -> 1 <= inode_number inode -> inode_wf inode -> is_u64 g ->
  room c INSERT_BLOCKS -> 1 <= number < 2 ^ 64 ->
  exists c' root', write_inode_to_tree d root inode g c = (c', Ok root')
    /\ read_inode_from_tree d (dirty_cache c') root' number
       = if decide (number = inode_number inode) then Ok inode
         else read_inode_from_tree d (dirty_cache c) root number.
Proof.
  intros Hr Hin Hi Hg Hroom Hn.
  destruct (write_inode_correct d c root m fp inode g Hr Hin Hi Hg Hroom) as (c' & root' & fp' & fr & E & [X N _ R]).
  exists c', root'. split; [done|]. pose proof (ext_next _ _ _ X).
  assert (room c' 0) as Hroom' by (unfold room in *; lia).
  assert (room c 0) as Hroom0 by (eapply room_mono; [exact Hroom|unfold INSERT_BLOCKS; lia]).
  destruct (decide (number = inode_number inode)) as [->|Hne].
  - eapply read_inode_correct; [exact R|done|done|by apply inode_at_insert_eq].
  - unfold read_inode_from_tree.
    rewrite (tree_lookup _ _ _ _ _ _ _ R Hroom' (inode_key_allowed number Hn)).
    rewrite (tree_lookup _ _ _ _ _ _ _ Hr Hroom0 (inode_key_allowed number Hn)).
    rewrite lookup_insert_ne; [done|]. intros [= Heq]. by destruct Hne.
Qed.
End inode_tree.

(** An inode survives its 128-byte encoding, and any record of 128 bytes is the
    encoding of the inode read from it. *)
Lemma inode_roundtrip inode bytes :
  inode_wf inode -> bytes_ok bytes -> len bytes = 128 ->
  deserialise_inode_from_bytes (serialise_inode_to_bytes inode) = Ok inode
  /\ exists inode', deserialise_inode_from_bytes bytes = Ok inode' /\ serialise_inode_to_bytes inode' = bytes.
Proof.
  intros Hi Hb Hl. split; [by apply deserialise_serialise_inode|].
  unfold deserialise_inode_from_bytes. destruct (Z.ltb_spec (len bytes) 128); [lia|].
  assert (128 = length bytes)%nat by lia. repeat parse_field. eexists. split; [reflexivity|].
  unfold serialise_inode_to_bytes. simpl.
  match goal with |- context [?b ++ ?l] => is_var b; is_var l;
    assert (l = []) as -> by (apply length_zero_iff_nil; solve_len); by rewrite app_nil_r end.
Qed.

(** *** Witnesses *)

(** The inode tree right after formatting: one leaf with the root directory. *)
Definition root_inode : BafsInode := new_directory 1 1 0.
Definition root_leaf : BafsTreeNode :=
  fresh_node 0 300 1 [BafsLeafItem_new root_inode_key (serialise_inode_to_bytes root_inode)] [] 1.
Definition formatted_cow : cow :=
  {| dirty_cache := {[300 := node_block root_leaf]}; next_free_block := 301; freed_blocks := [] |}.
Definition formatted_map : gmap BafsKey (list Z) :=
  items_map [BafsLeafItem_new root_inode_key (serialise_inode_to_bytes root_inode)].

Lemma root_inode_key_wf : key_wf root_inode_key.
Proof. apply (inode_key_allowed BAFS_ROOT_INODE_NUMBER). unfold BAFS_ROOT_INODE_NUMBER. lia. Qed.

Lemma root_inode_wf : inode_wf root_inode.
Proof. apply new_directory_wf; ilia. Qed.

Lemma formatted_rep : btree_rep inode_tree no_disk formatted_cow 300 formatted_map [300].
Proof.
  assert (node_wf root_leaf) as Hwf.
  { apply leaf_wf_intro; simpl; try ilia; try done. apply Forall_singleton.
    split; [apply root_inode_key_wf|apply serialise_inode_ok, root_inode_wf]. }
  eexists. split; [|reflexivity]. split; [exists 0%nat|split; [apply NoDup_singleton|split]].
  - apply (leaf_at_intro _ _ 300 root_leaf); [by apply read_cached_node|done|done|done|repeat constructor|].
    apply Forall_singleton. split; [apply root_inode_key_wf|]. split; [split; [apply key_le_refl|done]|].
    simpl. rewrite length_serialise_inode by apply root_inode_wf. unfold VALUE_MAX. lia.
  - apply Forall_singleton. simpl. lia.
  - intros k [= <-]. left.
Qed.
