(* ===== verification/Extent.v ===== *)
(** * Extent: file extents and the free-extent tree (src/src/extent.rs)

    The two record codecs, extent records of a file in the inode tree, and the
    free-extent tree with allocation and coalescing release. *)

From S2P Require Import Prelude Checksum Device Superblock Node NodeCodec BTree BTreeInv BTreeWrite.
From S2P Require Import BTreeInsert BTreeDelete TreeStore BTreeTheorems.

Record BafsExtentData := {
  logical_byte_offset : Z;
  first_disk_block : Z;
  block_count : Z;
  extent_flags : Z;
  extent_reserved : Z;
}.

Record BafsFreeExtent := { fe_block_address : Z; fe_block_count : Z }.

(** ** Codecs: the bytes of the [repr(C)] structs *)

Definition serialise_extent_data_to_bytes (extent : BafsExtentData) : list Z :=
  le_bytes 8 (logical_byte_offset extent) ++ le_bytes 8 (first_disk_block extent)
  ++ le_bytes 8 (block_count extent) ++ le_bytes 4 (extent_flags extent)
  ++ le_bytes 4 (extent_reserved extent).

(** The length is a [debug_assert!]. *)
Definition deserialise_extent_data_from_bytes (bytes : list Z) : result BafsExtentData :=
  if len bytes <? 32 then Panic
  else
    let '(offset, l) := next_le 8 bytes in
    let '(first, l) := next_le 8 l in
    let '(count, l) := next_le 8 l in
    let '(flags, l) := next_le 4 l in
    let '(reserved, _) := next_le 4 l in
    Ok {| logical_byte_offset := offset; first_disk_block := first; block_count := count;
          extent_flags := flags; extent_reserved := reserved |}.

Definition serialise_free_extent_to_bytes (free_extent : BafsFreeExtent) : list Z :=
  le_bytes 8 (fe_block_address free_extent) ++ le_bytes 8 (fe_block_count free_extent).

Definition deserialise_free_extent_from_bytes (bytes : list Z) : result BafsFreeExtent :=
  if len bytes <? 16 then Panic
  else
    let '(address, l) := next_le 8 bytes in
    let '(count, _) := next_le 8 l in
    Ok {| fe_block_address := address; fe_block_count := count |}.

(** ** Extent records of a file *)

Definition extent_key (number offset : Z) : BafsKey := BafsKey_new number ITEM_TYPE_EXTENT_DATA offset.

(** The loop over the extent items: the first one covering the offset. *)
Fixpoint find_extent_covering (items : list BafsLeafItem) (file_byte_offset : Z)
    : result (option BafsExtentData) :=
  match items with
  | [] => Ok None
  | item :: rest =>
      let? extent := deserialise_extent_data_from_bytes (li_value item) in
      let? extent_bytes := checked_mul 64 (block_count extent) BAFS_DEFAULT_BLOCK_SIZE_BYTES in
      let? extent_end_byte := checked_add 64 (logical_byte_offset extent) extent_bytes in
      if (logical_byte_offset extent <=? file_byte_offset) && (file_byte_offset <? extent_end_byte)
      then Ok (Some extent)
      else find_extent_covering rest file_byte_offset
  end.

Section file_extents.
Context {D : Type} `{BlockDevice D}.

Definition write_extent_data_to_inode_tree (device : D) (inode_tree_root_block number : Z)
    (extent : BafsExtentData) (generation : Z) : ST cow BafsError Z :=
  insert_into_tree device inode_tree_root_block (extent_key number (logical_byte_offset extent))
    (serialise_extent_data_to_bytes extent) generation.

Definition read_extent_data_for_file_offset (device : D) (cache : gmap Z (list Z))
    (inode_tree_root_block number file_byte_offset : Z) : result (option BafsExtentData) :=
  let min_key := extent_key number 0 in
  let max_key := extent_key number (2 ^ 64 - 1) in
  let? all_extent_items := iterate_tree_range device cache inode_tree_root_block min_key max_key in
  find_extent_covering all_extent_items file_byte_offset.
End file_extents.

(** ** The free-extent tree *)

Definition free_key (block_address : Z) : BafsKey :=
  BafsKey_new BAFS_FREE_EXTENT_OBJECT_ID ITEM_TYPE_EXTENT_DATA block_address.

(** [items.iter().find(|item| pred(deserialise(&item.value)))] *)
Fixpoint find_free (pred : BafsFreeExtent -> result bool) (items : list BafsLeafItem)
    : result (option BafsLeafItem) :=
  match items with
  | [] => Ok None
  | item :: rest =>
      let? extent := deserialise_free_extent_from_bytes (li_value item) in
      let? hit := pred extent in
      if hit : bool then Ok (Some item) else find_free pred rest
  end.

Section free_extents.
Context {D : Type} `{BlockDevice D}.

Definition insert_free_extent_into_tree (device : D) (free_extent_tree_root_block block_address
    block_count generation : Z) : ST cow BafsError Z :=
  insert_into_tree device free_extent_tree_root_block (free_key block_address)
    (serialise_free_extent_to_bytes
       {| fe_block_address := block_address; fe_block_count := block_count |}) generation.

(** All free extents, in ascending address order. *)
Definition all_free_extents (device : D) (root : Z) : ST cow BafsError (list BafsLeafItem) :=
  let! c := st_get in
  st_lift (iterate_tree_range device (dirty_cache c) root (free_key 0) (free_key (2 ^ 64 - 1))).

Definition allocate_blocks (device : D) (free_extent_tree_root_block requested_block_count
    generation : Z) : ST cow BafsError (Z * Z) :=
  let! all_free_items := all_free_extents device free_extent_tree_root_block in
  let! chosen := st_lift (find_free (fun extent => Ok (requested_block_count <=? fe_block_count extent))
                            (rev all_free_items)) in
  match chosen with
  | None => st_err OutOfSpace
  | Some chosen_free_extent =>
      let! free_extent :=
        st_lift (deserialise_free_extent_from_bytes (li_value chosen_free_extent)) in
      let! extent_end :=
        st_lift (checked_add 64 (fe_block_address free_extent) (fe_block_count free_extent)) in
      let! allocated_block_address := st_lift (checked_sub extent_end requested_block_count) in
      let! current_root := delete_from_tree device free_extent_tree_root_block
                             (li_key chosen_free_extent) generation in
      if fe_block_address free_extent <? allocated_block_address then
        let! remainder_count :=
          st_lift (checked_sub allocated_block_address (fe_block_address free_extent)) in
        let! current_root := insert_free_extent_into_tree device current_root
                               (fe_block_address free_extent) remainder_count generation in
        st_ret (allocated_block_address, current_root)
      else st_ret (allocated_block_address, current_root)
  end.

Definition free_blocks (device : D) (free_extent_tree_root_block block_address block_count
    generation : Z) : ST cow BafsError Z :=
  let! all_free_items := all_free_extents device free_extent_tree_root_block in
  let! predecessor :=
    st_lift (find_free (fun extent =>
               let? extent_end :=
                 checked_add 64 (fe_block_address extent) (fe_block_count extent) in
               Ok (extent_end =? block_address)) all_free_items) in
  let! (merged_start, merged_count, current_root) :=
    match predecessor with
    | None => st_ret (block_address, block_count, free_extent_tree_root_block)
    | Some predecessor_item =>
        let! predecessor_extent :=
          st_lift (deserialise_free_extent_from_bytes (li_value predecessor_item)) in
        let! merged_count :=
          st_lift (checked_add 64 block_count (fe_block_count predecessor_extent)) in
        let! current_root := delete_from_tree device free_extent_tree_root_block
                               (li_key predecessor_item) generation in
        st_ret (fe_block_address predecessor_extent, merged_count, current_root)
    end in
  let! updated_free_items := all_free_extents device current_root in
  let! successor :=
    st_lift (find_free (fun extent =>
               let? merged_end := checked_add 64 merged_start merged_count in
               Ok (fe_block_address extent =? merged_end)) updated_free_items) in
  let! (merged_count, current_root) :=
    match successor with
    | None => st_ret (merged_count, current_root)
    | Some successor_item =>
        let! successor_extent :=
          st_lift (deserialise_free_extent_from_bytes (li_value successor_item)) in
        let! merged_count :=
          st_lift (checked_add 64 merged_count (fe_block_count successor_extent)) in
        let! current_root := delete_from_tree device current_root (li_key successor_item)
                               generation in
        st_ret (merged_count, current_root)
    end in
  insert_free_extent_into_tree device current_root merged_start merged_count generation.
End free_extents.

(** ** Codec lemmas *)

Record extent_wf (e : BafsExtentData) : Prop := {
  ewf_offset : is_u64 (logical_byte_offset e);
  ewf_first : is_u64 (first_disk_block e);
  ewf_count : is_u64 (block_count e);
  ewf_flags : is_u32 (extent_flags e);
  ewf_reserved : is_u32 (extent_reserved e);
}.

Lemma length_serialise_extent e : length (serialise_extent_data_to_bytes e) = 32%nat.
Proof. unfold serialise_extent_data_to_bytes. by autorewrite with len. Qed.

Lemma serialise_extent_ok e : bytes_ok (serialise_extent_data_to_bytes e).
Proof. unfold serialise_extent_data_to_bytes. rewrite !bytes_ok_app. auto with bytes. Qed.

Lemma deserialise_serialise_extent e :
  extent_wf e -> deserialise_extent_data_from_bytes (serialise_extent_data_to_bytes e) = Ok e.
Proof.
  intros []. unfold deserialise_extent_data_from_bytes. rewrite length_serialise_extent.
  destruct (Z.ltb_spec (Z.of_nat 32) 32); [lia|]. unfold serialise_extent_data_to_bytes.
  rewrite <- (app_nil_r (le_bytes 4 (extent_reserved e))). repeat next_field. by destruct e.
Qed.

Lemma deserialise_serialise_free e :
  is_u64 (fe_block_address e) -> is_u64 (fe_block_count e) ->
  deserialise_free_extent_from_bytes (serialise_free_extent_to_bytes e) = Ok e.
Proof.
  intros Ha Hc. unfold deserialise_free_extent_from_bytes, serialise_free_extent_to_bytes.
  rewrite length_app, !length_le_bytes. destruct (Z.ltb_spec (Z.of_nat (8 + 8)) 16); [lia|].
  rewrite <- (app_nil_r (le_bytes 8 (fe_block_count e))). repeat next_field. by destruct e.
Qed.

Lemma serialise_free_value_ok e : value_ok (serialise_free_extent_to_bytes e).
Proof.
  unfold serialise_free_extent_to_bytes. split; [rewrite bytes_ok_app; auto with bytes|].
  rewrite length_app, !length_le_bytes. unfold VALUE_MAX. lia.
Qed.

Lemma serialise_extent_value_ok e : value_ok (serialise_extent_data_to_bytes e).
Proof. split; [apply serialise_extent_ok|]. rewrite length_serialise_extent. unfold VALUE_MAX. lia. Qed.
