(* ===== verification/FreeSpace.v ===== *)
(** * FreeSpace: the free-extent tree as a set of free blocks

    The tree stores a map from start addresses to lengths; allocation takes the
    requested blocks out of the set of free blocks, release puts them back and
    keeps adjacent extents merged. *)

From S2P Require Import Prelude Checksum Device Superblock Node NodeCodec BTree BTreeInv BTreeWrite.
From S2P Require Import BTreeInsert BTreeDelete TreeStore BTreeTheorems Extent.

(** ** Abstract state *)

(** Free extents: first block to number of blocks. *)
Abbreviation free_map := (gmap Z Z).

Definition free_record (a n : Z) : list Z :=
  serialise_free_extent_to_bytes {| fe_block_address := a; fe_block_count := n |}.

#[global] Instance free_key_inj : Inj (=) (=) free_key.
Proof. by intros a b [= ->]. Qed.

(** What the tree stores for a free map. *)
Definition free_encode (fe : free_map) : gmap BafsKey (list Z) :=
  kmap free_key (map_imap (fun a n => Some (free_record a n)) fe).

(** Extents are non-empty and end at or before [limit]. *)
Definition free_ok (limit : Z) (fe : free_map) : Prop :=
  map_Forall (fun a n => 0 <= a /\ 0 < n /\ a + n <= limit) fe.

Definition free_disjoint (fe : free_map) : Prop :=
  forall a n b m, fe !! a = Some n -> fe !! b = Some m -> a < b -> a + n <= b.

(** No two extents touch. *)
Definition free_coalesced (fe : free_map) : Prop :=
  forall a n b m, fe !! a = Some n -> fe !! b = Some m -> a < b -> a + n < b.

Definition is_free (fe : free_map) (x : Z) : Prop := exists a n, fe !! a = Some n /\ a <= x < a + n.

Definition free_tree : tree_kind :=
  {| tk_keys := fun k => object_id k = BAFS_FREE_EXTENT_OBJECT_ID
                         /\ item_type k = ITEM_TYPE_EXTENT_DATA /\ key_wf k;
     tk_anchor := None |}.

Lemma free_key_wf a : is_u64 a -> key_wf (free_key a).
Proof. intros. repeat split; simpl; unfold BAFS_FREE_EXTENT_OBJECT_ID, ITEM_TYPE_EXTENT_DATA; ilia. Qed.

Lemma free_key_allowed a : is_u64 a -> key_allowed free_tree (free_key a).
Proof. intros. pose proof (free_key_wf a). split; [done|]. split; [done|auto]. Qed.

Lemma free_scan_allowed : scan_allowed free_tree (free_key 0) (free_key (2 ^ 64 - 1)).
Proof.
  split; [apply free_key_wf; ilia|]. right. intros k (Ho & Ht & Hk). apply key_nlt_le.
  destruct Hk as (_ & _ & Hf). rewrite key_lt_lex. simpl. rewrite Ho, Ht. ilia.
Qed.

Lemma free_encode_lookup fe k v :
  free_encode fe !! k = Some v <-> exists a n, k = free_key a /\ v = free_record a n /\ fe !! a = Some n.
Proof.
  unfold free_encode. rewrite lookup_kmap_Some by apply _. split.
  - intros (a & -> & Hv). rewrite map_lookup_imap in Hv. apply bind_Some in Hv as (n & Hn & [= <-]).
    eauto.
  - intros (a & n & -> & -> & Hn). exists a. split; [done|]. rewrite map_lookup_imap, Hn. done.
Qed.

Lemma free_encode_insert a n fe :
  free_encode (<[a := n]> fe) = <[free_key a := free_record a n]> (free_encode fe).
Proof. unfold free_encode. rewrite map_imap_insert. by rewrite (kmap_insert free_key). Qed.

Lemma free_encode_delete a fe : free_encode (delete a fe) = delete (free_key a) (free_encode fe).
Proof. unfold free_encode. rewrite map_imap_delete. by rewrite (kmap_delete free_key). Qed.

Lemma free_encode_key a n fe : fe !! a = Some n -> free_encode fe !! free_key a = Some (free_record a n).
Proof. intros. apply free_encode_lookup. eauto. Qed.

(** ** Scanning *)

Definition free_item (a n : Z) : BafsLeafItem := BafsLeafItem_new (free_key a) (free_record a n).

(** A listing of the free map, in ascending order. *)
Definition free_listing (fe : free_map) (items : list BafsLeafItem) : Prop :=
  items_sorted items /\ forall it, it ∈ items <-> exists a n, it = free_item a n /\ fe !! a = Some n.

Section operations.
Context {D : Type} `{BlockDevice D} `{!TreeStore D} (limit : Z) (Hlimit : limit < 2 ^ 64).

Lemma range_free_listing fe items :
  free_ok limit fe -> range_of (free_encode fe) (free_key 0) (free_key (2 ^ 64 - 1)) items ->
  free_listing fe items.
Proof.
  intros Hok [Hs Hin]. split; [done|]. intros [k v]. rewrite Hin, free_encode_lookup. split.
  - intros ((a & n & -> & -> & Hn) & _). by exists a, n.
  - intros (a & n & [= -> ->] & Hn). split; [eauto|]. destruct (Hok a n Hn) as (H0 & Hn0 & Hl).
    split; apply key_nlt_le; rewrite key_lt_lex; simpl; lia.
Qed.

Lemma all_free_extents_correct d c root fe fp :
  tree_rep free_tree d c root (free_encode fe) fp -> free_ok limit fe -> room c 0 ->
  exists items, all_free_extents d root c = (c, Ok items) /\ free_listing fe items.
Proof.
  intros Hr Hok Hroom. unfold all_free_extents, st_get, st_bind, st_lift.
  destruct (tree_range _ _ _ _ _ _ _ _ Hr Hroom free_scan_allowed) as (items & -> & Hrange).
  exists items. split; [done|]. by apply range_free_listing.
Qed.

Lemma free_record_decodes fe a n :
  free_ok limit fe -> fe !! a = Some n ->
  deserialise_free_extent_from_bytes (free_record a n)
  = Ok {| fe_block_address := a; fe_block_count := n |}.
Proof.
  intros Hok Hn. destruct (Hok a n Hn) as (H0 & Hn0 & Hl).
  apply (deserialise_serialise_free {| fe_block_address := a; fe_block_count := n |}); simpl; ilia.
Qed.

(** [find_free] on part of a listing: the first item its predicate accepts. *)
Lemma find_free_correct fe items (pred : BafsFreeExtent -> result bool) (p : Z -> Z -> bool) :
  free_ok limit fe -> (forall it, it ∈ items -> exists a n, it = free_item a n /\ fe !! a = Some n) ->
  (forall a n, fe !! a = Some n ->
     pred {| fe_block_address := a; fe_block_count := n |} = Ok (p a n)) ->
  (find_free pred items = Ok None
   /\ forall a n, fe !! a = Some n -> free_item a n ∈ items -> p a n = false)
  \/ exists l1 a n l2, find_free pred items = Ok (Some (free_item a n)) /\ fe !! a = Some n
       /\ p a n = true /\ items = l1 ++ free_item a n :: l2
       /\ forall b m, fe !! b = Some m -> free_item b m ∈ l1 -> p b m = false.
Proof.
  intros Hok Hin Hp. induction items as [|it items IH].
  { left. split; [done|]. by intros a n _ Hx%elem_of_nil. }
  destruct (Hin it ltac:(left)) as (a & n & -> & Hn). cbn [find_free free_item li_value].
  rewrite (free_record_decodes fe) by done. cbn [obind]. rewrite Hp by done. cbn [obind].
  destruct (p a n) eqn:Hpa.
  - right. exists [], a, n, items. do 4 (split; [done|]). by intros b m _ Hx%elem_of_nil.
  - assert (forall b m (l : list BafsLeafItem), fe !! b = Some m -> free_item b m ∈ free_item a n :: l ->
              p b m = false \/ free_item b m ∈ l) as Hhd.
    { intros b m l Hb [[= -> _]|Hl]%elem_of_cons; [left|by right]. congruence. }
    destruct IH as [[Hf Hnone]|(l1 & a' & n' & l2 & Hf & Hn' & Hp' & -> & Hl1)].
    + intros it Hit. apply Hin. by right.
    + left. split; [done|]. intros b m Hb Hbi. destruct (Hhd b m _ Hb Hbi); auto.
    + right. exists (free_item a n :: l1), a', n', l2. do 4 (split; [done|]).
      intros b m Hb Hbi. destruct (Hhd b m _ Hb Hbi); eauto.
Qed.
(** *** Single updates *)

Lemma free_delete_correct d c root fe fp a n g :
  tree_rep free_tree d c root (free_encode fe) fp -> free_ok limit fe -> fe !! a = Some n ->
  is_u64 g -> room c DELETE_BLOCKS ->
  exists c' root' fp' fr, delete_from_tree d root (free_key a) g c = (c', Ok root')
    /\ tree_updated free_tree d c fp DELETE_BLOCKS c' root' (free_encode (delete a fe)) fp' fr.
Proof.
  intros Hr Hok Hn Hg Hroom. destruct (Hok a n Hn) as (H0 & Hn0 & Hl).
  rewrite free_encode_delete. eapply tree_delete_updated; [exact Hr|apply free_key_allowed; ilia|done|done|done|].
  rewrite (free_encode_key _ _ _ Hn). eauto.
Qed.

Lemma free_insert_correct d c root fe fp a n g :
  tree_rep free_tree d c root (free_encode fe) fp -> 0 <= a -> a < 2 ^ 64 -> is_u64 g ->
  room c INSERT_BLOCKS ->
  exists c' root' fp' fr, insert_free_extent_into_tree d root a n g c = (c', Ok root')
    /\ tree_updated free_tree d c fp INSERT_BLOCKS c' root' (free_encode (<[a := n]> fe)) fp' fr.
Proof.
  intros Hr H0 Ha Hg Hroom. rewrite free_encode_insert.
  eapply tree_insert_updated; [exact Hr|apply free_key_allowed; ilia|apply serialise_free_value_ok|done|done].
Qed.

Lemma free_ok_delete fe a : free_ok limit fe -> free_ok limit (delete a fe).
Proof. intros Hok b m Hb. apply lookup_delete_Some in Hb as [_ Hb]. by apply Hok. Qed.

Lemma free_ok_insert fe a n :
  free_ok limit fe -> 0 <= a -> 0 < n -> a + n <= limit -> free_ok limit (<[a := n]> fe).
Proof. intros Hok H0 Hn Hl. by apply map_Forall_insert_2. Qed.

(** *** Allocation *)

(** The free map after taking [count] blocks off the high end of the extent at
    [a] of length [n]. *)
Definition free_take (fe : free_map) (a n count : Z) : free_map :=
  if n =? count then delete a fe else <[a := n - count]> (delete a fe).

Lemma sorted_listing_before fe l1 a n l2 :
  free_listing fe (l1 ++ free_item a n :: l2) -> free_ok limit fe ->
  forall b m, fe !! b = Some m -> a < b -> free_item b m ∈ l2.
Proof.
  intros [Hs Hin] Hok b m Hb Hab.
  assert (free_item b m ∈ l1 ++ free_item a n :: l2) as Hbi by (apply Hin; eauto).
  apply elem_of_app in Hbi as [Hbi|[[= Hb' _]|Hbi]%elem_of_cons]; [|lia|done].
  apply items_sorted_app_inv in Hs as (_ & _ & Hs). specialize (Hs _ _ Hbi ltac:(left)).
  rewrite key_lt_lex in Hs. simpl in Hs. lia.
Qed.

Lemma allocate_blocks_correct d c root fe fp count g :
  tree_rep free_tree d c root (free_encode fe) fp -> free_ok limit fe -> 0 < count ->
  is_u64 g -> room c (DELETE_BLOCKS + INSERT_BLOCKS) ->
  ((forall a n, fe !! a = Some n -> n < count) /\ allocate_blocks d root count g c = (c, Err OutOfSpace))
  \/ exists a n c' root' fp' fr,
      fe !! a = Some n /\ count <= n /\ (forall b m, fe !! b = Some m -> a < b -> m < count)
      /\ allocate_blocks d root count g c = (c', Ok (a + n - count, root'))
      /\ tree_updated free_tree d c fp (DELETE_BLOCKS + INSERT_BLOCKS) c' root'
           (free_encode (free_take fe a n count)) fp' fr.
Proof.
  intros Hr Hok Hc Hg Hroom. unfold allocate_blocks.
  destruct (all_free_extents_correct d c root fe fp Hr Hok) as (items & E & Hlist);
    [eapply room_mono; [exact Hroom|unfold DELETE_BLOCKS, INSERT_BLOCKS; lia]|].
  rewrite (st_bind_Ok _ _ _ _ _ E). pose proof Hlist as [Hs Hin].
  destruct (find_free_correct fe (rev items)
    (fun extent => Ok (count <=? fe_block_count extent)) (fun _ n => count <=? n) Hok)
    as [[Hf Hnone]|(l1 & a & n & l2 & Hf & Hn & Hp & Erev & Hl1)].
  - intros it. rewrite <- Hin, !list_elem_of_In, <- in_rev. tauto.
  - done.
  - left. rewrite (st_bind_lift _ _ _ _ Hf). split; [|done]. intros a n Hn.
    specialize (Hnone a n Hn). rewrite list_elem_of_In, <- in_rev, <- list_elem_of_In, Hin in Hnone.
    specialize (Hnone ltac:(eauto)). lia.
  - right. rewrite (st_bind_lift _ _ _ _ Hf). destruct (Hok a n Hn) as (H0 & Hn0 & Hle).
    assert (items = rev l2 ++ free_item a n :: rev l1) as Eit.
    { rewrite <- (rev_involutive items), Erev, rev_app_distr. simpl. by rewrite <- app_assoc. }
    rewrite (st_bind_lift _ _ _ _ (free_record_decodes fe a n Hok Hn)). cbn [fe_block_address fe_block_count].
    rewrite (st_bind_lift _ _ _ (a + n)) by (apply checked_add_Ok; lia).
    assert (count <= n) as Hcn by lia.
    rewrite (st_bind_lift _ _ _ (a + n - count)) by (apply checked_sub_Ok; lia).
    destruct (free_delete_correct d c root fe fp a n g Hr Hok Hn Hg) as (c1 & r1 & fp1 & fr1 & E1 & U1);
      [eapply room_mono; [exact Hroom|unfold DELETE_BLOCKS, INSERT_BLOCKS; lia]|].
    cbn [li_key free_item]. rewrite (st_bind_Ok _ _ _ _ _ E1).
    assert (forall b m, fe !! b = Some m -> a < b -> m < count) as Hlast.
    { intros b m Hb Hab. rewrite Eit in Hlist.
      pose proof (sorted_listing_before fe _ a n _ Hlist Hok b m Hb Hab) as Hbi.
      rewrite list_elem_of_In, <- in_rev, <- list_elem_of_In in Hbi. specialize (Hl1 b m Hb Hbi). simpl in Hl1. lia. }
    destruct (decide (n = count)) as [->|Hne].
    + destruct (Z.ltb_spec a (a + count - count)); [lia|].
      exists a, count, c1, r1, fp1, fr1. do 3 (split; [done|]). split; [done|].
      unfold free_take. rewrite Z.eqb_refl. destruct U1 as [X1 N1 V1 R1]. split; [done|unfold INSERT_BLOCKS; lia|done|done].
    + destruct (Z.ltb_spec a (a + n - count)); [|lia].
      rewrite (st_bind_lift _ _ _ (n - count)) by (rewrite checked_sub_Ok by lia; f_equal; lia).
      pose proof (tu_extends _ _ _ _ _ _ _ _ _ _ U1) as X1. pose proof (ext_next _ _ _ X1).
      destruct (free_insert_correct d c1 r1 (delete a fe) fp1 a (n - count) g) as (c2 & r2 & fp2 & fr2 & E2 & U2);
        [apply (tu_rep _ _ _ _ _ _ _ _ _ _ U1)|lia|lia|done| |].
      { eapply room_extends; [exact Hroom|]. split; [done|]. apply (tu_next _ _ _ _ _ _ _ _ _ _ U1). }
      rewrite (st_bind_Ok _ _ _ _ _ E2). exists a, n, c2, r2, fp2, (fr1 ++ fr2). do 3 (split; [done|]).
      split; [done|]. unfold free_take. destruct (Z.eqb_spec n count); [done|].
      by eapply tree_updated_trans.
Qed.
(** *** Release *)

(** The extent ending right before block [b], if any. *)
Definition free_before (fe : free_map) (b : Z) (p : option (Z * Z)) : Prop :=
  match p with
  | Some (a, n) => fe !! a = Some n /\ a + n = b
  | None => forall a n, fe !! a = Some n -> a + n <> b
  end.

Definition merged_start (b : Z) (p : option (Z * Z)) : Z := match p with Some (a, _) => a | None => b end.
Definition without (fe : free_map) (p : option (Z * Z)) : free_map :=
  match p with Some (a, _) => delete a fe | None => fe end.

(** The free map after releasing [count] blocks at [b], merged with the extent [p]
    before it and the one right behind it. *)
Definition free_release (fe : free_map) (p : option (Z * Z)) (b count : Z) : free_map :=
  let fe1 := without fe p in
  match fe1 !! (b + count) with
  | Some m => <[merged_start b p := b + count + m - merged_start b p]> (delete (b + count) fe1)
  | None => <[merged_start b p := b + count - merged_start b p]> fe1
  end.

Lemma free_listing_in fe items :
  free_listing fe items -> forall it, it ∈ items -> exists a n, it = free_item a n /\ fe !! a = Some n.
Proof. intros [_ Hin] it. apply Hin. Qed.

Lemma release_predecessor d c root fe fp items b count g :
  tree_rep free_tree d c root (free_encode fe) fp -> free_ok limit fe -> free_listing fe items ->
  0 <= b -> 0 < count -> b + count <= limit -> is_u64 g -> room c DELETE_BLOCKS ->
  exists p o c' root' fp' fr, free_before fe b p
    /\ find_free (fun extent => let? extent_end := checked_add 64 (fe_block_address extent) (fe_block_count extent) in
                               Ok (extent_end =? b)) items = Ok o
    /\ (match o with
        | None => st_ret (b, count, root)
        | Some predecessor_item =>
            let! predecessor_extent :=
              st_lift (deserialise_free_extent_from_bytes (li_value predecessor_item)) in
            let! merged_count := st_lift (checked_add 64 count (fe_block_count predecessor_extent)) in
            let! current_root := delete_from_tree d root (li_key predecessor_item) g in
            st_ret (fe_block_address predecessor_extent, merged_count, current_root)
        end c = (c', Ok (merged_start b p, b + count - merged_start b p, root')))
    /\ tree_updated free_tree d c fp DELETE_BLOCKS c' root' (free_encode (without fe p)) fp' fr.
Proof.
  intros Hr Hok Hlist Hb Hc Hl Hg Hroom.
  destruct (find_free_correct fe items
    (fun extent => let? extent_end := checked_add 64 (fe_block_address extent) (fe_block_count extent) in
                   Ok (extent_end =? b)) (fun a n => a + n =? b) Hok (free_listing_in _ _ Hlist))
    as [[Hf Hnone]|(l1 & a & n & l2 & Hf & Hn & Hp & _)].
  - intros a n Hn. destruct (Hok a n Hn) as (? & ? & ?). simpl. by rewrite checked_add_Ok by lia.
  - exists None, None, c, root, fp, []. split; [|split; [exact Hf|]].
    + intros a n Hn. destruct Hlist as [_ Hin]. specialize (Hnone a n Hn (proj2 (Hin _) ltac:(eauto))). lia.
    + split; [unfold st_ret, merged_start; do 4 f_equal; lia|]. destruct (tree_updated_refl _ _ _ _ _ _ Hr) as [X N V R].
      split; [done|unfold DELETE_BLOCKS; lia|done|done].
  - destruct (Hok a n Hn) as (H0 & Hn0 & Hle).
    destruct (free_delete_correct d c root fe fp a n g Hr Hok Hn Hg Hroom) as (c1 & r1 & fp1 & fr1 & E1 & U1).
    exists (Some (a, n)), (Some (free_item a n)), c1, r1, fp1, fr1.
    split; [split; [done|lia]|]. split; [exact Hf|]. split; [|done].
    rewrite (st_bind_lift _ _ _ _ (free_record_decodes fe a n Hok Hn)).
    cbn [fe_block_address fe_block_count li_key free_item].
    rewrite (st_bind_lift _ _ _ (count + n)) by (apply checked_add_Ok; lia).
    rewrite (st_bind_Ok _ _ _ _ _ E1). unfold st_ret, merged_start. do 4 f_equal; lia.
Qed.

Lemma release_successor d c root fe fp items s e g :
  tree_rep free_tree d c root (free_encode fe) fp -> free_ok limit fe -> free_listing fe items ->
  0 <= s -> s < e -> e <= limit -> is_u64 g -> room c DELETE_BLOCKS ->
  exists o c' root' fp' fr,
    find_free (fun extent => let? merged_end := checked_add 64 s (e - s) in
                             Ok (fe_block_address extent =? merged_end)) items = Ok o
    /\ (match o with
        | None => st_ret (e - s, root)
        | Some successor_item =>
            let! successor_extent :=
              st_lift (deserialise_free_extent_from_bytes (li_value successor_item)) in
            let! merged_count := st_lift (checked_add 64 (e - s) (fe_block_count successor_extent)) in
            let! current_root := delete_from_tree d root (li_key successor_item) g in
            st_ret (merged_count, current_root)
        end c = (c', Ok (match fe !! e with Some m => e + m - s | None => e - s end, root')))
    /\ tree_updated free_tree d c fp DELETE_BLOCKS c' root'
         (free_encode (match fe !! e with Some m => delete e fe | None => fe end)) fp' fr.
Proof.
  intros Hr Hok Hlist Hs Hse Hl Hg Hroom.
  destruct (find_free_correct fe items
    (fun extent => let? merged_end := checked_add 64 s (e - s) in Ok (fe_block_address extent =? merged_end))
    (fun a n => a =? e) Hok (free_listing_in _ _ Hlist))
    as [[Hf Hnone]|(l1 & a & n & l2 & Hf & Hn & Hp & _)].
  - intros a n Hn. rewrite checked_add_Ok by lia. simpl. do 2 f_equal. lia.
  - exists None, c, root, fp, []. split; [exact Hf|].
    destruct (fe !! e) as [m|] eqn:Ee.
    { destruct Hlist as [_ Hin]. specialize (Hnone e m Ee (proj2 (Hin _) ltac:(eauto))). simpl in Hnone. lia. }
    split; [done|]. destruct (tree_updated_refl _ _ _ _ _ _ Hr) as [X N V R].
    split; [done|unfold DELETE_BLOCKS; lia|done|done].
  - destruct (Hok a n Hn) as (H0 & Hn0 & Hle). assert (a = e) as -> by lia.
    destruct (free_delete_correct d c root fe fp e n g Hr Hok Hn Hg Hroom) as (c1 & r1 & fp1 & fr1 & E1 & U1).
    exists (Some (free_item e n)), c1, r1, fp1, fr1. rewrite Hn. split; [exact Hf|]. split; [|done].
    rewrite (st_bind_lift _ _ _ _ (free_record_decodes fe e n Hok Hn)).
    cbn [fe_block_address fe_block_count li_key free_item].
    rewrite (st_bind_lift _ _ _ (e - s + n)) by (apply checked_add_Ok; lia).
    rewrite (st_bind_Ok _ _ _ _ _ E1). unfold st_ret. do 3 f_equal; lia.
Qed.
Definition FREE_BLOCKS : Z := DELETE_BLOCKS + (DELETE_BLOCKS + INSERT_BLOCKS).

Lemma free_ok_without fe p : free_ok limit fe -> free_ok limit (without fe p).
Proof. destruct p as [[a n]|]; [apply free_ok_delete|done]. Qed.

Lemma free_blocks_correct d c root fe fp b count g :
  tree_rep free_tree d c root (free_encode fe) fp -> free_ok limit fe ->
  0 <= b -> 0 < count -> b + count <= limit -> is_u64 g -> room c FREE_BLOCKS ->
  exists p c' root' fp' fr, free_before fe b p
    /\ free_blocks d root b count g c = (c', Ok root')
    /\ tree_updated free_tree d c fp FREE_BLOCKS c' root' (free_encode (free_release fe p b count)) fp' fr.
Proof.
  intros Hr Hok Hb Hc Hl Hg Hroom. unfold free_blocks.
  assert (room c DELETE_BLOCKS /\ room c 0) as [Hroom1 Hroom0]
    by (split; (eapply room_mono; [exact Hroom|unfold FREE_BLOCKS, DELETE_BLOCKS, INSERT_BLOCKS; lia])).
  destruct (all_free_extents_correct d c root fe fp Hr Hok Hroom0) as (items & E & Hlist).
  rewrite (st_bind_Ok _ _ _ _ _ E).
  destruct (release_predecessor d c root fe fp items b count g Hr Hok Hlist Hb Hc Hl Hg Hroom1)
    as (p & o & c1 & r1 & fp1 & fr1 & Hp & Eo & E1 & U1).
  rewrite (st_bind_lift _ _ _ _ Eo), (st_bind_Ok _ _ _ _ _ E1).
  destruct U1 as [X1 N1 V1 R1]. pose proof (ext_next _ _ _ X1).
  assert (room c1 (DELETE_BLOCKS + INSERT_BLOCKS)) as Hroom2 by (eapply room_extends; [exact Hroom|lia]).
  pose proof (free_ok_without fe p Hok) as Hok1.
  destruct (all_free_extents_correct d c1 r1 _ fp1 R1 Hok1) as (items' & E' & Hlist');
    [eapply room_mono; [exact Hroom2|unfold DELETE_BLOCKS, INSERT_BLOCKS; lia]|].
  rewrite (st_bind_Ok _ _ _ _ _ E').
  assert (0 <= merged_start b p < b + count) as Hms.
  { destruct p as [[a n]|]; simpl in *; [|lia]. destruct Hp as [Hn <-]. destruct (Hok a n Hn). lia. }
  destruct (release_successor d c1 r1 _ fp1 items' (merged_start b p) (b + count) g R1 Hok1 Hlist')
    as (o' & c2 & r2 & fp2 & fr2 & Eo' & E2 & U2); try done; try lia.
  { eapply room_mono; [exact Hroom2|unfold DELETE_BLOCKS, INSERT_BLOCKS; lia]. }
  rewrite (st_bind_lift _ _ _ _ Eo'), (st_bind_Ok _ _ _ _ _ E2).
  pose proof U2 as [X2 N2 V2 R2]. pose proof (ext_next _ _ _ X2).
  destruct (free_insert_correct d c2 r2 _ fp2 (merged_start b p)
    (match without fe p !! (b + count) with
     | Some m => b + count + m - merged_start b p | None => b + count - merged_start b p end) g R2)
    as (c3 & r3 & fp3 & fr3 & E3 & U3); [lia|lia|done|eapply room_extends; [exact Hroom2|lia]|].
  exists p, c3, r3, fp3, (fr1 ++ (fr2 ++ fr3)). split; [done|]. split; [done|].
  eapply tree_updated_trans; [exact Hr|split; [exact X1|exact N1|exact V1|exact R1]|].
  unfold free_release. destruct (without fe p !! (b + count)); (eapply tree_updated_trans; [exact R1|exact U2|exact U3]).
Qed.

(** ** The set of free blocks *)

Lemma is_free_delete fe a n x :
  free_disjoint fe -> free_ok limit fe -> fe !! a = Some n ->
  is_free (delete a fe) x <-> is_free fe x /\ ~ (a <= x < a + n).
Proof.
  intros Hd Hok Hn. split.
  - intros (b & m & [Hne Hb]%lookup_delete_Some & Hx). split; [by exists b, m|].
    destruct (Z.lt_total a b) as [Hab|[->|Hab]]; [|done|].
    + specialize (Hd _ _ _ _ Hn Hb Hab). lia.
    + specialize (Hd _ _ _ _ Hb Hn Hab). lia.
  - intros [(b & m & Hb & Hx) Hnx]. exists b, m. split; [|done]. apply lookup_delete_Some. split; [|done].
    intros ->. rewrite Hb in Hn. injection Hn as ->. lia.
Qed.

Lemma is_free_insert fe a n x :
  fe !! a = None -> is_free (<[a := n]> fe) x <-> is_free fe x \/ a <= x < a + n.
Proof.
  intros Ha. split.
  - intros (b & m & [[<- <-]|[Hne Hb]]%lookup_insert_Some & Hx); [by right|]. left. by exists b, m.
  - intros [(b & m & Hb & Hx)|Hx].
    + exists b, m. rewrite lookup_insert_ne by congruence. done.
    + exists a, n. by rewrite lookup_insert_eq.
Qed.

Lemma disjoint_delete fe a : free_disjoint fe -> free_disjoint (delete a fe).
Proof. intros Hd b n b' m [_ Hb]%lookup_delete_Some [_ Hb']%lookup_delete_Some. by apply (Hd b n b' m). Qed.

Lemma coalesced_delete fe a : free_coalesced fe -> free_coalesced (delete a fe).
Proof. intros Hd b n b' m [_ Hb]%lookup_delete_Some [_ Hb']%lookup_delete_Some. by apply (Hd b n b' m). Qed.

Lemma coalesced_disjoint fe : free_coalesced fe -> free_disjoint fe.
Proof. intros Hd a n b m Ha Hb Hab. specialize (Hd a n b m Ha Hb Hab). lia. Qed.

(** Allocation takes exactly the returned blocks out of the set. *)
Lemma is_free_take fe a n count x :
  free_disjoint fe -> free_ok limit fe -> fe !! a = Some n -> 0 < count <= n ->
  is_free (free_take fe a n count) x <-> is_free fe x /\ ~ (a + n - count <= x < a + n).
Proof.
  intros Hd Hok Hn Hc. unfold free_take.
  assert (a <= x < a + n -> is_free fe x) as Hin by (intros; by exists a, n).
  destruct (Z.eqb_spec n count) as [->|Hne].
  - rewrite (is_free_delete fe a count) by done. split; intros []; split; try done; lia.
  - rewrite is_free_insert, (is_free_delete fe a n) by (done || apply lookup_delete_eq).
    split; [intros [[? ?]|?]; (split; [auto; apply Hin; lia|lia])|]. intros [Hf Hx].
    destruct (decide (a <= x < a + n)); [right; lia|by left].
Qed.

Lemma take_coalesced fe a n count :
  free_coalesced fe -> free_ok limit fe -> fe !! a = Some n -> 0 < count <= n ->
  free_coalesced (free_take fe a n count) /\ free_ok limit (free_take fe a n count).
Proof.
  intros Hd Hok Hn Hc. unfold free_take. destruct (Hok a n Hn) as (H0 & Hn0 & Hle).
  destruct (Z.eqb_spec n count) as [->|Hne]; [split; [by apply coalesced_delete|by apply free_ok_delete]|].
  split; [|apply free_ok_insert; [by apply free_ok_delete|lia..]].
  intros b m b' m' Hb Hb' Hlt.
  apply lookup_insert_Some in Hb as [[<- <-]|[_ [_ Hb]%lookup_delete_Some]];
    apply lookup_insert_Some in Hb' as [[<- <-]|[_ [_ Hb']%lookup_delete_Some]]; try lia.
  - specialize (Hd _ _ _ _ Hn Hb' Hlt). lia.
  - by specialize (Hd _ _ _ _ Hb Hn Hlt).
  - by apply (Hd b m b' m').
Qed.

Lemma without_lookup fe p a m : without fe p !! a = Some m -> fe !! a = Some m.
Proof. destruct p as [[a' n]|]; [|done]. simpl. by intros [_ Ha]%lookup_delete_Some. Qed.

(** Releasing blocks, whatever the map: they become free, and nothing else does. *)
Lemma free_release_sound fe p b count :
  free_ok limit fe -> free_before fe b p -> 0 <= b -> 0 < count -> b + count <= limit ->
  free_ok limit (free_release fe p b count)
  /\ (forall x, b <= x < b + count -> is_free (free_release fe p b count) x)
  /\ (forall x, is_free (free_release fe p b count) x -> is_free fe x \/ b <= x < b + count).
Proof.
  intros Hok Hp Hb Hc Hl. pose proof (free_ok_without fe p Hok) as Hok1. unfold free_release.
  assert (0 <= merged_start b p <= b) as Hms.
  { destruct p as [[a n]|]; simpl in *; [|lia]. destruct Hp as [Hn <-]. destruct (Hok a n Hn). lia. }
  assert (forall x, merged_start b p <= x < b -> is_free fe x) as Hpre.
  { destruct p as [[a n]|]; simpl in *; [|lia]. intros x Hx. exists a, n. destruct Hp. split; [done|lia]. }
  pose proof (without_lookup fe p) as Hsub.
  destruct (without fe p !! (b + count)) as [m|] eqn:Em.
  - destruct (Hok1 _ _ Em) as (_ & Hm & Hml). split; [apply free_ok_insert; [by apply free_ok_delete|lia..]|].
    split; [intros x Hx; eexists _, _; split; [apply lookup_insert_eq|lia]|].
    intros x (a & n & [[<- <-]|[_ [_ Ha]%lookup_delete_Some]]%lookup_insert_Some & Hx); [|left; exists a, n; auto].
    destruct (Z.lt_ge_cases x b); [left; apply Hpre; lia|].
    destruct (Z.lt_ge_cases x (b + count)); [right; lia|]. left. exists (b + count), m. split; [auto|lia].
  - split; [apply free_ok_insert; [done|lia..]|].
    split; [intros x Hx; eexists _, _; split; [apply lookup_insert_eq|lia]|].
    intros x (a & n & [[<- <-]|[_ Ha]]%lookup_insert_Some & Hx); [|left; exists a, n; auto].
    destruct (Z.lt_ge_cases x b); [left; apply Hpre; lia|right; lia].
Qed.

(** Releasing blocks none of which is free keeps every free block free. *)
Lemma free_release_complete fe p b count x :
  free_ok limit fe -> free_before fe b p -> 0 < count -> free_disjoint fe ->
  (forall y, b <= y < b + count -> ~ is_free fe y) ->
  is_free fe x -> is_free (free_release fe p b count) x.
Proof.
  intros Hok Hp Hc Hd Hnf (a & n & Ha & Hx). unfold free_release.
  destruct (Hok a n Ha) as (H0 & Hn0 & _).
  assert (a <> merged_start b p \/ p <> None) as Hne.
  { destruct p; [by right|left]. simpl. intros ->. apply (Hnf b); [lia|]. exists b, n. split; [done|lia]. }
  assert (without fe p !! a = Some n \/ merged_start b p <= x < b) as [Ha1|Hx1].
  { destruct p as [[a' n']|]; simpl in *; [|by left]. destruct Hp as [Ha' <-].
    destruct (decide (a' = a)) as [->|]; [right; rewrite Ha in Ha'; injection Ha' as ->; lia|left].
    by rewrite lookup_delete_ne. }
  - assert (a <> merged_start b p) as Hne'.
    { destruct p as [[a' n']|]; simpl in *; [|by destruct Hne].
      by apply lookup_delete_Some in Ha1 as [? _]. }
    destruct (without fe p !! (b + count)) as [m|] eqn:Em.
    + destruct (decide (a = b + count)) as [->|Hna].
      * rewrite Ha1 in Em. injection Em as <-. eexists _, _. split; [apply lookup_insert_eq|].
        destruct p as [[a' n']|]; simpl in *; [destruct Hp as [Hq <-]; destruct (Hok _ _ Hq)|]; lia.
      * exists a, n. rewrite lookup_insert_ne, lookup_delete_ne by done. done.
    + exists a, n. rewrite lookup_insert_ne by done. done.
  - destruct (without fe p !! (b + count)) as [m|] eqn:Em; eexists _, _;
      (split; [apply lookup_insert_eq|]); [|lia].
    pose proof (free_ok_without fe p Hok _ _ Em). simpl in *. lia.
Qed.

(** ... and the extents stay apart. *)
Lemma free_release_coalesced fe p b count :
  free_ok limit fe -> free_before fe b p -> 0 < count -> free_coalesced fe ->
  (forall y, b <= y < b + count -> ~ is_free fe y) ->
  free_coalesced (free_release fe p b count).
Proof.
  intros Hok Hp Hc Hd Hnf.
  assert (forall a n, without fe p !! a = Some n ->
            fe !! a = Some n /\ (a + n < merged_start b p \/ b + count <= a)) as Hout.
  { intros a n Ha. pose proof (without_lookup _ _ _ _ Ha) as Ha0.
    split; [done|]. destruct (Hok a n Ha0) as (H0 & Hn0 & _).
    assert (~ (b <= a < b + count)) as Hb1 by (intros ?; apply (Hnf a); [done|exists a, n; split; [done|lia]]).
    destruct (Z.lt_ge_cases a b) as [Hab|]; [|lia]. left.
    assert (a + n <= b) as Hab'.
    { destruct (Z.le_gt_cases (a + n) b); [done|]. destruct (Hnf b); [lia|]. exists a, n. split; [done|lia]. }
    destruct p as [[a' n']|]; simpl in *.
    - destruct Hp as [Ha' <-]. apply lookup_delete_Some in Ha as [Hne _].
      destruct (Z.lt_ge_cases a' a) as [Hlt|]; [specialize (Hd _ _ _ _ Ha' Ha0 Hlt); lia|].
      apply (Hd a n a' n'); [done|done|lia].
    - specialize (Hp _ _ Ha0). lia. }
  unfold free_release. destruct (without fe p !! (b + count)) as [m|] eqn:Em.
  - destruct (Hout _ _ Em) as [Em0 _].
    intros a n a' n' Ha Ha' Hlt.
    apply lookup_insert_Some in Ha as [[<- <-]|[_ [Hna Ha]%lookup_delete_Some]];
      apply lookup_insert_Some in Ha' as [[<- <-]|[_ [Hna' Ha']%lookup_delete_Some]]; try lia.
    + destruct (Hout _ _ Ha') as [Ha0' [?|?]]; [destruct (Hok _ _ Ha0'); lia|].
      specialize (Hd _ _ _ _ Em0 Ha0' ltac:(lia)). lia.
    + destruct (Hout _ _ Ha) as [Ha0 [?|?]]; [done|].
      specialize (Hd _ _ _ _ Em0 Ha0 ltac:(lia)). destruct p as [[q k]|]; simpl in *; [|lia].
      destruct Hp as [Hq <-]. destruct (Hok _ _ Hq). lia.
    + apply (Hd a n a' n'); [by apply Hout|by apply Hout|done].
  - intros a n a' n' Ha Ha' Hlt.
    apply lookup_insert_Some in Ha as [[<- <-]|[_ Ha]];
      apply lookup_insert_Some in Ha' as [[<- <-]|[_ Ha']]; try lia.
    + destruct (Hout _ _ Ha') as [Ha0' [?|?]]; [destruct (Hok _ _ Ha0'); lia|].
      destruct (decide (a' = b + count)) as [->|]; [congruence|lia].
    + destruct (Hout _ _ Ha) as [Ha0 [?|?]]; [done|]. destruct p as [[q k]|]; simpl in *; [|lia].
      destruct Hp as [Hq <-]. destruct (Hok _ _ Hq). lia.
    + apply (Hd a n a' n'); [by apply Hout|by apply Hout|done].
Qed.
(** Releasing blocks at the start of a listed extent, which are free already, replaces
    the extent: what it held behind them is no longer listed. *)
Lemma free_release_listed fe p b count n :
  free_ok limit fe -> free_coalesced fe -> free_before fe b p -> fe !! b = Some n -> 0 < count <= n ->
  free_release fe p b count = <[b := count]> fe.
Proof.
  intros Hok Hd Hp Hn Hc. assert (p = None) as ->.
  { destruct p as [[a k]|]; [|done]. destruct Hp as [Ha Hab]. destruct (Hok a k Ha) as (_ & Hk & _).
    specialize (Hd _ _ _ _ Ha Hn ltac:(lia)). lia. }
  unfold free_release. simpl. destruct (fe !! (b + count)) as [k|] eqn:Ek; [|f_equal; lia].
  specialize (Hd _ _ _ _ Hn Ek ltac:(lia)). lia.
Qed.

Lemma is_free_shortened fe b count n x :
  free_coalesced fe -> free_ok limit fe -> fe !! b = Some n -> 0 < count <= n ->
  is_free (<[b := count]> fe) x <-> is_free fe x /\ ~ (b + count <= x < b + n).
Proof.
  intros Hd Hok Hn Hc. split.
  - intros (a & k & [[<- <-]|[Hne Ha]]%lookup_insert_Some & Hx).
    + split; [exists b, n; split; [done|lia]|lia].
    + split; [by exists a, k|]. destruct (Hok a k Ha) as (_ & Hk & _).
      destruct (Z.lt_trichotomy a b) as [Hab|[->|Hab]]; [|done|].
      * specialize (Hd _ _ _ _ Ha Hn Hab). lia.
      * specialize (Hd _ _ _ _ Hn Ha Hab). lia.
  - intros [(a & k & Ha & Hx) Hnot]. destruct (decide (a = b)) as [->|Hne].
    + rewrite Hn in Ha. injection Ha as <-. exists b, count. split; [apply lookup_insert_eq|lia].
    + exists a, k. by rewrite lookup_insert_ne.
Qed.
End operations.

(** ** Properties *)

Section properties.
Context {D : Type} `{BlockDevice D} `{!TreeStore D}.

(** C18: [allocate_blocks] hands out blocks that were free and takes exactly them out
    of the set of free blocks; they are the high end of the highest extent that is
    large enough.  When no extent is, it reports [OutOfSpace] and changes nothing. *)
Theorem allocate_blocks_takes_free_blocks limit (d : D) c root fe fp count g :
  limit < 2 ^ 64 -> tree_rep free_tree d c root (free_encode fe) fp -> free_ok limit fe ->
  free_coalesced fe -> 0 < count -> is_u64 g -> room c (DELETE_BLOCKS + INSERT_BLOCKS) ->
  ((forall a n, fe !! a = Some n -> n < count) /\ allocate_blocks d root count g c = (c, Err OutOfSpace))
  \/ exists a n c' root' fe' fp',
      fe !! a = Some n /\ count <= n /\ (forall b m, fe !! b = Some m -> a < b -> m < count)
      /\ allocate_blocks d root count g c = (c', Ok (a + n - count, root'))
      /\ tree_rep free_tree d c' root' (free_encode fe') fp'
      /\ free_ok limit fe' /\ free_coalesced fe'
      /\ (forall x, is_free fe' x <-> is_free fe x /\ ~ (a + n - count <= x < a + n))
      /\ (forall x, a + n - count <= x < a + n -> is_free fe x).
Proof.
  intros Hl Hr Hok Hd Hc Hg Hroom.
  destruct (allocate_blocks_correct limit Hl d c root fe fp count g Hr Hok Hc Hg Hroom)
    as [?|(a & n & c' & root' & fp' & fr & Hn & Hcn & Hlast & E & U)]; [by left|right].
  exists a, n, c', root', (free_take fe a n count), fp'. do 4 (split; [done|]).
  split; [apply (tu_rep _ _ _ _ _ _ _ _ _ _ U)|].
  destruct (take_coalesced limit fe a n count Hd Hok Hn) as [Hd' Hok']; [lia|].
  split; [done|]. split; [done|]. split.
  - intros x. apply (is_free_take limit); [by apply coalesced_disjoint|done|done|lia].
  - intros x Hx. exists a, n. split; [done|lia].
Qed.

(** C19: [free_blocks] on blocks none of which is free adds exactly them to the set of
    free blocks, and merges: if no two extents touched before, none do after.  On
    blocks at the start of a listed extent, which are free already, it replaces that
    extent, and every free block behind them is lost from the set. *)
Theorem free_blocks_adds_blocks limit (d : D) c root fe fp b count g :
  limit < 2 ^ 64 -> tree_rep free_tree d c root (free_encode fe) fp -> free_ok limit fe ->
  free_coalesced fe -> 0 <= b -> 0 < count -> b + count <= limit -> is_u64 g -> room c FREE_BLOCKS ->
  exists c' root' fe' fp', free_blocks d root b count g c = (c', Ok root')
    /\ tree_rep free_tree d c' root' (free_encode fe') fp' /\ free_ok limit fe'
    /\ ((forall x, b <= x < b + count -> ~ is_free fe x) ->
        free_coalesced fe' /\ forall x, is_free fe' x <-> is_free fe x \/ b <= x < b + count)
    /\ (forall n, fe !! b = Some n -> count <= n ->
        forall x, is_free fe' x <-> is_free fe x /\ ~ (b + count <= x < b + n)).
Proof.
  intros Hl Hr Hok Hd Hb Hc Hbl Hg Hroom.
  destruct (free_blocks_correct limit Hl d c root fe fp b count g Hr Hok Hb Hc Hbl Hg Hroom)
    as (p & c' & root' & fp' & fr & Hp & E & U).
  destruct (free_release_sound limit fe p b count Hok Hp Hb Hc Hbl) as (Hok' & Hin & Hout).
  exists c', root', (free_release fe p b count), fp'. split; [done|].
  split; [apply (tu_rep _ _ _ _ _ _ _ _ _ _ U)|]. split; [done|]. split.
  - intros Hnf. split; [by apply (free_release_coalesced limit)|]. intros x. split; [auto|]. intros [Hx|Hx]; [|auto].
    apply (free_release_complete limit); auto using coalesced_disjoint.
  - intros n Hn Hcn x. rewrite (free_release_listed limit fe p b count n) by (done || lia).
    by apply (is_free_shortened limit).
Qed.
End properties.

(** *** Witnesses *)

Definition example_free : free_map := <[1000 := 50]> (<[2000 := 30]> ∅).

Lemma example_free_ok : free_ok 5000 example_free.
Proof. repeat (apply map_Forall_insert_2; [lia|]). apply map_Forall_empty. Qed.

Lemma example_free_coalesced : free_coalesced example_free.
Proof.
  intros a n b m Ha Hb. unfold example_free in *.
  rewrite !lookup_insert_Some, lookup_empty in Ha, Hb. intuition (simplify_eq; lia).
Qed.

Lemma example_free_tree : exists c root fp,
  tree_rep free_tree no_disk c root (free_encode example_free) fp /\ room c 1000.
Proof.
  assert (tree_rep free_tree no_disk example_cow 300 (free_encode ∅) [300]) as Hr0
    by (by apply (example_rep_of free_tree)).
  destruct (free_insert_correct no_disk example_cow 300 ∅ [300] 2000 30 1 Hr0)
    as (c1 & r1 & fp1 & fr1 & _ & [X1 N1 _ R1]); [lia|lia|ilia|by apply example_cow_room|].
  pose proof (ext_next _ _ _ X1). unfold INSERT_BLOCKS in N1. rewrite example_next in *.
  destruct (free_insert_correct no_disk c1 r1 _ fp1 1000 50 1 R1)
    as (c2 & r2 & fp2 & fr2 & _ & [X2 N2 _ R2]); [lia|lia|ilia|unfold room, INSERT_BLOCKS; lia|].
  pose proof (ext_next _ _ _ X2). unfold INSERT_BLOCKS in N2.
  exists c2, r2, fp2. split; [exact R2|unfold room; lia].
Qed.

Lemma allocate_blocks_takes_free_blocks_witness : exists c root c' root',
  allocate_blocks no_disk root 40 1 c = (c', Ok (1010, root')).
Proof.
  destruct example_free_tree as (c & root & fp & Hr & Hroom). exists c, root.
  destruct (allocate_blocks_takes_free_blocks 5000 no_disk c root example_free fp 40 1)
    as [[Hnone _]|(a & n & c' & root' & fe' & fp' & Hn & Hle & _ & E & _)].
  - lia.
  - exact Hr.
  - exact example_free_ok.
  - exact example_free_coalesced.
  - lia.
  - ilia.
  - eapply room_mono; [exact Hroom|unfold DELETE_BLOCKS, INSERT_BLOCKS; lia].
  - specialize (Hnone 1000 50 eq_refl). lia.
  - exists c', root'. rewrite E. unfold example_free in Hn.
    rewrite !lookup_insert_Some, lookup_empty in Hn. destruct Hn as [[<- <-]|(_ & [[_ <-]|[_ ?]])]; [done|lia|done].
Defined.

(** Ten blocks behind the first extent, and the first block of that extent once more. *)
Lemma free_blocks_adds_blocks_witness : exists c root c1 root1 fe1 fp1 c2 root2 fe2 fp2,
  free_blocks no_disk root 1050 10 1 c = (c1, Ok root1) /\ tree_rep free_tree no_disk c1 root1 (free_encode fe1) fp1
  /\ is_free fe1 1055 /\ is_free fe1 2010 /\ ~ is_free fe1 1060
  /\ free_blocks no_disk root 1000 1 1 c = (c2, Ok root2) /\ tree_rep free_tree no_disk c2 root2 (free_encode fe2) fp2
  /\ is_free example_free 1049 /\ ~ is_free fe2 1049.
Proof.
  destruct example_free_tree as (c & root & fp & Hr & Hroom). exists c, root.
  assert (forall x, is_free example_free x <-> 1000 <= x < 1050 \/ 2000 <= x < 2030) as Hf.
  { intros x. unfold example_free. rewrite !is_free_insert by done.
    assert (~ is_free ∅ x) by (intros (a & n & Hx & _); by rewrite lookup_empty in Hx). intuition lia. }
  assert (room c FREE_BLOCKS) as Hfree
    by (eapply room_mono; [exact Hroom|unfold FREE_BLOCKS, DELETE_BLOCKS, INSERT_BLOCKS; lia]).
  destruct (free_blocks_adds_blocks 5000 no_disk c root example_free fp 1050 10 1 ltac:(lia) Hr example_free_ok
    example_free_coalesced ltac:(lia) ltac:(lia) ltac:(lia) ltac:(ilia) Hfree)
    as (c1 & root1 & fe1 & fp1 & E1 & R1 & _ & Hset1 & _).
  destruct (free_blocks_adds_blocks 5000 no_disk c root example_free fp 1000 1 1 ltac:(lia) Hr example_free_ok
    example_free_coalesced ltac:(lia) ltac:(lia) ltac:(lia) ltac:(ilia) Hfree)
    as (c2 & root2 & fe2 & fp2 & E2 & R2 & _ & _ & Hset2).
  destruct Hset1 as [_ Hset1]; [intros x Hx; rewrite Hf; lia|].
  specialize (Hset2 50 eq_refl ltac:(lia)).
  exists c1, root1, fe1, fp1, c2, root2, fe2, fp2. split; [exact E1|]. split; [exact R1|]. rewrite !Hset1, Hset2, !Hf.
  split; [lia|]. split; [lia|]. split; [lia|]. split; [exact E2|]. split; [exact R2|lia].
Defined.
