(* ===== verification/ChecksumTree.v ===== *)
(** * ChecksumTree: checksums of data blocks (src/src/checksum_tree.rs)

    One record per data block in a tree of its own: written with the block,
    compared with the block when it is read. *)

From S2P Require Import Prelude Checksum Device Superblock Node NodeCodec BTree BTreeInv BTreeWrite.
From S2P Require Import BTreeInsert BTreeDelete TreeStore BTreeTheorems.

Record BafsChecksumItem := {
  ci_block_address : Z;
  crc32c_checksum : Z;
  ci_reserved : Z;
}.

Definition serialise_checksum_item_to_bytes (item : BafsChecksumItem) : list Z :=
  le_bytes 8 (ci_block_address item) ++ le_bytes 4 (crc32c_checksum item) ++ le_bytes 4 (ci_reserved item).

(** The length is a [debug_assert!]. *)
Definition deserialise_checksum_item_from_bytes (bytes : list Z) : result BafsChecksumItem :=
  if len bytes <? 16 then Panic
  else
    let? block_address := get_le bytes 0 8 in
    let? crc := get_le bytes 8 4 in
    let? reserved := get_le bytes 12 4 in
    Ok {| ci_block_address := block_address; crc32c_checksum := crc; ci_reserved := reserved |}.

Definition checksum_key (data_block_address : Z) : BafsKey :=
  BafsKey_new BAFS_CHECKSUM_OBJECT_ID ITEM_TYPE_CHECKSUM_ENTRY data_block_address.

Section checksum_tree.
Context {D : Type} `{BlockDevice D}.

Definition store_data_block_checksum (device : D) (checksum_tree_root_block data_block_address : Z)
    (block_data : list Z) (generation : Z) : ST cow BafsError Z :=
  let checksum_item := {| ci_block_address := data_block_address;
                          crc32c_checksum := compute_crc32c block_data; ci_reserved := 0 |} in
  insert_into_tree device checksum_tree_root_block (checksum_key data_block_address)
    (serialise_checksum_item_to_bytes checksum_item) generation.

Definition verify_data_block_checksum (device : D) (cache : gmap Z (list Z))
    (checksum_tree_root_block data_block_address : Z) (block_data : list Z) : result unit :=
  let? found := lookup_in_tree device cache checksum_tree_root_block (checksum_key data_block_address) in
  match found with
  | None => Ok tt
  | Some value_bytes =>
      if len value_bytes <? 16 then Err CorruptedStructure
      else
        let? stored_item := deserialise_checksum_item_from_bytes value_bytes in
        if verify_crc32c block_data (crc32c_checksum stored_item) then Ok tt
        else Err (InvalidChecksum data_block_address)
  end.
End checksum_tree.

(** ** The tree as a map from blocks to checksums *)

Definition checksum_record (a crc : Z) : list Z :=
  serialise_checksum_item_to_bytes {| ci_block_address := a; crc32c_checksum := crc; ci_reserved := 0 |}.

Definition checksum_tree : tree_kind :=
  {| tk_keys := fun k => object_id k = BAFS_CHECKSUM_OBJECT_ID
                         /\ item_type k = ITEM_TYPE_CHECKSUM_ENTRY /\ key_wf k;
     tk_anchor := None |}.

Lemma checksum_key_allowed a : is_u64 a -> key_allowed checksum_tree (checksum_key a).
Proof.
  intros. assert (key_wf (checksum_key a))
    by (repeat split; simpl; unfold BAFS_CHECKSUM_OBJECT_ID, ITEM_TYPE_CHECKSUM_ENTRY; ilia).
  split; [done|]. by split.
Qed.

#[global] Instance checksum_key_inj : Inj (=) (=) checksum_key.
Proof. by intros a b [= ->]. Qed.

Lemma length_checksum_record a crc : length (checksum_record a crc) = 16%nat.
Proof. unfold checksum_record, serialise_checksum_item_to_bytes. by autorewrite with len. Qed.

Lemma checksum_record_value_ok a crc : value_ok (checksum_record a crc).
Proof.
  split; [|rewrite length_checksum_record; unfold VALUE_MAX; lia].
  unfold checksum_record, serialise_checksum_item_to_bytes. rewrite !bytes_ok_app. auto with bytes.
Qed.

Lemma deserialise_checksum_record a crc :
  is_u64 a -> is_u32 crc ->
  deserialise_checksum_item_from_bytes (checksum_record a crc)
  = Ok {| ci_block_address := a; crc32c_checksum := crc; ci_reserved := 0 |}.
Proof.
  intros Ha Hc. unfold deserialise_checksum_item_from_bytes. rewrite length_checksum_record.
  destruct (Z.ltb_spec (Z.of_nat 16) 16); [lia|]. unfold checksum_record, serialise_checksum_item_to_bytes. simpl.
  rewrite get_le_bytes_prefix by (done || ilia). cbn [obind].
  rewrite (get_le_bytes_app (le_bytes 8 a)) by (rewrite ?length_le_bytes; done || ilia). cbn [obind].
  rewrite <- (app_nil_r (le_bytes 4 0)), app_assoc.
  rewrite (get_le_bytes_app (le_bytes 8 a ++ le_bytes 4 crc)); [done|autorewrite with len; lia|done|ilia].
Qed.

Section laws.
Context {D : Type} `{BlockDevice D} `{!TreeStore D}.

Lemma verify_checksum_correct d c root m fp a data :
  tree_rep checksum_tree d c root m fp -> room c 0 -> is_u64 a ->
  match m !! checksum_key a with
  | None => verify_data_block_checksum d (dirty_cache c) root a data = Ok tt
  | Some value => forall crc, is_u32 crc -> value = checksum_record a crc ->
      verify_data_block_checksum d (dirty_cache c) root a data
      = if verify_crc32c data crc then Ok tt else Err (InvalidChecksum a)
  end.
Proof.
  intros Hr Hroom Ha. unfold verify_data_block_checksum.
  rewrite (tree_lookup _ _ _ _ _ _ _ Hr Hroom (checksum_key_allowed a Ha)). cbn [obind].
  destruct (m !! checksum_key a); [|done]. intros crc Hc ->. rewrite length_checksum_record.
  by rewrite (deserialise_checksum_record a crc) by done.
Qed.

Lemma store_checksum_correct d c root m fp a data g :
  tree_rep checksum_tree d c root m fp -> is_u64 a -> is_u64 g -> room c INSERT_BLOCKS ->
  exists c' root' fp' fr, store_data_block_checksum d root a data g c = (c', Ok root')
    /\ tree_updated checksum_tree d c fp INSERT_BLOCKS c' root'
         (<[checksum_key a := checksum_record a (compute_crc32c data)]> m) fp' fr.
Proof.
  intros Hr Ha Hg Hroom.
  eapply tree_insert_updated; [exact Hr|by apply checksum_key_allowed|apply checksum_record_value_ok|done|done].
Qed.
End laws.

Section properties.
Context {D : Type} `{BlockDevice D} `{!TreeStore D}.

(** C20: after [store_data_block_checksum], the block verifies, the same block with
    up to four consecutive bytes altered is reported as [InvalidChecksum], and the
    verification of every other block is what it was. *)
Theorem stored_checksum_guards_block (d : D) c root m fp a g pre good bad post :
  tree_rep checksum_tree d c root m fp -> is_u64 a -> is_u64 g -> room c INSERT_BLOCKS ->
  bytes_ok (pre ++ good ++ post) -> bytes_ok bad -> length good = length bad ->
  (length good <= 4)%nat -> good <> bad ->
  exists c' root', store_data_block_checksum d root a (pre ++ good ++ post) g c = (c', Ok root')
    /\ verify_data_block_checksum d (dirty_cache c') root' a (pre ++ good ++ post) = Ok tt
    /\ verify_data_block_checksum d (dirty_cache c') root' a (pre ++ bad ++ post) = Err (InvalidChecksum a)
    /\ forall b data, is_u64 b -> b <> a ->
         verify_data_block_checksum d (dirty_cache c') root' b data
         = verify_data_block_checksum d (dirty_cache c) root b data.
Proof.
  intros Hr Ha Hg Hroom Hb Hbad Hlen Hl4 Hne.
  destruct (store_checksum_correct d c root m fp a (pre ++ good ++ post) g Hr Ha Hg Hroom)
    as (c' & root' & fp' & fr & E & [X N _ R]).
  pose proof (ext_next _ _ _ X). assert (room c' 0) as Hroom' by (unfold room in *; lia).
  assert (room c 0) as Hroom0 by (eapply room_mono; [exact Hroom|unfold INSERT_BLOCKS; lia]).
  assert (forall data, verify_data_block_checksum d (dirty_cache c') root' a data
            = if verify_crc32c data (compute_crc32c (pre ++ good ++ post)) then Ok tt
              else Err (InvalidChecksum a)) as Hv.
  { intros data. pose proof (verify_checksum_correct d c' root' _ fp' a data R Hroom' Ha) as Hv.
    rewrite lookup_insert_eq in Hv. apply Hv; [by apply compute_crc32c_u32|done]. }
  exists c', root'. split; [done|]. rewrite !Hv. split; [|split].
  - unfold verify_crc32c. by rewrite Z.eqb_refl.
  - unfold verify_crc32c. pose proof (crc_burst_differs pre good bad post Hb Hbad Hlen Hl4 Hne).
    by rewrite (proj2 (Z.eqb_neq _ _)).
  - intros b data Hb64 Hba. unfold verify_data_block_checksum.
    rewrite (tree_lookup _ _ _ _ _ _ _ R Hroom' (checksum_key_allowed b Hb64)).
    rewrite (tree_lookup _ _ _ _ _ _ _ Hr Hroom0 (checksum_key_allowed b Hb64)).
    rewrite lookup_insert_ne; [done|]. by intros ?%(inj checksum_key).
Qed.
End properties.

Lemma stored_checksum_guards_block_witness :
  exists c' root', store_data_block_checksum no_disk 300 77 ([1] ++ [2; 3] ++ [4]) 1 example_cow = (c', Ok root')
    /\ verify_data_block_checksum no_disk (dirty_cache c') root' 77 ([1] ++ [2; 3] ++ [4]) = Ok tt
    /\ verify_data_block_checksum no_disk (dirty_cache c') root' 77 ([1] ++ [2; 7] ++ [4]) = Err (InvalidChecksum 77).
Proof.
  destruct (stored_checksum_guards_block no_disk example_cow 300 ∅ [300] 77 1 [1] [2; 3] [2; 7] [4])
    as (c' & root' & E & Hgood & Hbad & _).
  - exact (example_rep_of checksum_tree eq_refl).
  - ilia.
  - ilia.
  - apply example_cow_room. unfold INSERT_BLOCKS. lia.
  - repeat constructor; ilia.
  - repeat constructor; ilia.
  - reflexivity.
  - simpl. lia.
  - discriminate.
  - exists c', root'. split; [exact E|]. split; [exact Hgood|exact Hbad].
Defined.
