(* ===== verification/XxHash.v ===== *)
(** * XxHash: the hash of file names (src/src/dir.rs, xxHash-64 with seed 0)

    The hash as the code computes it, over the bytes not yet consumed, and what
    the directory layer may rely on: it is a 64-bit value, and two names of the
    same length below 32 that differ in one byte have different hashes. *)

From S2P Require Import Prelude Checksum.

Definition XXH64_PRIME_1 : Z := 0x9E3779B185EBCA87.
Definition XXH64_PRIME_2 : Z := 0xC2B2AE3D27D4EB4F.
Definition XXH64_PRIME_3 : Z := 0x165667B19E3779F9.
Definition XXH64_PRIME_4 : Z := 0x85EBCA77C2B2AE63.
Definition XXH64_PRIME_5 : Z := 0x27D4EB2F165667C5.

Definition wrapping_add (a b : Z) : Z := wrap 64 (a + b).
Definition wrapping_sub (a b : Z) : Z := wrap 64 (a - b).
Definition wrapping_mul (a b : Z) : Z := wrap 64 (a * b).

Definition rotate_left_64 (value rotation_amount : Z) : Z :=
  Z.lor (wrap 64 (Z.shiftl value rotation_amount)) (Z.shiftr value (64 - rotation_amount)).

Definition xxh64_round (accumulator lane_value : Z) : Z :=
  wrapping_mul
    (rotate_left_64 (wrapping_add accumulator (wrapping_mul lane_value XXH64_PRIME_2)) 31) XXH64_PRIME_1.

Definition xxh64_merge_accumulator (hash_state accumulator : Z) : Z :=
  let merged := Z.lxor hash_state (xxh64_round 0 accumulator) in
  wrapping_add (wrapping_mul merged XXH64_PRIME_1) XXH64_PRIME_4.

(** The 8-byte lane [offset] bytes into the unread input. *)
Definition lane64 (offset : nat) (unread : list Z) : Z := le_val (take 8 (drop offset unread)).

(** The loop over 32-byte stripes: the four accumulators and the unread input. *)
Fixpoint xxh64_stripes (fuel : nat) (a0 a1 a2 a3 : Z) (unread : list Z)
    : Z * Z * Z * Z * list Z :=
  match fuel with
  | O => (a0, a1, a2, a3, unread)
  | S fuel =>
      if 32 <=? len unread then
        xxh64_stripes fuel (xxh64_round a0 (lane64 0 unread)) (xxh64_round a1 (lane64 8 unread))
          (xxh64_round a2 (lane64 16 unread)) (xxh64_round a3 (lane64 24 unread)) (drop 32 unread)
      else (a0, a1, a2, a3, unread)
  end.

(** The loop over 8-byte lanes. *)
Fixpoint xxh64_lanes (fuel : nat) (hash_state : Z) (unread : list Z) : Z * list Z :=
  match fuel with
  | O => (hash_state, unread)
  | S fuel =>
      if 8 <=? len unread then
        let hash_state := Z.lxor hash_state (xxh64_round 0 (lane64 0 unread)) in
        let hash_state := wrapping_add (wrapping_mul (rotate_left_64 hash_state 27) XXH64_PRIME_1)
                            XXH64_PRIME_4 in
        xxh64_lanes fuel hash_state (drop 8 unread)
      else (hash_state, unread)
  end.

(** The optional 4-byte lane. *)
Definition xxh64_word (hash_state : Z) (unread : list Z) : Z * list Z :=
  if 4 <=? len unread then
    let lane := le_val (take 4 unread) in
    let hash_state := Z.lxor hash_state (wrapping_mul lane XXH64_PRIME_1) in
    let hash_state := wrapping_add (wrapping_mul (rotate_left_64 hash_state 23) XXH64_PRIME_2)
                        XXH64_PRIME_3 in
    (hash_state, drop 4 unread)
  else (hash_state, unread).

Definition xxh64_byte (hash_state lane : Z) : Z :=
  let hash_state := Z.lxor hash_state (wrapping_mul lane XXH64_PRIME_5) in
  wrapping_mul (rotate_left_64 hash_state 11) XXH64_PRIME_1.

Definition xxh64_avalanche (hash_state : Z) : Z :=
  let hash_state := Z.lxor hash_state (Z.shiftr hash_state 33) in
  let hash_state := wrapping_mul hash_state XXH64_PRIME_2 in
  let hash_state := Z.lxor hash_state (Z.shiftr hash_state 29) in
  let hash_state := wrapping_mul hash_state XXH64_PRIME_3 in
  Z.lxor hash_state (Z.shiftr hash_state 32).

Definition xxhash64_with_seed_zero (input_bytes : list Z) : Z :=
  let input_length := wrap 64 (len input_bytes) in
  let seed := 0 in
  let '(hash_state, unread) :=
    if 32 <=? len input_bytes then
      let '(a0, a1, a2, a3, unread) :=
        xxh64_stripes (length input_bytes)
          (wrapping_add (wrapping_add seed XXH64_PRIME_1) XXH64_PRIME_2)
          (wrapping_add seed XXH64_PRIME_2) seed (wrapping_sub seed XXH64_PRIME_1) input_bytes in
      let hash_state :=
        wrapping_add (wrapping_add (wrapping_add (rotate_left_64 a0 1) (rotate_left_64 a1 7))
          (rotate_left_64 a2 12)) (rotate_left_64 a3 18) in
      let hash_state := xxh64_merge_accumulator hash_state a0 in
      let hash_state := xxh64_merge_accumulator hash_state a1 in
      let hash_state := xxh64_merge_accumulator hash_state a2 in
      (xxh64_merge_accumulator hash_state a3, unread)
    else (wrapping_add seed XXH64_PRIME_5, input_bytes) in
  let hash_state := wrapping_add hash_state input_length in
  let '(hash_state, unread) := xxh64_lanes (length unread) hash_state unread in
  let '(hash_state, unread) := xxh64_word hash_state unread in
  let hash_state := fold_left xxh64_byte unread hash_state in
  xxh64_avalanche hash_state.

(** The loops run to their end: fewer than a stripe, than a lane, is left. *)
Lemma xxh64_stripes_done fuel a0 a1 a2 a3 u :
  (length u <= fuel)%nat -> len (xxh64_stripes fuel a0 a1 a2 a3 u).2 < 32.
Proof.
  revert a0 a1 a2 a3 u. induction fuel as [|fuel IH]; intros a0 a1 a2 a3 u Hu; simpl; [lia|].
  destruct (Z.leb_spec 32 (len u)); [|simpl; lia]. apply IH. rewrite length_drop. lia.
Qed.

Lemma xxh64_lanes_done fuel h u : (length u <= fuel)%nat -> len (xxh64_lanes fuel h u).2 < 8.
Proof.
  revert h u. induction fuel as [|fuel IH]; intros h u Hu; simpl; [lia|].
  destruct (Z.leb_spec 8 (len u)); [|simpl; lia]. apply IH. rewrite length_drop. lia.
Qed.

(** ** The mixing steps keep different states apart *)

Lemma wrapping_u64 z : is_u64 (wrap 64 z).
Proof. unfold wrap. pose proof (Z.mod_pos_bound z (2 ^ 64)). ilia. Qed.

Lemma lxor_u64 a b : is_u64 a -> is_u64 b -> is_u64 (Z.lxor a b).
Proof. intros. by apply (lxor_bound 64). Qed.

Lemma shiftr_u64 a k : is_u64 a -> 0 <= k -> is_u64 (Z.shiftr a k).
Proof.
  intros [H0 H1] Hk. rewrite Z.shiftr_div_pow2 by done. split; [apply Z.div_pos; lia|].
  pose proof (Z.pow_pos_nonneg 2 k). apply Z.le_lt_trans with a; [|done].
  apply Z.div_le_upper_bound; nia.
Qed.

Lemma lxor_inj_r a b c : Z.lxor a c = Z.lxor b c -> a = b.
Proof.
  intros E. apply (f_equal (fun z => Z.lxor z c)) in E.
  by rewrite !Z.lxor_assoc, !Z.lxor_nilpotent, !Z.lxor_0_r in E.
Qed.

Lemma lxor_inj_l a b c : Z.lxor c a = Z.lxor c b -> a = b.
Proof. rewrite !(Z.lxor_comm c). apply lxor_inj_r. Qed.

Lemma wrapping_add_inj a b k : is_u64 a -> is_u64 b -> wrapping_add a k = wrapping_add b k -> a = b.
Proof. unfold wrapping_add, wrap. dlia. Qed.

Lemma wrapping_mul_inj p q a b :
  (p * q) mod 2 ^ 64 = 1 -> is_u64 a -> is_u64 b -> wrapping_mul a p = wrapping_mul b p -> a = b.
Proof.
  intros Hpq Ha Hb E. unfold wrapping_mul, wrap in E. apply (f_equal (fun z => (z * q) mod 2 ^ 64)) in E.
  rewrite !Zmult_mod_idemp_l, <- !Z.mul_assoc in E.
  rewrite <- (Zmult_mod_idemp_r (p * q) a), <- (Zmult_mod_idemp_r (p * q) b), Hpq, !Z.mul_1_r in E.
  rewrite !Z.mod_small in E by ilia. done.
Qed.

Lemma mul_P1_inj a b :
  is_u64 a -> is_u64 b -> wrapping_mul a XXH64_PRIME_1 = wrapping_mul b XXH64_PRIME_1 -> a = b.
Proof. by apply (wrapping_mul_inj _ 0x887493432BADB37). Qed.
Lemma mul_P2_inj a b :
  is_u64 a -> is_u64 b -> wrapping_mul a XXH64_PRIME_2 = wrapping_mul b XXH64_PRIME_2 -> a = b.
Proof. by apply (wrapping_mul_inj _ 0xba79078168d4baf). Qed.
Lemma mul_P3_inj a b :
  is_u64 a -> is_u64 b -> wrapping_mul a XXH64_PRIME_3 = wrapping_mul b XXH64_PRIME_3 -> a = b.
Proof. by apply (wrapping_mul_inj _ 0xe9e9f4c41d6df849). Qed.
Lemma mul_P5_inj a b :
  is_u64 a -> is_u64 b -> wrapping_mul a XXH64_PRIME_5 = wrapping_mul b XXH64_PRIME_5 -> a = b.
Proof. by apply (wrapping_mul_inj _ 0xc592c09fdfba7f0d). Qed.

Lemma u64_testbit_high a i : is_u64 a -> 64 <= i -> Z.testbit a i = false.
Proof.
  intros [H0 H1] Hi. destruct (decide (a = 0)) as [->|]; [apply Z.testbit_0_l|].
  apply Z.bits_above_log2; [done|]. apply Z.log2_lt_pow2; [lia|].
  apply Z.lt_le_trans with (2 ^ 64); [done|]. apply Z.pow_le_mono_r; lia.
Qed.

Lemma rotate_left_bit v r i :
  is_u64 v -> 0 < r < 64 -> 0 <= i < 64 ->
  Z.testbit (rotate_left_64 v r) ((i + r) mod 64) = Z.testbit v i.
Proof.
  intros Hv Hr Hi. unfold rotate_left_64, wrap.
  destruct (Z.lt_ge_cases (i + r) 64).
  - rewrite (Z.mod_small (i + r)) by lia. rewrite Z.lor_spec, Z.mod_pow2_bits_low, Z.shiftl_spec, Z.shiftr_spec by lia.
    rewrite (u64_testbit_high v (i + r + (64 - r))) by (done || lia). rewrite orb_false_r. f_equal. lia.
  - replace ((i + r) mod 64) with (i + r - 64) by dlia.
    rewrite Z.lor_spec, Z.mod_pow2_bits_low, Z.shiftl_spec_low, Z.shiftr_spec by lia. simpl. f_equal. lia.
Qed.

Lemma rotate_left_inj a b r :
  0 < r < 64 -> is_u64 a -> is_u64 b -> rotate_left_64 a r = rotate_left_64 b r -> a = b.
Proof.
  intros Hr Ha Hb E. apply Z.bits_inj'. intros i Hi. destruct (Z.lt_ge_cases i 64).
  - rewrite <- (rotate_left_bit a r i), <- (rotate_left_bit b r i) by (done || lia). by rewrite E.
  - by rewrite !u64_testbit_high.
Qed.

Lemma rotate_left_u64 a r : 0 < r < 64 -> is_u64 a -> is_u64 (rotate_left_64 a r).
Proof.
  intros Hr Ha. unfold rotate_left_64.
  pose proof (wrapping_u64 (Z.shiftl a r)) as H1. pose proof (shiftr_u64 a (64 - r) Ha) as H2.
  specialize (H2 ltac:(lia)). split; [apply Z.lor_nonneg; ilia|].
  destruct (decide (Z.lor (wrap 64 (Z.shiftl a r)) (Z.shiftr a (64 - r)) = 0)) as [->|Hne]; [done|].
  apply Z.log2_lt_pow2; [pose proof (proj2 (Z.lor_nonneg (wrap 64 (Z.shiftl a r)) (Z.shiftr a (64 - r)))); ilia|].
  rewrite Z.log2_lor by ilia.
  assert (forall z, is_u64 z -> Z.log2 z < 64) as Hlog.
  { intros z Hz. destruct (decide (z = 0)) as [->|]; [done|]. apply Z.log2_lt_pow2; ilia. }
  pose proof (Hlog _ H1). pose proof (Hlog _ H2). lia.
Qed.

Lemma xorshift_inj a b k :
  0 < k -> is_u64 a -> is_u64 b -> Z.lxor a (Z.shiftr a k) = Z.lxor b (Z.shiftr b k) -> a = b.
Proof.
  intros Hk Ha Hb E. set (d := Z.lxor a b).
  assert (d = Z.shiftr d k) as Hd.
  { unfold d. rewrite Z.shiftr_lxor. apply Z.bits_inj'. intros i Hi.
    apply (f_equal (fun z => Z.testbit z i)) in E. rewrite !Z.lxor_spec in *.
    by destruct (Z.testbit a i), (Z.testbit b i), (Z.testbit (Z.shiftr a k) i), (Z.testbit (Z.shiftr b k) i). }
  assert (is_u64 d) as [H0 _] by by apply lxor_u64.
  rewrite Z.shiftr_div_pow2 in Hd by lia. assert (2 <= 2 ^ k) by (apply (Z.pow_le_mono_r 2 1); lia).
  assert (d = 0) as Hz by (destruct (decide (d = 0)); [done|]; pose proof (Z.div_lt d (2 ^ k)); lia).
  by apply Z.lxor_eq.
Qed.

(** ** One differing byte *)

Definition one_byte_apart (u v : list Z) : Prop :=
  exists pre x y post, u = pre ++ x :: post /\ v = pre ++ y :: post /\ x <> y.

(** The hash states differ, or the unread inputs still do. *)
Record apart (h : Z) (u : list Z) (k : Z) (v : list Z) : Prop := {
  ap_u64 : is_u64 h /\ is_u64 k;
  ap_bytes : bytes_ok u /\ bytes_ok v;
  ap_length : length u = length v;
  ap_differ : (h <> k /\ u = v) \/ (h = k /\ one_byte_apart u v);
}.

Lemma one_byte_apart_split n u v :
  one_byte_apart u v ->
  (take n u <> take n v /\ drop n u = drop n v) \/ (take n u = take n v /\ one_byte_apart (drop n u) (drop n v)).
Proof.
  intros (pre & x & y & post & -> & -> & Hne). destruct (decide (n <= length pre)%nat) as [Hn|Hn].
  - right. rewrite !take_app_le, !drop_app_le by done. split; [done|]. by exists (drop n pre), x, y, post.
  - left. rewrite !take_app_ge, !drop_app_ge by lia.
    replace (n - length pre)%nat with (S (n - length pre - 1)) by lia. simpl.
    split; [|done]. intros E. apply app_inv_head in E. by injection E.
Qed.

(** One step on [n] bytes of the input. *)
Lemma apart_step (f : Z -> list Z -> Z) n h u k v :
  apart h u k v -> (n <= length u)%nat ->
  (forall h l, is_u64 h -> bytes_ok l -> length l = n -> is_u64 (f h l)) ->
  (forall h k l, is_u64 h -> is_u64 k -> bytes_ok l -> length l = n -> f h l = f k l -> h = k) ->
  (forall h l l', is_u64 h -> bytes_ok l -> bytes_ok l' -> length l = n -> length l' = n ->
     f h l = f h l' -> l = l') ->
  apart (f h (take n u)) (drop n u) (f k (take n v)) (drop n v).
Proof.
  intros [[Hh Hk] [Hu Hv] Hlen Hd] Hn Hr Hinj Hinjl.
  assert (length (take n u) = n /\ length (take n v) = n) as [Hlu Hlv] by (rewrite !length_take; lia).
  assert (bytes_ok (take n u) /\ bytes_ok (take n v)) as [Hbu Hbv] by (split; by apply Forall_take).
  split; [auto|split; by apply Forall_drop|rewrite !length_drop; lia|].
  destruct Hd as [[Hhk ->]|[-> Huv]].
  - left. split; [|done]. intros E. by apply Hhk, (Hinj _ _ (take n v)).
  - destruct (one_byte_apart_split n u v Huv) as [[Ht Hdr]|[Ht Hdr]].
    + left. split; [|done]. intros E. by apply Ht, (Hinjl k).
    + right. rewrite Ht. done.
Qed.

Lemma lane_round_inj a b : is_u64 a -> is_u64 b -> xxh64_round 0 a = xxh64_round 0 b -> a = b.
Proof.
  intros Ha Hb E. unfold xxh64_round in E.
  assert (forall z, is_u64 (wrapping_add 0 (wrapping_mul z XXH64_PRIME_2))) as Hw by (intros; apply wrapping_u64).
  apply mul_P1_inj in E; [|apply rotate_left_u64; [lia|apply Hw]..].
  apply rotate_left_inj in E; [|lia|apply Hw..]. unfold wrapping_add in E. rewrite !Z.add_0_l in E.
  unfold wrap in E. rewrite !Z.mod_small in E by apply wrapping_u64. by apply mul_P2_inj.
Qed.

Lemma round_u64 a b : is_u64 (xxh64_round a b).
Proof. apply wrapping_u64. Qed.

Lemma le_val_inj l l' : bytes_ok l -> bytes_ok l' -> length l = length l' -> le_val l = le_val l' -> l = l'.
Proof. intros Hl Hl' Hlen E. rewrite <- (le_bytes_val l), <- (le_bytes_val l') by done. by rewrite Hlen, E. Qed.

Lemma le_val_u64 l : bytes_ok l -> (length l <= 8)%nat -> is_u64 (le_val l).
Proof.
  intros Hl Hn. pose proof (le_val_bound l Hl). pose proof (Z.pow_le_mono_r 2 (8 * len l) 64). ilia.
Qed.

(** [rotl(h ^ x, r) * p + q] keeps [h] and [x] apart. *)
Lemma mix_inj (p q r : Z) h h' x x' :
  (forall a b, is_u64 a -> is_u64 b -> wrapping_mul a p = wrapping_mul b p -> a = b) ->
  0 < r < 64 -> is_u64 h -> is_u64 h' -> is_u64 x -> is_u64 x' ->
  wrapping_add (wrapping_mul (rotate_left_64 (Z.lxor h x) r) p) q
  = wrapping_add (wrapping_mul (rotate_left_64 (Z.lxor h' x') r) p) q ->
  Z.lxor h x = Z.lxor h' x'.
Proof.
  intros Hp Hr Hh Hh' Hx Hx' E. apply wrapping_add_inj in E; [|apply wrapping_u64..].
  apply Hp in E; [|apply rotate_left_u64; [done|by apply lxor_u64]..].
  by apply rotate_left_inj in E; [|done|apply lxor_u64..].
Qed.

Lemma wrapping_add_0 a : is_u64 a -> wrapping_add a 0 = a.
Proof. intros. unfold wrapping_add. rewrite Z.add_0_r. by apply wrap_small. Qed.

Definition lane_step (h : Z) (l : list Z) : Z :=
  wrapping_add (wrapping_mul (rotate_left_64 (Z.lxor h (xxh64_round 0 (le_val l))) 27) XXH64_PRIME_1) XXH64_PRIME_4.
Definition word_step (h : Z) (l : list Z) : Z :=
  wrapping_add (wrapping_mul (rotate_left_64 (Z.lxor h (wrapping_mul (le_val l) XXH64_PRIME_1)) 23) XXH64_PRIME_2)
    XXH64_PRIME_3.

Lemma lane_step_apart h u k v :
  apart h u k v -> (8 <= length u)%nat ->
  apart (lane_step h (take 8 u)) (drop 8 u) (lane_step k (take 8 v)) (drop 8 v).
Proof.
  intros Ha Hn. apply (apart_step lane_step); [done|done|intros; apply wrapping_u64| |].
  - intros a b l Hxa Hxb _ _ E. apply mix_inj in E; [|apply mul_P1_inj|lia|done|done|apply round_u64..].
    by apply lxor_inj_r in E.
  - intros a l l' Hxa Hl Hl' Hn1 Hn2 E. apply mix_inj in E; [|apply mul_P1_inj|lia|done|done|apply round_u64..].
    apply lxor_inj_l, lane_round_inj in E; [|by apply le_val_u64; [|lia]..].
    by apply le_val_inj in E; [|..|lia].
Qed.

Lemma word_step_apart h u k v :
  apart h u k v -> (4 <= length u)%nat ->
  apart (word_step h (take 4 u)) (drop 4 u) (word_step k (take 4 v)) (drop 4 v).
Proof.
  intros Ha Hn. apply (apart_step word_step); [done|done|intros; apply wrapping_u64| |].
  - intros a b l Hxa Hxb _ _ E. apply mix_inj in E; [|apply mul_P2_inj|lia|done|done|apply wrapping_u64..].
    by apply lxor_inj_r in E.
  - intros a l l' Hxa Hl Hl' Hn1 Hn2 E. apply mix_inj in E; [|apply mul_P2_inj|lia|done|done|apply wrapping_u64..].
    apply lxor_inj_l, mul_P1_inj in E; [|by apply le_val_u64; [|lia]..].
    by apply le_val_inj in E; [|..|lia].
Qed.

Lemma lanes_apart fuel h u k v :
  apart h u k v ->
  apart (xxh64_lanes fuel h u).1 (xxh64_lanes fuel h u).2 (xxh64_lanes fuel k v).1 (xxh64_lanes fuel k v).2.
Proof.
  revert h u k v. induction fuel as [|fuel IH]; intros h u k v Ha; simpl; [done|].
  rewrite <- (ap_length _ _ _ _ Ha). destruct (Z.leb_spec 8 (len u)); [|done].
  apply IH. by apply (lane_step_apart h u k v); [|lia].
Qed.

Lemma word_apart h u k v :
  apart h u k v -> apart (xxh64_word h u).1 (xxh64_word h u).2 (xxh64_word k v).1 (xxh64_word k v).2.
Proof.
  intros Ha. unfold xxh64_word. rewrite <- (ap_length _ _ _ _ Ha). destruct (Z.leb_spec 4 (len u)); [|done].
  by apply (word_step_apart h u k v); [|lia].
Qed.

Lemma byte_step_inj h k x y :
  is_u64 h -> is_u64 k -> is_u8 x -> is_u8 y -> xxh64_byte h x = xxh64_byte k y ->
  Z.lxor h (wrapping_mul x XXH64_PRIME_5) = Z.lxor k (wrapping_mul y XXH64_PRIME_5).
Proof.
  intros Hh Hk Hx Hy E. unfold xxh64_byte in E.
  apply mul_P1_inj in E; [|apply rotate_left_u64; [lia|apply lxor_u64; [done|apply wrapping_u64]]..].
  by apply rotate_left_inj in E; [|lia|apply lxor_u64; [done|apply wrapping_u64]..].
Qed.

Lemma bytes_apart u : forall h k v, apart h u k v -> fold_left xxh64_byte u h <> fold_left xxh64_byte v k.
Proof.
  induction u as [|x u IH]; intros h k [|y v] Ha; pose proof (ap_length _ _ _ _ Ha) as Hlen; try done.
  - simpl. destruct Ha as [_ _ _ [[? _]|[_ (pre & ? & ? & ? & E & _)]]]; [done|]. by destruct pre.
  - simpl. apply IH. destruct Ha as [[Hh Hk] [[Hx Hu]%Forall_cons [Hy Hv]%Forall_cons] _ Hd].
    split; [split; apply wrapping_u64|done|by injection Hlen|].
    destruct Hd as [[Hne E]|[-> Hone]].
    + injection E as -> ->. left. split; [|done]. intros E.
      apply byte_step_inj in E; [|done..]. by apply lxor_inj_r in E.
    + destruct (one_byte_apart_split 1 _ _ Hone) as [[Ht Hdr]|[Ht Hdr]]; simpl in *.
      * left. split; [|by rewrite !drop_0 in Hdr]. intros E. apply byte_step_inj in E; [|done..].
        apply lxor_inj_l, mul_P5_inj in E; [by subst|ilia..].
      * rewrite !drop_0 in Hdr. injection Ht as ->. by right.
Qed.

Lemma bytes_u64 u h : is_u64 h -> is_u64 (fold_left xxh64_byte u h).
Proof. revert h. induction u; intros h Hh; simpl; [done|]. apply IHu. apply wrapping_u64. Qed.

Lemma avalanche_inj a b : is_u64 a -> is_u64 b -> xxh64_avalanche a = xxh64_avalanche b -> a = b.
Proof.
  intros Ha Hb E. unfold xxh64_avalanche in E.
  assert (forall z k, is_u64 z -> 0 <= k -> is_u64 (Z.lxor z (Z.shiftr z k))) as Hs
    by (intros; apply lxor_u64; [done|by apply shiftr_u64]).
  apply xorshift_inj in E; [|lia|apply wrapping_u64..].
  apply mul_P3_inj in E; [|apply Hs; [apply wrapping_u64|lia]..].
  apply xorshift_inj in E; [|lia|apply wrapping_u64..].
  apply mul_P2_inj in E; [|by apply Hs; [|lia]..]. by apply xorshift_inj in E; [|lia|..].
Qed.

Lemma xxhash64_u64 name : is_u64 (xxhash64_with_seed_zero name).
Proof.
  assert (forall h, is_u64 (xxh64_avalanche h)) as Hav.
  { intros h. apply lxor_u64; [apply wrapping_u64|apply shiftr_u64; [apply wrapping_u64|lia]]. }
  unfold xxhash64_with_seed_zero. repeat case_match; apply Hav.
Qed.

(** ** Properties *)

(** Two names of the same length below 32 bytes that differ in exactly one byte
    never have the same hash. *)
Lemma xxhash64_separates_one_byte pre x y post :
  bytes_ok (pre ++ x :: post) -> bytes_ok (pre ++ y :: post) -> len (pre ++ x :: post) < 32 -> x <> y ->
  xxhash64_with_seed_zero (pre ++ x :: post) <> xxhash64_with_seed_zero (pre ++ y :: post).
Proof.
  intros Hx Hy Hlen Hne. unfold xxhash64_with_seed_zero.
  replace (length (pre ++ y :: post)) with (length (pre ++ x :: post)) by (by rewrite !length_app).
  destruct (Z.leb_spec 32 (len (pre ++ x :: post))); [lia|].
  set (h0 := wrapping_add (wrapping_add 0 XXH64_PRIME_5) (wrap 64 (len (pre ++ x :: post)))).
  assert (apart h0 (pre ++ x :: post) h0 (pre ++ y :: post)) as Ha.
  { split; [split; apply wrapping_u64|done|by rewrite !length_app|]. right. split; [done|]. by exists pre, x, y, post. }
  apply (lanes_apart (length (pre ++ x :: post))), word_apart in Ha.
  replace (length (pre ++ y :: post)) with (length (pre ++ x :: post)) by (by rewrite !length_app).
  destruct (xxh64_lanes _ h0 (pre ++ x :: post)) as [h u], (xxh64_lanes _ h0 (pre ++ y :: post)) as [k v].
  simpl in Ha. destruct (xxh64_word h u) as [h1 u1], (xxh64_word k v) as [k1 v1]. simpl in Ha.
  pose proof (ap_u64 _ _ _ _ Ha) as [Hh1 Hk1].
  intros E. apply avalanche_inj in E; [|by apply bytes_u64..]. by apply bytes_apart in Ha.
Qed.

(** Two file names that the hash does not tell apart. *)
Definition collision_1 : list Z := [114; 101; 112; 111; 114; 116; 45; 50; 48; 50; 54; 45; 48; 48; 48; 49].
Definition collision_2 : list Z := [90; 102; 56; 72; 117; 80; 101; 112; 75; 54; 74; 83; 48; 73; 113; 114].

Lemma names_collide :
  collision_1 <> collision_2 /\ xxhash64_with_seed_zero collision_1 = xxhash64_with_seed_zero collision_2.
Proof. split; [discriminate|by vm_compute]. Qed.

(** The reference vector of the unit test. *)
Lemma xxhash64_empty : xxhash64_with_seed_zero [] = 0xEF46DB3751D8E999.
Proof. by vm_compute. Qed.

