(* ===== verification/Dir.v ===== *)
(** * Dir: directory entries (src/src/dir.rs)

    Entry records and their codec, and lookup, creation, removal and listing of
    entries, stored in the inode tree under the hash of the name. *)

From S2P Require Import Prelude Checksum Device Superblock Node NodeCodec BTree BTreeInv BTreeWrite.
From S2P Require Import BTreeInsert BTreeDelete TreeStore BTreeTheorems Inode XxHash.

Definition CHILD_TYPE_UNKNOWN : Z := 0.
Definition CHILD_TYPE_FIFO : Z := 1.
Definition CHILD_TYPE_CHAR_DEVICE : Z := 2.
Definition CHILD_TYPE_DIRECTORY : Z := 4.
Definition CHILD_TYPE_BLOCK_DEVICE : Z := 6.
Definition CHILD_TYPE_REGULAR_FILE : Z := 8.
Definition CHILD_TYPE_SYMLINK : Z := 10.
Definition CHILD_TYPE_SOCKET : Z := 12.

(** ** Strings

    A [&str] or [String] is its UTF-8 bytes.  [from_utf8_lossy] replaces each
    maximal ill-formed part by U+FFFD, as the standard library's [Utf8Chunks]
    does; a byte past the end reads as 0. *)

Definition replacement_character : list Z := [0xEF; 0xBF; 0xBD].

Definition is_continuation (b : Z) : bool := Z.land b 192 =? 128.

Definition in_range (lo hi b : Z) : bool := (lo <=? b) && (b <=? hi).

Definition utf8_char_width (b : Z) : Z :=
  if in_range 0xC2 0xDF b then 2 else if in_range 0xE0 0xEF b then 3
  else if in_range 0xF0 0xF4 b then 4 else 0.

(** The second byte of a three-byte, of a four-byte character. *)
Definition second_of_three (b b1 : Z) : bool :=
  (b =? 0xE0) && in_range 0xA0 0xBF b1 || in_range 0xE1 0xEC b && in_range 0x80 0xBF b1
  || (b =? 0xED) && in_range 0x80 0x9F b1 || in_range 0xEE 0xEF b && in_range 0x80 0xBF b1.
Definition second_of_four (b b1 : Z) : bool :=
  (b =? 0xF0) && in_range 0x90 0xBF b1 || in_range 0xF1 0xF3 b && in_range 0x80 0xBF b1
  || (b =? 0xF4) && in_range 0x80 0x8F b1.

Fixpoint from_utf8_lossy (bytes : list Z) : list Z :=
  match bytes with
  | [] => []
  | b :: l =>
      if b <? 128 then b :: from_utf8_lossy l
      else
        match utf8_char_width b with
        | 2 =>
            match l with
            | b1 :: l1 => if is_continuation b1 then b :: b1 :: from_utf8_lossy l1
                          else replacement_character ++ from_utf8_lossy l
            | [] => replacement_character
            end
        | 3 =>
            match l with
            | b1 :: l1 =>
                if second_of_three b b1 then
                  match l1 with
                  | b2 :: l2 => if is_continuation b2 then b :: b1 :: b2 :: from_utf8_lossy l2
                                else replacement_character ++ from_utf8_lossy l1
                  | [] => replacement_character
                  end
                else replacement_character ++ from_utf8_lossy l
            | [] => replacement_character
            end
        | 4 =>
            match l with
            | b1 :: l1 =>
                if second_of_four b b1 then
                  match l1 with
                  | b2 :: l2 =>
                      if is_continuation b2 then
                        match l2 with
                        | b3 :: l3 =>
                            if is_continuation b3 then b :: b1 :: b2 :: b3 :: from_utf8_lossy l3
                            else replacement_character ++ from_utf8_lossy l2
                        | [] => replacement_character
                        end
                      else replacement_character ++ from_utf8_lossy l1
                  | [] => replacement_character
                  end
                else replacement_character ++ from_utf8_lossy l
            | [] => replacement_character
            end
        | _ => replacement_character ++ from_utf8_lossy l
        end
  end.

(** ** Entries and their codec *)

Record BafsDirEntry := {
  child_inode_number : Z;
  child_type : Z;
  name_length_bytes : Z;
  filename : list Z;
}.

#[global] Instance BafsDirEntry_eq_dec : EqDecision BafsDirEntry.
Proof. solve_decision. Defined.

Definition serialise_dir_entry_to_bytes (entry : BafsDirEntry) : list Z :=
  le_bytes 8 (child_inode_number entry) ++ [child_type entry] ++ [name_length_bytes entry] ++ [0; 0]
  ++ filename entry.

Definition deserialise_dir_entry_from_bytes (bytes : list Z) : result BafsDirEntry :=
  if len bytes <? 12 then Err CorruptedStructure
  else
    let? number := get_le bytes 0 8 in
    let? type := get_byte bytes 8 in
    let? name_length := get_byte bytes 9 in
    let name_end := 12 + name_length in
    if len bytes <? name_end then Err CorruptedStructure
    else
      let? name := get_slice bytes 12 (name_end - 12) in
      Ok {| child_inode_number := number; child_type := type; name_length_bytes := name_length;
            filename := from_utf8_lossy name |}.

Definition make_directory_entry_key (parent_inode_number : Z) (name : list Z) : BafsKey :=
  BafsKey_new parent_inode_number ITEM_TYPE_DIRECTORY_ENTRY (xxhash64_with_seed_zero name).

(** ** Operations *)

(** The scan over the items found under the hash. *)
Fixpoint find_entry (target_filename : list Z) (items : list BafsLeafItem)
    : result (option BafsDirEntry) :=
  match items with
  | [] => Ok None
  | item :: items =>
      let? entry := deserialise_dir_entry_from_bytes (li_value item) in
      if decide (filename entry = target_filename) then Ok (Some entry)
      else find_entry target_filename items
  end.

(** [items.iter().map(..).collect()] *)
Fixpoint deserialise_entries (items : list BafsLeafItem) : result (list BafsDirEntry) :=
  match items with
  | [] => Ok []
  | item :: items =>
      let? entry := deserialise_dir_entry_from_bytes (li_value item) in
      let? entries := deserialise_entries items in
      Ok (entry :: entries)
  end.

Section operations.
Context {D : Type} `{BlockDevice D}.

Definition directory_lookup_entry (device : D) (cache : gmap Z (list Z)) (inode_tree_root_block
    parent_inode_number : Z) (target_filename : list Z) : result (option BafsDirEntry) :=
  let search_key := BafsKey_new parent_inode_number ITEM_TYPE_DIRECTORY_ENTRY
                      (xxhash64_with_seed_zero target_filename) in
  let? matching_items := iterate_tree_range device cache inode_tree_root_block search_key search_key in
  find_entry target_filename matching_items.

Definition directory_create_entry (device : D) (inode_tree_root_block parent_inode_number : Z)
    (child_filename : list Z) (child_inode_number child_type generation : Z) : ST cow BafsError Z :=
  if (len child_filename =? 0) || (255 <? len child_filename) then st_err InvalidArgument
  else
    let! c := st_get in
    let! existing := st_lift (directory_lookup_entry device (dirty_cache c) inode_tree_root_block
                                parent_inode_number child_filename) in
    match existing with
    | Some _ => st_err AlreadyExists
    | None =>
        let entry := {| child_inode_number := child_inode_number; child_type := child_type;
                        name_length_bytes := wrap 8 (len child_filename);
                        filename := child_filename |} in
        insert_into_tree device inode_tree_root_block
          (make_directory_entry_key parent_inode_number child_filename)
          (serialise_dir_entry_to_bytes entry) generation
    end.

Definition directory_unlink_entry (device : D) (inode_tree_root_block parent_inode_number : Z)
    (target_filename : list Z) (generation : Z) : ST cow BafsError Z :=
  let key := make_directory_entry_key parent_inode_number target_filename in
  let! c := st_get in
  let! existing_entry := st_lift (directory_lookup_entry device (dirty_cache c) inode_tree_root_block
                                    parent_inode_number target_filename) in
  match existing_entry with
  | None => st_err NotFound
  | Some _ => delete_from_tree device inode_tree_root_block key generation
  end.

(** All entry items of a directory, in key order. *)
Definition directory_items (device : D) (cache : gmap Z (list Z)) (inode_tree_root_block
    parent_inode_number : Z) : result (list BafsLeafItem) :=
  iterate_tree_range device cache inode_tree_root_block
    (BafsKey_new parent_inode_number ITEM_TYPE_DIRECTORY_ENTRY 0)
    (BafsKey_new parent_inode_number ITEM_TYPE_DIRECTORY_ENTRY (2 ^ 64 - 1)).

Definition directory_iterate (device : D) (cache : gmap Z (list Z)) (inode_tree_root_block
    parent_inode_number : Z) (entry_index : nat) : result (option BafsDirEntry) :=
  let? all_entries := directory_items device cache inode_tree_root_block parent_inode_number in
  match all_entries !! entry_index with
  | None => Ok None
  | Some item => let? entry := deserialise_dir_entry_from_bytes (li_value item) in Ok (Some entry)
  end.

Definition directory_list_all_entries (device : D) (cache : gmap Z (list Z)) (inode_tree_root_block
    parent_inode_number : Z) : result (list BafsDirEntry) :=
  let? all_items := directory_items device cache inode_tree_root_block parent_inode_number in
  deserialise_entries all_items.
End operations.

(** ** Strings survive the lossy conversion *)

Definition unicode_scalar (cp : Z) : Prop := 0 <= cp < 0xD800 \/ 0xE000 <= cp < 0x110000.

Definition utf8_encode (cp : Z) : list Z :=
  if cp <? 0x80 then [cp]
  else if cp <? 0x800 then [0xC0 + cp / 64; 0x80 + cp mod 64]
  else if cp <? 0x10000 then [0xE0 + cp / 4096; 0x80 + cp / 64 mod 64; 0x80 + cp mod 64]
  else [0xF0 + cp / 262144; 0x80 + cp / 4096 mod 64; 0x80 + cp / 64 mod 64; 0x80 + cp mod 64].

(** What a Rust string holds. *)
Definition is_str (l : list Z) : Prop :=
  exists cps, Forall unicode_scalar cps /\ l = concat (utf8_encode <$> cps).

Lemma is_continuation_64 k : 0 <= k < 64 -> is_continuation (0x80 + k) = true.
Proof.
  intros Hk. assert (forallb (fun k => is_continuation (0x80 + k)) (seqZ 0 64) = true) as Hall by by vm_compute.
  rewrite forallb_forall in Hall. apply Hall, list_elem_of_In, elem_of_seqZ. lia.
Qed.

Lemma is_continuation_mod k : is_continuation (0x80 + k mod 64) = true.
Proof. apply is_continuation_64. dlia. Qed.

(** Decide the range tests of the decoder by arithmetic. *)
Ltac decide_ranges :=
  unfold utf8_char_width, second_of_three, second_of_four, in_range in *;
  repeat match goal with
  | |- context [Z.leb ?a ?b] => destruct (Z.leb_spec a b)
  | |- context [Z.eqb ?a ?b] => destruct (Z.eqb_spec a b)
  end; cbn [andb orb]; try done; exfalso; lia.

Lemma from_utf8_lossy_encode cp l :
  unicode_scalar cp -> from_utf8_lossy (utf8_encode cp ++ l) = utf8_encode cp ++ from_utf8_lossy l.
Proof.
  intros Hcp. unfold utf8_encode.
  destruct (Z.ltb_spec cp 0x80) as [H1|H1].
  { simpl. by destruct (Z.ltb_spec cp 128); [|lia]. }
  destruct (Z.ltb_spec cp 0x800) as [H2|H2].
  { assert (2 <= cp / 64 < 32) as Hq by dlia. cbn [app from_utf8_lossy].
    destruct (Z.ltb_spec (0xC0 + cp / 64) 128); [lia|].
    replace (utf8_char_width (0xC0 + cp / 64)) with 2 by decide_ranges. by rewrite is_continuation_mod. }
  unfold unicode_scalar in Hcp. destruct (Z.ltb_spec cp 0x10000) as [H3|H3]; cbn [app from_utf8_lossy].
  - assert (0 <= cp / 4096 < 16) as Hq by dlia. assert (0 <= cp / 64 mod 64 < 64) as Hr by dlia.
    assert (cp / 4096 = 0 -> 32 <= cp / 64 mod 64) as H0 by dlia.
    assert (cp / 4096 = 13 -> cp / 64 mod 64 < 32) as H13 by dlia.
    destruct (Z.ltb_spec (0xE0 + cp / 4096) 128); [lia|].
    replace (utf8_char_width (0xE0 + cp / 4096)) with 3 by decide_ranges.
    replace (second_of_three (0xE0 + cp / 4096) (0x80 + cp / 64 mod 64)) with true by decide_ranges.
    by rewrite is_continuation_mod.
  - assert (cp < 0x110000) by lia. clear Hcp.
    assert (0 <= cp / 262144 < 5) as Hq by dlia. assert (0 <= cp / 4096 mod 64 < 64) as Hr by dlia.
    assert (cp / 262144 = 0 -> 16 <= cp / 4096 mod 64) as H0 by dlia.
    assert (cp / 262144 = 4 -> cp / 4096 mod 64 < 16) as H4 by dlia.
    destruct (Z.ltb_spec (0xF0 + cp / 262144) 128); [lia|].
    replace (utf8_char_width (0xF0 + cp / 262144)) with 4 by decide_ranges.
    replace (second_of_four (0xF0 + cp / 262144) (0x80 + cp / 4096 mod 64)) with true by decide_ranges.
    by rewrite !is_continuation_mod.
Qed.

Lemma from_utf8_lossy_str l : is_str l -> from_utf8_lossy l = l.
Proof.
  intros (cps & Hcps & ->). induction Hcps as [|cp cps Hcp _ IH]; csimpl; [done|].
  by rewrite from_utf8_lossy_encode, IH.
Qed.

Lemma ascii_is_str l : Forall (fun b => 0 <= b < 128) l -> is_str l.
Proof.
  intros Hl. exists l. split; [eapply Forall_impl; [exact Hl|]; unfold unicode_scalar; lia|].
  induction Hl as [|b l Hb _ IH]; csimpl; [done|]. rewrite <- IH. unfold utf8_encode.
  by destruct (Z.ltb_spec b 128); [|lia].
Qed.

Lemma is_str_bytes l : is_str l -> bytes_ok l.
Proof.
  intros (cps & Hcps & ->). induction Hcps as [|cp cps Hcp _ IH]; csimpl; [constructor|].
  apply bytes_ok_app. split; [|done]. unfold utf8_encode, unicode_scalar in *.
  repeat (case_match; try lia); repeat constructor; dlia.
Qed.

(** ** Directories as part of the inode tree's map *)

Record entry_ok (e : BafsDirEntry) : Prop := {
  eok_number : is_u64 (child_inode_number e);
  eok_type : is_u8 (child_type e);
  eok_name : is_str (filename e);
  eok_length : 1 <= len (filename e) <= 255;
  eok_name_length : name_length_bytes e = len (filename e);
}.

(** Every entry record is stored under the hash of its name. *)
Definition dir_wf (m : gmap BafsKey (list Z)) : Prop :=
  forall k v, m !! k = Some v -> item_type k = ITEM_TYPE_DIRECTORY_ENTRY ->
    exists e, v = serialise_dir_entry_to_bytes e /\ entry_ok e
      /\ offset k = xxhash64_with_seed_zero (filename e).

(** The entry a directory has for a name. *)
Definition dir_lookup (m : gmap BafsKey (list Z)) (parent : Z) (name : list Z) : option BafsDirEntry :=
  match m !! make_directory_entry_key parent name with
  | None => None
  | Some v =>
      match deserialise_dir_entry_from_bytes v with
      | Ok e => if decide (filename e = name) then Some e else None
      | _ => None
      end
  end.

Lemma length_serialise_entry e : len (serialise_dir_entry_to_bytes e) = 12 + len (filename e).
Proof. unfold serialise_dir_entry_to_bytes. autorewrite with len. lia. Qed.

Lemma deserialise_serialise_entry e :
  entry_ok e -> deserialise_dir_entry_from_bytes (serialise_dir_entry_to_bytes e) = Ok e.
Proof.
  intros [Hn Ht Hs Hl Hnl]. unfold deserialise_dir_entry_from_bytes. rewrite length_serialise_entry.
  destruct (Z.ltb_spec (12 + len (filename e)) 12); [lia|]. unfold serialise_dir_entry_to_bytes.
  rewrite get_le_bytes_prefix by (done || ilia). cbn [obind].
  rewrite (get_byte_app (le_bytes 8 _)) by by rewrite length_le_bytes. cbn [obind].
  rewrite (app_assoc (le_bytes 8 _)), (get_byte_app (le_bytes 8 _ ++ _)) by by autorewrite with len.
  cbn [obind]. rewrite Hnl. destruct (Z.ltb_spec (12 + len (filename e)) (12 + len (filename e))); [lia|].
  replace ((le_bytes 8 (child_inode_number e) ++ [child_type e]) ++ [len (filename e)] ++ [0; 0] ++ filename e)
    with ((le_bytes 8 (child_inode_number e) ++ [child_type e] ++ [len (filename e)] ++ [0; 0]) ++ filename e ++ [])
    by (by rewrite app_nil_r, <- !app_assoc).
  rewrite get_slice_app by (autorewrite with len; lia). cbn [obind].
  rewrite from_utf8_lossy_str by done. destruct e; simpl in *. by rewrite Hnl.
Qed.

Lemma serialise_entry_inj e e' :
  entry_ok e -> entry_ok e' -> serialise_dir_entry_to_bytes e = serialise_dir_entry_to_bytes e' -> e = e'.
Proof.
  intros He He' E. apply (f_equal deserialise_dir_entry_from_bytes) in E.
  rewrite !deserialise_serialise_entry in E by done. by apply Ok_inj in E.
Qed.

Lemma serialise_entry_value_ok e : entry_ok e -> value_ok (serialise_dir_entry_to_bytes e).
Proof.
  intros [Hn Ht Hs Hl Hnl]. split; [|rewrite length_serialise_entry; unfold VALUE_MAX; lia].
  unfold serialise_dir_entry_to_bytes. rewrite !bytes_ok_app. rewrite Hnl.
  repeat split; auto using is_str_bytes with bytes; repeat constructor; ilia.
Qed.

Lemma dir_key_wf p h : 1 <= p < 2 ^ 64 -> is_u64 h -> key_wf (BafsKey_new p ITEM_TYPE_DIRECTORY_ENTRY h).
Proof. intros. repeat split; simpl; unfold ITEM_TYPE_DIRECTORY_ENTRY; ilia. Qed.

Lemma above_root_key p t h : 1 <= p -> 1 < t -> key_le root_inode_key (BafsKey_new p t h).
Proof. intros. apply key_nlt_le. rewrite key_lt_lex. simpl. unfold BAFS_ROOT_INODE_NUMBER, ITEM_TYPE_INODE. lia. Qed.

Lemma make_key_allowed p name : 1 <= p < 2 ^ 64 -> key_allowed inode_tree (make_directory_entry_key p name).
Proof.
  intros Hp. pose proof (dir_key_wf p _ Hp (xxhash64_u64 name)). split; [done|]. split; [|done].
  apply above_root_key; [lia|done].
Qed.

Lemma dir_scan_allowed p h h' :
  1 <= p < 2 ^ 64 -> is_u64 h ->
  scan_allowed inode_tree (BafsKey_new p ITEM_TYPE_DIRECTORY_ENTRY h) (BafsKey_new p ITEM_TYPE_DIRECTORY_ENTRY h').
Proof.
  intros Hp Hh. split; [by apply dir_key_wf|]. by left. Qed.

Lemma range_of_point m k items :
  range_of m k k items ->
  items = match m !! k with Some v => [BafsLeafItem_new k v] | None => [] end.
Proof.
  intros Hr. apply (range_of_unique m k k); [done|]. destruct (m !! k) as [v|] eqn:Hk.
  - split; [repeat constructor|]. intros k' v'. rewrite list_elem_of_singleton. split.
    + intros [= -> ->]. split; [done|]. split; apply key_le_refl.
    + intros (Hm & H1 & H2). assert (k' = k) as -> by key_order. by simplify_eq.
  - split; [constructor|]. intros k' v'. rewrite elem_of_nil. split; [done|].
    intros (Hm & H1 & H2). assert (k' = k) as -> by key_order. congruence.
Qed.

(** Entries of other names stay, an entry of the same hash is replaced. *)
Lemma dir_lookup_insert_eq m p e :
  entry_ok e ->
  dir_lookup (<[make_directory_entry_key p (filename e) := serialise_dir_entry_to_bytes e]> m) p (filename e) = Some e.
Proof.
  intros He. unfold dir_lookup. rewrite lookup_insert_eq, deserialise_serialise_entry by done.
  by rewrite decide_True.
Qed.

Lemma dir_lookup_insert_collision m p e name :
  entry_ok e -> name <> filename e ->
  xxhash64_with_seed_zero name = xxhash64_with_seed_zero (filename e) ->
  dir_lookup (<[make_directory_entry_key p (filename e) := serialise_dir_entry_to_bytes e]> m) p name = None.
Proof.
  intros He Hne Hh. unfold dir_lookup, make_directory_entry_key. rewrite Hh, lookup_insert_eq.
  rewrite deserialise_serialise_entry by done. by rewrite decide_False.
Qed.

Lemma dir_lookup_insert_ne m k v p name :
  k <> make_directory_entry_key p name -> dir_lookup (<[k := v]> m) p name = dir_lookup m p name.
Proof. intros. unfold dir_lookup. by rewrite lookup_insert_ne. Qed.

Lemma dir_lookup_delete_ne m k p name :
  k <> make_directory_entry_key p name -> dir_lookup (delete k m) p name = dir_lookup m p name.
Proof. intros. unfold dir_lookup. by rewrite lookup_delete_ne. Qed.

Lemma dir_lookup_delete_eq m p name : dir_lookup (delete (make_directory_entry_key p name) m) p name = None.
Proof. unfold dir_lookup. by rewrite lookup_delete_eq. Qed.

Lemma dir_lookup_Some m p name e :
  dir_wf m -> dir_lookup m p name = Some e ->
  m !! make_directory_entry_key p name = Some (serialise_dir_entry_to_bytes e) /\ entry_ok e /\ filename e = name.
Proof.
  intros Hwf. unfold dir_lookup. destruct (m !! _) as [v|] eqn:Hv; [|done].
  destruct (Hwf _ _ Hv) as (e' & -> & He & Hh); [done|]. rewrite deserialise_serialise_entry by done.
  case_decide; [|done]. by intros [= ->].
Qed.

Lemma dir_wf_insert_entry m p e :
  dir_wf m -> entry_ok e ->
  dir_wf (<[make_directory_entry_key p (filename e) := serialise_dir_entry_to_bytes e]> m).
Proof.
  intros Hwf He k v [[<- <-]|[_ Hk]]%lookup_insert_Some Ht; [|by apply (Hwf k v)]. by exists e.
Qed.

Lemma dir_wf_insert_other m k v : dir_wf m -> item_type k <> ITEM_TYPE_DIRECTORY_ENTRY -> dir_wf (<[k := v]> m).
Proof. intros Hwf Hk k' v' [[<- <-]|[_ Hk']]%lookup_insert_Some Ht; [done|]. by apply (Hwf k' v'). Qed.

Lemma dir_wf_delete m k : dir_wf m -> dir_wf (delete k m).
Proof. intros Hwf k' v' [_ Hk']%lookup_delete_Some Ht. by apply (Hwf k' v'). Qed.

Section laws.
Context {D : Type} `{BlockDevice D} `{!TreeStore D}.

Lemma directory_lookup_correct d c root m fp p name :
  tree_rep inode_tree d c root m fp -> room c 0 -> dir_wf m -> 1 <= p < 2 ^ 64 ->
  directory_lookup_entry d (dirty_cache c) root p name = Ok (dir_lookup m p name).
Proof.
  intros Hr Hroom Hwf Hp. unfold directory_lookup_entry. pose proof (xxhash64_u64 name) as Hh.
  destruct (tree_range _ _ _ _ _ _ _ _ Hr Hroom (dir_scan_allowed p _ (xxhash64_with_seed_zero name) Hp Hh))
    as (items & -> & Hrange).
  cbn [obind]. rewrite (range_of_point _ _ _ Hrange). unfold dir_lookup, make_directory_entry_key.
  destruct (m !! _) as [v|] eqn:Hv; [|done]. destruct (Hwf _ _ Hv) as (e & -> & He & _); [done|].
  cbn [find_entry li_value]. rewrite deserialise_serialise_entry by done. cbn [obind].
  by case_decide.
Qed.

(** The entry [directory_create_entry] builds. *)
Definition new_entry (name : list Z) (child type : Z) : BafsDirEntry :=
  {| child_inode_number := child; child_type := type; name_length_bytes := wrap 8 (len name); filename := name |}.

Lemma new_entry_ok name child type :
  is_str name -> 1 <= len name <= 255 -> is_u64 child -> is_u8 type -> entry_ok (new_entry name child type).
Proof. intros. split; try done. simpl. apply wrap_small. lia. Qed.

Lemma directory_create_correct d c root m fp p name child type g :
  tree_rep inode_tree d c root m fp -> dir_wf m -> 1 <= p < 2 ^ 64 -> is_str name -> is_u64 child ->
  is_u8 type -> is_u64 g -> room c INSERT_BLOCKS ->
  if decide (1 <= len name <= 255) then
    match dir_lookup m p name with
    | Some _ => directory_create_entry d root p name child type g c = (c, Err AlreadyExists)
    | None => exists c' root' fp' fr, directory_create_entry d root p name child type g c = (c', Ok root')
        /\ tree_updated inode_tree d c fp INSERT_BLOCKS c' root'
             (<[make_directory_entry_key p name := serialise_dir_entry_to_bytes (new_entry name child type)]> m) fp' fr
    end
  else directory_create_entry d root p name child type g c = (c, Err InvalidArgument).
Proof.
  intros Hr Hwf Hp Hs Hc Ht Hg Hroom. unfold directory_create_entry.
  assert (room c 0) as Hroom0 by (eapply room_mono; [exact Hroom|unfold INSERT_BLOCKS; lia]).
  destruct (decide (1 <= len name <= 255)) as [Hl|Hl]; cycle 1.
  { destruct (Z.eqb_spec (len name) 0); [done|]. destruct (Z.ltb_spec 255 (len name)); [done|lia]. }
  destruct (Z.eqb_spec (len name) 0); [lia|]. destruct (Z.ltb_spec 255 (len name)); [lia|]. cbn [orb].
  rewrite (st_bind_Ok _ _ c c c) by done.
  rewrite (st_bind_lift _ _ _ _ (directory_lookup_correct d c root m fp p name Hr
    Hroom0 Hwf Hp)).
  destruct (dir_lookup m p name); [done|].
  eapply tree_insert_updated; [exact Hr|by apply make_key_allowed| |done|done].
  by apply serialise_entry_value_ok, new_entry_ok.
Qed.

Lemma directory_unlink_correct d c root m fp p name g :
  tree_rep inode_tree d c root m fp -> dir_wf m -> 1 <= p < 2 ^ 64 -> is_u64 g -> room c DELETE_BLOCKS ->
  match dir_lookup m p name with
  | None => directory_unlink_entry d root p name g c = (c, Err NotFound)
  | Some _ => exists c' root' fp' fr, directory_unlink_entry d root p name g c = (c', Ok root')
      /\ tree_updated inode_tree d c fp DELETE_BLOCKS c' root' (delete (make_directory_entry_key p name) m) fp' fr
  end.
Proof.
  intros Hr Hwf Hp Hg Hroom. unfold directory_unlink_entry.
  assert (room c 0) as Hroom0 by (eapply room_mono; [exact Hroom|unfold DELETE_BLOCKS; lia]).
  rewrite (st_bind_Ok _ _ c c c) by done.
  rewrite (st_bind_lift _ _ _ _ (directory_lookup_correct d c root m fp p name Hr
    Hroom0 Hwf Hp)).
  destruct (dir_lookup m p name) as [e|] eqn:He; [|done]. apply dir_lookup_Some in He as (Hm & _ & _); [|done].
  eapply tree_delete_updated; [exact Hr|by apply make_key_allowed|by intros [=]|done|done|by rewrite Hm].
Qed.
End laws.

(** ** Listings *)

Definition item_entry (p : Z) (it : BafsLeafItem) (e : BafsDirEntry) : Prop :=
  li_value it = serialise_dir_entry_to_bytes e /\ entry_ok e
  /\ li_key it = make_directory_entry_key p (filename e).

Abbreviation dir_range m p items :=
  (range_of m (BafsKey_new p ITEM_TYPE_DIRECTORY_ENTRY 0)
     (BafsKey_new p ITEM_TYPE_DIRECTORY_ENTRY (2 ^ 64 - 1)) items).

Lemma dir_range_key p k :
  key_le (BafsKey_new p ITEM_TYPE_DIRECTORY_ENTRY 0) k ->
  key_le k (BafsKey_new p ITEM_TYPE_DIRECTORY_ENTRY (2 ^ 64 - 1)) ->
  object_id k = p /\ item_type k = ITEM_TYPE_DIRECTORY_ENTRY.
Proof.
  intros H1 H2. rewrite key_le_lteq, key_lt_lex in H1, H2.
  destruct H1 as [H1| <-]; [|done]. destruct H2 as [H2| ->]; [|done]. simpl in H1, H2. lia.
Qed.

Lemma dir_range_bounds p name :
  key_le (BafsKey_new p ITEM_TYPE_DIRECTORY_ENTRY 0) (make_directory_entry_key p name)
  /\ key_le (make_directory_entry_key p name) (BafsKey_new p ITEM_TYPE_DIRECTORY_ENTRY (2 ^ 64 - 1)).
Proof.
  pose proof (xxhash64_u64 name). split; apply key_nlt_le; rewrite key_lt_lex; simpl; ilia.
Qed.

Lemma dir_range_entries m p items :
  dir_wf m -> dir_range m p items -> Forall (fun it => exists e, item_entry p it e) items.
Proof.
  intros Hwf [_ Hin]. apply Forall_forall. intros [k v] Hit. apply Hin in Hit as (Hm & H1 & H2).
  destruct (dir_range_key p k H1 H2) as [Hp Ht]. destruct (Hwf k v Hm Ht) as (e & -> & He & Hh).
  exists e. split; [done|]. split; [done|]. destruct k. simpl in *. by subst.
Qed.

Lemma deserialise_entries_correct p items :
  Forall (fun it => exists e, item_entry p it e) items ->
  exists entries, deserialise_entries items = Ok entries /\ Forall2 (item_entry p) items entries.
Proof.
  induction 1 as [|it items (e & He) _ (entries & IH & Hall)]; [by exists []|].
  exists (e :: entries). split; [|by constructor]. pose proof He as (Hv & Hok & _). cbn [deserialise_entries].
  rewrite Hv, deserialise_serialise_entry by done. cbn [obind]. by rewrite IH.
Qed.

Definition name_hash (e : BafsDirEntry) : Z := xxhash64_with_seed_zero (filename e).

Lemma item_entry_sorted p items entries :
  items_sorted items -> Forall2 (item_entry p) items entries -> StronglySorted Z.lt (name_hash <$> entries).
Proof.
  intros Hs Hall. revert Hs. unfold items_sorted.
  induction Hall as [|it e items entries (_ & _ & Hk) Hall IH]; csimpl; [constructor|].
  intros [Hs Hlt]%StronglySorted_inv. constructor; [auto|]. clear IH Hs. revert Hlt.
  induction Hall as [|it' e' items entries (_ & _ & Hk') _ IH]; csimpl; [constructor|].
  intros [H1 H2]%Forall_cons. constructor; [|auto]. rewrite Hk, Hk', key_lt_lex in H1. simpl in H1.
  unfold name_hash. lia.
Qed.

(** The entries of a directory, in the order of their hashes. *)
Definition listing_of (m : gmap BafsKey (list Z)) (p : Z) (entries : list BafsDirEntry) : Prop :=
  StronglySorted Z.lt (name_hash <$> entries)
  /\ forall e, e ∈ entries <-> dir_lookup m p (filename e) = Some e.

Lemma dir_range_listing m p items entries :
  dir_wf m -> dir_range m p items -> Forall2 (item_entry p) items entries -> listing_of m p entries.
Proof.
  intros Hwf Hr Hall. pose proof Hr as [Hs Hin]. split; [by eapply item_entry_sorted|]. intros e. split.
  - intros He. apply list_elem_of_lookup in He as [i Hi].
    destruct (Forall2_lookup_r _ _ _ _ _ Hall Hi) as (it & Hit & Hv & Hok & Hk).
    apply list_elem_of_lookup_2 in Hit. destruct it as [k v]. simpl in *. subst k v.
    apply Hin in Hit as (Hm & _). unfold dir_lookup. rewrite Hm, deserialise_serialise_entry by done.
    by rewrite decide_True.
  - intros He. apply dir_lookup_Some in He as (Hm & Hok & _); [|done].
    assert (BafsLeafItem_new (make_directory_entry_key p (filename e)) (serialise_dir_entry_to_bytes e) ∈ items)
      as Hit by (apply Hin; split; [done|apply dir_range_bounds]).
    apply list_elem_of_lookup in Hit as [i Hi].
    destruct (Forall2_lookup_l _ _ _ _ _ Hall Hi) as (e' & Hi' & Hv & Hok' & _). simpl in Hv.
    apply serialise_entry_inj in Hv as ->; [|done..]. by apply list_elem_of_lookup_2 in Hi'.
Qed.

Section listings.
Context {D : Type} `{BlockDevice D} `{!TreeStore D}.

Lemma directory_items_correct d c root m fp p :
  tree_rep inode_tree d c root m fp -> room c 0 -> 1 <= p < 2 ^ 64 ->
  exists items, directory_items d (dirty_cache c) root p = Ok items /\ dir_range m p items.
Proof.
  intros Hr Hroom Hp. apply (tree_range _ _ _ _ _ _ _ _ Hr Hroom). apply dir_scan_allowed; [done|ilia].
Qed.

Lemma directory_list_correct d c root m fp p :
  tree_rep inode_tree d c root m fp -> room c 0 -> dir_wf m -> 1 <= p < 2 ^ 64 ->
  exists entries, directory_list_all_entries d (dirty_cache c) root p = Ok entries
    /\ listing_of m p entries
    /\ forall i, directory_iterate d (dirty_cache c) root p i = Ok (entries !! i).
Proof.
  intros Hr Hroom Hwf Hp. destruct (directory_items_correct d c root m fp p Hr Hroom Hp) as (items & E & Hrange).
  destruct (deserialise_entries_correct p items (dir_range_entries m p items Hwf Hrange)) as (entries & E' & Hall).
  exists entries. unfold directory_list_all_entries, directory_iterate. rewrite E. cbn [obind].
  split; [done|]. split; [by eapply dir_range_listing|]. intros i.
  destruct (items !! i) as [it|] eqn:Hi.
  - destruct (Forall2_lookup_l _ _ _ _ _ Hall Hi) as (e & He & Hv & Hok & _). rewrite Hv, He.
    by rewrite deserialise_serialise_entry.
  - apply lookup_ge_None in Hi. rewrite (Forall2_length _ _ _ Hall) in Hi.
    by rewrite (proj2 (lookup_ge_None entries i)).
Qed.
End listings.

(** ** Properties *)

Section properties.
Context {D : Type} `{BlockDevice D} `{!TreeStore D}.

(** C16: [directory_create_entry] rejects names that are empty, longer than 255 bytes
    or present, changing nothing; otherwise the name is found afterwards with the
    child it was created for, and every name with another hash, in this or another
    directory, is looked up as before. *)
Theorem directory_create_then_lookup (d : D) c root m fp p name child type g :
  tree_rep inode_tree d c root m fp -> dir_wf m -> 1 <= p < 2 ^ 64 -> is_str name -> is_u64 child ->
  is_u8 type -> is_u64 g -> room c INSERT_BLOCKS ->
  if decide (1 <= len name <= 255) then
    match directory_lookup_entry d (dirty_cache c) root p name with
    | Ok (Some _) => directory_create_entry d root p name child type g c = (c, Err AlreadyExists)
    | _ => exists c' root', directory_create_entry d root p name child type g c = (c', Ok root')
        /\ directory_lookup_entry d (dirty_cache c') root' p name = Ok (Some (new_entry name child type))
        /\ forall p' name', 1 <= p' < 2 ^ 64 ->
             p' <> p \/ xxhash64_with_seed_zero name' <> xxhash64_with_seed_zero name ->
             directory_lookup_entry d (dirty_cache c') root' p' name'
             = directory_lookup_entry d (dirty_cache c) root p' name'
    end
  else directory_create_entry d root p name child type g c = (c, Err InvalidArgument).
Proof.
  intros Hr Hwf Hp Hs Hc Ht Hg Hroom.
  assert (room c 0) as Hroom0 by (eapply room_mono; [exact Hroom|unfold INSERT_BLOCKS; lia]).
  pose proof (directory_create_correct d c root m fp p name child type g Hr Hwf Hp Hs Hc Ht Hg Hroom) as Hcr.
  destruct (decide (1 <= len name <= 255)) as [Hl|]; [|done].
  rewrite (directory_lookup_correct d c root m fp p name Hr Hroom0 Hwf Hp).
  destruct (dir_lookup m p name); [done|]. destruct Hcr as (c' & root' & fp' & fr & E & [X N _ R]).
  pose proof (ext_next _ _ _ X). assert (room c' 0) as Hroom' by (unfold room in *; lia).
  pose proof (new_entry_ok name child type Hs Hl Hc Ht) as He.
  pose proof (dir_wf_insert_entry m p _ Hwf He) as Hwf'.
  exists c', root'. split; [done|]. split.
  - rewrite (directory_lookup_correct d c' root' _ fp' p name R Hroom' Hwf' Hp).
    exact (f_equal Ok (dir_lookup_insert_eq m p (new_entry name child type) He)).
  - intros p' name' Hp' Hne. rewrite (directory_lookup_correct d c' root' _ fp' p' name' R Hroom' Hwf' Hp').
    rewrite (directory_lookup_correct d c root m fp p' name' Hr Hroom0 Hwf Hp').
    rewrite dir_lookup_insert_ne; [done|]. intros [= ? ?]. by destruct Hne.
Qed.

(** C38: creating an entry whose name has the hash of another name of the directory
    succeeds and makes that other entry disappear. *)
Theorem colliding_name_replaces_entry (d : D) c root m fp p name other child type g :
  tree_rep inode_tree d c root m fp -> dir_wf m -> 1 <= p < 2 ^ 64 -> is_str name -> is_u64 child ->
  is_u8 type -> is_u64 g -> room c INSERT_BLOCKS -> 1 <= len name <= 255 ->
  name <> other -> xxhash64_with_seed_zero other = xxhash64_with_seed_zero name ->
  is_Some (dir_lookup m p other) ->
  exists c' root', directory_create_entry d root p name child type g c = (c', Ok root')
    /\ directory_lookup_entry d (dirty_cache c') root' p other = Ok None.
Proof.
  intros Hr Hwf Hp Hs Hc Ht Hg Hroom Hl Hne Hh [eo Ho].
  pose proof (directory_create_correct d c root m fp p name child type g Hr Hwf Hp Hs Hc Ht Hg Hroom) as Hcr.
  rewrite decide_True in Hcr by done. destruct (dir_lookup m p name) as [e|] eqn:He.
  { apply dir_lookup_Some in He as (Hk & He & Hf), Ho as (Hk' & Ho & Hf'); [|done..].
    unfold make_directory_entry_key in *. rewrite Hh, Hk in Hk'.
    apply (inj Some), serialise_entry_inj in Hk'; [congruence|done..]. }
  destruct Hcr as (c' & root' & fp' & fr & E & [X N _ R]). pose proof (ext_next _ _ _ X).
  pose proof (new_entry_ok name child type Hs Hl Hc Ht) as Hok.
  exists c', root'. split; [done|].
  rewrite (directory_lookup_correct d c' root' _ fp' p other R); [|unfold room in *; lia|by apply (dir_wf_insert_entry m p (new_entry name child type))|done].
  f_equal. by apply (dir_lookup_insert_collision m p (new_entry name child type)).
Qed.

(** [directory_unlink_entry] reports [NotFound] for an absent name, changing
    nothing; otherwise the name is gone afterwards and every name with another
    hash, in this or another directory, is looked up as before. *)
Theorem directory_unlink_then_lookup (d : D) c root m fp p name g :
  tree_rep inode_tree d c root m fp -> dir_wf m -> 1 <= p < 2 ^ 64 -> is_u64 g -> room c DELETE_BLOCKS ->
  match directory_lookup_entry d (dirty_cache c) root p name with
  | Ok (Some _) => exists c' root', directory_unlink_entry d root p name g c = (c', Ok root')
      /\ directory_lookup_entry d (dirty_cache c') root' p name = Ok None
      /\ forall p' name', 1 <= p' < 2 ^ 64 ->
           p' <> p \/ xxhash64_with_seed_zero name' <> xxhash64_with_seed_zero name ->
           directory_lookup_entry d (dirty_cache c') root' p' name'
           = directory_lookup_entry d (dirty_cache c) root p' name'
  | _ => directory_unlink_entry d root p name g c = (c, Err NotFound)
  end.
Proof.
  intros Hr Hwf Hp Hg Hroom.
  assert (room c 0) as Hroom0 by (eapply room_mono; [exact Hroom|unfold DELETE_BLOCKS; lia]).
  pose proof (directory_unlink_correct d c root m fp p name g Hr Hwf Hp Hg Hroom) as Hun.
  rewrite (directory_lookup_correct d c root m fp p name Hr Hroom0 Hwf Hp).
  destruct (dir_lookup m p name); [|done]. destruct Hun as (c' & root' & fp' & fr & E & [X N _ R]).
  pose proof (ext_next _ _ _ X). assert (room c' 0) as Hroom' by (unfold room in *; lia).
  pose proof (dir_wf_delete m (make_directory_entry_key p name) Hwf) as Hwf'.
  exists c', root'. split; [done|]. split.
  - rewrite (directory_lookup_correct d c' root' _ fp' p name R Hroom' Hwf' Hp).
    by rewrite dir_lookup_delete_eq.
  - intros p' name' Hp' Hne. rewrite (directory_lookup_correct d c' root' _ fp' p' name' R Hroom' Hwf' Hp').
    rewrite (directory_lookup_correct d c root m fp p' name' Hr Hroom0 Hwf Hp').
    rewrite dir_lookup_delete_ne; [done|]. intros [= ? ?]. by destruct Hne.
Qed.

(** C17: [directory_list_all_entries] returns exactly the entries that lookups find,
    each once, in ascending order of their hashes, and [directory_iterate] returns
    them by position. *)
Theorem directory_listing_complete (d : D) c root m fp p :
  tree_rep inode_tree d c root m fp -> room c 0 -> dir_wf m -> 1 <= p < 2 ^ 64 ->
  exists entries, directory_list_all_entries d (dirty_cache c) root p = Ok entries
    /\ StronglySorted Z.lt (name_hash <$> entries)
    /\ (forall e, e ∈ entries <-> directory_lookup_entry d (dirty_cache c) root p (filename e) = Ok (Some e))
    /\ forall i, directory_iterate d (dirty_cache c) root p i = Ok (entries !! i).
Proof.
  intros Hr Hroom Hwf Hp. destruct (directory_list_correct d c root m fp p Hr Hroom Hwf Hp)
    as (entries & E & [Hs Hin] & Hit).
  exists entries. do 2 (split; [done|]). split; [|done]. intros e.
  rewrite Hin, (directory_lookup_correct d c root m fp p (filename e) Hr Hroom Hwf Hp). split; congruence.
Qed.
End properties.

(** *** Witnesses *)

Lemma formatted_lookup k v : formatted_map !! k = Some v -> k = root_inode_key.
Proof.
  unfold formatted_map. rewrite items_map_lookup. unfold items_get.
  destruct (decide (li_key (BafsLeafItem_new root_inode_key (serialise_inode_to_bytes root_inode)) = k)) as [E|E];
    [done|]. by rewrite filter_cons_False.
Qed.

Lemma formatted_dir_wf : dir_wf formatted_map.
Proof. by intros k v -> %formatted_lookup Ht. Qed.

Lemma formatted_dir_empty p name : dir_lookup formatted_map p name = None.
Proof.
  unfold dir_lookup. destruct (formatted_map !! _) eqn:Hk; [|done]. by apply formatted_lookup in Hk.
Qed.

Lemma collision_str : is_str collision_1 /\ is_str collision_2.
Proof. split; apply ascii_is_str; repeat constructor; lia. Qed.

Lemma formatted_tree : tree_rep inode_tree no_disk formatted_cow 300 formatted_map [300].
Proof. exact formatted_rep. Qed.

(** A directory that holds the first of the colliding names. *)
Lemma example_directory : exists c root m fp,
  tree_rep inode_tree no_disk c root m fp /\ room c 1000 /\ dir_wf m
  /\ dir_lookup m 1 collision_1 = Some (new_entry collision_1 2 CHILD_TYPE_REGULAR_FILE).
Proof.
  pose proof formatted_tree as Hr.
  destruct collision_str as [Hs _].
  pose proof (directory_create_correct no_disk formatted_cow 300 formatted_map [300] 1 collision_1 2
    CHILD_TYPE_REGULAR_FILE 1 Hr formatted_dir_wf ltac:(lia) Hs ltac:(ilia) ltac:(unfold CHILD_TYPE_REGULAR_FILE; ilia)
    ltac:(ilia) ltac:(unfold room, INSERT_BLOCKS; simpl; lia)) as Hcr.
  rewrite decide_True in Hcr by (simpl; lia).
  rewrite formatted_dir_empty in Hcr. destruct Hcr as (c & root & fp & fr & _ & [X N _ R]). pose proof (ext_next _ _ _ X).
  exists c, root. eexists _, fp. split; [exact R|]. unfold INSERT_BLOCKS in N.
  change (next_free_block formatted_cow) with 301 in *.
  pose proof (new_entry_ok collision_1 2 CHILD_TYPE_REGULAR_FILE Hs ltac:(simpl; lia) ltac:(ilia)
    ltac:(unfold CHILD_TYPE_REGULAR_FILE; ilia)) as Hok.
  split; [unfold room; lia|]. split.
  - apply (dir_wf_insert_entry _ 1 (new_entry collision_1 2 CHILD_TYPE_REGULAR_FILE) formatted_dir_wf Hok).
  - apply (dir_lookup_insert_eq _ 1 (new_entry collision_1 2 CHILD_TYPE_REGULAR_FILE) Hok).
Qed.

Lemma directory_create_then_lookup_witness :
  exists c' root', directory_create_entry no_disk 300 1 collision_1 2 CHILD_TYPE_REGULAR_FILE 1 formatted_cow
                   = (c', Ok root')
    /\ directory_lookup_entry no_disk (dirty_cache c') root' 1 collision_1
       = Ok (Some (new_entry collision_1 2 CHILD_TYPE_REGULAR_FILE)).
Proof.
  pose proof (directory_create_then_lookup no_disk formatted_cow 300 formatted_map [300] 1 collision_1 2
    CHILD_TYPE_REGULAR_FILE 1 formatted_tree formatted_dir_wf ltac:(lia) (proj1 collision_str) ltac:(ilia)
    ltac:(unfold CHILD_TYPE_REGULAR_FILE; ilia) ltac:(ilia) ltac:(unfold room, INSERT_BLOCKS; simpl; lia)) as Hc.
  rewrite decide_True in Hc by (simpl; lia).
  rewrite (directory_lookup_correct no_disk formatted_cow 300 formatted_map [300] 1 collision_1 formatted_tree
    ltac:(unfold room; simpl; lia) formatted_dir_wf ltac:(lia)) in Hc.
  rewrite formatted_dir_empty in Hc. destruct Hc as (c' & root' & E & Hl & _). exists c', root'. split; [exact E|exact Hl].
Defined.

Lemma colliding_name_replaces_entry_witness : exists c root c' root',
  directory_lookup_entry no_disk (dirty_cache c) root 1 collision_1
    = Ok (Some (new_entry collision_1 2 CHILD_TYPE_REGULAR_FILE))
  /\ directory_create_entry no_disk root 1 collision_2 3 CHILD_TYPE_REGULAR_FILE 1 c = (c', Ok root')
  /\ directory_lookup_entry no_disk (dirty_cache c') root' 1 collision_1 = Ok None.
Proof.
  destruct example_directory as (c & root & m & fp & Hr & Hroom & Hwf & Hd). exists c, root.
  destruct (colliding_name_replaces_entry no_disk c root m fp 1 collision_2 collision_1 3 CHILD_TYPE_REGULAR_FILE 1)
    as (c' & root' & E & Hl).
  - exact Hr.
  - exact Hwf.
  - lia.
  - apply collision_str.
  - ilia.
  - unfold CHILD_TYPE_REGULAR_FILE. ilia.
  - ilia.
  - eapply room_mono; [exact Hroom|unfold INSERT_BLOCKS; lia].
  - simpl. lia.
  - discriminate.
  - vm_compute. reflexivity.
  - rewrite Hd. eauto.
  - exists c', root'. split; [|by split].
    rewrite (directory_lookup_correct no_disk c root m fp 1 collision_1 Hr); [by rewrite Hd|unfold room in *; lia|done|lia].
Defined.

Lemma directory_unlink_then_lookup_witness : exists c root c' root',
  directory_unlink_entry no_disk root 1 collision_1 1 c = (c', Ok root')
  /\ directory_lookup_entry no_disk (dirty_cache c') root' 1 collision_1 = Ok None.
Proof.
  destruct example_directory as (c & root & m & fp & Hr & Hroom & Hwf & Hd). exists c, root.
  pose proof (directory_unlink_then_lookup no_disk c root m fp 1 collision_1 1 Hr Hwf ltac:(lia) ltac:(ilia)
    ltac:(eapply room_mono; [exact Hroom|unfold DELETE_BLOCKS; lia])) as Hu.
  rewrite (directory_lookup_correct no_disk c root m fp 1 collision_1 Hr), Hd in Hu;
    [|unfold room in *; lia|done|lia].
  destruct Hu as (c' & root' & E & Hl & _). exists c', root'. split; [exact E|exact Hl].
Defined.

Lemma directory_listing_complete_witness : exists c root entries,
  directory_list_all_entries no_disk (dirty_cache c) root 1 = Ok entries
  /\ new_entry collision_1 2 CHILD_TYPE_REGULAR_FILE ∈ entries.
Proof.
  destruct example_directory as (c & root & m & fp & Hr & Hroom & Hwf & Hd). exists c, root.
  destruct (directory_listing_complete no_disk c root m fp 1) as (entries & E & _ & Hin & _).
  - exact Hr.
  - unfold room in *. lia.
  - exact Hwf.
  - lia.
  - exists entries. split; [exact E|]. apply Hin.
    change (filename (new_entry collision_1 2 CHILD_TYPE_REGULAR_FILE)) with collision_1.
    rewrite (directory_lookup_correct no_disk c root m fp 1 collision_1 Hr); [by rewrite Hd|unfold room in *; lia|done|lia].
Defined.
