(* ===== verification/Journal.v ===== *)
(** * Journal: transactions and crash recovery (src/src/journal.rs)

    The commit record, the commit of a set of dirty blocks (journal, home
    locations, superblock), and recovery on mount. *)

From S2P Require Import Prelude Checksum Device Superblock.

(** b"BAFSJRNL" *)
Definition JOURNAL_COMMIT_RECORD_MAGIC : list Z := [66; 65; 70; 83; 74; 82; 78; 76].
Definition JOURNAL_COMMIT_RECORD_HEADER_SIZE_BYTES : Z := 24.

Record BafsTransaction := { transaction_id : Z }.

Definition begin_transaction (next_transaction_id : Z) : BafsTransaction :=
  {| transaction_id := next_transaction_id |}.

Definition sb_set_transaction (sb : BafsSuperblock) (id : Z) : BafsSuperblock :=
  {| sb_magic_number := sb_magic_number sb; sb_version := sb_version sb;
     sb_block_size_in_bytes := sb_block_size_in_bytes sb;
     sb_total_block_count := sb_total_block_count sb; sb_free_block_count := sb_free_block_count sb;
     sb_allocated_inode_count := sb_allocated_inode_count sb;
     sb_last_committed_transaction_id := id; sb_root_inode_number := sb_root_inode_number sb;
     sb_inode_tree_root_block := sb_inode_tree_root_block sb;
     sb_free_extent_tree_root_block := sb_free_extent_tree_root_block sb;
     sb_checksum_tree_root_block := sb_checksum_tree_root_block sb;
     sb_journal_start_block := sb_journal_start_block sb;
     sb_journal_size_in_blocks := sb_journal_size_in_blocks sb;
     sb_volume_uuid := sb_volume_uuid sb; sb_volume_label := sb_volume_label sb;
     sb_feature_flags := sb_feature_flags sb; sb_checksum_algorithm := sb_checksum_algorithm sb;
     sb_next_cow_block_address := sb_next_cow_block_address sb; sb_reserved := sb_reserved sb;
     sb_superblock_checksum := sb_superblock_checksum sb |}.

(** ** The dirty cache in iteration order: a [BTreeMap] is ordered by key *)

Definition entry_le (a b : Z * list Z) : Prop := a.1 <= b.1.
#[global] Instance entry_le_dec a b : Decision (entry_le a b) := Z_le_dec a.1 b.1.

Definition cache_entries (cache : gmap Z (list Z)) : list (Z * list Z) :=
  merge_sort entry_le (map_to_list cache).

(** ** The commit record *)

Fixpoint put_addresses (buffer : list Z) (write_cursor : Z) (block_addresses : list Z)
    : result (list Z * Z) :=
  match block_addresses with
  | [] => Ok (buffer, write_cursor)
  | address :: rest =>
      let? buffer := put_slice buffer write_cursor (le_bytes 8 address) in
      put_addresses buffer (write_cursor + 8) rest
  end.

(** [copy_from_slice] panics unless the block has exactly [block_size] bytes. *)
Fixpoint put_blocks (buffer : list Z) (write_cursor : Z) (blocks : list (list Z)) : result (list Z) :=
  match blocks with
  | [] => Ok buffer
  | block_data :: rest =>
      if negb (len block_data =? BAFS_DEFAULT_BLOCK_SIZE_BYTES) then Panic
      else
        let? buffer := put_slice buffer write_cursor block_data in
        put_blocks buffer (write_cursor + BAFS_DEFAULT_BLOCK_SIZE_BYTES) rest
  end.

Definition build_commit_record (id : Z) (entries : list (Z * list Z)) : result (list Z) :=
  let block_addresses := entries.*1 in
  let dirty_block_count := wrap 32 (len block_addresses) in
  let record_body_size :=
    JOURNAL_COMMIT_RECORD_HEADER_SIZE_BYTES + 8 * dirty_block_count
    + BAFS_DEFAULT_BLOCK_SIZE_BYTES * dirty_block_count in
  let total_record_size := record_body_size + 4 in
  let record_buffer := zeros total_record_size in
  let? record_buffer := put_slice record_buffer 0 JOURNAL_COMMIT_RECORD_MAGIC in
  let? record_buffer := put_slice record_buffer 8 (le_bytes 8 id) in
  let? record_buffer := put_slice record_buffer 16 (le_bytes 4 dirty_block_count) in
  let? (record_buffer, write_cursor) := put_addresses record_buffer 20 block_addresses in
  let? record_buffer := put_blocks record_buffer write_cursor entries.*2 in
  let? body := get_slice record_buffer 0 record_body_size in
  put_slice record_buffer record_body_size (le_bytes 4 (compute_crc32c body)).

Section commit.
Context `{BlockDevice D}.

(** The loop of [write_bytes_to_journal] over what is left of the data. *)
Fixpoint write_journal_chunks (fuel : nat) (data : list Z) (current_block : Z) : ST D BafsError unit :=
  match data, fuel with
  | [], _ => st_ret tt
  | _, O => st_lift OutOfFuel
  | _, S fuel =>
      let chunk := take (Z.to_nat BAFS_DEFAULT_BLOCK_SIZE_BYTES) data in
      let! block_buffer := st_lift (put_slice (zeros BAFS_DEFAULT_BLOCK_SIZE_BYTES) 0 chunk) in
      let! _ := device_write_block current_block block_buffer in
      let! next_block := st_lift (checked_add 64 current_block 1) in
      write_journal_chunks fuel (drop (Z.to_nat BAFS_DEFAULT_BLOCK_SIZE_BYTES) data) next_block
  end.

Definition write_bytes_to_journal (superblock : BafsSuperblock) (data : list Z) : ST D BafsError unit :=
  let! journal_capacity_bytes :=
    st_lift (checked_mul 64 (sb_journal_size_in_blocks superblock) BAFS_DEFAULT_BLOCK_SIZE_BYTES) in
  if journal_capacity_bytes <? len data then st_err OutOfSpace
  else
    write_journal_chunks (S (Z.to_nat (len data / BAFS_DEFAULT_BLOCK_SIZE_BYTES))) data
      (sb_journal_start_block superblock).

(** Each block to its home location. *)
Fixpoint write_blocks_home (entries : list (Z * list Z)) : ST D BafsError unit :=
  match entries with
  | [] => st_ret tt
  | (block_address, block_data) :: rest =>
      let! _ := device_write_block block_address block_data in
      write_blocks_home rest
  end.

(** Run on the device of the pair. *)
Definition on_device_part {A} (m : ST D BafsError A) : ST (D * BafsSuperblock) BafsError A :=
  st_zoom fst (fun s device => (device, s.2)) m.

(** The state is the device and the caller's [&mut superblock]. *)
Definition commit_transaction (transaction : BafsTransaction) (cache : gmap Z (list Z))
    : ST (D * BafsSuperblock) BafsError unit :=
  let set_id := st_modify (fun '(device, superblock) =>
                  (device, sb_set_transaction superblock (transaction_id transaction))) in
  if decide (cache = ∅) then
    let! _ := set_id in
    write_superblock_to_device
  else
    let entries := cache_entries cache in
    let! record_buffer := st_lift (build_commit_record (transaction_id transaction) entries) in
    let! (_, superblock) := st_get in
    let! _ := on_device_part (write_bytes_to_journal superblock record_buffer) in
    let! _ := on_device_part (write_blocks_home entries) in
    let! _ := set_id in
    write_superblock_to_device.
End commit.

(** ** Recovery *)

Fixpoint get_addresses (count : nat) (buffer : list Z) (read_cursor : Z) : result (list Z * Z) :=
  match count with
  | O => Ok ([], read_cursor)
  | S count =>
      let? address := get_le buffer read_cursor 8 in
      let? (addresses, cursor) := get_addresses count buffer (read_cursor + 8) in
      Ok (address :: addresses, cursor)
  end.

(** What recovery finds in the journal area: nothing to replay, or a record with
    its transaction, its addresses and the position of its first block. *)
Definition parse_journal (journal_buffer : list Z) (last_committed : Z)
    : result (option (Z * list Z * Z)) :=
  if len journal_buffer <? JOURNAL_COMMIT_RECORD_HEADER_SIZE_BYTES then Ok None
  else
    let? magic := get_slice journal_buffer 0 8 in
    if negb (bool_decide (magic = JOURNAL_COMMIT_RECORD_MAGIC)) then Ok None
    else
      let? journal_transaction_id := get_le journal_buffer 8 8 in
      if journal_transaction_id <=? last_committed then Ok None
      else
        let? dirty_block_count := get_le journal_buffer 16 4 in
        let record_body_size :=
          JOURNAL_COMMIT_RECORD_HEADER_SIZE_BYTES + 8 * dirty_block_count
          + BAFS_DEFAULT_BLOCK_SIZE_BYTES * dirty_block_count in
        let total_record_size := record_body_size + 4 in
        if len journal_buffer <? total_record_size then Ok None
        else
          let? stored_checksum := get_le journal_buffer record_body_size 4 in
          let? body := get_slice journal_buffer 0 record_body_size in
          if negb (stored_checksum =? compute_crc32c body) then Ok None
          else
            let? (addresses, read_cursor) :=
              get_addresses (Z.to_nat dirty_block_count) journal_buffer 20 in
            Ok (Some (journal_transaction_id, addresses, read_cursor)).

Section recovery.
Context `{BlockDevice D}.

Fixpoint replay_blocks (journal_buffer : list Z) (addresses : list Z) (read_cursor : Z)
    : ST D BafsError unit :=
  match addresses with
  | [] => st_ret tt
  | address :: rest =>
      let! block_data := st_lift (get_slice journal_buffer read_cursor BAFS_DEFAULT_BLOCK_SIZE_BYTES) in
      let! _ := device_write_block address block_data in
      replay_blocks journal_buffer rest (read_cursor + BAFS_DEFAULT_BLOCK_SIZE_BYTES)
  end.

(** The whole journal area. *)
Definition read_journal (device : D) (superblock : BafsSuperblock) : result (list Z) :=
  let? journal_capacity_bytes :=
    checked_mul 64 (sb_journal_size_in_blocks superblock) BAFS_DEFAULT_BLOCK_SIZE_BYTES in
  let journal_buffer := zeros journal_capacity_bytes in
  let? start_lba := checked_mul 64 (sb_journal_start_block superblock) BAFS_SECTORS_PER_BLOCK in
  let? sectors := checked_mul 64 (sb_journal_size_in_blocks superblock) BAFS_SECTORS_PER_BLOCK in
  let sector_count := wrap 32 sectors in
  let? (ok, journal_buffer) := read_sectors device start_lba sector_count journal_buffer in
  if negb ok then Err InputOutputError else Ok journal_buffer.

Definition recover_journal_on_mount : ST (D * BafsSuperblock) BafsError bool :=
  let! (device, superblock) := st_get in
  let! journal_buffer := st_lift (read_journal device superblock) in
  let! found := st_lift (parse_journal journal_buffer (sb_last_committed_transaction_id superblock)) in
  match found with
  | None => st_ret false
  | Some (journal_transaction_id, addresses, read_cursor) =>
      let! _ := on_device_part (replay_blocks journal_buffer addresses read_cursor) in
      let! _ := st_modify (fun '(device, superblock) =>
                  (device, sb_set_transaction superblock journal_transaction_id)) in
      let! _ := write_superblock_to_device in
      st_ret true
  end.
End recovery.
