(* ===== verification/JournalLaws.v ===== *)
(** * JournalLaws: commit records on the device, and what recovery makes of them

    The layout of a commit record and its parsing, sequences of block writes and
    their effect, and the theorems about commit, crash and recovery. *)

From S2P Require Import Prelude Checksum Device Superblock Journal.

(** ** The record as bytes *)

Definition entry_wf (e : Z * list Z) : Prop := is_u64 e.1 /\ bytes_ok e.2 /\ len e.2 = 4096.

(** The four bytes behind the last block are unused: the header is counted as 24
    bytes but the addresses start at byte 20. *)
Definition record_body (id : Z) (entries : list (Z * list Z)) : list Z :=
  JOURNAL_COMMIT_RECORD_MAGIC ++ le_bytes 8 id ++ le_bytes 4 (len entries)
  ++ concat (le_bytes 8 <$> entries.*1) ++ concat entries.*2 ++ zeros 4.

Definition commit_record (id : Z) (entries : list (Z * list Z)) : list Z :=
  record_body id entries ++ le_bytes 4 (compute_crc32c (record_body id entries)).

Lemma length_concat_blocks (blocks : list (list Z)) :
  Forall (fun b => len b = 4096) blocks -> len (concat blocks) = 4096 * len blocks.
Proof. induction 1 as [|b l Hb _ IH]; simpl; [done|]. rewrite length_app. lia. Qed.

Lemma entries_blocks entries : Forall entry_wf entries -> Forall (fun b => len b = 4096) entries.*2.
Proof. intros Hwf. rewrite Forall_fmap. eapply Forall_impl; [exact Hwf|]. by intros [a b] (_ & _ & ?). Qed.

Lemma length_record_body id entries :
  Forall entry_wf entries -> len (record_body id entries) = 24 + 8 * len entries + 4096 * len entries.
Proof.
  intros Hwf. unfold record_body. pose proof (length_concat_blocks _ (entries_blocks _ Hwf)) as Hb.
  rewrite length_fmap in Hb. rewrite !length_app, length_concat_le, !length_le_bytes, length_zeros, length_fmap.
  simpl length. lia.
Qed.

Lemma length_commit_record id entries :
  Forall entry_wf entries -> len (commit_record id entries) = 28 + 8 * len entries + 4096 * len entries.
Proof.
  intros Hwf. unfold commit_record. rewrite length_app, length_le_bytes.
  pose proof (length_record_body id entries Hwf). lia.
Qed.

Lemma record_body_bytes_ok id entries : Forall entry_wf entries -> bytes_ok (record_body id entries).
Proof.
  intros Hwf. unfold record_body. rewrite !bytes_ok_app. repeat split; auto with bytes.
  - repeat constructor; ilia.
  - induction Hwf as [|[a b] l (_ & Hb & _) _ IH]; csimpl; [constructor|]. by apply bytes_ok_app.
Qed.

(** *** Building *)

Lemma put_addresses_layout pre addresses rest cursor :
  cursor = len pre -> 8 * len addresses <= len rest ->
  put_addresses (pre ++ rest) cursor addresses
  = Ok (pre ++ concat (le_bytes 8 <$> addresses) ++ drop (8 * length addresses) rest, cursor + 8 * len addresses).
Proof.
  revert pre rest cursor. induction addresses as [|a l IH]; intros pre rest cursor -> Hl; csimpl.
  - simpl. do 2 f_equal. lia.
  - rewrite <- (take_drop 8 rest). simpl length in *.
    rewrite put_slice_app; [|done|rewrite length_le_bytes, length_take; lia]. cbn [obind].
    rewrite app_assoc. rewrite IH by (rewrite ?length_app, ?length_le_bytes, ?length_drop; lia).
    rewrite <- !app_assoc, take_drop, drop_drop. f_equal. f_equal; [|lia]. do 4 f_equal. lia.
Qed.

Lemma put_blocks_layout pre blocks rest cursor :
  cursor = len pre -> Forall (fun b => len b = 4096) blocks -> 4096 * len blocks <= len rest ->
  put_blocks (pre ++ rest) cursor blocks = Ok (pre ++ concat blocks ++ drop (4096 * length blocks) rest).
Proof.
  intros Hc Hb. revert pre rest cursor Hc. induction Hb as [|b l Hb _ IH]; intros pre rest cursor -> Hl.
  - done.
  - cbn [put_blocks]. rewrite (proj2 (Z.eqb_eq (len b) 4096) Hb). cbn [negb].
    rewrite <- (take_drop 4096 rest). simpl length in *.
    rewrite put_slice_app; [|done|rewrite length_take; lia]. cbn [obind].
    rewrite app_assoc, IH by (rewrite ?length_app, ?length_drop; lia).
    rewrite <- !app_assoc, take_drop, drop_drop. cbn [concat]. rewrite <- app_assoc. do 5 f_equal. lia.
Qed.

Lemma build_commit_record_layout id entries :
  Forall entry_wf entries -> len entries < 2 ^ 32 ->
  build_commit_record id entries = Ok (commit_record id entries).
Proof.
  intros Hwf Hn. unfold build_commit_record. rewrite length_fmap, wrap_small by lia.
  unfold JOURNAL_COMMIT_RECORD_HEADER_SIZE_BYTES. set (n := len entries).
  pose proof (entries_blocks _ Hwf) as Hb. pose proof (length_concat_blocks _ Hb) as Hcb.
  rewrite length_fmap in Hcb.
  replace (24 + 8 * n + 4096 * n + 4) with (8 + (8 + (4 + (8 * n + (4096 * n + 8))))) by lia.
  rewrite !zeros_app by lia.
  change (zeros 8 ++ zeros 8 ++ zeros 4 ++ ?r) with ([] ++ zeros 8 ++ zeros 8 ++ zeros 4 ++ r).
  rewrite (put_slice_app []) by done. cbn [obind app].
  rewrite (put_slice_app JOURNAL_COMMIT_RECORD_MAGIC) by (by rewrite ?length_le_bytes). cbn [obind].
  rewrite (app_assoc JOURNAL_COMMIT_RECORD_MAGIC), put_slice_app
    by (by rewrite ?length_app, ?length_le_bytes). cbn [obind].
  rewrite (app_assoc _ (le_bytes 4 n)). rewrite put_addresses_layout; cycle 1.
  { rewrite !length_app, !length_le_bytes. done. }
  { rewrite !length_app, !length_zeros, length_fmap. lia. }
  cbn [obind]. rewrite length_fmap, drop_app_length' by (rewrite length_zeros; lia).
  rewrite app_assoc. rewrite put_blocks_layout; [|rewrite !length_app, length_concat_le, !length_le_bytes, length_fmap; simpl length; lia|done|rewrite length_app, !length_zeros, length_fmap; lia].
  cbn [obind]. rewrite length_fmap, drop_app_length' by (rewrite length_zeros; lia).
  change (zeros 8) with (zeros (4 + 4)). rewrite (zeros_app 4 4) by lia.
  assert ((((JOURNAL_COMMIT_RECORD_MAGIC ++ le_bytes 8 id) ++ le_bytes 4 n) ++ concat (le_bytes 8 <$> entries.*1))
           ++ concat entries.*2 ++ zeros 4 ++ zeros 4 = record_body id entries ++ zeros 4 ++ []) as ->.
  { unfold record_body. by rewrite app_nil_r, <- !app_assoc. }
  pose proof (length_record_body id entries Hwf) as Hlen.
  rewrite get_slice_prefix by (unfold n; lia). cbn [obind].
  rewrite put_slice_app by (rewrite ?length_le_bytes; unfold n; lia || done).
  unfold commit_record. by rewrite app_nil_r.
Qed.

(** *** Parsing *)

Lemma get_addresses_layout pre addresses rest cursor :
  cursor = len pre -> Forall is_u64 addresses ->
  get_addresses (length addresses) (pre ++ concat (le_bytes 8 <$> addresses) ++ rest) cursor
  = Ok (addresses, cursor + 8 * len addresses).
Proof.
  intros Hc Ha. revert pre cursor Hc. induction Ha as [|a l Ha _ IH]; intros pre cursor ->; csimpl.
  - do 2 f_equal. lia.
  - rewrite <- app_assoc, get_le_bytes_app by (done || ilia). cbn [obind].
    rewrite app_assoc, IH by (rewrite length_app, length_le_bytes; lia). cbn [obind].
    do 2 f_equal. lia.
Qed.

Lemma parse_record_old id entries rest last :
  Forall entry_wf entries -> is_u64 id -> id <= last ->
  parse_journal (commit_record id entries ++ rest) last = Ok None.
Proof.
  intros Hwf Hid Hle. unfold parse_journal. rewrite length_app.
  pose proof (length_commit_record id entries Hwf).
  destruct (Z.ltb_spec (Z.of_nat (length (commit_record id entries) + length rest))
    JOURNAL_COMMIT_RECORD_HEADER_SIZE_BYTES); [done|].
  unfold commit_record, record_body. rewrite <- !app_assoc. rewrite get_slice_prefix by done. cbn [obind].
  rewrite bool_decide_eq_true_2 by done. cbn [negb].
  rewrite (get_le_bytes_app JOURNAL_COMMIT_RECORD_MAGIC) by (done || ilia). cbn [obind].
  by destruct (Z.leb_spec id last); [|lia].
Qed.

Lemma parse_record_new id entries rest last :
  Forall entry_wf entries -> len entries < 2 ^ 32 -> is_u64 id -> last < id ->
  parse_journal (commit_record id entries ++ rest) last
  = Ok (Some (id, entries.*1, 20 + 8 * len entries)).
Proof.
  intros Hwf Hn Hid Hlt. unfold parse_journal, JOURNAL_COMMIT_RECORD_HEADER_SIZE_BYTES. rewrite length_app.
  pose proof (length_commit_record id entries Hwf). pose proof (length_record_body id entries Hwf) as Hbody.
  destruct (Z.ltb_spec (Z.of_nat (length (commit_record id entries) + length rest)) 24); [lia|].
  assert (get_slice (E:=BafsError) (commit_record id entries ++ rest) 0 8 = Ok JOURNAL_COMMIT_RECORD_MAGIC) as ->.
  { unfold commit_record, record_body. rewrite <- !app_assoc. by rewrite get_slice_prefix. }
  cbn [obind]. rewrite bool_decide_eq_true_2 by done. cbn [negb].
  assert (get_le (E:=BafsError) (commit_record id entries ++ rest) 8 8 = Ok id) as ->.
  { unfold commit_record, record_body. rewrite <- !app_assoc.
    by rewrite (get_le_bytes_app JOURNAL_COMMIT_RECORD_MAGIC) by (done || ilia). }
  cbn [obind]. destruct (Z.leb_spec id last); [lia|].
  assert (get_le (E:=BafsError) (commit_record id entries ++ rest) 16 4 = Ok (len entries)) as ->.
  { unfold commit_record, record_body. rewrite <- !app_assoc, (app_assoc JOURNAL_COMMIT_RECORD_MAGIC).
    apply get_le_bytes_app; [by rewrite length_app, length_le_bytes|done|lia]. }
  cbn [obind]. destruct (Z.ltb_spec (Z.of_nat (length (commit_record id entries) + length rest))
    (24 + 8 * len entries + 4096 * len entries + 4)); [lia|].
  unfold commit_record at 1 2. rewrite <- !app_assoc.
  rewrite get_le_bytes_app by (done || lia || apply compute_crc32c_u32, record_body_bytes_ok; done).
  cbn [obind]. rewrite get_slice_prefix by lia. cbn [obind]. rewrite Z.eqb_refl. cbn [negb].
  rewrite Nat2Z.id. unfold commit_record, record_body. rewrite <- !app_assoc.
  rewrite (app_assoc JOURNAL_COMMIT_RECORD_MAGIC), (app_assoc _ (le_bytes 4 _)).
  rewrite <- (length_fmap fst entries), get_addresses_layout; [done|by rewrite !length_app, !length_le_bytes|].
  rewrite Forall_fmap. eapply Forall_impl; [exact Hwf|]. by intros [a b] [? _].
Qed.

(** ** Sequences of block writes *)

(** The blocks of a device after a sequence of writes. *)
Fixpoint apply_writes (ws : list (Z * list Z)) (image : Z -> list Z) (a : Z) : list Z :=
  match ws with
  | [] => image a
  | (x, b) :: ws => apply_writes ws (fun y => if y =? x then b else image y) a
  end.

Lemma apply_writes_ext ws image image' a :
  (forall b, image b = image' b) -> apply_writes ws image a = apply_writes ws image' a.
Proof.
  revert image image'. induction ws as [|[x b] ws IH]; intros image image' Heq; simpl; [done|].
  apply IH. intros y. by destruct (y =? x).
Qed.

Lemma apply_writes_app ws ws' image a :
  apply_writes (ws ++ ws') image a = apply_writes ws' (apply_writes ws image) a.
Proof. revert image. induction ws as [|[x b] ws IH]; intros image; simpl; [done|]. apply IH. Qed.

Lemma apply_writes_other ws image a : a ∉ ws.*1 -> apply_writes ws image a = image a.
Proof.
  revert image. induction ws as [|[x b] ws IH]; intros image Ha; csimpl in *; [done|].
  apply not_elem_of_cons in Ha as [Hne Ha]. rewrite IH by done. by destruct (Z.eqb_spec a x).
Qed.

Lemma apply_writes_in ws image a b : NoDup ws.*1 -> (a, b) ∈ ws -> apply_writes ws image a = b.
Proof.
  revert image. induction ws as [|[x c] ws IH]; intros image Hnd Hin; csimpl in *; [by apply elem_of_nil in Hin|].
  apply NoDup_cons in Hnd as [Hx Hnd]. apply elem_of_cons in Hin as [[= -> ->]|Hin]; [|by apply IH].
  rewrite apply_writes_other by done. by rewrite Z.eqb_refl.
Qed.

(** Only the blocks written matter for the addresses written. *)
Lemma apply_writes_covered ws image image' a : a ∈ ws.*1 -> apply_writes ws image a = apply_writes ws image' a.
Proof.
  revert image image'. induction ws as [|[x b] ws IH]; intros image image' Ha; csimpl in *; [by apply elem_of_nil in Ha|].
  destruct (decide (a ∈ ws.*1)) as [Hin|Hin]; [by apply IH|].
  rewrite !apply_writes_other by done. apply elem_of_cons in Ha as [->|?]; [|done]. by rewrite Z.eqb_refl.
Qed.

Section device_writes.
Context `{BlockDeviceLaws D}.

Definition image (d : D) : Z -> list Z := block_at (content d).

(** [w] is a whole block on the device. *)
Definition writable (d : D) (w : Z * list Z) : Prop :=
  on_device d w.1 /\ w.1 * 8 < 2 ^ 64 /\ len w.2 = 4096.

Lemma on_device_length d d' a : length (content d') = length (content d) -> on_device d a -> on_device d' a.
Proof. unfold on_device. intros ->. done. Qed.

Lemma writable_length d d' w : length (content d') = length (content d) -> writable d w -> writable d' w.
Proof. intros Hl (Ho & ? & ?). split; [by eapply on_device_length|done]. Qed.

Lemma write_block_image d a b :
  device_up d -> writable d (a, b) ->
  exists d', device_write_block a b d = (d', Ok tt) /\ device_up d'
    /\ length (content d') = length (content d)
    /\ forall x, 0 <= x -> image d' x = if x =? a then b else image d x.
Proof.
  intros Hup (Ho & Hw & Hb). simpl in *.
  destruct (device_write_block_up d a b Hup Ho Hw Hb) as (d' & E & Hup' & Hc). exists d'.
  do 2 (split; [done|]). split; [by eapply length_content_write|]. intros x Hx. unfold image. rewrite Hc.
  destruct Ho as [Ha Hl]. destruct (Z.eqb_spec x a) as [->|Hne].
  - by apply block_at_splice_eq.
  - by apply block_at_splice_ne.
Qed.

Lemma write_blocks_home_up d ws :
  device_up d -> Forall (writable d) ws ->
  exists d', write_blocks_home ws d = (d', Ok tt) /\ device_up d'
    /\ length (content d') = length (content d)
    /\ forall a, 0 <= a -> image d' a = apply_writes ws (image d) a.
Proof.
  revert d. induction ws as [|[x b] ws IH]; intros d Hup Hws.
  - exists d. done.
  - apply Forall_cons in Hws as [Hw Hws]. destruct (write_block_image d x b Hup Hw) as (d1 & E1 & Hup1 & Hl1 & H1).
    destruct (IH d1 Hup1) as (d2 & E2 & Hup2 & Hl2 & H2).
    { eapply Forall_impl; [exact Hws|]. intros w. by apply writable_length. }
    exists d2. cbn [write_blocks_home]. rewrite (st_bind_Ok _ _ _ _ _ E1). do 2 (split; [done|]).
    split; [congruence|]. intros a Ha. rewrite H2 by done. simpl.
    destruct (decide (a ∈ ws.*1)) as [Hin|Hin]; [by apply apply_writes_covered|].
    by rewrite !apply_writes_other, H1.
Qed.

Lemma write_blocks_home_app ws ws' d d1 :
  write_blocks_home ws d = (d1, Ok tt) -> write_blocks_home (ws ++ ws') d = write_blocks_home ws' d1.
Proof.
  revert d. induction ws as [|[x b] ws IH]; intros d; cbn [write_blocks_home app]; [by intros [= <-]|].
  unfold st_bind. destruct (device_write_block x b d) as [d2 [[]| | |]]; [apply IH|done..].
Qed.
End device_writes.

(** ** The journal area *)

(** The blocks that hold [data], the last one padded with zeros. *)
Fixpoint padded_chunks (fuel : nat) (start : Z) (data : list Z) : list (Z * list Z) :=
  match data, fuel with
  | [], _ | _, O => []
  | _, S fuel =>
      let chunk := take (Z.to_nat 4096) data in
      (start, chunk ++ zeros (4096 - len chunk)) :: padded_chunks fuel (start + 1) (drop (Z.to_nat 4096) data)
  end.

Lemma padded_chunks_spec fuel start data :
  Forall (fun w => start <= w.1 < start + Z.of_nat fuel /\ len w.2 = 4096) (padded_chunks fuel start data).
Proof.
  revert start data. induction fuel as [|fuel IH]; intros start [|x data]; [constructor..|].
  cbn [padded_chunks]. constructor.
  - cbn [fst snd]. split; [lia|]. rewrite length_app, length_zeros, length_take. lia.
  - eapply Forall_impl; [apply IH|]. intros w. simpl. lia.
Qed.

Lemma padded_chunks_bound fuel start data :
  Forall (fun w => start <= w.1 /\ (w.1 - start) * 4096 < len data) (padded_chunks fuel start data).
Proof.
  revert start data. induction fuel as [|fuel IH]; intros start [|x data]; [constructor..|].
  cbn [padded_chunks]. constructor.
  - simpl. lia.
  - eapply Forall_impl; [apply IH|]. intros w. rewrite length_drop. simpl. lia.
Qed.

(** After writing the chunks, the area starts with the data. *)
Lemma padded_chunks_area fuel start n data image :
  len data <= 4096 * Z.of_nat fuel -> len data <= 4096 * n -> 0 <= n ->
  exists rest, concat (apply_writes (padded_chunks fuel start data) image <$> seqZ start n) = data ++ rest.
Proof.
  revert start n data image. induction fuel as [|fuel IH]; intros start n [|x data] image Hf Hn H0;
    [by eexists|simpl length in Hf; lia|by eexists|].
  assert (0 < n) by (simpl length in *; lia).
  set (chunk := take (Z.to_nat 4096) (x :: data)). set (later := drop (Z.to_nat 4096) (x :: data)).
  set (image' := fun y => if y =? start then chunk ++ zeros (4096 - len chunk) else image y).
  change (apply_writes (padded_chunks (S fuel) start (x :: data)) image)
    with (apply_writes (padded_chunks fuel (start + 1) later) image').
  assert (len later = Z.max 0 (len (x :: data) - 4096)) as Hlater by (unfold later; rewrite length_drop; lia).
  destruct (IH (start + 1) (n - 1) later image') as [rest Hrest]; [lia..|].
  rewrite seqZ_cons, fmap_cons by done. cbn [concat].
  replace (Z.succ start) with (start + 1) by lia. replace (Z.pred n) with (n - 1) by lia. rewrite Hrest.
  rewrite apply_writes_other; cycle 1.
  { intros (w & Ew & Hin)%list_elem_of_fmap. pose proof (padded_chunks_spec fuel (start + 1) later) as Hs.
    rewrite Forall_forall in Hs. specialize (Hs w Hin). simpl in Hs. lia. }
  unfold image'. rewrite Z.eqb_refl.
  destruct (Z.lt_ge_cases (len (x :: data)) 4096).
  - unfold chunk. rewrite take_ge by lia. eexists. by rewrite <- app_assoc.
  - exists rest. rewrite (zeros_nonpos (4096 - len chunk)) by (unfold chunk; rewrite length_take; lia).
    rewrite app_nil_r. unfold chunk, later. by rewrite app_assoc, take_drop.
Qed.

(** ** The dirty cache in order *)

Lemma cache_entries_elem cache a b : (a, b) ∈ cache_entries cache <-> cache !! a = Some b.
Proof. unfold cache_entries. by rewrite merge_sort_Permutation, elem_of_map_to_list. Qed.

Lemma cache_entries_NoDup cache : NoDup (cache_entries cache).*1.
Proof. unfold cache_entries. rewrite merge_sort_Permutation. apply NoDup_fst_map_to_list. Qed.

Lemma cache_entries_addresses cache a : a ∈ (cache_entries cache).*1 <-> is_Some (cache !! a).
Proof.
  rewrite list_elem_of_fmap. split.
  - intros ([x b] & -> & Hin). apply cache_entries_elem in Hin. by exists b.
  - intros [b Hb]. exists (a, b). split; [done|]. by apply cache_entries_elem.
Qed.

Lemma cache_entries_nonempty cache : cache <> ∅ -> cache_entries cache <> [].
Proof.
  intros Hne Hnil. apply Hne. apply map_empty. intros a. destruct (cache !! a) as [b|] eqn:E; [|done].
  apply cache_entries_elem in E. rewrite Hnil in E. by apply elem_of_nil in E.
Qed.

(** Writing the cache home. *)
Lemma apply_entries cache image a :
  apply_writes (cache_entries cache) image a = default (image a) (cache !! a).
Proof.
  destruct (cache !! a) as [b|] eqn:E; simpl.
  - apply apply_writes_in; [apply cache_entries_NoDup|by apply cache_entries_elem].
  - apply apply_writes_other. rewrite cache_entries_addresses, E. by intros [].
Qed.

(** ** Reading the journal area *)

Lemma blocks_concat bytes start (n : nat) :
  0 <= start -> (start + Z.of_nat n) * 4096 <= len bytes ->
  concat (block_at bytes <$> seqZ start (Z.of_nat n)) = take (n * 4096)%nat (drop (Z.to_nat (start * 4096)) bytes).
Proof.
  revert start. induction n as [|n IH]; intros start Hs Hl; [done|].
  rewrite seqZ_cons, fmap_cons by lia. cbn [concat].
  replace (Z.succ start) with (start + 1) by lia. replace (Z.pred (Z.of_nat (S n))) with (Z.of_nat n) by lia.
  rewrite IH by lia. unfold block_at.
  replace (Z.to_nat ((start + 1) * 4096)) with (Z.to_nat (start * 4096) + 4096)%nat by lia.
  rewrite <- drop_drop. change (Z.to_nat 4096) with 4096%nat.
  rewrite take_take_drop. f_equal.
Qed.

Section journal_area.
Context `{BlockDeviceLaws D}.

(** The device is large enough for the journal the superblock describes. *)
Record volume_layout (d : D) (sb : BafsSuperblock) : Prop := {
  vl_wf : sb_wf sb;
  vl_magic : sb_magic_number sb = BAFS_MAGIC_NUMBER;
  vl_version : sb_version sb = BAFS_SUPPORTED_VERSION;
  vl_start : BAFS_JOURNAL_START_BLOCK_ADDRESS <= sb_journal_start_block sb;
  vl_size : 0 < sb_journal_size_in_blocks sb <= BAFS_JOURNAL_SIZE_MAX_BLOCKS;
  vl_end : (sb_journal_start_block sb + sb_journal_size_in_blocks sb) * 4096 <= len (content d);
  vl_small : len (content d) < 2 ^ 64;
}.

Definition journal_area (d : D) (sb : BafsSuperblock) : list Z :=
  concat (image d <$> seqZ (sb_journal_start_block sb) (sb_journal_size_in_blocks sb)).

Lemma volume_layout_length d d' sb :
  length (content d') = length (content d) -> volume_layout d sb -> volume_layout d' sb.
Proof. intros Hl []. constructor; rewrite ?Hl; done. Qed.

Lemma read_journal_up d sb :
  device_up d -> volume_layout d sb -> read_journal d sb = Ok (journal_area d sb).
Proof.
  intros Hup [_ _ _ Hs Hn He Hsm]. unfold BAFS_JOURNAL_START_BLOCK_ADDRESS, BAFS_JOURNAL_SIZE_MAX_BLOCKS in *.
  unfold read_journal, journal_area. set (s := sb_journal_start_block sb) in *. set (n := sb_journal_size_in_blocks sb) in *.
  rewrite !checked_mul_Ok by lia. cbn [obind]. rewrite wrap_small by lia.
  destruct (read_up d (s * 8) (n * 8) (zeros (n * 4096))) as [buffer Hb]; [done|rewrite ?length_zeros; lia..|].
  rewrite Hb. cbn [obind negb]. f_equal.
  apply read_true in Hb as (sectors & (_ & _ & _ & ->)%get_slice_inv & ->); [|rewrite ?length_zeros; lia..].
  rewrite (drop_ge (zeros _)) by (rewrite length_zeros; lia). rewrite app_nil_r.
  unfold image. replace (seqZ s n) with (seqZ s (Z.of_nat (Z.to_nat n))) by (f_equal; lia).
  rewrite blocks_concat by lia. f_equal; [lia|]. f_equal. lia.
Qed.

(** ** The writes of a commit *)

Lemma write_padded_chunks_eq fuel data start d :
  len data <= 4096 * Z.of_nat fuel -> 0 <= start -> start + Z.of_nat fuel < 2 ^ 64 ->
  write_journal_chunks fuel data start d = write_blocks_home (padded_chunks fuel start data) d.
Proof.
  revert data start d. induction fuel as [|fuel IH]; intros [|x data] start d Hl Hs Hm;
    [done|simpl length in Hl; lia|done|].
  cbn [write_journal_chunks padded_chunks write_blocks_home].
  set (chunk := take (Z.to_nat 4096) (x :: data)). set (later := drop (Z.to_nat 4096) (x :: data)).
  rewrite (st_bind_lift _ _ _ (chunk ++ zeros (4096 - len chunk))); cycle 1.
  { unfold chunk. rewrite put_slice_prefix by (rewrite length_zeros, length_take; lia).
    do 2 f_equal. rewrite drop_zeros. done. }
  unfold st_bind at 1 3. destruct (device_write_block start _ d) as [d1 [[]| | |]]; [|done..].
  rewrite (st_bind_lift _ _ _ (start + 1)) by (apply checked_add_Ok; lia).
  apply IH; [unfold later; rewrite length_drop; lia|lia..].
Qed.

Lemma write_blocks_home_app_inv ws ws' d d' :
  write_blocks_home (ws ++ ws') d = (d', Ok tt) ->
  exists d1, write_blocks_home ws d = (d1, Ok tt) /\ write_blocks_home ws' d1 = (d', Ok tt).
Proof.
  revert d. induction ws as [|[x b] ws IH]; intros d; cbn [write_blocks_home app]; [by exists d|].
  unfold st_bind. destruct (device_write_block x b d) as [d2 [[]| | |]]; [apply IH|done..].
Qed.

(** Both copies of the superblock, the backup first. *)
Definition superblock_writes (sb : BafsSuperblock) : list (Z * list Z) :=
  [(BAFS_BACKUP_SUPERBLOCK_BLOCK_ADDRESS, superblock_block sb);
   (BAFS_PRIMARY_SUPERBLOCK_BLOCK_ADDRESS, superblock_block sb)].

Lemma write_superblock_writes d sb :
  sb_wf sb ->
  write_superblock_to_device (d, sb)
  = let '(d', r) := write_blocks_home (superblock_writes sb) d in ((d', seal_with_checksum sb), r).
Proof.
  intros Hwf. unfold write_superblock_to_device, st_modify, st_get. unfold st_bind at 1 2. cbn [fst snd].
  unfold st_zoom. cbn [fst snd superblock_writes write_blocks_home]. unfold st_bind.
  rewrite write_superblock_at_eq by done. destruct (device_write_block _ _ d) as [d1 [[]| | |]]; [|done..].
  rewrite write_superblock_at_eq by done. by destruct (device_write_block _ _ d1) as [d2 [[]| | |]].
Qed.

Definition record_chunks (sb : BafsSuperblock) (record : list Z) : list (Z * list Z) :=
  padded_chunks (S (Z.to_nat (len record / 4096))) (sb_journal_start_block sb) record.

(** The journal, then the blocks at home, then the superblock. *)
Definition commit_writes (sb : BafsSuperblock) (id : Z) (entries : list (Z * list Z)) : list (Z * list Z) :=
  record_chunks sb (commit_record id entries) ++ entries ++ superblock_writes (sb_set_transaction sb id).

Lemma sb_wf_set_transaction sb id : sb_wf sb -> is_u64 id -> sb_wf (sb_set_transaction sb id).
Proof. intros [] ?. by constructor. Qed.

Definition record_fits (sb : BafsSuperblock) (cache : gmap Z (list Z)) : Prop :=
  28 + 4104 * len (cache_entries cache) <= sb_journal_size_in_blocks sb * 4096.

Lemma write_bytes_to_journal_writes d sb record :
  volume_layout d sb -> len record <= sb_journal_size_in_blocks sb * 4096 ->
  write_bytes_to_journal sb record d = write_blocks_home (record_chunks sb record) d.
Proof.
  intros [_ _ _ Hs Hn He Hsm] Hf. unfold BAFS_JOURNAL_START_BLOCK_ADDRESS, BAFS_JOURNAL_SIZE_MAX_BLOCKS in *.
  unfold write_bytes_to_journal, record_chunks.
  rewrite (st_bind_lift _ _ _ (sb_journal_size_in_blocks sb * 4096)) by (apply checked_mul_Ok; lia).
  case_bool. pose proof (Z.div_mod (len record) 4096 ltac:(done)).
  pose proof (Z.mod_pos_bound (len record) 4096 ltac:(done)).
  apply write_padded_chunks_eq; [lia..|]. rewrite Nat2Z.inj_succ, Z2Nat.id by lia. nia.
Qed.

Lemma commit_transaction_writes d sb id cache d' :
  volume_layout d sb -> is_u64 id -> cache <> ∅ -> Forall entry_wf (cache_entries cache) -> record_fits sb cache ->
  write_blocks_home (commit_writes sb id (cache_entries cache)) d = (d', Ok tt) ->
  commit_transaction {| transaction_id := id |} cache (d, sb)
  = ((d', seal_with_checksum (sb_set_transaction sb id)), Ok tt).
Proof.
  intros Hvl Hid Hne Hwf Hfit Hw. unfold record_fits in Hfit.
  pose proof (vl_size _ _ Hvl) as Hsz. unfold BAFS_JOURNAL_SIZE_MAX_BLOCKS in Hsz.
  apply write_blocks_home_app_inv in Hw as (d1 & Hw1 & Hw). apply write_blocks_home_app_inv in Hw as (d2 & Hw2 & Hw3).
  unfold commit_transaction. destruct (decide (cache = ∅)); [done|]. cbn [transaction_id].
  rewrite (st_bind_lift _ _ _ (commit_record id (cache_entries cache)))
    by (apply build_commit_record_layout; [done|lia]).
  unfold st_get. unfold st_bind at 1. unfold on_device_part, st_zoom. unfold st_bind at 1. cbn [fst snd].
  rewrite write_bytes_to_journal_writes, Hw1 by (done || rewrite length_commit_record by done; lia).
  unfold st_bind at 1. cbn [fst snd]. rewrite Hw2. unfold st_modify, st_bind at 1.
  rewrite write_superblock_writes by (apply sb_wf_set_transaction; [apply Hvl|done]). by rewrite Hw3.
Qed.
(** A record that does not fit is refused before anything is written. *)
Lemma commit_oversized (d : D) sb id cache :
  sb_wf sb -> sb_journal_size_in_blocks sb * 4096 < 2 ^ 64 -> cache <> ∅ ->
  Forall entry_wf (cache_entries cache) -> len (cache_entries cache) < 2 ^ 32 ->
  sb_journal_size_in_blocks sb * 4096 < 28 + 4104 * len (cache_entries cache) ->
  commit_transaction {| transaction_id := id |} cache (d, sb) = ((d, sb), Err OutOfSpace).
Proof.
  intros Hwf Hcap Hne Hent Hn Hbig. unfold commit_transaction. destruct (decide (cache = ∅)); [done|]. cbn [transaction_id].
  rewrite (st_bind_lift _ _ _ (commit_record id (cache_entries cache))) by by apply build_commit_record_layout.
  rewrite st_bind_get. unfold st_bind at 1. unfold on_device_part, st_zoom, write_bytes_to_journal. cbn [fst snd].
  pose proof (wf_journal_size _ Hwf) as Hsz.
  rewrite (st_bind_lift _ _ _ (sb_journal_size_in_blocks sb * 4096)) by (apply checked_mul_Ok; ilia).
  rewrite length_commit_record by done.
  by destruct (Z.ltb_spec (sb_journal_size_in_blocks sb * 4096)
    (28 + 8 * len (cache_entries cache) + 4096 * len (cache_entries cache))); [|lia].
Qed.
End journal_area.

(** ** Interrupted commits *)

Section crash.
Context `{BlockDeviceLaws D}.

(** [d'] is [d] stopped somewhere in the writes [ws]: some are done, the next
    one may have left anything in its block. *)
Definition interrupted (d : D) (ws : list (Z * list Z)) (d' : D) : Prop :=
  length (content d') = length (content d)
  /\ exists past todo, ws = past ++ todo
     /\ forall a, 0 <= a -> (forall w, head todo = Some w -> a <> w.1) ->
        image d' a = apply_writes past (image d) a.

Lemma write_block_any d a b d' r :
  writable d (a, b) -> device_write_block a b d = (d', r) ->
  length (content d') = length (content d)
  /\ (forall x, 0 <= x -> x <> a -> image d' x = image d x)
  /\ (r = Ok tt -> image d' a = b).
Proof.
  intros ([Ha Ho] & Hw & Hb) E. simpl in *. unfold device_write_block in E.
  rewrite (st_bind_lift _ _ _ (a * 8)) in E by by apply checked_mul_Ok.
  unfold st_bind in E. destruct (write_sectors d (a * 8) 8 b) as [d1 r1] eqn:Ew.
  assert (d' = d1 /\ (r = Ok tt -> r1 = Ok true)) as [-> Hr].
  { destruct r1 as [[]| | |]; by injection E as <- <-. }
  destruct (decide (r1 = Ok true)) as [->|Hne].
  - apply write_true in Ew; [|lia..]. rewrite take_ge in Ew by lia.
    unfold put_slice in Ew. case_match; [|done]. injection Ew as Ec.
    replace (a * 8 * 512) with (a * 4096) in Ec by lia. symmetry in Ec.
    split; [by eapply length_content_write|]. unfold image. rewrite Ec. split.
    + intros x Hx Hxa. by apply block_at_splice_ne.
    + intros _. by apply block_at_splice_eq.
  - apply write_false in Ew as [Hl Hout]; [|lia..|done]. split; [done|]. split; [|by intros ?%Hr].
    intros x Hx Hxa. unfold image, block_at. apply list_eq. intros i.
    destruct (decide (i < Z.to_nat 4096)%nat); [|by rewrite !lookup_take_ge by lia].
    rewrite !lookup_take_lt, !lookup_drop by lia. apply Hout. lia.
Qed.

(** However the device behaves, the writes leave it stopped somewhere in them. *)
Lemma write_blocks_home_interrupted ws d d' r :
  Forall (writable d) ws -> write_blocks_home ws d = (d', r) -> interrupted d ws d'.
Proof.
  revert d. induction ws as [|[x b] ws IH]; intros d Hws E.
  - injection E as <- <-. split; [done|]. by exists [], [].
  - apply Forall_cons in Hws as [Hw Hws]. cbn [write_blocks_home] in E. unfold st_bind in E.
    destruct (device_write_block x b d) as [d1 r1] eqn:E1.
    destruct (write_block_any _ _ _ _ _ Hw E1) as (Hl & Hother & Hthis).
    assert (r1 = Ok tt \/ d' = d1) as [-> | ->].
    { destruct r1 as [[]| | |]; [by left|right; by injection E..]. }
    + destruct (IH d1) as (Hl' & past & todo & -> & Himg); [|done|].
      { eapply Forall_impl; [exact Hws|]. intros w. by apply writable_length. }
      split; [congruence|]. exists ((x, b) :: past), todo. split; [done|]. intros a Ha Hne.
      rewrite (Himg a Ha Hne). simpl. destruct (decide (a ∈ past.*1)) as [Hin|Hin]; [by apply apply_writes_covered|].
      rewrite !apply_writes_other by done. destruct (Z.eqb_spec a x) as [->|]; [by apply Hthis|by apply Hother].
    + split; [done|]. exists [], ((x, b) :: ws). split; [done|]. intros a Ha Hne. simpl.
      apply Hother; [done|]. by apply (Hne (x, b)).
Qed.

(** A commit that can be carried out: the record fits the journal and the dirty
    blocks lie behind it. *)
Record commit_ready (d : D) (sb : BafsSuperblock) (id : Z) (cache : gmap Z (list Z)) : Prop := {
  cr_layout : volume_layout d sb;
  cr_id : is_u64 id;
  cr_nonempty : cache <> ∅;
  cr_wf : Forall entry_wf (cache_entries cache);
  cr_fits : record_fits sb cache;
  cr_home : forall a b, cache !! a = Some b ->
    sb_journal_start_block sb + sb_journal_size_in_blocks sb <= a /\ on_device d a;
}.

Lemma on_device_writable d a b : len (content d) < 2 ^ 64 -> on_device d a -> len b = 4096 -> writable d (a, b).
Proof. intros Hs Ho Hb. split; [done|]. destruct Ho. simpl. split; [lia|done]. Qed.

Lemma entries_writable d sb id cache : commit_ready d sb id cache -> Forall (writable d) (cache_entries cache).
Proof.
  intros [Hvl _ _ Hwf _ Hhome]. apply Forall_forall. intros [a b] Hin.
  apply on_device_writable; [apply Hvl| |].
  - apply cache_entries_elem in Hin. by apply (Hhome a b).
  - rewrite Forall_forall in Hwf. by destruct (Hwf _ Hin) as (_ & _ & ?).
Qed.

Lemma superblock_writable d sb sb' :
  volume_layout d sb -> sb_wf sb' -> Forall (writable d) (superblock_writes sb').
Proof.
  intros [_ _ _ Hs Hn He Hsm] Hwf. unfold BAFS_JOURNAL_START_BLOCK_ADDRESS, BAFS_JOURNAL_SIZE_MAX_BLOCKS in *.
  repeat constructor; cbn [fst snd]; unfold BAFS_BACKUP_SUPERBLOCK_BLOCK_ADDRESS, BAFS_PRIMARY_SUPERBLOCK_BLOCK_ADDRESS;
    try lia; by apply length_superblock_block.
Qed.

Lemma record_chunks_spec sb record :
  Forall (fun w => sb_journal_start_block sb <= w.1 /\ (w.1 - sb_journal_start_block sb) * 4096 < len record
                   /\ len w.2 = 4096) (record_chunks sb record).
Proof.
  unfold record_chunks. apply Forall_forall. intros w Hin.
  pose proof (padded_chunks_spec (S (Z.to_nat (len record / 4096))) (sb_journal_start_block sb) record) as H1.
  pose proof (padded_chunks_bound (S (Z.to_nat (len record / 4096))) (sb_journal_start_block sb) record) as H2.
  rewrite Forall_forall in H1, H2. specialize (H1 w Hin). specialize (H2 w Hin). simpl in *. tauto.
Qed.

Lemma length_ready_record d sb id cache :
  commit_ready d sb id cache ->
  len (commit_record id (cache_entries cache)) <= sb_journal_size_in_blocks sb * 4096.
Proof. intros [_ _ _ Hwf Hf _]. unfold record_fits in Hf. rewrite length_commit_record by done. lia. Qed.

Lemma record_chunks_within d sb id cache w :
  commit_ready d sb id cache -> w ∈ record_chunks sb (commit_record id (cache_entries cache)) ->
  sb_journal_start_block sb <= w.1 < sb_journal_start_block sb + sb_journal_size_in_blocks sb /\ len w.2 = 4096.
Proof.
  intros Hcr Hin. pose proof (length_ready_record _ _ _ _ Hcr).
  pose proof (record_chunks_spec sb (commit_record id (cache_entries cache))) as Hs.
  rewrite Forall_forall in Hs. destruct (Hs w Hin) as (? & ? & ?). split; [nia|done].
Qed.

Lemma commit_writable d sb id cache :
  commit_ready d sb id cache -> Forall (writable d) (commit_writes sb id (cache_entries cache)).
Proof.
  intros Hcr. pose proof (cr_layout _ _ _ _ Hcr) as Hvl. unfold commit_writes. rewrite !Forall_app. repeat split.
  - apply Forall_forall. intros [a b] Hin. apply (record_chunks_within d) in Hin; [|done]. destruct Hvl.
    unfold BAFS_JOURNAL_START_BLOCK_ADDRESS in *. simpl in Hin.
    apply on_device_writable; [done|split; lia|tauto].
  - by eapply entries_writable.
  - eapply superblock_writable; [done|]. apply sb_wf_set_transaction; [apply Hvl|apply Hcr].
Qed.

Lemma write_blocks_home_stop ws ws' d d1 r :
  write_blocks_home ws d = (d1, r) -> r <> Ok tt -> write_blocks_home (ws ++ ws') d = (d1, r).
Proof.
  revert d. induction ws as [|[x b] ws IH]; intros d; cbn [write_blocks_home app]; [by intros [= <- <-]|].
  unfold st_bind. destruct (device_write_block x b d) as [d2 [[]| | |]]; [apply IH|done..].
Qed.

(** What a commit does to the device is its writes, whatever the device does. *)
Lemma commit_runs_writes d sb id cache d' sb' r :
  commit_ready d sb id cache ->
  commit_transaction {| transaction_id := id |} cache (d, sb) = ((d', sb'), r) ->
  write_blocks_home (commit_writes sb id (cache_entries cache)) d = (d', r).
Proof.
  intros Hcr E. pose proof Hcr as [Hvl Hid Hne Hwf Hfit _]. revert E. unfold record_fits in Hfit.
  pose proof (vl_size _ _ Hvl) as Hsz. unfold BAFS_JOURNAL_SIZE_MAX_BLOCKS in Hsz.
  unfold commit_transaction. destruct (decide (cache = ∅)); [done|]. cbn [transaction_id].
  rewrite (st_bind_lift _ _ _ (commit_record id (cache_entries cache)))
    by (apply build_commit_record_layout; [done|lia]).
  unfold st_get. unfold st_bind at 1. unfold on_device_part, st_zoom. unfold st_bind at 1. cbn [fst snd].
  rewrite write_bytes_to_journal_writes by (done || by eapply length_ready_record).
  unfold commit_writes. destruct (write_blocks_home (record_chunks _ _) d) as [d1 [[]| | |]] eqn:E1;
    [|intros [= <- _ <-]; by apply (write_blocks_home_stop _ _ _ _ _ E1)..].
  rewrite (write_blocks_home_app _ _ _ _ E1).
  unfold st_bind at 1. cbn [fst snd]. destruct (write_blocks_home (cache_entries cache) d1) as [d2 [[]| | |]] eqn:E2;
    [|intros [= <- _ <-]; by apply (write_blocks_home_stop _ _ _ _ _ E2)..].
  rewrite (write_blocks_home_app _ _ _ _ E2). unfold st_modify, st_bind at 1.
  rewrite write_superblock_writes by (apply sb_wf_set_transaction; [apply Hvl|done]).
  destruct (write_blocks_home (superblock_writes _) d2) as [d3 r3]. by intros [= <- _ <-].
Qed.

(** *** What an interruption leaves *)

(** The journal area begins with the record once its chunks are written. *)
Lemma journal_area_record d1 sb record img :
  len record <= sb_journal_size_in_blocks sb * 4096 -> 0 <= sb_journal_size_in_blocks sb ->
  (forall a, sb_journal_start_block sb <= a < sb_journal_start_block sb + sb_journal_size_in_blocks sb ->
     image d1 a = apply_writes (record_chunks sb record) img a) ->
  exists rest, journal_area d1 sb = record ++ rest.
Proof.
  intros Hf Hz Himg. pose proof (Z.div_mod (len record) 4096 ltac:(done)).
  pose proof (Z.mod_pos_bound (len record) 4096 ltac:(done)).
  destruct (padded_chunks_area (S (Z.to_nat (len record / 4096))) (sb_journal_start_block sb)
    (sb_journal_size_in_blocks sb) record img) as [rest Hr]; [lia..|].
  exists rest. rewrite <- Hr. unfold journal_area. f_equal. apply list_fmap_ext. intros i a Hi.
  apply lookup_seqZ in Hi as [-> Hi]. apply Himg. lia.
Qed.

(** The three situations a crash in a commit leaves behind. *)
Inductive crash_state (d : D) (sb : BafsSuperblock) (id : Z) (cache : gmap Z (list Z)) (d1 : D) : Prop :=
  | crash_in_journal :
      (forall a, 0 <= a ->
         ~ (sb_journal_start_block sb <= a < sb_journal_start_block sb + sb_journal_size_in_blocks sb) ->
         image d1 a = image d a) ->
      crash_state d sb id cache d1
  | crash_after_journal rest :
      journal_area d1 sb = commit_record id (cache_entries cache) ++ rest ->
      image d1 BAFS_PRIMARY_SUPERBLOCK_BLOCK_ADDRESS = image d BAFS_PRIMARY_SUPERBLOCK_BLOCK_ADDRESS ->
      (forall a, sb_journal_start_block sb + sb_journal_size_in_blocks sb <= a -> cache !! a = None ->
         image d1 a = image d a) ->
      crash_state d sb id cache d1
  | crash_at_primary rest :
      journal_area d1 sb = commit_record id (cache_entries cache) ++ rest ->
      image d1 BAFS_BACKUP_SUPERBLOCK_BLOCK_ADDRESS = superblock_block (sb_set_transaction sb id) ->
      (forall a, sb_journal_start_block sb + sb_journal_size_in_blocks sb <= a ->
         image d1 a = default (image d a) (cache !! a)) ->
      crash_state d sb id cache d1.

Section crash_cases.
Context (d d1 : D) (sb : BafsSuperblock) (id : Z) (cache : gmap Z (list Z)).
Context (Hcr : commit_ready d sb id cache).
Local Abbreviation chunks := (record_chunks sb (commit_record id (cache_entries cache))).
Local Abbreviation start := (sb_journal_start_block sb).
Local Abbreviation data_start := (sb_journal_start_block sb + sb_journal_size_in_blocks sb).

Lemma chunks_elsewhere a : ~ (start <= a < data_start) -> a ∉ chunks.*1.
Proof. intros Ha (w & -> & Hin)%list_elem_of_fmap. apply (record_chunks_within d) in Hin; [tauto|done]. Qed.

Lemma entries_elsewhere a past :
  a < data_start \/ cache !! a = None -> (forall w, w ∈ past -> w ∈ cache_entries cache) -> a ∉ past.*1.
Proof.
  intros Ha Hsub ([x b] & -> & Hin)%list_elem_of_fmap. apply Hsub, cache_entries_elem in Hin. simpl in *.
  destruct Ha as [Ha|Ha]; [|congruence]. apply (cr_home _ _ _ _ Hcr) in Hin. lia.
Qed.

(** The record is complete; [past] of the blocks are home, and the block [torn]
    is lost, if any. *)
Lemma crash_home past (torn : Z -> Prop) :
  (forall w, w ∈ past -> w ∈ cache_entries cache) ->
  (forall a, torn a -> (exists b, cache !! a = Some b) \/ a = BAFS_BACKUP_SUPERBLOCK_BLOCK_ADDRESS) ->
  (forall a, 0 <= a -> ~ torn a -> image d1 a = apply_writes (chunks ++ past) (image d) a) ->
  crash_state d sb id cache d1.
Proof.
  intros Hsub Htorn Himg. pose proof (cr_layout _ _ _ _ Hcr) as [_ _ _ Hs Hn _ _].
  unfold BAFS_JOURNAL_START_BLOCK_ADDRESS in *.
  assert (forall a, a < data_start -> a <> 2 -> ~ torn a) as Hlow.
  { intros a Ha Ha2 [[b Hb]|Hb]%Htorn; [|done]. apply (cr_home _ _ _ _ Hcr) in Hb. lia. }
  destruct (journal_area_record d1 sb (commit_record id (cache_entries cache)) (image d)) as [rest Hrest].
  { by eapply length_ready_record. }
  { lia. }
  { intros a Ha. rewrite Himg by (lia || apply Hlow; lia).
    rewrite apply_writes_app. apply apply_writes_other, entries_elsewhere; [lia|done]. }
  apply (crash_after_journal _ _ _ _ _ rest); [done|..]; unfold BAFS_PRIMARY_SUPERBLOCK_BLOCK_ADDRESS.
  - rewrite Himg by (lia || apply Hlow; lia). rewrite apply_writes_app.
    rewrite apply_writes_other by (apply entries_elsewhere; [lia|done]).
    apply apply_writes_other, chunks_elsewhere. lia.
  - intros a Ha Hnone. rewrite Himg; [|lia|].
    + rewrite apply_writes_app. rewrite apply_writes_other by (apply entries_elsewhere; [tauto|done]).
      apply apply_writes_other, chunks_elsewhere. lia.
    + intros [[b Hb]|Hb]%Htorn; [congruence|]. unfold BAFS_BACKUP_SUPERBLOCK_BLOCK_ADDRESS in Hb. lia.
Qed.

(** Every block is home and the backup superblock is written; only the primary
    may be lost. *)
Lemma all_home past :
  past = [] \/ past = [(BAFS_PRIMARY_SUPERBLOCK_BLOCK_ADDRESS, superblock_block (sb_set_transaction sb id))] ->
  (forall a, 0 <= a -> a <> BAFS_PRIMARY_SUPERBLOCK_BLOCK_ADDRESS ->
     image d1 a = apply_writes (chunks ++ cache_entries cache
       ++ [(BAFS_BACKUP_SUPERBLOCK_BLOCK_ADDRESS, superblock_block (sb_set_transaction sb id))] ++ past) (image d) a) ->
  (exists rest, journal_area d1 sb = commit_record id (cache_entries cache) ++ rest)
  /\ image d1 BAFS_BACKUP_SUPERBLOCK_BLOCK_ADDRESS = superblock_block (sb_set_transaction sb id)
  /\ (forall a, data_start <= a -> image d1 a = default (image d a) (cache !! a)).
Proof.
  intros Hpast Himg. pose proof (cr_layout _ _ _ _ Hcr) as [_ _ _ Hs Hn _ _].
  unfold BAFS_JOURNAL_START_BLOCK_ADDRESS, BAFS_PRIMARY_SUPERBLOCK_BLOCK_ADDRESS, BAFS_BACKUP_SUPERBLOCK_BLOCK_ADDRESS in *.
  assert (forall a, 0 <= a -> a <> 1 -> image d1 a
    = if a =? 2 then superblock_block (sb_set_transaction sb id)
      else default (apply_writes chunks (image d) a) (cache !! a)) as Hcase.
  { intros a Ha H1. rewrite Himg by done. rewrite !apply_writes_app.
    rewrite (apply_writes_other past) by (destruct Hpast as [-> | ->]; csimpl; clear -H1; set_solver).
    cbn [apply_writes]. destruct (Z.eqb_spec a 2); [done|]. apply apply_entries. }
  split; [|split].
  - apply (journal_area_record d1 sb _ (image d)); [by eapply length_ready_record|lia|].
    intros a Ha. rewrite Hcase by lia. destruct (Z.eqb_spec a 2); [lia|].
    destruct (cache !! a) as [b|] eqn:Hb; [|done]. apply (cr_home _ _ _ _ Hcr) in Hb. lia.
  - by rewrite Hcase by lia.
  - intros a Ha. rewrite Hcase by lia. destruct (Z.eqb_spec a 2); [lia|]. f_equal.
    apply apply_writes_other, chunks_elsewhere. lia.
Qed.

Lemma interrupted_crash_state :
  interrupted d (commit_writes sb id (cache_entries cache)) d1 -> crash_state d sb id cache d1.
Proof.
  intros (_ & past & todo & Hsplit & Himg). unfold commit_writes, superblock_writes in Hsplit.
  apply app_eq_app in Hsplit as (k & [[Hc Hrest]|[-> Hrest]]).
  - destruct k as [|[x b] k].
    + rewrite app_nil_r in Hc. simpl in Hrest. subst todo past.
      apply (crash_home [] (fun a => exists w, head (cache_entries cache ++ superblock_writes (sb_set_transaction sb id)) = Some w /\ a = w.1)).
      * by intros w ?%elem_of_nil.
      * intros a (w & Hh & ->). destruct (cache_entries cache) as [|[x b] l] eqn:El; [injection Hh as <-; by right|].
        injection Hh as <-. left. exists b. apply cache_entries_elem. rewrite El. left.
      * intros a Ha Ht. rewrite app_nil_r. apply Himg; [done|]. intros w Hw ->. apply Ht. by exists w.
    + apply crash_in_journal. intros a Ha Hnj. rewrite Himg; [|done|].
      * apply apply_writes_other. intros Hin. apply (chunks_elsewhere a Hnj). rewrite Hc, fmap_app. apply elem_of_app. by left.
      * rewrite Hrest. intros w [= <-] ->. apply (chunks_elsewhere x Hnj). rewrite Hc, fmap_app. apply elem_of_app. right. left.
  - apply app_eq_app in Hrest as (k' & [[He ->]|[-> Hs]]).
    + apply (crash_home k (fun a => exists w, head (k' ++ superblock_writes (sb_set_transaction sb id)) = Some w /\ a = w.1)).
      * intros w Hw. rewrite He. apply elem_of_app. by left.
      * intros a (w & Hh & ->). destruct k' as [|[x b] l]; [injection Hh as <-; by right|].
        injection Hh as <-. left. exists b. apply cache_entries_elem. rewrite He. apply elem_of_app. right. left.
      * intros a Ha Ht. apply Himg; [done|]. intros w Hw ->. apply Ht. by exists w.
    + destruct k' as [|w1 k'].
      { rewrite app_nil_r in Himg. simpl in Hs. subst todo.
        apply (crash_home (cache_entries cache) (fun a => a = BAFS_BACKUP_SUPERBLOCK_BLOCK_ADDRESS)); [done|by right|].
        intros a Ha Ht. apply Himg; [done|]. by intros w [= <-]. }
      injection Hs as <- Hs.
      destruct (all_home k') as ([rest Hrest] & Hback & Hdata); [| |by eapply crash_at_primary].
      { destruct k' as [|w2 [|w3 k']]; [by left|injection Hs as <- Hs; by right|done]. }
      intros a Ha H1. apply Himg; [done|]. intros w Hw ->. apply H1.
      destruct k' as [|w2 k']; [simpl in Hs; subst todo; by injection Hw as <-|].
      injection Hs as _ Hs. by destruct k', todo.
Qed.
End crash_cases.
End crash.

(** ** Recovery *)

Section recovery_laws.
Context `{BlockDeviceLaws D}.

Lemma recover_nothing d sb :
  device_up d -> volume_layout d sb ->
  parse_journal (journal_area d sb) (sb_last_committed_transaction_id sb) = Ok None ->
  recover_journal_on_mount (d, sb) = ((d, sb), Ok false).
Proof.
  intros Hup Hvl Hp. unfold recover_journal_on_mount, st_get. unfold st_bind at 1.
  rewrite (st_bind_lift _ _ _ (journal_area d sb)) by by apply read_journal_up.
  by rewrite (st_bind_lift _ _ _ None).
Qed.

Lemma replay_blocks_eq pre entries rest cursor d :
  cursor = len pre -> Forall entry_wf entries ->
  replay_blocks (pre ++ concat entries.*2 ++ rest) entries.*1 cursor d = write_blocks_home entries d.
Proof.
  intros Hc Hwf. revert pre cursor d Hc. induction Hwf as [|[a b] l (_ & _ & Hb) _ IH]; intros pre cursor d ->; [done|].
  csimpl. simpl in Hb. rewrite <- app_assoc. rewrite (st_bind_lift _ _ _ b); cycle 1.
  { rewrite get_slice_Ok by (rewrite ?length_app; lia). f_equal.
    rewrite Nat2Z.id, drop_app_length. replace (Z.to_nat 4096) with (length b) by lia. apply take_app_length. }
  unfold st_bind. destruct (device_write_block a b d) as [d1 [[]| | |]]; [|done..].
  rewrite app_assoc. apply IH. rewrite length_app. lia.
Qed.

Lemma replay_record id entries rest d :
  Forall entry_wf entries ->
  replay_blocks (commit_record id entries ++ rest) entries.*1 (20 + 8 * len entries) d = write_blocks_home entries d.
Proof.
  intros Hwf. unfold commit_record, record_body. rewrite <- !app_assoc.
  rewrite (app_assoc JOURNAL_COMMIT_RECORD_MAGIC), (app_assoc (JOURNAL_COMMIT_RECORD_MAGIC ++ _)),
    (app_assoc ((JOURNAL_COMMIT_RECORD_MAGIC ++ _) ++ _)).
  apply replay_blocks_eq; [|done]. rewrite !length_app, length_concat_le, !length_le_bytes, length_fmap. simpl length. lia.
Qed.

Lemma recover_replay d sb id entries rest :
  device_up d -> volume_layout d sb -> journal_area d sb = commit_record id entries ++ rest ->
  Forall entry_wf entries -> len entries < 2 ^ 32 -> is_u64 id -> sb_last_committed_transaction_id sb < id ->
  Forall (writable d) entries ->
  exists d', recover_journal_on_mount (d, sb) = ((d', seal_with_checksum (sb_set_transaction sb id)), Ok true)
    /\ device_up d' /\ length (content d') = length (content d)
    /\ forall a, 0 <= a ->
       image d' a = apply_writes (entries ++ superblock_writes (sb_set_transaction sb id)) (image d) a.
Proof.
  intros Hup Hvl Harea Hwf Hn Hid Hlast Hw.
  assert (sb_wf (sb_set_transaction sb id)) as Hwf' by (apply sb_wf_set_transaction; [apply Hvl|done]).
  destruct (write_blocks_home_up d (entries ++ superblock_writes (sb_set_transaction sb id)))
    as (d' & Hd' & Hup' & Hl & Himg); [done| |].
  { apply Forall_app. split; [done|]. by eapply superblock_writable. }
  exists d'. split; [|done]. unfold recover_journal_on_mount, st_get. unfold st_bind at 1.
  rewrite (st_bind_lift _ _ _ (journal_area d sb)) by by apply read_journal_up. rewrite Harea.
  rewrite (st_bind_lift _ _ _ (Some (id, entries.*1, 20 + 8 * len entries)))
    by by apply parse_record_new.
  apply write_blocks_home_app_inv in Hd' as (d1 & Hd1 & Hd').
  unfold on_device_part, st_zoom. unfold st_bind at 1. cbn [fst snd].
  rewrite replay_record, Hd1 by done. unfold st_modify. unfold st_bind at 1. unfold st_bind at 1.
  rewrite write_superblock_writes by done. by rewrite Hd'.
Qed.

(** A commit on a device that is up. *)
Lemma commit_transaction_correct d sb id cache :
  device_up d -> commit_ready d sb id cache ->
  exists d', commit_transaction {| transaction_id := id |} cache (d, sb)
             = ((d', seal_with_checksum (sb_set_transaction sb id)), Ok tt)
    /\ device_up d' /\ length (content d') = length (content d)
    /\ (exists rest, journal_area d' sb = commit_record id (cache_entries cache) ++ rest)
    /\ image d' BAFS_PRIMARY_SUPERBLOCK_BLOCK_ADDRESS = superblock_block (sb_set_transaction sb id)
    /\ image d' BAFS_BACKUP_SUPERBLOCK_BLOCK_ADDRESS = superblock_block (sb_set_transaction sb id)
    /\ forall a, sb_journal_start_block sb + sb_journal_size_in_blocks sb <= a ->
         image d' a = default (image d a) (cache !! a).
Proof.
  intros Hup Hcr. destruct (write_blocks_home_up d (commit_writes sb id (cache_entries cache)))
    as (d' & Hw & Hup' & Hl & Himg); [done|by eapply commit_writable|].
  exists d'. split; [apply commit_transaction_writes; try apply Hcr; done|]. do 2 (split; [done|]).
  destruct (all_home d d' sb id cache Hcr
    [(BAFS_PRIMARY_SUPERBLOCK_BLOCK_ADDRESS, superblock_block (sb_set_transaction sb id))])
    as (Harea & Hback & Hdata); [by right|by intros a Ha _; apply Himg|].
  split; [done|]. split; [|done].
  rewrite Himg by done. unfold commit_writes, superblock_writes. rewrite !apply_writes_app. done.
Qed.

(** With nothing dirty only the superblock is written. *)
Lemma commit_empty_correct d sb id :
  device_up d -> volume_layout d sb -> is_u64 id ->
  exists d', commit_transaction {| transaction_id := id |} ∅ (d, sb)
             = ((d', seal_with_checksum (sb_set_transaction sb id)), Ok tt)
    /\ device_up d' /\ length (content d') = length (content d)
    /\ image d' BAFS_PRIMARY_SUPERBLOCK_BLOCK_ADDRESS = superblock_block (sb_set_transaction sb id)
    /\ image d' BAFS_BACKUP_SUPERBLOCK_BLOCK_ADDRESS = superblock_block (sb_set_transaction sb id)
    /\ forall a, BAFS_JOURNAL_START_BLOCK_ADDRESS <= a -> image d' a = image d a.
Proof.
  intros Hup Hvl Hid.
  assert (sb_wf (sb_set_transaction sb id)) as Hwf' by (apply sb_wf_set_transaction; [apply Hvl|done]).
  destruct (write_blocks_home_up d (superblock_writes (sb_set_transaction sb id)))
    as (d' & Hw & Hup' & Hl & Himg); [done|by eapply superblock_writable|].
  exists d'. split.
  { unfold commit_transaction. destruct (decide (∅ = ∅)); [|done]. unfold st_modify. unfold st_bind at 1. cbn [transaction_id].
    rewrite write_superblock_writes by done. by rewrite Hw. }
  do 2 (split; [done|]). rewrite !Himg by done. do 2 (split; [done|]).
  unfold BAFS_JOURNAL_START_BLOCK_ADDRESS. intros a Ha. rewrite Himg by lia. apply apply_writes_other.
  unfold superblock_writes, BAFS_BACKUP_SUPERBLOCK_BLOCK_ADDRESS, BAFS_PRIMARY_SUPERBLOCK_BLOCK_ADDRESS. csimpl.
  rewrite !not_elem_of_cons. repeat split; [lia..|apply not_elem_of_nil].
Qed.

(** A journal with nothing newer than [last] has nothing newer than [id]. *)
Lemma parse_journal_mono buffer last id :
  last <= id -> parse_journal buffer last = Ok None -> parse_journal buffer id = Ok None.
Proof.
  intros Hle. unfold parse_journal. case_match; [done|].
  destruct (get_slice (E:=BafsError) buffer 0 8) as [magic| | |]; try done. cbn [obind].
  case_match; [done|]. destruct (get_le (E:=BafsError) buffer 8 8) as [t| | |]; try done. cbn [obind].
  destruct (Z.leb_spec t last), (Z.leb_spec t id); done || lia.
Qed.

Lemma read_superblock_image d a sb :
  device_up d -> on_device d a -> a * 8 < 2 ^ 64 -> sb_wf sb ->
  sb_magic_number sb = BAFS_MAGIC_NUMBER -> sb_version sb = BAFS_SUPPORTED_VERSION ->
  image d a = superblock_block sb ->
  read_superblock_from_device d a = Ok (seal_with_checksum sb).
Proof. apply read_superblock_block. Qed.

Lemma volume_layout_seal d sb : volume_layout d sb -> volume_layout d (seal_with_checksum sb).
Proof. intros []. constructor; try done. by apply sb_wf_seal. Qed.

Lemma volume_layout_set_transaction d sb id :
  is_u64 id -> volume_layout d sb -> volume_layout d (sb_set_transaction sb id).
Proof. intros ? []. constructor; try done. by apply sb_wf_set_transaction. Qed.

Lemma layout_on_device d sb a : volume_layout d sb -> 0 <= a <= 2 -> on_device d a.
Proof. intros [] ?. unfold BAFS_JOURNAL_START_BLOCK_ADDRESS in *. split; lia. Qed.
End recovery_laws.
