(* ===== verification/Volume.v ===== *)
(** * Volume: formatting, mounting and the operations on a mounted volume
    (src/src/volume.rs)

    A mounted volume is a record; an operation that takes [&mut BafsVolume] is a
    state transformer on it.  The tree operations run on the volume's dirty cache
    and block allocator through [on_cow], which gives them the caller's local
    vector of superseded blocks. *)

From S2P Require Import Prelude Checksum Device Superblock Node NodeCodec BTree BTreeInv BTreeWrite.
From S2P Require Import Inode Extent ChecksumTree XxHash Dir Journal.

(** ** Format options *)

Record BafsFormatOptions := { volume_uuid_lower : Z; volume_label : list Z }.

(** b"BAFS Volume" and 21 zero bytes *)
Definition BafsFormatOptions_default : BafsFormatOptions :=
  {| volume_uuid_lower := 0xBAF5000100000001;
     volume_label := [66; 65; 70; 83; 32; 86; 111; 108; 117; 109; 101] ++ replicate 21 0 |}.

(** [volume_label] reinterpreted as four little-endian words. *)
Definition label_words (label_bytes : list Z) : list Z := (next_les 4 8 label_bytes).1.

(** ** The mounted volume *)

Record BafsVolume (D : Type) := {
  device : D;
  superblock : BafsSuperblock;
  dirty_block_cache : gmap Z (list Z);
  next_transaction_id : Z;
  vol_next_free_block : Z;
}.
Arguments device {D}.
Arguments superblock {D}.
Arguments dirty_block_cache {D}.
Arguments next_transaction_id {D}.
Arguments vol_next_free_block {D}.

(** Assignments to fields of the superblock. *)
Definition sb_with (sb : BafsSuperblock) (free_count inodes inode_root free_root checksum_root next_cow : Z)
    : BafsSuperblock :=
  {| sb_magic_number := sb_magic_number sb; sb_version := sb_version sb;
     sb_block_size_in_bytes := sb_block_size_in_bytes sb;
     sb_total_block_count := sb_total_block_count sb; sb_free_block_count := free_count;
     sb_allocated_inode_count := inodes;
     sb_last_committed_transaction_id := sb_last_committed_transaction_id sb;
     sb_root_inode_number := sb_root_inode_number sb;
     sb_inode_tree_root_block := inode_root; sb_free_extent_tree_root_block := free_root;
     sb_checksum_tree_root_block := checksum_root;
     sb_journal_start_block := sb_journal_start_block sb;
     sb_journal_size_in_blocks := sb_journal_size_in_blocks sb;
     sb_volume_uuid := sb_volume_uuid sb; sb_volume_label := sb_volume_label sb;
     sb_feature_flags := sb_feature_flags sb; sb_checksum_algorithm := sb_checksum_algorithm sb;
     sb_next_cow_block_address := next_cow; sb_reserved := sb_reserved sb;
     sb_superblock_checksum := sb_superblock_checksum sb |}.

Definition sb_set_free_count (sb : BafsSuperblock) (n : Z) : BafsSuperblock :=
  sb_with sb n (sb_allocated_inode_count sb) (sb_inode_tree_root_block sb)
    (sb_free_extent_tree_root_block sb) (sb_checksum_tree_root_block sb) (sb_next_cow_block_address sb).
Definition sb_set_inode_count (sb : BafsSuperblock) (n : Z) : BafsSuperblock :=
  sb_with sb (sb_free_block_count sb) n (sb_inode_tree_root_block sb)
    (sb_free_extent_tree_root_block sb) (sb_checksum_tree_root_block sb) (sb_next_cow_block_address sb).
Definition sb_set_inode_root (sb : BafsSuperblock) (a : Z) : BafsSuperblock :=
  sb_with sb (sb_free_block_count sb) (sb_allocated_inode_count sb) a
    (sb_free_extent_tree_root_block sb) (sb_checksum_tree_root_block sb) (sb_next_cow_block_address sb).
Definition sb_set_free_root (sb : BafsSuperblock) (a : Z) : BafsSuperblock :=
  sb_with sb (sb_free_block_count sb) (sb_allocated_inode_count sb) (sb_inode_tree_root_block sb)
    a (sb_checksum_tree_root_block sb) (sb_next_cow_block_address sb).
Definition sb_set_checksum_root (sb : BafsSuperblock) (a : Z) : BafsSuperblock :=
  sb_with sb (sb_free_block_count sb) (sb_allocated_inode_count sb) (sb_inode_tree_root_block sb)
    (sb_free_extent_tree_root_block sb) a (sb_next_cow_block_address sb).
Definition sb_set_next_cow (sb : BafsSuperblock) (a : Z) : BafsSuperblock :=
  sb_with sb (sb_free_block_count sb) (sb_allocated_inode_count sb) (sb_inode_tree_root_block sb)
    (sb_free_extent_tree_root_block sb) (sb_checksum_tree_root_block sb) a.

(** ** Formatting *)

Section format.
Context {D : Type} `{BlockDevice D}.

(** The three trees, built in a fresh dirty cache: their roots. *)
Definition format_trees (device : D) (total_block_count format_inode_tree_root_block
    format_free_extent_tree_root_block format_checksum_tree_root_block : Z)
    : ST cow BafsError (Z * Z * Z) :=
  let format_generation := 1 in
  let! _ := create_empty_tree format_inode_tree_root_block format_generation in
  let! _ := create_empty_tree format_free_extent_tree_root_block format_generation in
  let! _ := create_empty_tree format_checksum_tree_root_block format_generation in
  let root_inode := new_directory BAFS_ROOT_INODE_NUMBER format_generation 0 in
  let! inode_root := write_inode_to_tree device format_inode_tree_root_block root_inode format_generation in
  let! c := st_get in
  let free_start_first_attempt := next_free_block c in
  let free_count_first_attempt := saturating_sub total_block_count free_start_first_attempt in
  if free_count_first_attempt =? 0 then st_err OutOfSpace
  else
    let! free_extent_root := insert_free_extent_into_tree device format_free_extent_tree_root_block
                               free_start_first_attempt free_count_first_attempt format_generation in
    let! c := st_get in
    if free_start_first_attempt <? next_free_block c then
      let! free_extent_root := delete_from_tree device free_extent_root
                                 (free_key free_start_first_attempt) format_generation in
      let! c := st_get in
      let free_start_final := next_free_block c in
      let free_count_final := saturating_sub total_block_count free_start_final in
      if 0 <? free_count_final then
        let! free_extent_root := insert_free_extent_into_tree device free_extent_root
                                   free_start_final free_count_final format_generation in
        st_ret (inode_root, free_extent_root, format_checksum_tree_root_block)
      else st_ret (inode_root, free_extent_root, format_checksum_tree_root_block)
    else st_ret (inode_root, free_extent_root, format_checksum_tree_root_block).

Definition format_superblock (options : BafsFormatOptions) (total_block_count final_free_block_count
    inode_root free_extent_root checksum_root journal_size_in_blocks next_free_block : Z) : BafsSuperblock :=
  {| sb_magic_number := BAFS_MAGIC_NUMBER; sb_version := BAFS_SUPPORTED_VERSION;
     sb_block_size_in_bytes := BAFS_DEFAULT_BLOCK_SIZE_BYTES;
     sb_total_block_count := total_block_count; sb_free_block_count := final_free_block_count;
     sb_allocated_inode_count := 1; sb_last_committed_transaction_id := 1;
     sb_root_inode_number := BAFS_ROOT_INODE_NUMBER; sb_inode_tree_root_block := inode_root;
     sb_free_extent_tree_root_block := free_extent_root; sb_checksum_tree_root_block := checksum_root;
     sb_journal_start_block := BAFS_JOURNAL_START_BLOCK_ADDRESS;
     sb_journal_size_in_blocks := journal_size_in_blocks;
     sb_volume_uuid := [volume_uuid_lower options; 0];
     sb_volume_label := label_words (volume_label options);
     sb_feature_flags := 0; sb_checksum_algorithm := BAFS_CHECKSUM_ALGORITHM_CRC32C;
     sb_next_cow_block_address := next_free_block; sb_reserved := replicate 348 0;
     sb_superblock_checksum := 0 |}.

(** Zero-fill [count] journal blocks from [block]. *)
Fixpoint zero_journal_blocks (count : nat) (block : Z) : ST D BafsError unit :=
  match count with
  | O => st_ret tt
  | S count =>
      let! _ := device_write_block block (zeros BAFS_DEFAULT_BLOCK_SIZE_BYTES) in
      zero_journal_blocks count (block + 1)
  end.

Definition bafs_format (options : BafsFormatOptions) : ST D BafsError unit :=
  let! device := st_get in
  let total_block_count := total_sector_count device / BAFS_SECTORS_PER_BLOCK in
  let journal_size_in_blocks := compute_journal_size_in_blocks total_block_count in
  let data_area_start_block := compute_data_area_start_block total_block_count in
  let format_first_allocatable_block := data_area_start_block + 3 in
  if total_block_count <? format_first_allocatable_block + 10 then st_err OutOfSpace
  else
    let '(c, trees) := format_trees device total_block_count data_area_start_block
                         (data_area_start_block + 1) (data_area_start_block + 2)
                         {| dirty_cache := ∅; next_free_block := format_first_allocatable_block;
                            freed_blocks := [] |} in
    let! (inode_root, free_extent_root, checksum_root) := st_lift trees in
    let final_free_block_count := saturating_sub total_block_count (next_free_block c) in
    let superblock := format_superblock options total_block_count final_free_block_count inode_root
                        free_extent_root checksum_root journal_size_in_blocks (next_free_block c) in
    let! _ := zero_journal_blocks (Z.to_nat journal_size_in_blocks) BAFS_JOURNAL_START_BLOCK_ADDRESS in
    let! _ := write_blocks_home (cache_entries (dirty_cache c)) in
    fun device => let '((device, _), r) := write_superblock_to_device (device, superblock) in (device, r).

(** ** Mounting and committing *)

(** The primary superblock, or the backup when the primary does not read. *)
Definition mount_superblock (device : D) : result BafsSuperblock :=
  match read_superblock_from_device device BAFS_PRIMARY_SUPERBLOCK_BLOCK_ADDRESS with
  | Err _ => read_superblock_from_device device BAFS_BACKUP_SUPERBLOCK_BLOCK_ADDRESS
  | r => r
  end.

(** The device is behind a shared reference: it is part of the outcome. *)
Definition bafs_mount (device : D) : D * result (BafsVolume D) :=
  match mount_superblock device with
  | Ok superblock =>
      let '((device, superblock), r) := recover_journal_on_mount (device, superblock) in
      (device,
       let? _ := r in
       let? next_id := checked_add 64 (sb_last_committed_transaction_id superblock) 1 in
       Ok {| device := device; superblock := superblock; dirty_block_cache := ∅;
             next_transaction_id := next_id;
             vol_next_free_block := sb_next_cow_block_address superblock |})
  | Err e => (device, Err e)
  | Panic => (device, Panic)
  | OutOfFuel => (device, OutOfFuel)
  end.
End format.

(** ** State of the operations *)

Section volume.
Context {D : Type} `{BlockDevice D}.
Implicit Types v : BafsVolume D.

Abbreviation VOL := (ST (BafsVolume D) BafsError).

Definition vol_set_superblock v (sb : BafsSuperblock) : BafsVolume D :=
  {| device := device v; superblock := sb; dirty_block_cache := dirty_block_cache v;
     next_transaction_id := next_transaction_id v; vol_next_free_block := vol_next_free_block v |}.

Definition vol_cow v (freed : list Z) : cow :=
  {| dirty_cache := dirty_block_cache v; next_free_block := vol_next_free_block v; freed_blocks := freed |}.

Definition vol_set_cow v (c : cow) : BafsVolume D :=
  {| device := device v; superblock := superblock v; dirty_block_cache := dirty_cache c;
     next_transaction_id := next_transaction_id v; vol_next_free_block := next_free_block c |}.

Definition modify_superblock (f : BafsSuperblock -> BafsSuperblock) : VOL unit :=
  st_modify (fun v => vol_set_superblock v (f (superblock v))).

(** A tree operation with [&mut volume.dirty_block_cache], [&mut
    volume.next_free_block] and the caller's vector [freed]: the result and the
    vector afterwards. *)
Definition on_cow {A} (freed : list Z) (m : ST cow BafsError A) : VOL (A * list Z) :=
  fun v =>
    let '(c, r) := m (vol_cow v freed) in
    (vol_set_cow v c, let? a := r in Ok (a, freed_blocks c)).

Definition flush_and_commit : VOL unit :=
  let! v := st_get in
  let! _ := modify_superblock (fun sb => sb_set_next_cow sb (vol_next_free_block v)) in
  let transaction := begin_transaction (next_transaction_id v) in
  let! _ := st_zoom (fun v => (device v, superblock v))
              (fun v s => {| device := s.1; superblock := s.2; dirty_block_cache := dirty_block_cache v;
                             next_transaction_id := next_transaction_id v;
                             vol_next_free_block := vol_next_free_block v |})
              (commit_transaction transaction (dirty_block_cache v)) in
  let! next_id := st_lift (checked_add 64 (next_transaction_id v) 1) in
  st_modify (fun v => {| device := device v; superblock := superblock v; dirty_block_cache := ∅;
                         next_transaction_id := next_id;
                         vol_next_free_block := vol_next_free_block v |}).

(** The volume is consumed; its device remains. *)
Definition bafs_unmount (v : BafsVolume D) : D * result unit :=
  let '(v, r) := flush_and_commit v in (device v, r).

(** ** Superseded blocks *)

(** The loop over [freed_blocks]: the secondary freed blocks. *)
Fixpoint return_freed_loop (committed_boundary generation : Z) (freed_blocks secondary_freed : list Z)
    : VOL (list Z) :=
  match freed_blocks with
  | [] => st_ret secondary_freed
  | block_address :: rest =>
      if committed_boundary <=? block_address
      then return_freed_loop committed_boundary generation rest secondary_freed
      else
        let! v := st_get in
        let! (new_root, secondary_freed) :=
          on_cow secondary_freed
            (free_blocks (device v) (sb_free_extent_tree_root_block (superblock v)) block_address 1
               generation) in
        let! _ := modify_superblock (fun sb => sb_set_free_root sb new_root) in
        let! free_block_count := st_lift (checked_add 64 (sb_free_block_count (superblock v)) 1) in
        let! _ := modify_superblock (fun sb => sb_set_free_count sb free_block_count) in
        return_freed_loop committed_boundary generation rest secondary_freed
  end.

Fixpoint return_freed_levels (fuel : nat) (freed_blocks : list Z) : VOL unit :=
  match freed_blocks, fuel with
  | [], _ => st_ret tt
  | _, O => st_lift OutOfFuel
  | _, S fuel =>
      let! v := st_get in
      let! secondary_freed :=
        return_freed_loop (sb_next_cow_block_address (superblock v)) (next_transaction_id v)
          freed_blocks [] in
      return_freed_levels fuel secondary_freed
  end.

(** Every level below the first removes a committed block from the free-extent
    tree or ends the recursion, so the committed boundary bounds the depth. *)
Definition return_freed_cow_blocks_to_free_extent_tree (freed_blocks : list Z) : VOL unit :=
  let! v := st_get in
  return_freed_levels (3 + Z.to_nat (sb_next_cow_block_address (superblock v))) freed_blocks.

(** ** Data blocks *)

(** The loop over the blocks of [data] from [this_block_address] on. *)
Fixpoint write_data_blocks (fuel : nat) (generation : Z) (data : list Z) (this_block_address : Z)
    (freed_blocks : list Z) : VOL (list Z) :=
  match data, fuel with
  | [], _ => st_ret freed_blocks
  | _, O => st_lift OutOfFuel
  | _, S fuel =>
      let chunk := take (Z.to_nat BAFS_DEFAULT_BLOCK_SIZE_BYTES) data in
      let! block_buffer := st_lift (put_slice (zeros BAFS_DEFAULT_BLOCK_SIZE_BYTES) 0 chunk) in
      let! (_, freed_blocks) := on_cow freed_blocks (write_block_to_cache this_block_address block_buffer) in
      let! v := st_get in
      let! (new_checksum_root, freed_blocks) :=
        on_cow freed_blocks
          (store_data_block_checksum (device v) (sb_checksum_tree_root_block (superblock v))
             this_block_address block_buffer generation) in
      let! _ := modify_superblock (fun sb => sb_set_checksum_root sb new_checksum_root) in
      write_data_blocks fuel generation (drop (Z.to_nat BAFS_DEFAULT_BLOCK_SIZE_BYTES) data)
        (this_block_address + 1) freed_blocks
  end.

(** [data.len().div_ceil(block_size)] *)
Definition block_count_for (data : list Z) : Z :=
  (len data + (BAFS_DEFAULT_BLOCK_SIZE_BYTES - 1)) / BAFS_DEFAULT_BLOCK_SIZE_BYTES.

Definition allocate_and_write_data_blocks (data : list Z) : VOL Z :=
  let! v := st_get in
  let generation := next_transaction_id v in
  let block_count_needed := block_count_for data in
  if block_count_needed =? 0 then st_err InvalidArgument
  else
    let total_blocks := sb_total_block_count (superblock v) in
    let! end_block := st_lift (checked_add 64 (vol_next_free_block v) block_count_needed) in
    if total_blocks <? end_block then st_err OutOfSpace
    else
      let allocated_block_address := vol_next_free_block v in
      let! _ := st_modify (fun v => vol_set_cow v {| dirty_cache := dirty_block_cache v;
                  next_free_block := end_block; freed_blocks := [] |}) in
      let! _ := modify_superblock (fun sb =>
                  sb_set_free_count sb (saturating_sub (sb_free_block_count sb) block_count_needed)) in
      let! freed_blocks := write_data_blocks (Z.to_nat block_count_needed) generation data
                             allocated_block_address [] in
      let! _ := return_freed_cow_blocks_to_free_extent_tree freed_blocks in
      st_ret allocated_block_address.

(** ** Inodes *)

Definition volume_read_inode v (inode_number : Z) : result BafsInode :=
  read_inode_from_tree (device v) (dirty_block_cache v) (sb_inode_tree_root_block (superblock v))
    inode_number.

Definition volume_write_inode (inode : BafsInode) : VOL unit :=
  let! v := st_get in
  let generation := next_transaction_id v in
  let! (new_root, freed_blocks) :=
    on_cow [] (write_inode_to_tree (device v) (sb_inode_tree_root_block (superblock v)) inode generation) in
  let! _ := modify_superblock (fun sb => sb_set_inode_root sb new_root) in
  return_freed_cow_blocks_to_free_extent_tree freed_blocks.

Definition volume_allocate_inode_number : VOL Z :=
  let! v := st_get in
  let! new_inode_number :=
    st_lift (allocate_next_inode_number (sb_allocated_inode_count (superblock v))) in
  let! _ := modify_superblock (fun sb => sb_set_inode_count sb new_inode_number) in
  st_ret new_inode_number.

(** ** Creating files and directories *)

(** What [volume_create_file] and [volume_create_directory] have in common: the
    constructor of the new inode and the entry's type differ. *)
Definition volume_create_entry (new_inode : Z -> Z -> Z -> BafsInode) (child_type parent_inode_number : Z)
    (filename : list Z) : VOL Z :=
  let! v := st_get in
  let generation := next_transaction_id v in
  let! parent_inode := st_lift (volume_read_inode v parent_inode_number) in
  if negb (is_directory parent_inode) then st_err NotADirectory
  else
    let! new_inode_number := volume_allocate_inode_number in
    let! _ := volume_write_inode (new_inode new_inode_number generation 0) in
    let! v := st_get in
    let! (new_inode_root, freed_blocks) :=
      on_cow [] (directory_create_entry (device v) (sb_inode_tree_root_block (superblock v))
                   parent_inode_number filename new_inode_number child_type generation) in
    let! _ := modify_superblock (fun sb => sb_set_inode_root sb new_inode_root) in
    let! _ := return_freed_cow_blocks_to_free_extent_tree freed_blocks in
    st_ret new_inode_number.

Definition volume_create_file : Z -> list Z -> VOL Z :=
  volume_create_entry new_regular_file CHILD_TYPE_REGULAR_FILE.

Definition volume_create_directory : Z -> list Z -> VOL Z :=
  volume_create_entry new_directory CHILD_TYPE_DIRECTORY.

(** ** File data *)

Definition inode_set_data (inode : BafsInode) (size blocks generation : Z) : BafsInode :=
  {| inode_number := inode_number inode; file_size_in_bytes := size; allocated_block_count := blocks;
     inode_generation := generation; creation_time_nanoseconds := creation_time_nanoseconds inode;
     modification_time_nanoseconds := modification_time_nanoseconds inode;
     status_change_time_nanoseconds := status_change_time_nanoseconds inode;
     access_time_nanoseconds := access_time_nanoseconds inode; posix_mode := posix_mode inode;
     owner_uid := owner_uid inode; owner_gid := owner_gid inode; hard_link_count := hard_link_count inode;
     inode_flags := inode_flags inode; compression_algorithm := compression_algorithm inode;
     encryption_key_id := encryption_key_id inode; inode_reserved := inode_reserved inode |}.

Definition volume_write_file_data (file_inode_number write_offset_bytes : Z) (data : list Z) : VOL Z :=
  if len data =? 0 then st_ret 0
  else
    let! v := st_get in
    let generation := next_transaction_id v in
    let! file_inode := st_lift (volume_read_inode v file_inode_number) in
    if negb (is_regular_file file_inode) then st_err NotARegularFile
    else
      let! first_allocated_block := allocate_and_write_data_blocks data in
      let block_count_allocated := block_count_for data in
      let extent := {| logical_byte_offset := write_offset_bytes;
                       first_disk_block := first_allocated_block;
                       block_count := block_count_allocated; extent_flags := 0; extent_reserved := 0 |} in
      let! v := st_get in
      let! (new_inode_root, freed_blocks) :=
        on_cow [] (write_extent_data_to_inode_tree (device v) (sb_inode_tree_root_block (superblock v))
                     file_inode_number extent generation) in
      let! _ := modify_superblock (fun sb => sb_set_inode_root sb new_inode_root) in
      let! _ := return_freed_cow_blocks_to_free_extent_tree freed_blocks in
      let! end_offset := st_lift (checked_add 64 write_offset_bytes (len data)) in
      let new_size := Z.max end_offset (file_size_in_bytes file_inode) in
      let! blocks := st_lift (checked_add 64 (allocated_block_count file_inode) block_count_allocated) in
      let! _ := volume_write_inode (inode_set_data file_inode new_size blocks generation) in
      st_ret (len data).

(** The [while] loop of [volume_read_file_data]; the state is the destination
    buffer. *)
Fixpoint read_file_loop (fuel : nat) v (file_inode_number read_offset_bytes bytes_to_read
    bytes_read_so_far : Z) : ST (list Z) BafsError Z :=
  if bytes_to_read <=? bytes_read_so_far then st_ret bytes_read_so_far
  else
    match fuel with
    | O => st_lift OutOfFuel
    | S fuel =>
        let! current_offset := st_lift (checked_add 64 read_offset_bytes bytes_read_so_far) in
        let! found :=
          st_lift (read_extent_data_for_file_offset (device v) (dirty_block_cache v)
                     (sb_inode_tree_root_block (superblock v)) file_inode_number current_offset) in
        let! extent := st_lift (match found with Some e => Ok e | None => Err CorruptedStructure end) in
        let! offset_within_extent := st_lift (checked_sub current_offset (logical_byte_offset extent)) in
        let block_index_within_extent := offset_within_extent / BAFS_DEFAULT_BLOCK_SIZE_BYTES in
        let offset_within_block := offset_within_extent mod BAFS_DEFAULT_BLOCK_SIZE_BYTES in
        let! block_address :=
          st_lift (checked_add 64 (first_disk_block extent) block_index_within_extent) in
        let! block_data := st_lift (read_block (device v) (dirty_block_cache v) block_address) in
        let! _ :=
          st_lift (verify_data_block_checksum (device v) (dirty_block_cache v)
                     (sb_checksum_tree_root_block (superblock v)) block_address block_data) in
        let bytes_available_in_block := BAFS_DEFAULT_BLOCK_SIZE_BYTES - offset_within_block in
        let bytes_to_copy_from_block :=
          Z.min bytes_available_in_block (bytes_to_read - bytes_read_so_far) in
        let! destination_buffer := st_get in
        let! destination_buffer :=
          st_lift (let? source := get_slice block_data offset_within_block bytes_to_copy_from_block in
                   put_slice destination_buffer bytes_read_so_far source) in
        let! _ := st_modify (fun _ => destination_buffer) in
        read_file_loop fuel v file_inode_number read_offset_bytes bytes_to_read
          (bytes_read_so_far + bytes_to_copy_from_block)
    end.

Definition volume_read_file_data v (file_inode_number read_offset_bytes : Z) : ST (list Z) BafsError Z :=
  let! destination_buffer := st_get in
  if len destination_buffer =? 0 then st_ret 0
  else
    let! file_inode := st_lift (volume_read_inode v file_inode_number) in
    if negb (is_regular_file file_inode) then st_err NotARegularFile
    else
      let file_size := file_size_in_bytes file_inode in
      if file_size <=? read_offset_bytes then st_ret 0
      else
        let bytes_available := file_size - read_offset_bytes in
        let bytes_to_read := Z.min (len destination_buffer) bytes_available in
        read_file_loop (Z.to_nat bytes_to_read) v file_inode_number read_offset_bytes bytes_to_read 0.

(** ** Directories *)

Definition volume_lookup_directory_entry v (directory_inode_number : Z) (filename : list Z)
    : result (option Z) :=
  let? dir_inode := volume_read_inode v directory_inode_number in
  if negb (is_directory dir_inode) then Err NotADirectory
  else
    let? found := directory_lookup_entry (device v) (dirty_block_cache v)
                    (sb_inode_tree_root_block (superblock v)) directory_inode_number filename in
    Ok (child_inode_number <$> found).

Definition volume_read_directory_entry_at_index v (directory_inode_number : Z) (index : nat)
    : result (option BafsDirEntry) :=
  directory_iterate (device v) (dirty_block_cache v) (sb_inode_tree_root_block (superblock v))
    directory_inode_number index.

Definition inode_set_links (inode : BafsInode) (links : Z) : BafsInode :=
  {| inode_number := inode_number inode; file_size_in_bytes := file_size_in_bytes inode;
     allocated_block_count := allocated_block_count inode;
     inode_generation := inode_generation inode;
     creation_time_nanoseconds := creation_time_nanoseconds inode;
     modification_time_nanoseconds := modification_time_nanoseconds inode;
     status_change_time_nanoseconds := status_change_time_nanoseconds inode;
     access_time_nanoseconds := access_time_nanoseconds inode; posix_mode := posix_mode inode;
     owner_uid := owner_uid inode; owner_gid := owner_gid inode; hard_link_count := links;
     inode_flags := inode_flags inode; compression_algorithm := compression_algorithm inode;
     encryption_key_id := encryption_key_id inode; inode_reserved := inode_reserved inode |}.

(** The loop over the extent items of an unlinked file: the data blocks return to
    the free pool and the records leave the inode tree. *)
Fixpoint unlink_extents (generation : Z) (extent_items : list BafsLeafItem)
    (inode_root free_extent_root : Z) (unlink_freed_blocks : list Z) : VOL (Z * Z * list Z) :=
  match extent_items with
  | [] => st_ret (inode_root, free_extent_root, unlink_freed_blocks)
  | extent_item :: rest =>
      let! extent := st_lift (deserialise_extent_data_from_bytes (li_value extent_item)) in
      let! v := st_get in
      let! (free_extent_root, unlink_freed_blocks) :=
        on_cow unlink_freed_blocks
          (free_blocks (device v) free_extent_root (first_disk_block extent) (block_count extent)
             generation) in
      let! (inode_root, unlink_freed_blocks) :=
        on_cow unlink_freed_blocks
          (delete_from_tree (device v) inode_root (li_key extent_item) generation) in
      unlink_extents generation rest inode_root free_extent_root unlink_freed_blocks
  end.

(** The branch of [volume_unlink_directory_entry] for the last link. *)
Definition unlink_last_link (generation child_number : Z) (child_inode : BafsInode)
    (unlink_freed_blocks : list Z) : VOL (list Z) :=
  let! v := st_get in
  let! extent_items :=
    st_lift (iterate_tree_range (device v) (dirty_block_cache v) (sb_inode_tree_root_block (superblock v))
               (extent_key child_number 0) (extent_key child_number (2 ^ 64 - 1))) in
  let! (inode_root, free_extent_root, unlink_freed_blocks) :=
    unlink_extents generation extent_items (sb_inode_tree_root_block (superblock v))
      (sb_free_extent_tree_root_block (superblock v)) unlink_freed_blocks in
  let! (inode_root, unlink_freed_blocks) :=
    on_cow unlink_freed_blocks
      (delete_from_tree (device v) inode_root (inode_key child_number) generation) in
  let! _ := modify_superblock (fun sb =>
              sb_set_free_count (sb_set_free_root (sb_set_inode_root sb inode_root) free_extent_root)
                (saturating_add 64 (sb_free_block_count sb) (allocated_block_count child_inode))) in
  st_ret unlink_freed_blocks.

Definition volume_unlink_directory_entry (directory_inode_number : Z) (filename : list Z) : VOL unit :=
  let! v := st_get in
  let generation := next_transaction_id v in
  let! found := st_lift (directory_lookup_entry (device v) (dirty_block_cache v)
                           (sb_inode_tree_root_block (superblock v)) directory_inode_number filename) in
  let! child_entry := st_lift (match found with Some e => Ok e | None => Err NotFound end) in
  let! (new_inode_root, unlink_freed_blocks) :=
    on_cow [] (directory_unlink_entry (device v) (sb_inode_tree_root_block (superblock v))
                 directory_inode_number filename generation) in
  let! _ := modify_superblock (fun sb => sb_set_inode_root sb new_inode_root) in
  let! v := st_get in
  let! child_inode := st_lift (volume_read_inode v (child_inode_number child_entry)) in
  let child_inode := inode_set_links child_inode (saturating_sub (hard_link_count child_inode) 1) in
  let! unlink_freed_blocks :=
    if hard_link_count child_inode =? 0
    then unlink_last_link generation (child_inode_number child_entry) child_inode unlink_freed_blocks
    else
      let! _ := volume_write_inode child_inode in
      st_ret unlink_freed_blocks in
  return_freed_cow_blocks_to_free_extent_tree unlink_freed_blocks.
End volume.
