(* ===== verification/FileModel.v ===== *)
(** * FileModel: the contents of a file

    What a file holds, as volume.rs writes it: every write adds a segment of whole
    blocks at its byte offset, replacing a segment at the same offset, and a read
    takes each byte from the first segment, in the order of offsets, that covers
    it. *)

From S2P Require Import Prelude Checksum Device Superblock Node BTree Inode Extent ChecksumTree Dir Journal Volume.

(** ** Files *)

(** The size, the blocks all writes have taken, and the segments: byte offsets with
    the bytes of whole blocks. *)
Record file := { file_size : Z; file_blocks : Z; file_segments : list (Z * list Z) }.

Definition new_file : file := {| file_size := 0; file_blocks := 0; file_segments := [] |}.

Definition covers (o : Z) (seg : Z * list Z) : Prop := seg.1 <= o < seg.1 + len seg.2.

#[global] Instance covers_dec o seg : Decision (covers o seg).
Proof. unfold covers. apply _. Defined.

(** The byte at offset [o] in the first segment that covers it. *)
Fixpoint byte_at (segs : list (Z * list Z)) (o : Z) : option Z :=
  match segs with
  | [] => None
  | seg :: segs => if decide (covers o seg) then seg.2 !! Z.to_nat (o - seg.1) else byte_at segs o
  end.

(** [count] bytes from [off] on, if all of them are covered. *)
Definition file_read (f : file) (off count : Z) : option (list Z) :=
  mapM (byte_at (file_segments f)) (seqZ off count).

Fixpoint put_segment (seg : Z * list Z) (segs : list (Z * list Z)) : list (Z * list Z) :=
  match segs with
  | [] => [seg]
  | seg' :: segs' =>
      if seg.1 <? seg'.1 then seg :: segs
      else if seg.1 =? seg'.1 then seg :: segs'
      else seg' :: put_segment seg segs'
  end.

(** The blocks of [data], the last one filled with zeros. *)
Definition padded (data : list Z) : list Z := data ++ zeros (4096 * block_count_for data - len data).

Definition file_write (off : Z) (data : list Z) (f : file) : file :=
  {| file_size := Z.max (off + len data) (file_size f); file_blocks := file_blocks f + block_count_for data;
     file_segments := put_segment (off, padded data) (file_segments f) |}.

(** The segments are ordered by their offsets. *)
Abbreviation ordered segs := (StronglySorted Z.lt (segs.*1 : list Z)).

(** ** Reading *)

Lemma file_read_Some f off count l :
  file_read f off count = Some l <-> len l = Z.max 0 count
    /\ forall i, 0 <= i < count -> byte_at (file_segments f) (off + i) = l !! Z.to_nat i.
Proof.
  unfold file_read. rewrite mapM_Some, Forall2_lookup. split.
  - intros Hall. assert (length l = Z.to_nat count) as Hlen.
    { rewrite <- (length_seqZ off count). symmetry. apply (Forall2_length (fun x y => byte_at (file_segments f) x = Some y)).
      by apply Forall2_lookup. }
    split; [lia|]. intros i Hi. specialize (Hall (Z.to_nat i)). rewrite lookup_seqZ_lt in Hall by lia.
    inversion Hall as [x y Hxy|]; subst. rewrite <- Hxy. f_equal. lia.
  - intros [Hlen Hb] i. destruct (decide (Z.of_nat i < count)) as [Hi|Hi].
    + rewrite lookup_seqZ_lt by lia. destruct (lookup_lt_is_Some_2 l i) as [y Hy]; [lia|]. rewrite Hy. constructor.
      rewrite Hb by lia. by rewrite Nat2Z.id.
    + rewrite lookup_seqZ_ge by lia. rewrite (proj2 (lookup_ge_None l i)) by lia. constructor.
Qed.

Lemma file_read_None f off count o :
  off <= o < off + count -> byte_at (file_segments f) o = None -> file_read f off count = None.
Proof.
  intros Ho Hb. destruct (file_read f off count) as [l|] eqn:E; [|done]. apply file_read_Some in E as [Hlen Hall].
  specialize (Hall (o - off) ltac:(lia)). replace (off + (o - off)) with o in Hall by lia. rewrite Hb in Hall.
  symmetry in Hall. apply lookup_ge_None in Hall. lia.
Qed.

Lemma file_read_app f off r k l1 l2 :
  0 <= r -> 0 <= k -> file_read f off r = Some l1 -> file_read f (off + r) k = Some l2 ->
  file_read f off (r + k) = Some (l1 ++ l2).
Proof.
  intros Hr Hk [Hl1 H1]%file_read_Some [Hl2 H2]%file_read_Some. apply file_read_Some. rewrite length_app. split; [lia|].
  intros i Hi. destruct (decide (i < r)).
  - rewrite lookup_app_l by lia. by apply H1; lia.
  - rewrite lookup_app_r by lia. replace (off + i) with (off + r + (i - r)) by lia. rewrite H2 by lia. f_equal. lia.
Qed.

Lemma file_read_length f off count l : 0 <= count -> file_read f off count = Some l -> len l = count.
Proof. intros Hc [Hl _]%file_read_Some. lia. Qed.

Lemma file_read_max f off count : file_read f off (Z.max 0 count) = file_read f off count.
Proof. unfold file_read, seqZ. do 3 f_equal. lia. Qed.

Lemma byte_at_Some segs o b :
  byte_at segs o = Some b -> exists seg, seg ∈ segs /\ covers o seg /\ seg.2 !! Z.to_nat (o - seg.1) = Some b.
Proof.
  induction segs as [|seg segs IH]; simpl; [done|]. destruct (decide (covers o seg)).
  - intros Hb. exists seg. split; [left|done].
  - intros (seg' & Hin & Hc)%IH. exists seg'. split; [by right|done].
Qed.

Lemma byte_at_uncovered segs o : (forall seg, seg ∈ segs -> ~ covers o seg) -> byte_at segs o = None.
Proof.
  intros Hno. destruct (byte_at segs o) eqn:E; [|done]. apply byte_at_Some in E as (seg & Hin & Hc & _). by apply Hno in Hin.
Qed.

(** The first segment that covers [o], in the order of offsets, covers what follows
    up to its end. *)
Lemma byte_at_covering segs1 seg segs2 o o' :
  ordered (segs1 ++ seg :: segs2) -> Forall (fun s => ~ covers o s) segs1 -> covers o seg -> o <= o' -> covers o' seg ->
  byte_at (segs1 ++ seg :: segs2) o' = seg.2 !! Z.to_nat (o' - seg.1).
Proof.
  intros Hs Hno Hc Ho Hc'. induction segs1 as [|s segs1 IH]; simpl.
  - by rewrite decide_True.
  - csimpl in Hs. apply StronglySorted_inv in Hs as [Hs Hall]. apply Forall_cons in Hno as [Hn Hno].
    rewrite decide_False; [by apply IH|]. unfold covers in *. rewrite Forall_forall in Hall.
    specialize (Hall seg.1). rewrite fmap_app in Hall. csimpl in Hall. specialize (Hall ltac:(apply elem_of_app; right; left)). lia.
Qed.

(** ** Writing *)

Lemma put_segment_elem seg segs x :
  ordered segs -> x ∈ put_segment seg segs <-> x = seg \/ x ∈ segs /\ x.1 <> seg.1.
Proof.
  induction segs as [|s segs IH]; intros Hs; simpl; [rewrite list_elem_of_singleton, elem_of_nil; tauto|].
  csimpl in Hs. apply StronglySorted_inv in Hs as [Hs Hall].
  assert (forall y, y ∈ segs -> s.1 < y.1) as Hlt.
  { intros y Hy. rewrite Forall_fmap, Forall_forall in Hall. by apply Hall. }
  destruct (Z.ltb_spec seg.1 s.1); [|destruct (Z.eqb_spec seg.1 s.1)]; rewrite !elem_of_cons.
  - split; [|tauto]. intros [->|[->|Hx]]; [by left|right..]; (split; [tauto|]); [lia|]. apply Hlt in Hx. lia.
  - split; [|intros [->|[[->|Hx] Hne]]; [by left|lia|by right]]. intros [->|Hx]; [by left|right]. split; [tauto|]. apply Hlt in Hx. lia.
  - rewrite IH by done. split; [|tauto]. intros [->|[->|[Hx Hne]]]; [right|by left|by right; tauto]. split; [by left|lia].
Qed.

Lemma put_segment_ordered seg segs : ordered segs -> ordered (put_segment seg segs).
Proof.
  induction segs as [|s segs IH]; intros Hs; simpl; [repeat constructor|]. pose proof Hs as Hs'.
  csimpl in Hs. apply StronglySorted_inv in Hs as [Hs Hall].
  destruct (Z.ltb_spec seg.1 s.1); [|destruct (Z.eqb_spec seg.1 s.1) as [E|]]; csimpl.
  - constructor; [done|]. constructor; [done|]. eapply Forall_impl; [exact Hall|]. simpl. lia.
  - constructor; [done|]. by rewrite E.
  - constructor; [by apply IH|]. rewrite Forall_fmap, Forall_forall in *. intros x Hx.
    apply put_segment_elem in Hx as [->|[Hx _]]; [simpl; lia|by apply Hall|done].
Qed.

Lemma put_segment_last seg segs :
  Forall (fun s => s.1 < seg.1) segs -> put_segment seg segs = segs ++ [seg].
Proof.
  induction 1 as [|s segs Hs _ IH]; simpl; [done|]. destruct (Z.ltb_spec seg.1 s.1), (Z.eqb_spec seg.1 s.1); try lia. by rewrite IH.
Qed.

(** What a new segment shows: behind the segments that start before it, in place of
    the one that starts with it, and before the others. *)
Lemma byte_at_put seg segs o :
  ordered segs ->
  byte_at (put_segment seg segs) o =
    if decide (Exists (fun s => s.1 < seg.1 /\ covers o s) segs) then byte_at segs o
    else if decide (covers o seg) then seg.2 !! Z.to_nat (o - seg.1)
    else byte_at (filter (fun s => s.1 <> seg.1) segs) o.
Proof.
  induction segs as [|s segs IH]; intros Hs; [done|]. cbn [put_segment].
  csimpl in Hs. apply StronglySorted_inv in Hs as [Hs Hall]. specialize (IH Hs).
  assert (forall y, y ∈ segs -> s.1 < y.1) as Hlt.
  { intros y Hy. rewrite Forall_fmap, Forall_forall in Hall. by apply Hall. }
  assert (seg.1 <= s.1 -> ~ Exists (fun s => s.1 < seg.1 /\ covers o s) segs) as Hnone.
  { intros Hle (y & Hy & Hy1 & _)%Exists_exists. apply Hlt in Hy. lia. }
  assert (seg.1 <= s.1 -> filter (fun s => s.1 <> seg.1) segs = segs) as Hkeep.
  { intros Hle. apply filter_all, Forall_forall. intros y Hy. apply Hlt in Hy. lia. }
  destruct (Z.ltb_spec seg.1 s.1) as [H1|H1]; [|destruct (Z.eqb_spec seg.1 s.1) as [H2|H2]].
  - rewrite (decide_False (P := Exists _ _)).
    + rewrite filter_cons_True, Hkeep by lia. done.
    + rewrite Exists_cons. intros [[? _]|H]; [lia|]. by apply Hnone in H; [|lia].
  - rewrite (decide_False (P := Exists _ _)).
    + rewrite filter_cons_False, Hkeep by lia. done.
    + rewrite Exists_cons. intros [[? _]|H]; [lia|]. by apply Hnone in H; [|lia].
  - rewrite filter_cons_True by lia. cbn [byte_at]. destruct (decide (covers o s)) as [Hc|Hc].
    + rewrite decide_True; [done|]. apply Exists_cons. left. split; [lia|done].
    + rewrite IH. destruct (decide (Exists (fun s => s.1 < seg.1 /\ covers o s) segs)) as [He|He].
      * rewrite (decide_True (P := Exists _ (s :: segs))); [done|]. by apply Exists_cons; right.
      * rewrite (decide_False (P := Exists _ (s :: segs))); [done|]. rewrite Exists_cons. tauto.
Qed.

Lemma block_count_for_bounds data :
  4096 * (block_count_for data - 1) < len data <= 4096 * block_count_for data.
Proof.
  unfold block_count_for. pose proof (Z.div_mod (len data + (4096 - 1)) 4096 ltac:(done)).
  pose proof (Z.mod_pos_bound (len data + (4096 - 1)) 4096 ltac:(done)). lia.
Qed.

Lemma length_padded data : len (padded data) = 4096 * block_count_for data.
Proof. unfold padded. rewrite length_app, length_zeros. pose proof (block_count_for_bounds data). lia. Qed.

(** The bytes written, where no segment that starts before them covers them. *)
Lemma file_read_written f off data :
  ordered (file_segments f) -> 0 <= off ->
  (forall seg, seg ∈ file_segments f -> seg.1 < off -> seg.1 + len seg.2 <= off) ->
  file_read (file_write off data f) off (len data) = Some data.
Proof.
  intros Hs Hoff Hbefore. apply file_read_Some. split; [lia|]. intros i Hi. cbn [file_write file_segments].
  rewrite byte_at_put, decide_False by (done || intros (s & Hin & Hlt & Hc)%Exists_exists; apply Hbefore in Hin; unfold covers in Hc; simpl in *; lia).
  rewrite decide_True by (unfold covers; simpl; unfold padded; rewrite length_app; lia). simpl. unfold padded.
  rewrite lookup_app_l by lia. f_equal. lia.
Qed.

(** A write leaves alone what earlier segments cover. *)
Lemma file_read_hidden f off data seg o count :
  ordered (file_segments f) -> seg ∈ file_segments f -> seg.1 < off ->
  seg.1 <= o -> o + count <= seg.1 + len seg.2 ->
  file_read (file_write off data f) o count = file_read f o count.
Proof.
  intros Hs Hin Hlt Hlo Hhi. unfold file_read. apply Forall_mapM_ext, Forall_forall. intros x Hx%elem_of_seqZ. cbn [file_write file_segments].
  rewrite byte_at_put, decide_True; [done| |done]. apply Exists_exists. exists seg. split; [done|]. split; [done|]. unfold covers. lia.
Qed.

(** Nor does it change what lies before it, *)
Lemma file_read_before f off data o count :
  ordered (file_segments f) -> o + count <= off -> file_read (file_write off data f) o count = file_read f o count.
Proof.
  intros Hs Hle. unfold file_read. apply Forall_mapM_ext, Forall_forall. intros x Hx%elem_of_seqZ. cbn [file_write file_segments].
  rewrite byte_at_put by done. destruct (decide (Exists _ _)) as [|Hno]; [done|]. rewrite decide_False by (unfold covers; simpl; lia).
  rewrite !byte_at_uncovered; [done| |].
  - intros seg Hin Hc. apply Hno, Exists_exists. exists seg. split; [done|]. unfold covers in Hc. simpl. split; [lia|done].
  - intros seg [Hne Hin]%list_elem_of_filter Hc. apply Hno, Exists_exists. exists seg. split; [done|]. unfold covers in Hc. simpl. split; [lia|done].
Qed.

(** or behind it, unless it takes the place of another segment. *)
Lemma file_read_behind f off data o count :
  ordered (file_segments f) -> off + 4096 * block_count_for data <= o ->
  (forall seg, seg ∈ file_segments f -> seg.1 <> off) ->
  file_read (file_write off data f) o count = file_read f o count.
Proof.
  intros Hs Hle Hnew. unfold file_read. apply Forall_mapM_ext, Forall_forall. intros x Hx%elem_of_seqZ. cbn [file_write file_segments].
  rewrite byte_at_put by done. destruct (decide (Exists _ _)) as [|_]; [done|].
  rewrite decide_False by (unfold covers; simpl; rewrite length_padded; lia). by rewrite filter_all by by apply Forall_forall.
Qed.

(** What only the replaced segment covered is gone. *)
Lemma byte_at_replaced f off data o :
  ordered (file_segments f) -> off + 4096 * block_count_for data <= o ->
  (forall seg, seg ∈ file_segments f -> covers o seg -> seg.1 = off) -> byte_at (file_segments (file_write off data f)) o = None.
Proof.
  intros Hs Hle Hcov. cbn [file_write file_segments]. rewrite byte_at_put by done.
  rewrite decide_False by (intros (seg & Hin & Hlt & Hseg)%Exists_exists; apply Hcov in Hin; [simpl in *; lia|done]).
  rewrite decide_False by (unfold covers; simpl; rewrite length_padded; lia). apply byte_at_uncovered.
  intros seg [Hne Hin]%list_elem_of_filter Hseg. simpl in Hne. by apply Hcov in Hin.
Qed.

(** All of a segment can be read. *)
Lemma file_read_segment f seg off count :
  ordered (file_segments f) -> seg ∈ file_segments f -> 0 <= count -> seg.1 <= off -> off + count <= seg.1 + len seg.2 ->
  is_Some (file_read f off count).
Proof.
  intros Hs Hin Hc Hlo Hhi. unfold file_read. apply mapM_is_Some, Forall_forall. intros x Hx%elem_of_seqZ.
  assert (covers x seg) as Hcov by (unfold covers; lia). clear -Hin Hcov. induction (file_segments f) as [|s segs IH]; [by apply elem_of_nil in Hin|].
  simpl. destruct (decide (covers x s)) as [Hx|Hx].
  - apply lookup_lt_is_Some. unfold covers in Hx. lia.
  - apply elem_of_cons in Hin as [->|Hin]; [done|]. by apply IH.
Qed.

(** ** Files written once *)

(** [f] shows [text], all of it. *)
Record shows_text (f : file) (text : list Z) : Prop := {
  st_size : file_size f = len text;
  st_text : forall off count, 0 <= off -> 0 <= count -> off + count <= len text ->
    file_read f off count = Some (take (Z.to_nat count) (drop (Z.to_nat off) text));
}.

(** The file of one write from its start. *)
Definition file_of (data : list Z) : file := if decide (data = []) then new_file else file_write 0 data new_file.

Lemma file_of_shows data : shows_text (file_of data) data.
Proof.
  unfold file_of. destruct (decide (data = [])) as [->|Hne].
  { split; [done|]. intros off count Hoff Hc Hle. simpl in Hle. replace count with 0 by lia. by rewrite take_0. }
  split; [simpl; lia|]. intros off count Hoff Hc Hle. apply file_read_Some. rewrite length_take, length_drop. split; [lia|].
  intros i Hi. simpl. rewrite decide_True by (unfold covers; simpl; rewrite length_padded; pose proof (block_count_for_bounds data); lia).
  rewrite lookup_take_lt by lia. rewrite lookup_drop. unfold padded. rewrite lookup_app_l by lia. f_equal. lia.
Qed.
