(* ===== verification/VolumeInv.v ===== *)
(** * VolumeInv: the invariant of a mounted volume

    What a mounted volume represents (its three trees as maps), the frame of an
    operation, and the return of superseded blocks to the free-extent tree with
    its termination argument. *)

From S2P Require Import Prelude Checksum Device Superblock Node NodeCodec BTree BTreeInv BTreeWrite.
From S2P Require Import BTreeInsert BTreeDelete TreeStore Inode Extent FreeSpace ChecksumTree XxHash Dir Journal Volume.

(** ** Operations on the cache, seen from the volume *)

Section frame.
Context {D : Type} `{BlockDevice D}.
Implicit Types v : BafsVolume D.

Lemma on_cow_Ok {A} (m : ST cow BafsError A) fr v c a :
  m (vol_cow v fr) = (c, Ok a) -> on_cow fr m v = (vol_set_cow v c, Ok (a, freed_blocks c)).
Proof. intros E. unfold on_cow. by rewrite E. Qed.

Lemma on_cow_Err {A} (m : ST cow BafsError A) fr v c e :
  m (vol_cow v fr) = (c, Err e) -> on_cow fr m v = (vol_set_cow v c, Err e).
Proof. intros E. unfold on_cow. by rewrite E. Qed.

(** A cow apart from its vector. *)
Definition plain (c : cow) : cow :=
  {| dirty_cache := dirty_cache c; next_free_block := next_free_block c; freed_blocks := [] |}.

Lemma extends_plain c c' fr : extends c c' fr -> extends (plain c) (plain c') [].
Proof. intros []. by split. Qed.

Lemma vol_cow_set_cow v c : vol_cow (vol_set_cow v c) [] = plain c.
Proof. done. Qed.

Lemma vol_set_cow_same v fr : vol_set_cow v (vol_cow v fr) = v.
Proof. by destruct v. Qed.

Lemma vol_cow_set_superblock v sb fr : vol_cow (vol_set_superblock v sb) fr = vol_cow v fr.
Proof. done. Qed.

(** An operation left the device alone, only added blocks behind the allocator (at
    most [n]), and changed only the counters and roots of the superblock. *)
Record vol_step v v' (n : Z) : Prop := {
  vs_device : device v' = device v;
  vs_id : next_transaction_id v' = next_transaction_id v;
  vs_extends : extends (vol_cow v []) (vol_cow v' []) [];
  vs_next : vol_next_free_block v' <= vol_next_free_block v + n;
  vs_superblock : exists free_count inodes inode_root free_root checksum_root,
    superblock v' = sb_with (superblock v) free_count inodes inode_root free_root checksum_root
                      (sb_next_cow_block_address (superblock v));
}.

Lemma sb_with_same sb :
  sb_with sb (sb_free_block_count sb) (sb_allocated_inode_count sb) (sb_inode_tree_root_block sb)
    (sb_free_extent_tree_root_block sb) (sb_checksum_tree_root_block sb) (sb_next_cow_block_address sb) = sb.
Proof. by destruct sb. Qed.

Lemma vol_step_refl v : vol_step v v 0.
Proof.
  split; [done|done|apply extends_refl|lia|]. do 5 eexists. symmetry. apply sb_with_same.
Qed.

Lemma vol_step_trans v1 v2 v3 n1 n2 : vol_step v1 v2 n1 -> vol_step v2 v3 n2 -> vol_step v1 v3 (n1 + n2).
Proof.
  intros [D1 I1 X1 N1 (fc & ic & ir & fr & cr & S1)] [D2 I2 X2 N2 (fc' & ic' & ir' & fr' & cr' & S2)].
  split; [congruence..| |lia|].
  - change (@nil Z) with (@nil Z ++ []). by eapply extends_trans.
  - exists fc', ic', ir', fr', cr'. by rewrite S2, S1.
Qed.

Lemma vol_step_mono v v' n n' : n <= n' -> vol_step v v' n -> vol_step v v' n'.
Proof. intros ? []. split; try done. lia. Qed.

Lemma vol_step_cow v c fr n :
  extends (vol_cow v fr) c (freed_blocks c) \/ (exists fr', extends (vol_cow v fr) c fr') ->
  next_free_block c <= vol_next_free_block v + n -> vol_step v (vol_set_cow v c) n.
Proof.
  intros X N. assert (exists fr', extends (vol_cow v fr) c fr') as [fr' X'] by (destruct X; eauto).
  split; [done|done| |done|].
  - apply extends_plain in X'. exact X'.
  - do 5 eexists. symmetry. apply sb_with_same.
Qed.

Lemma vol_step_superblock v fc ic ir fr cr :
  vol_step v (vol_set_superblock v
    (sb_with (superblock v) fc ic ir fr cr (sb_next_cow_block_address (superblock v)))) 0.
Proof. split; [done|done|apply extends_refl|simpl; lia|]. by eexists _, _, _, _, _. Qed.

Lemma vs_boundary v v' n :
  vol_step v v' n -> sb_next_cow_block_address (superblock v') = sb_next_cow_block_address (superblock v).
Proof. intros [_ _ _ _ (fc & ic & ir & fr & cr & ->)]. done. Qed.

Lemma vs_grows v v' n : vol_step v v' n -> vol_next_free_block v <= vol_next_free_block v'.
Proof. intros [_ _ X _ _]. apply (ext_next _ _ _ X). Qed.
End frame.

(** ** Returning superseded blocks *)

(** Extents of the free tree end within the address space. *)
Definition FREE_LIMIT : Z := 2 ^ 64 - 1.

Section returning.
Context {D : Type} `{BlockDevice D} `{!TreeStore D}.
Implicit Types v : BafsVolume D.

Lemma tree_rep_plain K (d : D) c c' root m fp :
  dirty_cache c' = dirty_cache c -> next_free_block c' = next_free_block c ->
  tree_rep K d c root m fp -> tree_rep K d c' root m fp.
Proof. intros Hc Hn Hr. eapply tree_frame; [exact Hr|intros; by rewrite Hc|lia]. Qed.

(** The free-extent tree of a volume. *)
Definition free_rep v (fe : free_map) (ff : list Z) : Prop :=
  tree_rep free_tree (device v) (vol_cow v []) (sb_free_extent_tree_root_block (superblock v))
    (free_encode fe) ff
  /\ free_ok FREE_LIMIT fe.

(** Only the free-extent tree and the count of free blocks changed. *)
Record free_step v v' (n : Z) : Prop := {
  fs_device : device v' = device v;
  fs_id : next_transaction_id v' = next_transaction_id v;
  fs_extends : extends (vol_cow v []) (vol_cow v' []) [];
  fs_next : vol_next_free_block v' <= vol_next_free_block v + n;
  fs_superblock : exists root count,
    superblock v' = sb_set_free_count (sb_set_free_root (superblock v) root) count;
}.

Lemma free_step_refl v : free_step v v 0.
Proof.
  split; [done|done|apply extends_refl|lia|].
  exists (sb_free_extent_tree_root_block (superblock v)), (sb_free_block_count (superblock v)).
  by destruct (superblock v).
Qed.

Lemma free_step_trans v1 v2 v3 n1 n2 : free_step v1 v2 n1 -> free_step v2 v3 n2 -> free_step v1 v3 (n1 + n2).
Proof.
  intros [D1 I1 X1 N1 (r & k & S1)] [D2 I2 X2 N2 (r' & k' & S2)]. split; [congruence..| |lia|].
  - change (@nil Z) with (@nil Z ++ []). by eapply extends_trans.
  - exists r', k'. by rewrite S2, S1.
Qed.

Lemma free_step_vol v v' n : free_step v v' n -> vol_step v v' n.
Proof. intros [Hd Hi X N (r & k & S)]. split; [done..|]. rewrite S. by eexists _, _, _, _, _. Qed.

Lemma blocks_below_cons_lt b x l : x < b -> blocks_below b (x :: l) = x :: blocks_below b l.
Proof. intros Hlt. unfold blocks_below. by apply (filter_cons_True (fun y => y < b)). Qed.

Lemma blocks_below_cons_ge b x l : b <= x -> blocks_below b (x :: l) = blocks_below b l.
Proof. intros Hge. unfold blocks_below. apply (filter_cons_False (fun y => y < b)). lia. Qed.

Lemma tree_evolves_plain c c' fp fp' fr : tree_evolves c c' fp fp' fr -> tree_evolves (plain c) (plain c') fp fp' fr.
Proof. intros []. by split. Qed.

(** One pass over a vector of superseded blocks. *)
Lemma return_freed_loop_correct b g l sec v fe ff :
  free_rep v fe ff -> is_u64 g -> Forall (fun x => 0 <= x) l -> 0 <= b <= vol_next_free_block v ->
  vol_next_free_block v + FREE_BLOCKS * len (blocks_below b l) < 2 ^ 64 ->
  sb_free_block_count (superblock v) + len (blocks_below b l) < 2 ^ 64 ->
  exists v' fe' ff' sec', return_freed_loop b g l sec v = (v', Ok (sec ++ sec'))
    /\ free_step v v' (FREE_BLOCKS * len (blocks_below b l)) /\ free_rep v' fe' ff'
    /\ tree_evolves (vol_cow v []) (vol_cow v' []) ff ff' sec'
    /\ sb_free_block_count (superblock v') = sb_free_block_count (superblock v) + len (blocks_below b l).
Proof.
  intros Hf Hg Hl. revert sec v fe ff Hf. induction Hl as [|x l Hx _ IH]; intros sec v fe ff [Hr Hok] Hb Hroom Hcount.
  { exists v, fe, ff, []. rewrite app_nil_r. split; [done|]. split; [apply free_step_refl|].
    split; [done|]. split; [apply tree_evolves_refl|simpl; lia]. }
  cbn [return_freed_loop]. destruct (Z.leb_spec b x) as [Hge|Hlt].
  { rewrite blocks_below_cons_ge in * by done. by apply (IH sec v fe ff). }
  rewrite blocks_below_cons_lt in * by done. simpl length in *.
  assert (FREE_BLOCKS = 55) as HFB by done.
  destruct (free_blocks_correct FREE_LIMIT ltac:(done) (device v) (vol_cow v sec)
    (sb_free_extent_tree_root_block (superblock v)) fe ff x 1 g)
    as (p & c & root & ff1 & fr & Hp & E & [X N Ev R]).
  { by eapply tree_rep_plain; [..|exact Hr]. }
  { done. } { done. } { lia. } { unfold FREE_LIMIT. lia. } { done. }
  { unfold room. simpl. lia. }
  destruct (free_release_sound FREE_LIMIT fe p x 1 Hok Hp) as (Hok1 & _); [lia|lia|unfold FREE_LIMIT; lia|].
  pose proof (ext_freed _ _ _ X) as Hfr. simpl in Hfr. simpl in N.
  rewrite st_bind_get, (st_bind_Ok _ _ _ _ _ (on_cow_Ok _ _ _ _ _ E)).
  unfold modify_superblock. rewrite st_bind_modify.
  rewrite (st_bind_lift _ _ _ (sb_free_block_count (superblock v) + 1)) by (apply checked_add_Ok; lia).
  rewrite st_bind_modify. set (v1 := vol_set_superblock _ _).
  assert (free_step v v1 FREE_BLOCKS) as S1.
  { split; [done|done|exact (extends_plain _ _ _ X)|done|by exists root, (sb_free_block_count (superblock v) + 1)]. }
  pose proof (ext_next _ _ _ X) as Hmono. simpl in Hmono.
  destruct (IH (freed_blocks c) v1 (free_release fe p x 1) ff1) as (v2 & fe2 & ff2 & sec2 & E2 & S2 & Hf2 & Ev2 & Hc2).
  { split; [|done]. by eapply tree_rep_plain; [..|exact R]. }
  { simpl. lia. } { simpl. lia. } { simpl. lia. }
  exists v2, fe2, ff2, (fr ++ sec2). split; [rewrite E2, Hfr; by rewrite <- app_assoc|].
  split. { eapply eq_ind; [by apply (free_step_trans _ _ _ _ _ S1 S2)|]. lia. }
  split; [done|]. split; [|rewrite Hc2; simpl; lia].
  destruct (tree_blocks _ _ _ _ _ _ Hr) as [_ Hfp].
  eapply tree_evolves_trans; [|exact Hfp|exact (tree_evolves_plain _ _ _ _ _ Ev)|exact Ev2].
  pose proof (ext_next _ _ _ (fs_extends _ _ _ S2)). simpl in *. lia.
Qed.

Lemma return_freed_loop_none b g l sec v :
  blocks_below b l = [] -> return_freed_loop b g l sec v = (v, Ok sec).
Proof.
  induction l as [|x l IH]; [done|]. destruct (Z.lt_ge_cases x b) as [Hlt|Hge].
  - by rewrite blocks_below_cons_lt.
  - rewrite blocks_below_cons_ge by done. cbn [return_freed_loop]. by destruct (Z.leb_spec b x); [|lia].
Qed.

(** Levels of recursion that may still be needed for a vector. *)
Definition levels_left (b : Z) (l ff : list Z) : Z :=
  if decide (blocks_below b l = []) then 1 else 2 + committed b ff.

(** The recursion over the vectors of secondary superseded blocks ends: a level
    that returns a committed block has removed it from the free-extent tree. *)
Lemma return_freed_levels_correct fuel l v fe ff :
  let b := sb_next_cow_block_address (superblock v) in
  free_rep v fe ff -> is_u64 (next_transaction_id v) -> Forall (fun x => 0 <= x) l ->
  0 <= b <= vol_next_free_block v -> levels_left b l ff <= Z.of_nat fuel ->
  vol_next_free_block v + FREE_BLOCKS * (len (blocks_below b l) + 2 * committed b ff) < 2 ^ 64 ->
  sb_free_block_count (superblock v) + len (blocks_below b l) + 2 * committed b ff < 2 ^ 64 ->
  exists v' fe' ff', return_freed_levels fuel l v = (v', Ok tt)
    /\ free_step v v' (FREE_BLOCKS * (len (blocks_below b l) + 2 * committed b ff)) /\ free_rep v' fe' ff'
    /\ (forall x, x ∈ ff' -> x ∈ ff \/ vol_next_free_block v <= x)
    /\ vol_next_free_block v' + FREE_BLOCKS * (2 * committed b ff')
       <= vol_next_free_block v + FREE_BLOCKS * (len (blocks_below b l) + 2 * committed b ff)
    /\ sb_free_block_count (superblock v) <= sb_free_block_count (superblock v')
       <= sb_free_block_count (superblock v) + len (blocks_below b l) + 2 * committed b ff.
Proof.
  revert l v fe ff. induction fuel as [|fuel IH]; intros l v fe ff b Hf Hg Hl Hb Hfuel Hroom Hcount;
    assert (0 <= committed b ff) as Hpos by (unfold committed; lia).
  { exfalso. unfold levels_left in Hfuel. case_decide; lia. }
  assert (FREE_BLOCKS = 55) as HFB by done.
  destruct (decide (blocks_below b l = [])) as [Hnil|Hne].
  { exists v, fe, ff. split; [|split; [|split; [done|split; [by left|rewrite Hnil; simpl; lia]]]].
    - destruct l as [|x l]; [done|]. cbn [return_freed_levels]. rewrite st_bind_get. fold b.
      rewrite (st_bind_Ok _ _ _ _ _ (return_freed_loop_none _ _ _ _ _ Hnil)). by destruct fuel.
    - destruct (free_step_refl v). rewrite Hnil. split; try done. simpl. lia. }
  assert (return_freed_levels (S fuel) l v
    = (let! s := return_freed_loop b (next_transaction_id v) l [] in return_freed_levels fuel s) v) as ->.
  { by destruct l. }
  destruct (return_freed_loop_correct b (next_transaction_id v) l [] v fe ff)
    as (v1 & fe1 & ff1 & sec & E1 & S1 & Hf1 & Ev & Hc1); [done|done|done|done|lia|lia|].
  rewrite (st_bind_Ok _ _ _ _ _ E1). cbn [app].
  assert (sb_next_cow_block_address (superblock v1) = b) as Hb1.
  { destruct (fs_superblock _ _ _ S1) as (r & k & ->). done. }
  pose proof (te_count _ _ _ _ _ Ev b) as Hcnt. simpl next_free_block in Hcnt. specialize (Hcnt (proj2 Hb)).
  pose proof (fs_next _ _ _ S1) as Hn1. pose proof (ext_next _ _ _ (fs_extends _ _ _ S1)) as Hm1. simpl in Hm1.
  destruct (IH sec v1 fe1 ff1) as (v2 & fe2 & ff2 & E2 & S2 & Hf2 & Hin2 & Hp2 & Hc2); rewrite ?Hb1 in *.
  { done. } { by rewrite (fs_id _ _ _ S1). }
  { apply Forall_forall. intros y Hy. destruct (te_freed _ _ _ _ _ Ev y Hy) as [[Hin|Hin] _]; [|simpl in Hin; lia].
    destruct Hf as [Hr _]. destruct (tree_blocks _ _ _ _ _ _ Hr) as [_ Hfp]. rewrite Forall_forall in Hfp.
    specialize (Hfp y Hin). simpl in Hfp. lia. }
  { lia. }
  { unfold levels_left in *. rewrite decide_False in Hfuel by done. case_decide as Hs; [lia|].
    destruct (blocks_below b sec); [done|]. simpl length in Hcnt. lia. }
  { lia. } { lia. }
  exists v2, fe2, ff2. split; [done|]. split; [|split; [done|split; [|lia]]].
  - destruct (free_step_trans _ _ _ _ _ S1 S2) as [? ? ? ? ?]. split; try done. lia.
  - intros y [Hy|Hy]%Hin2; [|right; lia]. destruct (te_blocks _ _ _ _ _ Ev y Hy) as [?|?]; [by left|right]. simpl in *. lia.
Qed.

(** What it costs to return the blocks an update of one tree superseded, and the
    free-extent tree's own. *)
Definition RETURN_BLOCKS (b : Z) : Z := FREE_BLOCKS * (6 * b).

Lemma return_freed_correct l v fe ff :
  let b := sb_next_cow_block_address (superblock v) in
  free_rep v fe ff -> is_u64 (next_transaction_id v) -> Forall (fun x => 0 <= x) l ->
  0 <= b <= vol_next_free_block v -> len (blocks_below b l) <= 4 * b ->
  vol_next_free_block v + RETURN_BLOCKS b < 2 ^ 64 ->
  sb_free_block_count (superblock v) + 6 * b < 2 ^ 64 ->
  exists v' fe' ff', return_freed_cow_blocks_to_free_extent_tree l v = (v', Ok tt)
    /\ free_step v v' (RETURN_BLOCKS b) /\ free_rep v' fe' ff'
    /\ (forall x, x ∈ ff' -> x ∈ ff \/ vol_next_free_block v <= x)
    /\ vol_next_free_block v' + FREE_BLOCKS * (2 * committed b ff')
       <= vol_next_free_block v + FREE_BLOCKS * (len (blocks_below b l) + 2 * committed b ff)
    /\ sb_free_block_count (superblock v) <= sb_free_block_count (superblock v')
       <= sb_free_block_count (superblock v) + 6 * b.
Proof.
  intros b Hf Hg Hl Hb Hlen Hroom Hcount. unfold return_freed_cow_blocks_to_free_extent_tree. rewrite st_bind_get.
  pose proof Hf as [Hr _]. destruct (tree_blocks _ _ _ _ _ _ Hr) as [_ Hfp].
  assert (0 <= committed b ff <= b) as Hcb.
  { apply committed_bounds; [|lia]. eapply Forall_impl; [exact Hfp|]. simpl. lia. }
  assert (FREE_BLOCKS = 55) as HFB by done. unfold RETURN_BLOCKS in *.
  destruct (return_freed_levels_correct (3 + Z.to_nat b) l v fe ff) as (v' & fe' & ff' & E & S & Hf' & Hin & Hp & Hc);
    try done; fold b; try lia.
  { unfold levels_left. case_decide; lia. }
  fold b in S, Hp, Hc. exists v', fe', ff'. split; [exact E|]. split; [|split; [done|split; [done|lia]]].
  destruct S. split; try done. lia.
Qed.
End returning.

(** ** The invariant *)

(** The first block behind the journal. *)
Definition data_start (sb : BafsSuperblock) : Z := sb_journal_start_block sb + sb_journal_size_in_blocks sb.

(** Extent records are stored under their offset and cover allocated blocks. *)
Definition extents_wf (limit : Z) (m : gmap BafsKey (list Z)) : Prop :=
  forall k bytes, m !! k = Some bytes -> item_type k = ITEM_TYPE_EXTENT_DATA ->
    exists e, bytes = serialise_extent_data_to_bytes e /\ extent_wf e /\ offset k = logical_byte_offset e
      /\ 0 < block_count e /\ first_disk_block e + block_count e <= limit.

Section invariant.
Context {D : Type} `{BlockDevice D} `{!TreeStore D}.
Implicit Types v : BafsVolume D.

(** The tree at [root] stores [m], behind the journal. *)
Definition tree_in v (K : tree_kind) (root : Z) (m : gmap BafsKey (list Z)) : Prop :=
  exists fp, tree_rep K (device v) (vol_cow v []) root m fp /\ Forall (fun x => data_start (superblock v) <= x) fp.

(** [vol_rep v m s]: the volume's inode tree stores [m] and its checksum tree [s]. *)
Record vol_rep v (m s : gmap BafsKey (list Z)) : Prop := {
  vr_inodes : tree_in v inode_tree (sb_inode_tree_root_block (superblock v)) m;
  vr_sums : tree_in v checksum_tree (sb_checksum_tree_root_block (superblock v)) s;
  vr_free : exists fe, tree_in v free_tree (sb_free_extent_tree_root_block (superblock v)) (free_encode fe)
    /\ free_ok FREE_LIMIT fe;
  vr_dirs : dir_wf m;
  vr_extents : extents_wf (vol_next_free_block v) m;
  vr_numbers : forall k bytes, m !! k = Some bytes -> object_id k <= sb_allocated_inode_count (superblock v);
  vr_root : 1 <= sb_allocated_inode_count (superblock v);
  vr_id : is_u64 (next_transaction_id v);
  vr_boundary : 0 <= data_start (superblock v) <= sb_next_cow_block_address (superblock v)
    /\ sb_next_cow_block_address (superblock v) <= vol_next_free_block v < 2 ^ 64;
  vr_wf : sb_wf (superblock v);
  vr_cache : forall a block, dirty_block_cache v !! a = Some block ->
    data_start (superblock v) <= a < vol_next_free_block v /\ length block = 4096%nat /\ bytes_ok block;
}.

Lemma sb_wf_with sb fc ic ir fr cr nc :
  sb_wf sb -> is_u64 fc -> is_u64 ic -> is_u64 ir -> is_u64 fr -> is_u64 cr -> is_u64 nc ->
  sb_wf (sb_with sb fc ic ir fr cr nc).
Proof. intros [] ??????. by constructor. Qed.

Lemma tree_in_root v K root m : tree_in v K root m -> vol_next_free_block v < 2 ^ 64 -> is_u64 root.
Proof.
  intros (fp & Hr & _) Hn. destruct (tree_blocks _ _ _ _ _ _ Hr) as [Hin Hfp].
  rewrite Forall_forall in Hfp. specialize (Hfp _ Hin). simpl in Hfp. split; [lia|]. unfold u64_max. lia.
Qed.

Lemma tree_in_step v v' n K root m :
  vol_step v v' n -> tree_in v K root m -> tree_in v' K root m.
Proof.
  intros [Hd _ X _ (fc & ic & ir & fr & cr & Hsb)] (fp & Hr & Hfp). exists fp. rewrite Hd, Hsb.
  split; [|exact Hfp]. by eapply tree_rep_extends.
Qed.

(** A tree was updated and its root recorded. *)
Lemma tree_in_updated v v' n K root m c root' m' fp' fr fp k :
  vol_step v v' n -> dirty_block_cache v' = dirty_cache c -> vol_next_free_block v' = next_free_block c ->
  tree_rep K (device v) (vol_cow v []) root m fp -> Forall (fun x => data_start (superblock v) <= x) fp ->
  data_start (superblock v) <= vol_next_free_block v ->
  tree_updated K (device v) (vol_cow v []) fp k c root' m' fp' fr -> tree_in v' K root' m'.
Proof.
  intros [Hd _ _ _ (fc & ic & ir & fr' & cr & Hsb)] Hc Hn Hr Hfp Hds [_ _ [Hin _ _ _] R].
  exists fp'. rewrite Hd, Hsb. split; [by eapply tree_rep_plain; [..|exact R]|].
  rewrite Forall_forall in *. intros x [Hx|Hx]%Hin; [by apply Hfp|]. simpl in Hx.
  change (data_start (sb_with _ _ _ _ _ _ _)) with (data_start (superblock v)). lia.
Qed.

Lemma data_start_step v v' n : vol_step v v' n -> data_start (superblock v') = data_start (superblock v).
Proof. intros [_ _ _ _ (fc & ic & ir & fr & cr & ->)]. done. Qed.

Lemma cache_step v v' n :
  vol_step v v' n -> data_start (superblock v) <= vol_next_free_block v ->
  (forall a block, dirty_block_cache v !! a = Some block ->
    data_start (superblock v) <= a < vol_next_free_block v /\ length block = 4096%nat /\ bytes_ok block) ->
  forall a block, dirty_block_cache v' !! a = Some block ->
    data_start (superblock v') <= a < vol_next_free_block v' /\ length block = 4096%nat /\ bytes_ok block.
Proof.
  intros S Hb Hcache a block Ha. pose proof (vs_grows _ _ _ S). rewrite (data_start_step _ _ _ S).
  destruct (ext_new _ _ _ (vs_extends _ _ _ S) a block Ha) as [Hold|(Hr & Hl & Hok)].
  - apply Hcache in Hold as (? & ? & ?). repeat split; try done; lia.
  - simpl in Hr. repeat split; try done; lia.
Qed.

Lemma extents_wf_mono limit limit' m : limit <= limit' -> extents_wf limit m -> extents_wf limit' m.
Proof. intros Hle Hwf k bytes Hk Ht. destruct (Hwf k bytes Hk Ht) as (e & ? & ? & ? & ? & ?). exists e. do 4 (split; [done|]). lia. Qed.

(** How many blocks of the last commit the tree at [root] still uses. *)
Definition tree_committed v (K : tree_kind) (root p : Z) : Prop :=
  exists m fp, tree_rep K (device v) (vol_cow v []) root m fp /\ p = committed (sb_next_cow_block_address (superblock v)) fp.

Lemma tree_committed_unique v K root p p' : tree_committed v K root p -> tree_committed v K root p' -> p = p'.
Proof. intros (m & fp & Hr & ->) (m' & fp' & Hr' & ->). by rewrite (tree_unique _ _ _ _ _ _ _ _ Hr Hr'). Qed.

Lemma tree_committed_step v v' n K root p : vol_step v v' n -> tree_committed v K root p -> tree_committed v' K root p.
Proof.
  intros S (m & fp & Hr & ->). exists m, fp. rewrite (vs_boundary _ _ _ S), (vs_device _ _ _ S). split; [|done].
  eapply tree_rep_extends; [apply S|exact Hr].
Qed.

Lemma tree_in_committed v K root m :
  tree_in v K root m -> data_start (superblock v) <= sb_next_cow_block_address (superblock v) ->
  exists p, tree_committed v K root p /\ 0 <= p <= sb_next_cow_block_address (superblock v) - data_start (superblock v).
Proof. intros (fp & Hr & Hfp) Hb. eexists. split; [by exists m, fp|]. by apply committed_from. Qed.

(** Returning [l] pays for the blocks it takes with the blocks of the last commit
    in [l], and with those the free-extent tree gives up. *)
Definition settles v (l : list Z) v' : Prop :=
  forall pf, tree_committed v free_tree (sb_free_extent_tree_root_block (superblock v)) pf ->
    exists pf', tree_committed v' free_tree (sb_free_extent_tree_root_block (superblock v')) pf'
      /\ vol_next_free_block v' + FREE_BLOCKS * (2 * pf')
         <= vol_next_free_block v + FREE_BLOCKS * (len (blocks_below (sb_next_cow_block_address (superblock v)) l) + 2 * pf).

(** The invariant after a step, from the trees afterwards. *)
Lemma vol_rep_step v v' n m s m' s' :
  vol_rep v m s -> vol_step v v' n -> vol_next_free_block v' < 2 ^ 64 ->
  is_u64 (sb_free_block_count (superblock v')) ->
  sb_allocated_inode_count (superblock v) <= sb_allocated_inode_count (superblock v') < 2 ^ 64 ->
  tree_in v' inode_tree (sb_inode_tree_root_block (superblock v')) m' ->
  tree_in v' checksum_tree (sb_checksum_tree_root_block (superblock v')) s' ->
  (exists fe, tree_in v' free_tree (sb_free_extent_tree_root_block (superblock v')) (free_encode fe)
     /\ free_ok FREE_LIMIT fe) ->
  dir_wf m' -> extents_wf (vol_next_free_block v') m' ->
  (forall k bytes, m' !! k = Some bytes -> object_id k <= sb_allocated_inode_count (superblock v')) ->
  vol_rep v' m' s'.
Proof.
  intros Hv S Hn Hfc Hic Hi Hs (fe & Hf & Hfe) Hdirs Hext Hnum.
  pose proof (vr_boundary _ _ _ Hv) as Hb. pose proof (vs_grows _ _ _ S). pose proof (vr_root _ _ _ Hv).
  pose proof (tree_in_root _ _ _ _ Hi Hn). pose proof (tree_in_root _ _ _ _ Hs Hn).
  pose proof (tree_in_root _ _ _ _ Hf Hn).
  destruct (vs_superblock _ _ _ S) as (fc & ic & ir & fr & cr & Hsb).
  split; try done.
  - by exists fe.
  - lia.
  - rewrite (vs_id _ _ _ S). apply Hv.
  - rewrite Hsb. change (data_start (sb_with _ _ _ _ _ _ _)) with (data_start (superblock v)). simpl. lia.
  - rewrite Hsb in *. simpl in *. apply sb_wf_with; try done; [apply Hv|split; [lia|unfold u64_max; lia]|].
    split; [lia|unfold u64_max; lia].
  - eapply cache_step; [exact S|lia|apply Hv].
Qed.

(** Returning superseded blocks keeps the invariant. *)
Lemma vol_rep_return v m s l :
  let b := sb_next_cow_block_address (superblock v) in
  vol_rep v m s -> Forall (fun x => 0 <= x) l -> len (blocks_below b l) <= 4 * b ->
  vol_next_free_block v + RETURN_BLOCKS b < 2 ^ 64 ->
  sb_free_block_count (superblock v) + 6 * b < 2 ^ 64 ->
  exists v', return_freed_cow_blocks_to_free_extent_tree l v = (v', Ok tt)
    /\ free_step v v' (RETURN_BLOCKS b) /\ vol_rep v' m s
    /\ sb_free_block_count (superblock v') <= sb_free_block_count (superblock v) + 6 * b /\ settles v l v'.
Proof.
  intros b Hv Hl Hlen Hroom Hcount. subst b. destruct (vr_free _ _ _ Hv) as (fe & (ff & Hr & Hff) & Hfe).
  pose proof (vr_boundary _ _ _ Hv) as Hb.
  destruct (return_freed_correct l v fe ff) as (v' & fe' & ff' & E & S & [Hr' Hfe'] & Hin & Hp & Hc);
    [done|apply Hv|done|lia|done|done|done|].
  exists v'. split; [done|]. split; [done|]. pose proof (free_step_vol _ _ _ S) as S'. split; [|split; [lia|]]; cycle 1.
  { intros pf (m' & fp & Hr0 & ->). rewrite (tree_unique _ _ _ _ _ _ _ _ Hr0 Hr). exists (committed (sb_next_cow_block_address (superblock v)) ff').
    split; [|exact Hp]. exists (free_encode fe'), ff'. by rewrite (vs_boundary _ _ _ S'). } destruct (fs_superblock _ _ _ S) as (root & count & Hsb).
  pose proof (fs_next _ _ _ S). pose proof (wf_free _ (vr_wf _ _ _ Hv)) as Hfc.
  assert (sb_allocated_inode_count (superblock v') = sb_allocated_inode_count (superblock v)
    /\ sb_inode_tree_root_block (superblock v') = sb_inode_tree_root_block (superblock v)
    /\ sb_checksum_tree_root_block (superblock v') = sb_checksum_tree_root_block (superblock v)
    /\ data_start (superblock v') = data_start (superblock v)) as (Eic & Eir & Ecr & Eds) by (by rewrite Hsb).
  eapply vol_rep_step; [exact Hv|exact S'|lia|split; [ilia|unfold u64_max; lia]|..]; rewrite ?Eic, ?Eir, ?Ecr; try apply Hv.
  - pose proof (wf_inodes _ (vr_wf _ _ _ Hv)). ilia.
  - eapply tree_in_step; [exact S'|apply Hv].
  - eapply tree_in_step; [exact S'|apply Hv].
  - exists fe'. split; [|done]. exists ff'. split; [done|]. rewrite Eds. rewrite Forall_forall in *.
    intros x [Hx|Hx]%Hin; [by apply Hff|]. lia.
  - eapply extents_wf_mono; [|apply Hv]. apply (vs_grows _ _ _ S').
Qed.

(** *** Budgets *)

(** Blocks one update may take, with the return of what it superseded, when the
    last commit left [b] blocks in use. *)
Definition OP_BLOCKS (b : Z) : Z := INSERT_BLOCKS + RETURN_BLOCKS b.

(** Room for [k] updates. *)
Definition vol_room v (k : Z) : Prop :=
  let budget := k * OP_BLOCKS (sb_next_cow_block_address (superblock v)) in
  vol_next_free_block v + budget < 2 ^ 64 /\ sb_free_block_count (superblock v) + budget < 2 ^ 64.

(** The blocks of the last commit that the trees may still give up, each at most
    twice. *)
Definition vol_debt v (p : Z) : Prop :=
  exists pi pf ps, tree_committed v inode_tree (sb_inode_tree_root_block (superblock v)) pi
    /\ tree_committed v free_tree (sb_free_extent_tree_root_block (superblock v)) pf
    /\ tree_committed v checksum_tree (sb_checksum_tree_root_block (superblock v)) ps /\ p = 2 * (pi + pf + ps).

(** At most [k] updates happened. The second bound on the blocks they took is the
    amortised one: blocks are returned for a debt that is paid once. *)
Record vol_moved v v' (k : Z) : Prop := {
  vm_step : vol_step v v' (k * OP_BLOCKS (sb_next_cow_block_address (superblock v)));
  vm_free : sb_free_block_count (superblock v')
    <= sb_free_block_count (superblock v) + k * OP_BLOCKS (sb_next_cow_block_address (superblock v));
  vm_debt : forall p, vol_debt v p -> exists p', vol_debt v' p'
    /\ vol_next_free_block v' + FREE_BLOCKS * p' <= vol_next_free_block v + FREE_BLOCKS * p + INSERT_BLOCKS * k;
}.

Lemma vol_moved_refl v : vol_moved v v 0.
Proof. split; [|lia|]; [rewrite Z.mul_0_l; apply vol_step_refl|]. intros p Hp. exists p. split; [done|lia]. Qed.

Lemma vol_moved_trans v1 v2 v3 k1 k2 : vol_moved v1 v2 k1 -> vol_moved v2 v3 k2 -> vol_moved v1 v3 (k1 + k2).
Proof.
  intros [S1 F1 P1] [S2 F2 P2]. rewrite (vs_boundary _ _ _ S1) in *. split; [|lia|].
  - rewrite Z.mul_add_distr_r. by eapply vol_step_trans.
  - intros p Hp. destruct (P1 p Hp) as (p1 & Hp1 & ?), (P2 p1 Hp1) as (p2 & Hp2 & ?). exists p2. split; [done|]. lia.
Qed.

Lemma vol_moved_mono v v' k k' :
  0 <= sb_next_cow_block_address (superblock v) -> k <= k' -> vol_moved v v' k -> vol_moved v v' k'.
Proof.
  intros Hb Hk [S F P].
  assert (k * OP_BLOCKS (sb_next_cow_block_address (superblock v))
    <= k' * OP_BLOCKS (sb_next_cow_block_address (superblock v))) as Hle.
  { apply Z.mul_le_mono_nonneg_r; [|done]. unfold OP_BLOCKS, RETURN_BLOCKS, INSERT_BLOCKS.
    assert (FREE_BLOCKS = 55) as -> by done. lia. }
  split; [by eapply vol_step_mono|lia|]. intros p Hp. destruct (P p Hp) as (p' & Hp' & ?). exists p'. split; [done|].
  unfold INSERT_BLOCKS in *. lia.
Qed.

Lemma vol_debt_exists v m s :
  vol_rep v m s ->
  exists p, vol_debt v p /\ 0 <= p <= 6 * (sb_next_cow_block_address (superblock v) - data_start (superblock v)).
Proof.
  intros Hv. pose proof (vr_boundary _ _ _ Hv) as Hb. destruct (vr_free _ _ _ Hv) as (fe & Hf & _).
  destruct (tree_in_committed _ _ _ _ (vr_inodes _ _ _ Hv) ltac:(lia)) as (pi & Hi & ?).
  destruct (tree_in_committed _ _ _ _ Hf ltac:(lia)) as (pf & Hpf & ?).
  destruct (tree_in_committed _ _ _ _ (vr_sums _ _ _ Hv) ltac:(lia)) as (ps & Hs & ?).
  exists (2 * (pi + pf + ps)). split; [by exists pi, pf, ps|lia].
Qed.

(** What [k] updates take on a volume whose last commit left few blocks in use. *)
Lemma vol_moved_next v v' m s k :
  vol_rep v m s -> vol_moved v v' k ->
  vol_next_free_block v' <= vol_next_free_block v
    + 6 * FREE_BLOCKS * (sb_next_cow_block_address (superblock v) - data_start (superblock v)) + INSERT_BLOCKS * k.
Proof.
  intros Hv M. destruct (vol_debt_exists v m s Hv) as (p & Hp & Hb). destruct (vm_debt _ _ _ M p Hp) as (p' & (pi & pf & ps & Hi & Hf & Hs & ->) & Hle).
  assert (0 <= pi /\ 0 <= pf /\ 0 <= ps) as Hpos.
  { destruct Hi as (? & ? & _ & ->), Hf as (? & ? & _ & ->), Hs as (? & ? & _ & ->). unfold committed. lia. }
  assert (FREE_BLOCKS = 55) as HF by done. lia.
Qed.

Lemma vol_room_moved v v' k k' : vol_room v (k + k') -> vol_moved v v' k -> vol_room v' k'.
Proof.
  unfold vol_room. rewrite Z.mul_add_distr_r. intros [R1 R2] [S F _]. rewrite (vs_boundary _ _ _ S).
  pose proof (vs_next _ _ _ S). lia.
Qed.

Lemma OP_BLOCKS_bound b : 0 <= b -> INSERT_BLOCKS <= OP_BLOCKS b /\ RETURN_BLOCKS b <= OP_BLOCKS b /\ 6 * b <= OP_BLOCKS b.
Proof. intros. unfold OP_BLOCKS, RETURN_BLOCKS, INSERT_BLOCKS. assert (FREE_BLOCKS = 55) as -> by done. lia. Qed.

Lemma vol_room_mono v k k' :
  0 <= sb_next_cow_block_address (superblock v) -> k' <= k -> vol_room v k -> vol_room v k'.
Proof.
  intros Hb Hk. unfold vol_room. destruct (OP_BLOCKS_bound _ Hb) as [Hop _]. unfold INSERT_BLOCKS in Hop.
  assert (k' * OP_BLOCKS (sb_next_cow_block_address (superblock v))
    <= k * OP_BLOCKS (sb_next_cow_block_address (superblock v))) by (apply Z.mul_le_mono_nonneg_r; lia). lia.
Qed.

Lemma vol_room_cow v m s fr : vol_rep v m s -> vol_room v 1 -> room (vol_cow v fr) INSERT_BLOCKS.
Proof.
  intros Hv [R _]. pose proof (vr_boundary _ _ _ Hv) as Hb.
  destruct (OP_BLOCKS_bound (sb_next_cow_block_address (superblock v)) ltac:(lia)). unfold room. simpl. lia.
Qed.

Lemma vol_room_0 v m s fr : vol_rep v m s -> room (vol_cow v fr) 0.
Proof. intros Hv. pose proof (vr_boundary _ _ _ Hv) as Hb. unfold room. simpl. lia. Qed.

Lemma superseded_few b c c' fp fp' fr :
  tree_evolves c c' fp fp' fr -> Forall (fun x => 0 <= x) fp -> 0 <= b <= next_free_block c ->
  len (blocks_below b fr) <= 2 * b.
Proof.
  intros Ev Hfp Hb. pose proof (te_count _ _ _ _ _ Ev b (proj2 Hb)).
  pose proof (committed_bounds b fp Hfp (proj1 Hb)). assert (0 <= committed b fp') by (unfold committed; lia). lia.
Qed.

Lemma superseded_nonneg c c' fp fp' fr :
  tree_evolves c c' fp fp' fr -> Forall (fun x => 0 <= x) fp -> 0 <= next_free_block c -> Forall (fun x => 0 <= x) fr.
Proof.
  intros Ev Hfp Hn. rewrite Forall_forall in *. intros x Hx.
  destruct (te_freed _ _ _ _ _ Ev x Hx) as [[Hin|Hin] _]; [by apply Hfp|lia].
Qed.

Lemma footprint_nonneg K d c root m fp :
  tree_rep (D:=D) K d c root m fp -> Forall (fun x => 0 <= x) fp.
Proof.
  intros Hr. destruct (tree_blocks _ _ _ _ _ _ Hr) as [_ Hfp]. eapply Forall_impl; [exact Hfp|]. simpl. lia.
Qed.

(** *** Updates of the inode tree *)

Lemma vol_inode_update v m s (op : ST cow BafsError Z) m' :
  vol_rep v m s -> vol_room v 1 ->
  (forall fp, tree_rep inode_tree (device v) (vol_cow v []) (sb_inode_tree_root_block (superblock v)) m fp ->
     exists c root fp' fr, op (vol_cow v []) = (c, Ok root)
       /\ tree_updated inode_tree (device v) (vol_cow v []) fp INSERT_BLOCKS c root m' fp' fr) ->
  dir_wf m' -> extents_wf (vol_next_free_block v) m' ->
  (forall k bytes, m' !! k = Some bytes -> object_id k <= sb_allocated_inode_count (superblock v)) ->
  exists c root v', on_cow [] op v = (vol_set_cow v c, Ok (root, freed_blocks c))
    /\ return_freed_cow_blocks_to_free_extent_tree (freed_blocks c)
         (vol_set_superblock (vol_set_cow v c) (sb_set_inode_root (superblock v) root)) = (v', Ok tt)
    /\ vol_rep v' m' s /\ vol_moved v v' 1
    /\ sb_allocated_inode_count (superblock v') = sb_allocated_inode_count (superblock v).
Proof.
  intros Hv Hroom Hop Hdirs Hext Hnum. destruct (vr_inodes _ _ _ Hv) as (fp & Hr & Hfp).
  destruct (Hop fp Hr) as (c & root & fp' & fr & E & U). exists c, root.
  pose proof (vr_boundary _ _ _ Hv) as Hb. pose proof (OP_BLOCKS_bound (sb_next_cow_block_address (superblock v)) ltac:(lia)) as Hcost.
  unfold vol_room in Hroom. rewrite Z.mul_1_l in Hroom. destruct Hroom as [Hroom Hcount].
  pose proof U as [X N Ev R]. simpl in N. pose proof (ext_freed _ _ _ X) as Hfr. simpl in Hfr.
  set (v1 := vol_set_superblock (vol_set_cow v c) (sb_set_inode_root (superblock v) root)).
  assert (vol_step v v1 INSERT_BLOCKS) as S1.
  { split; [done|done|exact (extends_plain _ _ _ X)|done|by eexists _, _, _, _, _]. }
  pose proof (ext_next _ _ _ X) as Hmono. simpl in Hmono.
  assert (vol_rep v1 m' s) as Hv1.
  { eapply vol_rep_step; [exact Hv|exact S1|simpl; unfold OP_BLOCKS in *; lia|apply Hv| | | | |done| |done].
    - pose proof (wf_inodes _ (vr_wf _ _ _ Hv)). simpl. ilia.
    - eapply tree_in_updated; [exact S1|done|done|exact Hr|exact Hfp|lia|exact U].
    - eapply tree_in_step; [exact S1|apply Hv].
    - destruct (vr_free _ _ _ Hv) as (fe & Hf & Hfe). exists fe. split; [|done]. by eapply tree_in_step.
    - eapply extents_wf_mono; [|exact Hext]. simpl. lia. }
  pose proof (footprint_nonneg _ _ _ _ _ _ Hr) as Hnn.
  destruct (vol_rep_return v1 m' s (freed_blocks c)) as (v' & E' & S' & Hv' & Hc' & Hset).
  { done. }
  { rewrite Hfr. eapply superseded_nonneg; [exact Ev|done|simpl; lia]. }
  { rewrite Hfr. pose proof (superseded_few (sb_next_cow_block_address (superblock v)) _ _ _ _ _ Ev Hnn ltac:(simpl; lia)).
    simpl. lia. }
  { simpl. unfold OP_BLOCKS in *. lia. }
  { simpl. lia. }
  exists v'. split; [by apply on_cow_Ok|]. split; [done|]. split; [done|]. simpl in *. split; [|].
  - pose proof (free_step_vol _ _ _ S') as S''. split; [rewrite Z.mul_1_l|rewrite Z.mul_1_l; lia|].
    + unfold OP_BLOCKS. by eapply vol_step_trans.
    + intros p (pi & pf & ps & (mi & fi & Hri & ->) & Hpf & Hps & ->). rewrite (tree_unique _ _ _ _ _ _ _ _ Hri Hr).
      destruct (Hset pf) as (pf' & Hpf' & Hle); [by eapply tree_committed_step|].
      pose proof (te_count _ _ _ _ _ Ev (sb_next_cow_block_address (superblock v)) ltac:(simpl; lia)) as Hcnt.
      destruct (fs_superblock _ _ _ S') as (r & k & Hsb).
      eexists. split; [exists (committed (sb_next_cow_block_address (superblock v)) fp'), pf', ps; split; [|split; [done|split; [|reflexivity]]]|].
      * rewrite Hsb. eapply tree_committed_step; [exact S''|]. exists m', fp'. split; [|done]. by eapply tree_rep_plain; [..|exact R].
      * rewrite Hsb. eapply tree_committed_step; [exact S''|]. by eapply tree_committed_step.
      * simpl in Hle. rewrite Hfr in Hle. assert (FREE_BLOCKS = 55) as HF by done. lia.
  - destruct (fs_superblock _ _ _ S') as (r & k & ->). done.
Qed.
End invariant.
