(* ===== verification/VolumeDirs.v ===== *)
(** * VolumeDirs: inodes and directory entries of a mounted volume

    Reading and writing inodes, creating files and directories, lookup, listing
    and unlinking, each as an operation on the maps the volume represents. *)

From S2P Require Import Prelude Checksum Device Superblock Node NodeCodec BTree BTreeInv BTreeWrite.
From S2P Require Import BTreeInsert BTreeDelete TreeStore Inode Extent FreeSpace ChecksumTree XxHash Dir Journal Volume VolumeInv.

Section directories.
Context {D : Type} `{BlockDevice D} `{!TreeStore D}.
Implicit Types v : BafsVolume D.

Local Abbreviation inode_count v := (sb_allocated_inode_count (superblock v)).

(** ** Inodes *)

Lemma volume_read_inode_correct v m s number inode :
  vol_rep v m s -> 1 <= number < 2 ^ 64 -> inode_at m number inode -> volume_read_inode v number = Ok inode.
Proof.
  intros Hv Hn Hi. destruct (vr_inodes _ _ _ Hv) as (fp & Hr & _). unfold volume_read_inode.
  apply (read_inode_correct (device v) (vol_cow v []) _ m fp); try done. by eapply vol_room_0.
Qed.

Lemma volume_read_inode_missing v m s number :
  vol_rep v m s -> 1 <= number < 2 ^ 64 -> m !! inode_key number = None ->
  volume_read_inode v number = Err NotFound.
Proof.
  intros Hv Hn Hi. destruct (vr_inodes _ _ _ Hv) as (fp & Hr & _). unfold volume_read_inode.
  apply (read_inode_missing (device v) (vol_cow v []) _ m fp); try done. by eapply vol_room_0.
Qed.

Lemma extents_wf_insert_other limit m k bytes :
  extents_wf limit m -> item_type k <> ITEM_TYPE_EXTENT_DATA -> extents_wf limit (<[k := bytes]> m).
Proof. intros Hwf Hk k' b' [[<- <-]|[_ Hk']]%lookup_insert_Some Ht; [done|]. by apply (Hwf k' b'). Qed.

Lemma extents_wf_delete limit m k : extents_wf limit m -> extents_wf limit (delete k m).
Proof. intros Hwf k' b' [_ Hk']%lookup_delete_Some Ht. by apply (Hwf k' b'). Qed.

Lemma numbers_insert count (m : gmap BafsKey (list Z)) k bytes :
  (forall k' b, m !! k' = Some b -> object_id k' <= count) -> object_id k <= count ->
  forall k' b, <[k := bytes]> m !! k' = Some b -> object_id k' <= count.
Proof. intros Hm Hk k' b [[<- <-]|[_ Hk']]%lookup_insert_Some; [done|]. by eapply Hm. Qed.

Lemma volume_write_inode_correct v m s inode :
  vol_rep v m s -> vol_room v 1 -> 1 <= inode_number inode <= inode_count v -> inode_wf inode ->
  exists v', volume_write_inode inode v = (v', Ok tt)
    /\ vol_rep v' (<[inode_key (inode_number inode) := serialise_inode_to_bytes inode]> m) s
    /\ vol_moved v v' 1 /\ inode_count v' = inode_count v.
Proof.
  intros Hv Hroom Hn Hi. unfold volume_write_inode. rewrite st_bind_get.
  destruct (vol_inode_update v m s
    (write_inode_to_tree (device v) (sb_inode_tree_root_block (superblock v)) inode (next_transaction_id v))
    (<[inode_key (inode_number inode) := serialise_inode_to_bytes inode]> m))
    as (c & root & v' & E & E' & Hv' & Hm & Hc); [done|done| | | | |].
  - intros fp Hr. apply (write_inode_correct _ _ _ m); [done|lia|done|apply Hv|by eapply vol_room_cow].
  - apply dir_wf_insert_other; [apply Hv|done].
  - apply extents_wf_insert_other; [apply Hv|done].
  - apply numbers_insert; [apply Hv|simpl; lia].
  - exists v'. rewrite (st_bind_Ok _ _ _ _ _ E). unfold modify_superblock. rewrite st_bind_modify.
    change (superblock (vol_set_cow v c)) with (superblock v). by rewrite E'.
Qed.

Lemma volume_allocate_inode_number_correct v m s :
  vol_rep v m s -> inode_count v + 1 < 2 ^ 64 ->
  exists v', volume_allocate_inode_number v = (v', Ok (inode_count v + 1))
    /\ vol_rep v' m s /\ vol_moved v v' 0 /\ inode_count v' = inode_count v + 1.
Proof.
  intros Hv Hn. unfold volume_allocate_inode_number. rewrite st_bind_get.
  rewrite (st_bind_lift _ _ _ (inode_count v + 1)) by by apply checked_add_Ok.
  unfold modify_superblock. rewrite st_bind_modify. set (v' := vol_set_superblock _ _).
  assert (vol_step v v' 0) as S by apply vol_step_superblock.
  exists v'. split; [done|]. split; [|split; [|done]].
  - eapply vol_rep_step; [exact Hv|exact S|apply Hv|apply Hv|simpl; lia| | | |apply Hv|apply Hv|].
    + eapply tree_in_step; [exact S|apply Hv].
    + eapply tree_in_step; [exact S|apply Hv].
    + destruct (vr_free _ _ _ Hv) as (fe & Hf & Hfe). exists fe. split; [|done]. by eapply tree_in_step.
    + intros k b Hk. pose proof (vr_numbers _ _ _ Hv k b Hk). simpl. lia.
  - split; [by rewrite Z.mul_0_l|simpl; lia|]. intros p (pi & pf & ps & Hi & Hf & Hs & ->).
    exists (2 * (pi + pf + ps)). split; [|simpl; lia]. exists pi, pf, ps. by split_and!; [eapply tree_committed_step..|].
Qed.

(** ** Creating entries *)

(** The constructors of inodes a create operation uses. *)
Definition fresh_inode (new_inode : Z -> Z -> Z -> BafsInode) : Prop :=
  forall n g t, inode_number (new_inode n g t) = n
    /\ (is_u64 n -> is_u64 g -> is_u64 t -> inode_wf (new_inode n g t)).

Lemma dir_lookup_insert_inode m n bytes p name : dir_lookup (<[inode_key n := bytes]> m) p name = dir_lookup m p name.
Proof. by apply dir_lookup_insert_ne. Qed.

Definition with_inode (m : gmap BafsKey (list Z)) (inode : BafsInode) : gmap BafsKey (list Z) :=
  <[inode_key (inode_number inode) := serialise_inode_to_bytes inode]> m.

Definition with_entry (m : gmap BafsKey (list Z)) (parent : Z) (entry : BafsDirEntry) : gmap BafsKey (list Z) :=
  <[make_directory_entry_key parent (filename entry) := serialise_dir_entry_to_bytes entry]> m.

(** Allocating a number and writing the new inode. *)
Lemma create_inode_correct new_inode v m s :
  vol_rep v m s -> vol_room v 1 -> fresh_inode new_inode -> inode_count v + 1 < 2 ^ 64 ->
  let n := inode_count v + 1 in
  exists v1 v2, volume_allocate_inode_number v = (v1, Ok n)
    /\ volume_write_inode (new_inode n (next_transaction_id v) 0) v1 = (v2, Ok tt)
    /\ vol_rep v2 (with_inode m (new_inode n (next_transaction_id v) 0)) s
    /\ vol_moved v v2 1 /\ inode_count v2 = n.
Proof.
  intros Hv Hroom Hnew Hcount n. pose proof (vr_root _ _ _ Hv). pose proof (vr_boundary _ _ _ Hv) as Hb.
  destruct (volume_allocate_inode_number_correct v m s Hv Hcount) as (v1 & E1 & Hv1 & M1 & C1).
  destruct (Hnew n (next_transaction_id v) 0) as [Hnum Hwf].
  destruct (volume_write_inode_correct v1 m s (new_inode n (next_transaction_id v) 0)) as (v2 & E2 & Hv2 & M2 & C2).
  { done. } { by apply (vol_room_moved v v1 0 1 Hroom M1). } { rewrite Hnum. unfold n in *. lia. }
  { apply Hwf; [split; [unfold n; lia|unfold u64_max, n; lia]|apply Hv|ilia]. }
  exists v1, v2. split; [done|]. split; [done|]. split; [done|].
  split; [exact (vol_moved_trans _ _ _ _ _ M1 M2)|by rewrite C2, C1].
Qed.

(** Adding an entry to a directory. *)
Lemma create_entry_correct v m s p name n type g :
  vol_rep v m s -> vol_room v 1 -> is_u8 type -> is_str name -> 1 <= p <= inode_count v -> is_u64 n -> is_u64 g ->
  let op := directory_create_entry (device v) (sb_inode_tree_root_block (superblock v)) p name n type g in
  if decide (1 <= len name <= 255) then
    match dir_lookup m p name with
    | Some _ => on_cow [] op v = (v, Err AlreadyExists)
    | None => exists c root v', on_cow [] op v = (vol_set_cow v c, Ok (root, freed_blocks c))
        /\ return_freed_cow_blocks_to_free_extent_tree (freed_blocks c)
             (vol_set_superblock (vol_set_cow v c) (sb_set_inode_root (superblock v) root)) = (v', Ok tt)
        /\ vol_rep v' (with_entry m p (new_entry name n type)) s /\ vol_moved v v' 1
        /\ inode_count v' = inode_count v
    end
  else on_cow [] op v = (v, Err InvalidArgument).
Proof.
  intros Hv Hroom Htype Hstr Hp Hn Hg op. destruct (vr_inodes _ _ _ Hv) as (fp & Hr & Hfp).
  pose proof (wf_inodes _ (vr_wf _ _ _ Hv)) as Hic.
  assert (1 <= p < 2 ^ 64) as Hp' by ilia.
  pose proof (fun fp Hr => directory_create_correct (device v) (vol_cow v []) (sb_inode_tree_root_block (superblock v)) m fp p name n type g Hr
    (vr_dirs _ _ _ Hv) Hp' Hstr Hn Htype Hg (vol_room_cow _ _ _ [] Hv Hroom)) as Hdir.
  assert (forall e, op (vol_cow v []) = (vol_cow v [], Err e) -> on_cow [] op v = (v, Err e)) as Herr.
  { intros e E. rewrite (on_cow_Err _ _ _ _ _ E). by rewrite vol_set_cow_same. }
  destruct (decide (1 <= len name <= 255)) as [Hlen|Hlen]; [|by eapply Herr, Hdir].
  destruct (dir_lookup m p name) as [e|]; [by eapply Herr, Hdir|].
  apply vol_inode_update with (m := m); [done|done|exact Hdir|..].
  - apply (dir_wf_insert_entry m p (new_entry name n type)); [apply Hv|by apply new_entry_ok].
  - apply extents_wf_insert_other; [apply Hv|done].
  - apply numbers_insert; [apply Hv|simpl; lia].
Qed.

(** The new inode is written before the entry; when the entry cannot be made, the
    inode stays. *)
Lemma volume_create_entry_correct new_inode type v m s p parent name :
  vol_rep v m s -> vol_room v 2 -> fresh_inode new_inode -> is_u8 type -> is_str name ->
  1 <= p < 2 ^ 64 -> inode_at m p parent -> inode_count v + 1 < 2 ^ 64 ->
  let n := inode_count v + 1 in
  let m1 := with_inode m (new_inode n (next_transaction_id v) 0) in
  if is_directory parent then
    exists v', vol_moved v v' 2 /\ inode_count v' = n
      /\ if decide (1 <= len name <= 255) then
           match dir_lookup m p name with
           | Some _ => volume_create_entry new_inode type p name v = (v', Err AlreadyExists) /\ vol_rep v' m1 s
           | None => volume_create_entry new_inode type p name v = (v', Ok n)
               /\ vol_rep v' (with_entry m1 p (new_entry name n type)) s
           end
         else volume_create_entry new_inode type p name v = (v', Err InvalidArgument) /\ vol_rep v' m1 s
  else volume_create_entry new_inode type p name v = (v, Err NotADirectory).
Proof.
  intros Hv Hroom Hnew Htype Hstr Hp Hparent Hcount n m1. unfold volume_create_entry. rewrite st_bind_get.
  rewrite (st_bind_lift _ _ _ parent) by by eapply volume_read_inode_correct.
  destruct (is_directory parent); [|done]. cbn [negb].
  pose proof (vr_root _ _ _ Hv) as Hroot. pose proof (vr_boundary _ _ _ Hv) as Hb.
  assert (0 <= sb_next_cow_block_address (superblock v)) as Hb0 by lia.
  destruct (create_inode_correct new_inode v m s) as (v1 & v2 & E1 & E2 & Hv2 & M2 & C2);
    [done|by eapply vol_room_mono; [..|exact Hroom]|done|done|].
  rewrite (st_bind_Ok _ _ _ _ _ E1), (st_bind_Ok _ _ _ _ _ E2), st_bind_get. fold n in C2, E1, E2 |- *.
  fold m1 in Hv2.
  pose proof (create_entry_correct v2 m1 s p name n type (next_transaction_id v)) as Hentry.
  assert (dir_lookup m1 p name = dir_lookup m p name) as Hlook by apply dir_lookup_insert_inode.
  rewrite Hlook in Hentry. cbv zeta in Hentry.
  assert (p <= inode_count v) as Hpc by (destruct Hparent as [Hpm _]; apply (vr_numbers _ _ _ Hv _ _ Hpm)).
  specialize (Hentry Hv2 (vol_room_moved v v2 1 1 Hroom M2) Htype Hstr ltac:(unfold n in *; lia)
    ltac:(split; [unfold n; lia|unfold u64_max, n; lia]) (vr_id _ _ _ Hv)).
  pose proof (vol_moved_mono v v2 1 2 Hb0 ltac:(lia) M2) as M22.
  destruct (decide (1 <= len name <= 255)) as [Hlen|Hlen]; [destruct (dir_lookup m p name) as [e|]|].
  - exists v2. by rewrite (st_bind_Err _ _ _ _ _ Hentry).
  - destruct Hentry as (c & root & v' & E3 & E4 & Hv' & M3 & C3). exists v'.
    rewrite (st_bind_Ok _ _ _ _ _ E3). unfold modify_superblock. rewrite st_bind_modify.
    change (superblock (vol_set_cow v2 c)) with (superblock v2). rewrite (st_bind_Ok _ _ _ _ _ E4).
    split; [exact (vol_moved_trans _ _ _ _ _ M2 M3)|]. by rewrite C3.
  - exists v2. by rewrite (st_bind_Err _ _ _ _ _ Hentry).
Qed.

Lemma volume_create_missing_parent new_inode type v m s p name :
  vol_rep v m s -> 1 <= p < 2 ^ 64 -> m !! inode_key p = None ->
  volume_create_entry new_inode type p name v = (v, Err NotFound).
Proof.
  intros Hv Hp Hm. unfold volume_create_entry. rewrite st_bind_get.
  by rewrite (volume_read_inode_missing v m s p Hv Hp Hm).
Qed.

Lemma new_regular_file_fresh : fresh_inode new_regular_file.
Proof. intros n g t. split; [done|apply new_regular_file_wf]. Qed.

Lemma new_directory_fresh : fresh_inode new_directory.
Proof. intros n g t. split; [done|apply new_directory_wf]. Qed.

(** ** Lookup and listing *)

Lemma volume_lookup_correct v m s p parent name :
  vol_rep v m s -> 1 <= p < 2 ^ 64 -> inode_at m p parent ->
  volume_lookup_directory_entry v p name
  = if is_directory parent then Ok (child_inode_number <$> dir_lookup m p name) else Err NotADirectory.
Proof.
  intros Hv Hp Hparent. unfold volume_lookup_directory_entry.
  rewrite (volume_read_inode_correct v m s p parent) by done. cbn [obind].
  destruct (is_directory parent); [|done]. cbn [negb]. destruct (vr_inodes _ _ _ Hv) as (fp & Hr & _).
  change (dirty_block_cache v) with (dirty_cache (vol_cow v [])).
  by rewrite (directory_lookup_correct (device v) (vol_cow v []) _ m fp p name Hr (vol_room_0 _ _ _ [] Hv)
    (vr_dirs _ _ _ Hv) Hp).
Qed.
End directories.
