(* ===== verification/VolumeUnlink.v ===== *)
(** * VolumeUnlink: removing directory entries

    [volume_unlink_directory_entry]: the entry, the link count, and for the last
    link the extents, the data blocks and the inode. *)

From S2P Require Import Prelude Checksum Device Superblock Node NodeCodec BTree BTreeInv BTreeWrite.
From S2P Require Import BTreeInsert BTreeDelete TreeStore Inode Extent FreeSpace ChecksumTree XxHash Dir Journal Volume VolumeInv.
From S2P Require Import VolumeDirs.

(** ** The extents of a file in the inode tree *)

Abbreviation extent_of n kv := (object_id (fst kv) = n /\ item_type (fst kv) = ITEM_TYPE_EXTENT_DATA).

Definition extents_of (m : gmap BafsKey (list Z)) (n : Z) : gmap BafsKey (list Z) :=
  filter (fun kv => extent_of n kv) m.

Definition without_extents (m : gmap BafsKey (list Z)) (n : Z) : gmap BafsKey (list Z) :=
  filter (fun kv => ~ extent_of n kv) m.

Abbreviation extent_range m n items := (range_of m (extent_key n 0) (extent_key n (2 ^ 64 - 1)) items).

Lemma extent_range_key n k :
  key_le (extent_key n 0) k /\ key_le k (extent_key n (2 ^ 64 - 1))
  <-> object_id k = n /\ item_type k = ITEM_TYPE_EXTENT_DATA /\ is_u64 (offset k).
Proof.
  destruct k as [o t f]. rewrite !key_le_lteq, !key_lt_lex. unfold extent_key, is_u64, u64_max. simpl. split.
  - intros [[H1|H1] [H2|H2]]; try injection H1 as <- <- <-; try injection H2 as -> -> ->; lia.
  - intros (-> & -> & Hf). split.
    + destruct (decide (f = 0)) as [->|]; [by right|left; lia].
    + destruct (decide (f = 2 ^ 64 - 1)) as [->|]; [by right|left; lia].
Qed.

Lemma extent_range_map limit m n items :
  extents_wf limit m -> extent_range m n items -> items_map items = extents_of m n.
Proof.
  intros Hwf [Hs Hin]. apply map_eq. intros k. apply option_eq. intros bytes.
  rewrite items_map_elem, Hin by done. unfold extents_of. rewrite map_lookup_filter_Some. simpl.
  rewrite extent_range_key. split; [tauto|]. intros (Hm & Ho & Ht).
  destruct (Hwf k bytes Hm Ht) as (e & _ & [He] & Hoff & _). by rewrite Hoff.
Qed.

Lemma extent_range_length limit m n items :
  extents_wf limit m -> extent_range m n items -> len items = Z.of_nat (size (extents_of m n)).
Proof.
  intros Hwf Hr. rewrite <- (extent_range_map _ _ _ _ Hwf Hr). unfold items_map.
  rewrite map_size_list_to_map by (apply items_sorted_NoDup, Hr). by rewrite length_fmap.
Qed.

(** Deleting the listed keys one after another. *)
Definition delete_items (items : list BafsLeafItem) (m : gmap BafsKey (list Z)) : gmap BafsKey (list Z) :=
  foldl (fun m it => delete (li_key it) m) m items.

Lemma delete_items_lookup items m k :
  delete_items items m !! k = if decide (k ∈ li_key <$> items) then None else m !! k.
Proof.
  revert m. induction items as [|it items IH]; intros m; csimpl; [done|].
  unfold delete_items in *. simpl. rewrite IH. destruct (decide (k = li_key it)) as [->|Hne].
  - rewrite lookup_delete_eq, (decide_True (P := _ ∈ _ :: _)) by left. by case_decide.
  - rewrite lookup_delete_ne by done. repeat case_decide; try done; set_solver.
Qed.

Lemma delete_extent_items limit m n items :
  extents_wf limit m -> extent_range m n items -> delete_items items m = without_extents m n.
Proof.
  intros Hwf Hr. apply map_eq. intros k. rewrite delete_items_lookup.
  pose proof (extent_range_map _ _ _ _ Hwf Hr) as Hmap. destruct Hr as [Hs Hin].
  assert (k ∈ li_key <$> items <-> is_Some (extents_of m n !! k)) as Hk.
  { rewrite <- Hmap, list_elem_of_fmap. split.
    - intros ([k' b] & -> & Hit). exists b. by apply items_map_elem.
    - intros [b Hb%items_map_elem]; [|done]. by exists (BafsLeafItem_new k b). }
  unfold without_extents, extents_of in *. apply option_eq. intros b. rewrite map_lookup_filter_Some. simpl.
  destruct (decide (k ∈ li_key <$> items)) as [Hd|Hd].
  - split; [done|]. intros [_ Hne]. apply Hk in Hd as [b' [_ Hb']%map_lookup_filter_Some]. done.
  - split; [|tauto]. intros Hb. split; [done|]. intros Hx. apply Hd, Hk. exists b. by apply map_lookup_filter_Some.
Qed.

(** ** The loop over the extents *)

Section unlink.
Context {D : Type} `{BlockDevice D} `{!TreeStore D}.
Implicit Types v : BafsVolume D.

Lemma on_cow_set {A} (op : ST cow BafsError A) v c c' a :
  op c = (c', Ok a) -> on_cow (freed_blocks c) op (vol_set_cow v c) = (vol_set_cow v c', Ok (a, freed_blocks c')).
Proof.
  intros E. unfold on_cow. replace (vol_cow (vol_set_cow v c) (freed_blocks c)) with c by by destruct c.
  by rewrite E.
Qed.

(** An inode tree and a free-extent tree behind [ds]. *)
Record trees2 (d : D) (ds : Z) (c : cow) (ir : Z) (m : gmap BafsKey (list Z)) (fi : list Z) (fr : Z)
    (fe : free_map) (ff : list Z) : Prop := {
  t2_inode : tree_rep inode_tree d c ir m fi;
  t2_free : tree_rep free_tree d c fr (free_encode fe) ff;
  t2_ok : free_ok FREE_LIMIT fe;
  t2_fi : Forall (fun x => ds <= x) fi;
  t2_ff : Forall (fun x => ds <= x) ff;
  t2_freed : Forall (fun x => 0 <= x) (freed_blocks c);
}.

(** Superseded blocks below [b], and what the trees could still add. *)
Definition potential (b : Z) (c : cow) (fi ff : list Z) : Z :=
  len (blocks_below b (freed_blocks c)) + 2 * committed b fi + 2 * committed b ff.

Lemma update_footprint K d c root m fp n c' root' m' fp' l ds :
  tree_rep (D:=D) K d c root m fp -> tree_updated K d c fp n c' root' m' fp' l -> ds <= next_free_block c ->
  Forall (fun x => ds <= x) fp -> Forall (fun x => 0 <= x) (freed_blocks c) -> 0 <= next_free_block c ->
  Forall (fun x => ds <= x) fp' /\ Forall (fun x => 0 <= x) (freed_blocks c')
  /\ forall b, b <= next_free_block c ->
     len (blocks_below b (freed_blocks c')) + 2 * committed b fp' <= len (blocks_below b (freed_blocks c)) + 2 * committed b fp.
Proof.
  intros Hr [X _ Ev _] Hds Hfp Hfr Hn. pose proof (ext_freed _ _ _ X) as ->. split; [|split].
  - rewrite Forall_forall in *. intros x [Hx|Hx]%(te_blocks _ _ _ _ _ Ev); [by apply Hfp|lia].
  - apply Forall_app. split; [done|]. eapply superseded_nonneg; [exact Ev|by eapply footprint_nonneg|done].
  - intros b Hb. rewrite blocks_below_app, length_app. pose proof (te_count _ _ _ _ _ Ev b Hb). lia.
Qed.

Lemma trees2_inode_update d ds c ir m fi fr fe ff n c' ir' m' fi' l :
  trees2 d ds c ir m fi fr fe ff -> tree_updated inode_tree d c fi n c' ir' m' fi' l ->
  0 <= next_free_block c -> ds <= next_free_block c ->
  trees2 d ds c' ir' m' fi' fr fe ff
  /\ forall b, b <= next_free_block c -> potential b c' fi' ff <= potential b c fi ff.
Proof.
  intros [Hi Hf Hok Hfi Hff Hfr] U Hn Hds.
  destruct (update_footprint _ _ _ _ _ _ _ _ _ _ _ _ ds Hi U Hds Hfi Hfr Hn) as (Hfi' & Hfr' & Hpot).
  split; [|intros b Hb; specialize (Hpot b Hb); unfold potential; lia].
  split; try done; [apply U|]. by eapply tree_rep_extends; [apply U|].
Qed.

Lemma trees2_free_update d ds c ir m fi fr fe ff n c' fr' fe' ff' l :
  trees2 d ds c ir m fi fr fe ff -> tree_updated free_tree d c ff n c' fr' (free_encode fe') ff' l ->
  free_ok FREE_LIMIT fe' -> 0 <= next_free_block c -> ds <= next_free_block c ->
  trees2 d ds c' ir m fi fr' fe' ff'
  /\ forall b, b <= next_free_block c -> potential b c' fi ff' <= potential b c fi ff.
Proof.
  intros [Hi Hf Hok Hfi Hff Hfr] U Hok' Hn Hds.
  destruct (update_footprint _ _ _ _ _ _ _ _ _ _ _ _ ds Hf U Hds Hff Hfr Hn) as (Hff' & Hfr' & Hpot).
  split; [|intros b Hb; specialize (Hpot b Hb); unfold potential; lia].
  split; try done; [|apply U]. by eapply tree_rep_extends; [apply U|].
Qed.

(** An item the loop can handle. *)
Definition extent_item (m : gmap BafsKey (list Z)) (it : BafsLeafItem) : Prop :=
  exists e, li_value it = serialise_extent_data_to_bytes e /\ extent_wf e /\ 0 < block_count e
    /\ first_disk_block e + block_count e <= FREE_LIMIT /\ key_allowed inode_tree (li_key it)
    /\ li_key it <> root_inode_key /\ is_Some (m !! li_key it).

Definition EXTENT_BLOCKS : Z := FREE_BLOCKS + DELETE_BLOCKS.

Lemma unlink_extents_correct v g items : forall c ir m fi fr fe ff ds,
  trees2 (device v) ds c ir m fi fr fe ff -> is_u64 g -> NoDup (li_key <$> items) ->
  Forall (extent_item m) items -> ds <= next_free_block c -> room c (EXTENT_BLOCKS * len items) ->
  exists c' ir' fi' fr' fe' ff' l,
    unlink_extents g items ir fr (freed_blocks c) (vol_set_cow v c)
    = (vol_set_cow v c', Ok (ir', fr', freed_blocks c'))
    /\ trees2 (device v) ds c' ir' (delete_items items m) fi' fr' fe' ff' /\ extends c c' l
    /\ next_free_block c' <= next_free_block c + EXTENT_BLOCKS * len items
    /\ forall b, b <= next_free_block c -> potential b c' fi' ff' <= potential b c fi ff.
Proof.
  induction items as [|it items IH]; intros c ir m fi fr fe ff ds Ht Hg Hnd Hall Hds Hroom.
  { exists c, ir, fi, fr, fe, ff, []. split; [done|]. split; [done|]. split; [apply extends_refl|].
    split; [simpl; lia|]. intros b _. lia. }
  apply NoDup_cons in Hnd as [Hnew Hnd]. apply Forall_cons in Hall as [(e & Hval & Hwf & Hcnt & Hlim & Hka & Hnr & Hm) Hall].
  destruct Hroom as [Hn0 Hroom]. simpl length in *.
  assert (EXTENT_BLOCKS = 69 /\ FREE_BLOCKS = 55 /\ DELETE_BLOCKS = 14) as (HE & HF & HD) by done.
  destruct (free_blocks_correct FREE_LIMIT ltac:(done) (device v) c fr fe ff (first_disk_block e) (block_count e) g)
    as (p & c1 & fr1 & ff1 & l1 & Hp & E1 & U1).
  { apply Ht. } { apply Ht. } { destruct Hwf. ilia. } { done. } { done. } { done. } { split; lia. }
  destruct (free_release_sound FREE_LIMIT fe p (first_disk_block e) (block_count e)) as (Hok1 & _);
    [apply Ht|done|destruct Hwf; ilia|done|done|].
  destruct (trees2_free_update _ _ _ _ _ _ _ _ _ _ _ _ _ _ _ Ht U1 Hok1 Hn0 Hds) as [Ht1 P1].
  pose proof (ext_next _ _ _ (tu_extends _ _ _ _ _ _ _ _ _ _ U1)) as M1. pose proof (tu_next _ _ _ _ _ _ _ _ _ _ U1) as N1.
  destruct (tree_delete_updated inode_tree (device v) c1 ir m fi (li_key it) g) as (c2 & ir2 & fi2 & l2 & E2 & U2).
  { apply Ht1. } { done. } { simpl. congruence. } { done. } { split; lia. } { done. }
  destruct (trees2_inode_update _ _ _ _ _ _ _ _ _ _ _ _ _ _ _ Ht1 U2) as [Ht2 P2]; [lia..|].
  pose proof (ext_next _ _ _ (tu_extends _ _ _ _ _ _ _ _ _ _ U2)) as M2. pose proof (tu_next _ _ _ _ _ _ _ _ _ _ U2) as N2.
  destruct (IH c2 ir2 (delete (li_key it) m) fi2 fr1 (free_release fe p (first_disk_block e) (block_count e)) ff1 ds)
    as (c3 & ir3 & fi3 & fr3 & fe3 & ff3 & l3 & E3 & Ht3 & X3 & N3 & P3); [done|done|done| |lia|split; lia|].
  { rewrite Forall_forall in *. intros it' Hin. destruct (Hall it' Hin) as (e' & ? & ? & ? & ? & ? & ? & ?).
    exists e'. do 6 (split; [done|]). rewrite lookup_delete_ne; [done|]. intros Hk. apply Hnew. rewrite Hk.
    by apply list_elem_of_fmap_2. }
  exists c3, ir3, fi3, fr3, fe3, ff3, ((l1 ++ l2) ++ l3). split; [|split; [done|split; [|split; [lia|]]]].
  - cbn [unlink_extents]. rewrite Hval. rewrite (st_bind_lift _ _ _ e) by by apply deserialise_serialise_extent.
    rewrite st_bind_get. change (device (vol_set_cow v c)) with (device v).
    rewrite (st_bind_Ok _ _ _ _ _ (on_cow_set _ v _ _ _ E1)), (st_bind_Ok _ _ _ _ _ (on_cow_set _ v _ _ _ E2)).
    exact E3.
  - eapply extends_trans; [eapply extends_trans; [apply U1|apply U2]|exact X3].
  - intros b Hb. specialize (P1 b Hb). specialize (P2 b ltac:(lia)). specialize (P3 b ltac:(lia)). lia.
Qed.

(** ** The last link *)

Lemma extent_scan_allowed n : 1 <= n < 2 ^ 64 -> scan_allowed inode_tree (extent_key n 0) (extent_key n (2 ^ 64 - 1)).
Proof.
  intros Hn. split; [|by left]. repeat split; simpl; unfold ITEM_TYPE_EXTENT_DATA; ilia.
Qed.

Lemma extent_key_allowed n f : 1 <= n < 2 ^ 64 -> is_u64 f -> key_allowed inode_tree (extent_key n f).
Proof.
  intros Hn Hf. assert (key_wf (extent_key n f)) by (repeat split; simpl; unfold ITEM_TYPE_EXTENT_DATA; ilia).
  split; [done|]. split; [|done]. apply above_root_key; [lia|done].
Qed.

Lemma extent_range_items limit m n items :
  extents_wf limit m -> limit <= FREE_LIMIT -> 1 <= n < 2 ^ 64 -> extent_range m n items ->
  Forall (extent_item m) items /\ NoDup (li_key <$> items).
Proof.
  intros Hwf Hlim Hn [Hs Hin]. split.
  - apply Forall_forall. intros [k bytes] Hit. apply Hin in Hit as (Hm & Hr).
    apply extent_range_key in Hr as (Ho & Ht & Hf). destruct (Hwf k bytes Hm Ht) as (e & -> & He & Hoff & Hc & Hl).
    exists e. destruct k as [o t f]. simpl in *. subst o t.
    do 3 (split; [done|]). split; [lia|]. split; [by apply extent_key_allowed|]. split; [done|]. by eexists.
  - pose proof (items_sorted_NoDup _ Hs) as Hnd. by rewrite <- list_fmap_compose in Hnd.
Qed.

Lemma unlink_last_link_correct v m s l g n inode fi fe ff :
  let b := sb_next_cow_block_address (superblock v) in
  let cost := EXTENT_BLOCKS * Z.of_nat (size (extents_of m n)) + DELETE_BLOCKS in
  vol_rep v m s -> 
  trees2 (device v) (data_start (superblock v)) (vol_cow v l) (sb_inode_tree_root_block (superblock v)) m fi
    (sb_free_extent_tree_root_block (superblock v)) fe ff ->
  potential b (vol_cow v l) fi ff <= 4 * b -> is_u64 g -> 1 < n < 2 ^ 64 -> is_Some (m !! inode_key n) ->
  vol_next_free_block v + cost < 2 ^ 64 -> 0 <= allocated_block_count inode ->
  exists v' l', unlink_last_link g n inode l v = (v', Ok l')
    /\ vol_rep v' (delete (inode_key n) (without_extents m n)) s /\ vol_step v v' cost
    /\ len (blocks_below b l') <= 4 * b /\ Forall (fun x => 0 <= x) l'
    /\ sb_free_block_count (superblock v')
       = saturating_add 64 (sb_free_block_count (superblock v)) (allocated_block_count inode)
    /\ sb_allocated_inode_count (superblock v') = sb_allocated_inode_count (superblock v).
Proof.
  intros b cost Hv Ht Hpot Hg Hn Hin Hroom Halloc. unfold unlink_last_link. rewrite st_bind_get.
  pose proof (vr_boundary _ _ _ Hv) as Hb.
  assert (FREE_BLOCKS = 55 /\ DELETE_BLOCKS = 14 /\ EXTENT_BLOCKS = 69) as (HF & HD & HE) by done.
  destruct (vr_inodes _ _ _ Hv) as (fp0 & Hr0 & _).
  destruct (tree_range _ _ _ _ _ _ _ _ Hr0 (vol_room_0 _ _ _ [] Hv) (extent_scan_allowed n ltac:(lia))) as (items & Eit & Hrange).
  rewrite (st_bind_lift _ _ _ _ Eit).
  destruct (extent_range_items _ m n items (vr_extents _ _ _ Hv)) as [Hall Hnd]; [unfold FREE_LIMIT; lia|lia|done|].
  pose proof (extent_range_length _ _ _ _ (vr_extents _ _ _ Hv) Hrange) as Hlen. unfold cost in *.
  destruct (unlink_extents_correct v g items (vol_cow v l) _ _ _ _ _ _ _ Ht Hg Hnd Hall)
    as (c1 & ir1 & fi1 & fr1 & fe1 & ff1 & l1 & E1 & Ht1 & X1 & N1 & P1); [simpl; lia|split; simpl; lia|].
  rewrite vol_set_cow_same in E1. change (freed_blocks (vol_cow v l)) with l in E1.
  rewrite (st_bind_Ok _ _ _ _ _ E1). rewrite (delete_extent_items _ _ _ _ (vr_extents _ _ _ Hv) Hrange) in Ht1.
  pose proof (ext_next _ _ _ X1) as M1. simpl in N1, M1.
  destruct (tree_delete_updated inode_tree (device v) c1 ir1 (without_extents m n) fi1 (inode_key n) g)
    as (c2 & ir2 & fi2 & l2 & E2 & U2).
  { apply Ht1. } { apply inode_key_allowed. lia. }
  { simpl. intros [= Heq]. unfold BAFS_ROOT_INODE_NUMBER in Heq. lia. } { done. } { split; lia. }
  { destruct Hin as [bytes Hin]. exists bytes. apply map_lookup_filter_Some. split; [done|]. simpl. by intros [_ [=]]. }
  rewrite (st_bind_Ok _ _ _ _ _ (on_cow_set _ v _ _ _ E2)). unfold modify_superblock. rewrite st_bind_modify.
  destruct (trees2_inode_update _ _ _ _ _ _ _ _ _ _ _ _ _ _ _ Ht1 U2) as [Ht2 P2]; [lia..|].
  pose proof (ext_next _ _ _ (tu_extends _ _ _ _ _ _ _ _ _ _ U2)) as M2. pose proof (tu_next _ _ _ _ _ _ _ _ _ _ U2) as N2.
  pose proof (extends_trans _ _ _ _ _ X1 (tu_extends _ _ _ _ _ _ _ _ _ _ U2)) as X2.
  set (v' := vol_set_superblock _ _). exists v', (freed_blocks c2). split; [done|].
  assert (vol_step v v' (EXTENT_BLOCKS * Z.of_nat (size (extents_of m n)) + DELETE_BLOCKS)) as S.
  { split; [done|done|exact (extends_plain _ _ _ X2)|simpl; lia|by eexists _, _, _, _, _]. }
  split; [|split; [done|]].
  - eapply vol_rep_step; [exact Hv|exact S|simpl; lia| | | | | | | |].
    + simpl. unfold saturating_add. pose proof (wf_free _ (vr_wf _ _ _ Hv)). split; [ilia|unfold u64_max; lia].
    + pose proof (wf_inodes _ (vr_wf _ _ _ Hv)). simpl. ilia.
    + exists fi2. split; [by eapply tree_rep_plain; [..|apply Ht2]|apply Ht2].
    + eapply tree_in_step; [exact S|apply Hv].
    + exists fe1. split; [|apply Ht2]. exists ff1. split; [by eapply tree_rep_plain; [..|apply Ht2]|apply Ht2].
    + apply dir_wf_delete. intros k bytes [Hk _]%map_lookup_filter_Some. by apply (vr_dirs _ _ _ Hv).
    + apply extents_wf_delete. eapply (extents_wf_mono (vol_next_free_block v)); [simpl; lia|].
      intros k bytes [Hk _]%map_lookup_filter_Some. by apply (vr_extents _ _ _ Hv).
    + intros k bytes [_ [Hk _]%map_lookup_filter_Some]%lookup_delete_Some. by apply (vr_numbers _ _ _ Hv k bytes).
  - specialize (P1 b ltac:(simpl; unfold b; lia)). specialize (P2 b ltac:(unfold b; lia)).
    assert (0 <= committed b fi2 /\ 0 <= committed b ff1) as [? ?] by (unfold committed; lia).
    unfold potential in *. split; [lia|]. split; [apply Ht2|done].
Qed.

(** ** The whole operation *)

Lemma vol_trees2 v m s :
  vol_rep v m s ->
  exists fi fe ff, trees2 (device v) (data_start (superblock v)) (vol_cow v [])
      (sb_inode_tree_root_block (superblock v)) m fi (sb_free_extent_tree_root_block (superblock v)) fe ff
    /\ potential (sb_next_cow_block_address (superblock v)) (vol_cow v []) fi ff
       <= 4 * sb_next_cow_block_address (superblock v).
Proof.
  intros Hv. destruct (vr_inodes _ _ _ Hv) as (fi & Hi & Hfi). destruct (vr_free _ _ _ Hv) as (fe & (ff & Hf & Hff) & Hok).
  pose proof (vr_boundary _ _ _ Hv) as Hb. exists fi, fe, ff. split; [by split|].
  pose proof (committed_bounds (sb_next_cow_block_address (superblock v)) fi (footprint_nonneg _ _ _ _ _ _ Hi) ltac:(lia)).
  pose proof (committed_bounds (sb_next_cow_block_address (superblock v)) ff (footprint_nonneg _ _ _ _ _ _ Hf) ltac:(lia)).
  unfold potential. simpl. lia.
Qed.

(** Removing the entry, before anything else. *)
Lemma unlink_entry_correct v m s p name e :
  vol_rep v m s -> 1 <= p < 2 ^ 64 -> dir_lookup m p name = Some e ->
  vol_next_free_block v + DELETE_BLOCKS < 2 ^ 64 ->
  let m1 := delete (make_directory_entry_key p name) m in
  exists c root fi fe ff,
    on_cow [] (directory_unlink_entry (device v) (sb_inode_tree_root_block (superblock v)) p name
                 (next_transaction_id v)) v = (vol_set_cow v c, Ok (root, freed_blocks c))
    /\ let v1 := vol_set_superblock (vol_set_cow v c) (sb_set_inode_root (superblock v) root) in
       vol_rep v1 m1 s /\ vol_step v v1 DELETE_BLOCKS
       /\ trees2 (device v1) (data_start (superblock v1)) (vol_cow v1 (freed_blocks c)) root m1 fi
            (sb_free_extent_tree_root_block (superblock v1)) fe ff
       /\ potential (sb_next_cow_block_address (superblock v1)) (vol_cow v1 (freed_blocks c)) fi ff
          <= 4 * sb_next_cow_block_address (superblock v1).
Proof.
  intros Hv Hp He Hroom m1. destruct (vol_trees2 v m s Hv) as (fi & fe & ff & Ht & Hpot).
  pose proof (vr_boundary _ _ _ Hv) as Hb. assert (DELETE_BLOCKS = 14) as HD by done.
  pose proof (directory_unlink_correct (device v) (vol_cow v []) (sb_inode_tree_root_block (superblock v)) m fi p name
    (next_transaction_id v) (t2_inode _ _ _ _ _ _ _ _ _ Ht) (vr_dirs _ _ _ Hv) Hp (vr_id _ _ _ Hv)) as Hu.
  rewrite He in Hu. destruct Hu as (c & root & fi1 & l & E & U); [split; simpl; lia|].
  destruct (trees2_inode_update _ _ _ _ _ _ _ _ _ _ _ _ _ _ _ Ht U) as [Ht1 P1]; [simpl; lia..|].
  pose proof (ext_next _ _ _ (tu_extends _ _ _ _ _ _ _ _ _ _ U)) as M. pose proof (tu_next _ _ _ _ _ _ _ _ _ _ U) as N.
  exists c, root, fi1, fe, ff. split; [by apply on_cow_Ok|]. intros v1. simpl in M, N.
  assert (vol_cow v1 (freed_blocks c) = c) as Ec by by destruct c.
  assert (vol_step v v1 DELETE_BLOCKS) as S.
  { split; [done|done|exact (extends_plain _ _ _ (tu_extends _ _ _ _ _ _ _ _ _ _ U))|simpl; lia|by eexists _, _, _, _, _]. }
  split; [|split; [done|split]].
  - eapply vol_rep_step; [exact Hv|exact S|simpl; lia|apply Hv| | | | | | |].
    + pose proof (wf_inodes _ (vr_wf _ _ _ Hv)). simpl. ilia.
    + exists fi1. split; [by eapply tree_rep_plain; [..|apply Ht1]|apply Ht1].
    + eapply tree_in_step; [exact S|apply Hv].
    + destruct (vr_free _ _ _ Hv) as (fe' & Hf & Hfe). exists fe'. split; [|done]. by eapply tree_in_step.
    + apply dir_wf_delete, Hv.
    + apply extents_wf_delete. eapply extents_wf_mono; [|apply Hv]. simpl. lia.
    + intros k bytes [_ Hk]%lookup_delete_Some. by apply (vr_numbers _ _ _ Hv k bytes).
  - rewrite Ec. exact Ht1.
  - rewrite Ec. simpl. specialize (P1 (sb_next_cow_block_address (superblock v)) ltac:(simpl; lia)). lia.
Qed.

Definition unlinked (m : gmap BafsKey (list Z)) (p : Z) (name : list Z) (inode : BafsInode) : gmap BafsKey (list Z) :=
  let m1 := delete (make_directory_entry_key p name) m in
  if hard_link_count inode <=? 1 then delete (inode_key (inode_number inode)) (without_extents m1 (inode_number inode))
  else with_inode m1 (inode_set_links inode (hard_link_count inode - 1)).

Lemma inode_set_links_wf inode n : inode_wf inode -> is_u32 n -> inode_wf (inode_set_links inode n).
Proof. intros [] ?. by constructor. Qed.

(** Updates an unlink may need, for [k] extents. *)
Definition UNLINK_UPDATES (k : Z) : Z := 3 + 3 * k.

(** More links remain: the inode is written back, then the blocks are returned. *)
Lemma unlink_keep_inode v m s l inode :
  let b := sb_next_cow_block_address (superblock v) in
  vol_rep v m s -> Forall (fun x => 0 <= x) l -> len (blocks_below b l) <= 4 * b ->
  1 <= inode_number inode <= sb_allocated_inode_count (superblock v) -> inode_wf inode -> vol_room v 2 ->
  exists v', (let! l := (let! _ := volume_write_inode inode in st_ret l) in
              return_freed_cow_blocks_to_free_extent_tree l) v = (v', Ok tt)
    /\ vol_rep v' (with_inode m inode) s /\ vol_step v v' (2 * OP_BLOCKS b)
    /\ sb_allocated_inode_count (superblock v') = sb_allocated_inode_count (superblock v).
Proof.
  intros b Hv Hnn Hl Hn Hi Hroom. pose proof (vr_boundary _ _ _ Hv) as Hb.
  destruct (OP_BLOCKS_bound b ltac:(lia)) as (HO1 & HO2 & HO3).
  destruct (volume_write_inode_correct v m s inode) as (v2 & E2 & Hv2 & M2 & C2);
    [done|eapply vol_room_mono; [|by instantiate (1:=2)|done]; lia|done|done|].
  pose proof (vm_step _ _ _ M2) as S2. pose proof (vs_next _ _ _ S2) as N2. pose proof (vm_free _ _ _ M2) as F2.
  fold b in N2, F2. destruct Hroom as [R1 R2]. fold b in R1, R2.
  assert (sb_next_cow_block_address (superblock v2) = b) as Eb2 by (by rewrite (vs_boundary _ _ _ S2)).
  unfold st_bind at 1. rewrite (st_bind_Ok _ _ _ _ _ E2). unfold st_ret.
  destruct (vol_rep_return v2 _ s l Hv2 Hnn) as (v3 & E3 & S3 & Hv3 & F3); rewrite ?Eb2; [done|lia|lia|].
  exists v3. split; [exact E3|]. split; [exact Hv3|]. rewrite Eb2 in S3. split.
  - eapply vol_step_mono; [|exact (vol_step_trans _ _ _ _ _ S2 (free_step_vol _ _ _ S3))]. fold b. lia.
  - destruct (fs_superblock _ _ _ S3) as (r & q & ->). exact C2.
Qed.

(** The last link: extents, data blocks and inode go, then the blocks are returned. *)
Lemma unlink_drop_inode v m s l g n inode fi fe ff :
  let b := sb_next_cow_block_address (superblock v) in
  let cost := EXTENT_BLOCKS * Z.of_nat (size (extents_of m n)) + DELETE_BLOCKS + RETURN_BLOCKS b in
  vol_rep v m s ->
  trees2 (device v) (data_start (superblock v)) (vol_cow v l) (sb_inode_tree_root_block (superblock v)) m fi
    (sb_free_extent_tree_root_block (superblock v)) fe ff ->
  potential b (vol_cow v l) fi ff <= 4 * b -> is_u64 g -> 1 < n < 2 ^ 64 -> is_Some (m !! inode_key n) ->
  vol_next_free_block v + cost < 2 ^ 64 -> 0 <= allocated_block_count inode ->
  sb_free_block_count (superblock v) + allocated_block_count inode + 6 * b < 2 ^ 64 ->
  exists v', (let! l := unlink_last_link g n inode l in return_freed_cow_blocks_to_free_extent_tree l) v = (v', Ok tt)
    /\ vol_rep v' (delete (inode_key n) (without_extents m n)) s /\ vol_step v v' cost
    /\ sb_allocated_inode_count (superblock v') = sb_allocated_inode_count (superblock v).
Proof.
  intros b cost Hv Ht Hpot Hg Hn Hin Hroom Halloc Hcount. pose proof (vr_boundary _ _ _ Hv) as Hb.
  assert (0 <= RETURN_BLOCKS b) as HR.
  { unfold RETURN_BLOCKS. assert (FREE_BLOCKS = 55) as -> by done. unfold b. lia. }
  destruct (unlink_last_link_correct v m s l g n inode fi fe ff) as (v2 & l2 & E2 & Hv2 & S2 & Hl2 & Hnn2 & F2 & C2);
    try done; [unfold cost in Hroom; lia|].
  rewrite (st_bind_Ok _ _ _ _ _ E2). pose proof (vs_next _ _ _ S2) as N2. unfold saturating_add in F2.
  assert (sb_next_cow_block_address (superblock v2) = b) as Eb2 by (by rewrite (vs_boundary _ _ _ S2)).
  destruct (vol_rep_return v2 _ s l2 Hv2 Hnn2) as (v3 & E3 & S3 & Hv3 & F3); rewrite ?Eb2;
    [done|unfold cost in Hroom; lia|lia|].
  exists v3. split; [exact E3|]. split; [exact Hv3|]. rewrite Eb2 in S3. split.
  - exact (vol_step_trans _ _ _ _ _ S2 (free_step_vol _ _ _ S3)).
  - destruct (fs_superblock _ _ _ S3) as (r & q & ->). exact C2.
Qed.

Lemma volume_unlink_correct v m s p name e inode :
  let b := sb_next_cow_block_address (superblock v) in
  let budget := UNLINK_UPDATES (Z.of_nat (size (extents_of m (inode_number inode)))) * OP_BLOCKS b in
  vol_rep v m s -> 1 <= p < 2 ^ 64 -> dir_lookup m p name = Some e ->
  inode_at m (inode_number inode) inode -> child_inode_number e = inode_number inode -> 1 < inode_number inode ->
  vol_next_free_block v + budget < 2 ^ 64 ->
  sb_free_block_count (superblock v) + allocated_block_count inode + budget < 2 ^ 64 ->
  exists v', volume_unlink_directory_entry p name v = (v', Ok tt)
    /\ vol_rep v' (unlinked m p name inode) s /\ vol_step v v' budget
    /\ sb_allocated_inode_count (superblock v') = sb_allocated_inode_count (superblock v).
Proof.
  intros b budget Hv Hp He [Hm Hi] Hchild Hn Hroom Hcount. unfold volume_unlink_directory_entry. rewrite st_bind_get.
  pose proof (vr_boundary _ _ _ Hv) as Hb. destruct (OP_BLOCKS_bound b ltac:(lia)) as (HO1 & HO2 & HO3).
  assert (INSERT_BLOCKS = 27 /\ DELETE_BLOCKS = 14 /\ EXTENT_BLOCKS = 69) as (HI & HD & HE) by done.
  set (x := Z.of_nat (size (extents_of m (inode_number inode)))) in *.
  assert (3 * OP_BLOCKS b + 81 * x <= budget) as Hbud.
  { unfold budget, UNLINK_UPDATES. assert (27 * x <= OP_BLOCKS b * x) by (apply Z.mul_le_mono_nonneg_r; lia). lia. }
  destruct (vr_inodes _ _ _ Hv) as (fp & Hr & _).
  rewrite (st_bind_lift _ _ _ _ (directory_lookup_correct (device v) (vol_cow v []) _ m fp p name Hr
    (vol_room_0 _ _ _ [] Hv) (vr_dirs _ _ _ Hv) Hp)). rewrite He.
  rewrite (st_bind_lift _ _ _ e eq_refl).
  destruct (unlink_entry_correct v m s p name e Hv Hp He ltac:(lia)) as (c & root & fi & fe & ff & E & Hv1 & S1 & Ht1 & P1).
  rewrite (st_bind_Ok _ _ _ _ _ E). unfold modify_superblock at 1. rewrite st_bind_modify.
  change (superblock (vol_set_cow v c)) with (superblock v).
  set (v1 := vol_set_superblock (vol_set_cow v c) (sb_set_inode_root (superblock v) root)) in *.
  set (m1 := delete (make_directory_entry_key p name) m) in *.
  rewrite st_bind_get. pose proof (iwf_number _ Hi) as Hnu. pose proof (iwf_links _ Hi) as Hlu. pose proof (iwf_blocks _ Hi) as Hbu.
  assert (inode_at m1 (inode_number inode) inode) as Hi1 by (split; [by unfold m1; rewrite lookup_delete_ne|done]).
  rewrite Hchild. rewrite (st_bind_lift _ _ _ inode) by (eapply volume_read_inode_correct; [exact Hv1|ilia|done]).
  pose proof (vs_next _ _ _ S1) as N1. unfold saturating_sub. cbn [hard_link_count inode_set_links].
  pose proof (t2_freed _ _ _ _ _ _ _ _ _ Ht1) as Hnn. cbn [vol_cow freed_blocks] in Hnn.
  change (sb_next_cow_block_address (superblock v1)) with b in P1.
  unfold unlinked. fold m1. destruct (Z.leb_spec (hard_link_count inode) 1) as [Hle|Hgt].
  - rewrite (proj2 (Z.eqb_eq (Z.max 0 (hard_link_count inode - 1)) 0)) by ilia.
    assert (extents_of m1 (inode_number inode) = extents_of m (inode_number inode)) as Hext.
    { unfold m1, extents_of. apply map_filter_delete_not. intros bytes Hb'. simpl. by intros [_ [=]]. }
    destruct (unlink_drop_inode v1 m1 s (freed_blocks c) (next_transaction_id v) (inode_number inode)
      (inode_set_links inode (Z.max 0 (hard_link_count inode - 1))) fi fe ff) as (v3 & E3 & Hv3 & S3 & C3).
    { done. } { exact Ht1. } { exact P1. } { apply Hv. } { ilia. } { by exists (serialise_inode_to_bytes inode); apply Hi1. }
    { rewrite Hext. fold x. change (sb_next_cow_block_address (superblock v1)) with b. lia. }
    { simpl. ilia. }
    { change (sb_next_cow_block_address (superblock v1)) with b.
      change (sb_free_block_count (superblock v1)) with (sb_free_block_count (superblock v)).
      change (allocated_block_count (inode_set_links _ _)) with (allocated_block_count inode). lia. }
    exists v3. split; [exact E3|]. split; [exact Hv3|]. split; [|exact C3]. rewrite Hext in S3. fold x in S3.
    eapply vol_step_mono; [|exact (vol_step_trans _ _ _ _ _ S1 S3)].
    change (sb_next_cow_block_address (superblock v1)) with b. lia.
  - assert (Z.max 0 (hard_link_count inode - 1) = hard_link_count inode - 1) as -> by lia.
    rewrite (proj2 (Z.eqb_neq (hard_link_count inode - 1) 0)) by lia.
    pose proof (vr_numbers _ _ _ Hv _ _ Hm) as Hnum. simpl in Hnum.
    destruct (unlink_keep_inode v1 m1 s (freed_blocks c) (inode_set_links inode (hard_link_count inode - 1)))
      as (v3 & E3 & Hv3 & S3 & C3).
    { done. } { done. }
    { change (sb_next_cow_block_address (superblock v1)) with b. unfold potential in P1. cbn [vol_cow freed_blocks] in P1.
      assert (0 <= committed b fi /\ 0 <= committed b ff) as [? ?] by (unfold committed; lia). lia. }
    { simpl. lia. } { apply inode_set_links_wf; [done|ilia]. }
    { unfold vol_room. change (sb_next_cow_block_address (superblock v1)) with b.
      change (sb_free_block_count (superblock v1)) with (sb_free_block_count (superblock v)). split; ilia. }
    exists v3. split; [exact E3|]. split; [exact Hv3|]. split; [|exact C3].
    eapply vol_step_mono; [|exact (vol_step_trans _ _ _ _ _ S1 S3)].
    change (sb_next_cow_block_address (superblock v1)) with b. lia.
Qed.
End unlink.
