(* ===== verification/VolumeFiles.v ===== *)
(** * VolumeFiles: file contents

    Writing data blocks with their checksums, what it means that a file holds
    some bytes, and reading and appending. *)

From S2P Require Import Prelude Checksum Device Superblock Node NodeCodec BTree BTreeInv BTreeWrite.
From S2P Require Import BTreeInsert BTreeDelete TreeStore Inode Extent FreeSpace ChecksumTree XxHash Dir Journal JournalLaws.
From S2P Require Import Volume FileModel VolumeInv VolumeDirs VolumeUnlink.

(** ** Checksums of written blocks *)

Definition with_sums (s : gmap BafsKey (list Z)) (ws : list (Z * list Z)) : gmap BafsKey (list Z) :=
  foldl (fun s w => <[checksum_key w.1 := checksum_record w.1 (compute_crc32c w.2)]> s) s ws.

Lemma with_sums_other s ws a : a ∉ ws.*1 -> with_sums s ws !! checksum_key a = s !! checksum_key a.
Proof.
  revert s. induction ws as [|[x b] ws IH]; intros s Ha; [done|]. csimpl in Ha.
  apply not_elem_of_cons in Ha as [Hne Ha]. unfold with_sums in *. simpl. rewrite IH by done.
  apply lookup_insert_ne. intros E. apply (inj checksum_key) in E. congruence.
Qed.

Lemma with_sums_in s ws a b :
  NoDup ws.*1 -> (a, b) ∈ ws -> with_sums s ws !! checksum_key a = Some (checksum_record a (compute_crc32c b)).
Proof.
  revert s. induction ws as [|[x c] ws IH]; intros s Hnd Hin; [by apply elem_of_nil in Hin|].
  csimpl in Hnd. apply NoDup_cons in Hnd as [Hx Hnd]. apply elem_of_cons in Hin as [[= -> ->]|Hin].
  - unfold with_sums. simpl. change (foldl _ _ ws) with (with_sums (<[checksum_key x := checksum_record x (compute_crc32c c)]> s) ws).
    rewrite with_sums_other by done. apply lookup_insert_eq.
  - by apply (IH (<[checksum_key x := checksum_record x (compute_crc32c c)]> s)).
Qed.

(** ** The chunks of a buffer *)

Lemma padded_chunks_NoDup fuel start data : NoDup (padded_chunks fuel start data).*1.
Proof.
  revert start data. induction fuel as [|fuel IH]; intros start [|x data]; [constructor..|].
  cbn [padded_chunks]. csimpl. constructor; [|apply IH]. intros (w & Ew & Hin)%list_elem_of_fmap.
  pose proof (padded_chunks_spec fuel (start + 1) (drop (Z.to_nat 4096) (x :: data))) as Hs.
  rewrite Forall_forall in Hs. specialize (Hs w Hin). simpl in Hs. lia.
Qed.

Lemma padded_chunks_bytes fuel start data : bytes_ok data -> Forall (fun w => bytes_ok w.2) (padded_chunks fuel start data).
Proof.
  revert start data. induction fuel as [|fuel IH]; intros start [|x data] Hok; [constructor..|].
  cbn [padded_chunks]. constructor; [|apply IH; by apply Forall_drop].
  cbn [snd]. apply bytes_ok_app. split; [by apply Forall_take|apply zeros_bytes_ok].
Qed.

(** The [j]-th chunk holds the [j]-th block of the data. *)
Lemma padded_chunks_lookup fuel start data j :
  len data <= 4096 * Z.of_nat fuel -> 0 <= j -> 4096 * j < len data ->
  let piece := take (Z.to_nat 4096) (drop (Z.to_nat (4096 * j)) data) in
  (start + j, piece ++ zeros (4096 - len piece)) ∈ padded_chunks fuel start data.
Proof.
  revert start data j. induction fuel as [|fuel IH]; intros start [|x data] j Hl Hj Hlt piece;
    [simpl length in *; lia..|].
  destruct (decide (j = 0)) as [->|Hne].
  - unfold piece. rewrite Z.add_0_r, drop_0. left.
  - cbn [padded_chunks]. right. specialize (IH (start + 1) (drop (Z.to_nat 4096) (x :: data)) (j - 1)).
    rewrite length_drop, drop_drop in IH.
    replace (Z.to_nat 4096 + Z.to_nat (4096 * (j - 1)))%nat with (Z.to_nat (4096 * j)) in IH by lia.
    replace (start + 1 + (j - 1)) with (start + j) in IH by lia. apply IH; lia.
Qed.

Section data_blocks.
Context {D : Type} `{BlockDevice D} `{!TreeStore D}.
Implicit Types v : BafsVolume D.

(** ** Writing data blocks *)

(** The blocks [ws], whose addresses the allocator has passed, were written to the
    cache and the checksum tree was updated. *)
Record data_written v (ws : list (Z * list Z)) v' : Prop := {
  dw_device : device v' = device v;
  dw_id : next_transaction_id v' = next_transaction_id v;
  dw_superblock : exists r, superblock v' = sb_set_checksum_root (superblock v) r;
  dw_next : vol_next_free_block v <= vol_next_free_block v' <= vol_next_free_block v + INSERT_BLOCKS * len ws;
  dw_old : forall x, x < vol_next_free_block v -> x ∉ ws.*1 -> dirty_block_cache v' !! x = dirty_block_cache v !! x;
  dw_blocks : forall x b, (x, b) ∈ ws -> dirty_block_cache v' !! x = Some b;
  dw_new : forall x b, dirty_block_cache v' !! x = Some b ->
    dirty_block_cache v !! x = Some b \/ (x, b) ∈ ws
    \/ vol_next_free_block v <= x < vol_next_free_block v' /\ length b = 4096%nat /\ bytes_ok b;
}.

(** One block and its checksum. *)
Lemma write_data_block_correct v g a block freed s fs :
  tree_rep checksum_tree (device v) (vol_cow v freed) (sb_checksum_tree_root_block (superblock v)) s fs ->
  is_u64 g -> is_u64 a -> a < vol_next_free_block v -> a ∉ fs -> len block = 4096 ->
  0 <= vol_next_free_block v -> vol_next_free_block v + INSERT_BLOCKS < 2 ^ 64 ->
  let v1 := vol_set_cow v (cow_set_cache (vol_cow v freed) (<[a := block]> (dirty_block_cache v))) in
  on_cow freed (write_block_to_cache a block) v = (v1, Ok (tt, freed))
  /\ exists c root fs' l,
    on_cow freed (store_data_block_checksum (device v) (sb_checksum_tree_root_block (superblock v)) a block g) v1
    = (vol_set_cow v1 c, Ok (root, freed ++ l))
    /\ tree_updated checksum_tree (device v) (vol_cow v1 freed) fs INSERT_BLOCKS c root
         (<[checksum_key a := checksum_record a (compute_crc32c block)]> s) fs' l.
Proof.
  intros Hr Hg Ha Hlt Hfs Hb Hn Hroom v1. split.
  - unfold on_cow, write_block_to_cache. rewrite (proj2 (Z.eqb_eq _ _) Hb). done.
  - assert (tree_rep checksum_tree (device v) (vol_cow v1 freed) (sb_checksum_tree_root_block (superblock v)) s fs) as Hr1.
    { eapply tree_frame; [exact Hr| |simpl; lia]. intros x Hx. unfold read_block. simpl.
      rewrite lookup_insert_ne; [done|]. by intros ->. }
    destruct (store_checksum_correct (device v) (vol_cow v1 freed) _ s fs a block g Hr1 Ha Hg) as (c & root & fs' & l & E & U).
    { split; simpl; lia. }
    exists c, root, fs', l. split; [|done]. rewrite (on_cow_Ok _ _ _ _ _ E). do 3 f_equal.
    apply (ext_freed _ _ _ (tu_extends _ _ _ _ _ _ _ _ _ _ U)).
Qed.

(** Only the allocator's position matters. *)
Lemma tree_evolves_next c1 c1' c2 c2' fp fp' fr :
  next_free_block c2 = next_free_block c1 -> next_free_block c2' = next_free_block c1' ->
  tree_evolves c1 c1' fp fp' fr -> tree_evolves c2 c2' fp fp' fr.
Proof. intros E E' []. by split; rewrite ?E, ?E'. Qed.

Lemma data_written_refl v : data_written v [] v.
Proof.
  split; try done.
  - exists (sb_checksum_tree_root_block (superblock v)). by destruct (superblock v).
  - simpl. lia.
  - by intros x b Hx%elem_of_nil.
  - auto.
Qed.

(** One more block in front. *)
Lemma data_written_cons v a block freed c root ws v' l :
  let v1 := vol_set_cow v (cow_set_cache (vol_cow v freed) (<[a := block]> (dirty_block_cache v))) in
  let v2 := vol_set_superblock (vol_set_cow v1 c) (sb_set_checksum_root (superblock v) root) in
  a < vol_next_free_block v -> a ∉ ws.*1 ->
  extends (vol_cow v1 freed) c l -> next_free_block c <= vol_next_free_block v + INSERT_BLOCKS ->
  data_written v2 ws v' -> data_written v ((a, block) :: ws) v'.
Proof.
  intros v1 v2 Ha Hnew X N [Hd Hi (r & Hsb) Hn Hold Hblocks Hnewb].
  pose proof (ext_next _ _ _ X) as M. simpl in M, Hd, Hi, Hn, Hold, Hnewb.
  assert (dirty_cache c !! a = Some block) as Hca.
  { rewrite (ext_old _ _ _ X) by done. apply lookup_insert_eq. }
  split; try done.
  - exists r. by rewrite Hsb.
  - simpl length. lia.
  - csimpl. intros x Hx [Hne Hxw]%not_elem_of_cons. rewrite Hold by (lia || done).
    rewrite (ext_old _ _ _ X) by done. simpl. by rewrite lookup_insert_ne.
  - intros x b [[= -> ->]|Hin]%elem_of_cons; [|by apply Hblocks]. rewrite Hold by (lia || done). done.
  - intros x b Hx. destruct (Hnewb x b Hx) as [Hc|[Hin|(Hr & ?)]].
    + destruct (ext_new _ _ _ X x b Hc) as [Hc'|(Hr & ?)].
      * simpl in Hc'. apply lookup_insert_Some in Hc' as [[-> ->]|[_ Hc']]; [right; left; left|by left].
      * right; right. simpl in Hr. split; [lia|done].
    + right; left. by right.
    + right; right. split; [lia|done].
Qed.

Lemma write_data_blocks_correct g fuel : forall data v a freed s fs,
  let ws := padded_chunks fuel a data in
  tree_rep checksum_tree (device v) (vol_cow v freed) (sb_checksum_tree_root_block (superblock v)) s fs ->
  is_u64 g -> bytes_ok data -> len data <= 4096 * Z.of_nat fuel -> 0 <= a ->
  (forall x, x ∈ fs -> x ∉ ws.*1) -> Forall (fun w => w.1 < vol_next_free_block v) ws ->
  0 <= vol_next_free_block v -> vol_next_free_block v + INSERT_BLOCKS * len ws < 2 ^ 64 ->
  exists v' l fs', write_data_blocks fuel g data a freed v = (v', Ok (freed ++ l)) /\ data_written v ws v'
    /\ tree_rep checksum_tree (device v') (vol_cow v' []) (sb_checksum_tree_root_block (superblock v')) (with_sums s ws) fs'
    /\ tree_evolves (vol_cow v []) (vol_cow v' []) fs fs' l.
Proof.
  induction fuel as [|fuel IH]; intros [|y data] v a freed s fs ws Hr Hg Hok Hlen Ha Hdisj Hlt Hn Hroom;
    try (simpl length in Hlen; lia);
    try (exists v, [], fs; rewrite app_nil_r; split; [done|]; split; [apply data_written_refl|];
         split; [by eapply tree_rep_plain; [..|exact Hr]|apply tree_evolves_refl]).
  set (chunk := take (Z.to_nat 4096) (y :: data)). set (later := drop (Z.to_nat 4096) (y :: data)).
  set (block := chunk ++ zeros (4096 - len chunk)). set (ws' := padded_chunks fuel (a + 1) later).
  assert (ws = (a, block) :: ws') as Ews by done. rewrite Ews in *. clear Ews.
  apply Forall_cons in Hlt as [Halt Hlt]. simpl in Halt. simpl length in Hroom.
  assert (INSERT_BLOCKS = 27) as HI by done.
  assert (len block = 4096) as Hblock by (unfold block, chunk; rewrite length_app, length_zeros, length_take; lia).
  assert (a ∉ ws'.*1) as Hnew.
  { pose proof (padded_chunks_NoDup (S fuel) a (y :: data)) as Hnd. by apply NoDup_cons in Hnd as [? _]. }
  destruct (write_data_block_correct v g a block freed s fs) as (E1 & c & root & fs1 & l1 & E2 & U);
    [done|done|split; [done|unfold u64_max; lia]|done|intros Hin; apply (Hdisj a Hin); left|done|done|lia|].
  set (v1 := vol_set_cow v _) in *. pose proof (ext_next _ _ _ (tu_extends _ _ _ _ _ _ _ _ _ _ U)) as M.
  pose proof (tu_next _ _ _ _ _ _ _ _ _ _ U) as N. simpl in M, N.
  set (v2 := vol_set_superblock (vol_set_cow v1 c) (sb_set_checksum_root (superblock v) root)).
  destruct (IH later v2 (a + 1) (freed ++ l1) (<[checksum_key a := checksum_record a (compute_crc32c block)]> s) fs1)
    as (v3 & l3 & fs3 & E3 & W3 & R3 & Ev3).
  { eapply tree_rep_plain; [..|apply U]; done. } { done. } { by apply Forall_drop. }
  { unfold later. rewrite length_drop. lia. } { lia. }
  { intros x Hx Hin. destruct (te_blocks _ _ _ _ _ (tu_evolves _ _ _ _ _ _ _ _ _ _ U) x Hx) as [Hfs|Hfs].
    - apply (Hdisj x Hfs). by right.
    - simpl in Hfs. apply list_elem_of_fmap in Hin as (w & -> & Hin). rewrite Forall_forall in Hlt.
      specialize (Hlt w Hin). simpl in Hlt. lia. }
  { eapply Forall_impl; [exact Hlt|]. simpl. lia. } { simpl. lia. } { simpl. fold ws'. lia. }
  exists v3, (l1 ++ l3), fs3. split; [|split; [|split; [exact R3|]]].
  - cbn [write_data_blocks]. fold chunk later. rewrite (st_bind_lift _ _ _ block); cycle 1.
    { unfold chunk. rewrite put_slice_prefix by (rewrite length_zeros, length_take; lia).
      unfold block. do 2 f_equal. by rewrite drop_zeros. }
    rewrite (st_bind_Ok _ _ _ _ _ E1), st_bind_get. unfold v1 at 1 2. cbn [device superblock vol_set_cow].
    rewrite (st_bind_Ok _ _ _ _ _ E2). unfold modify_superblock. rewrite st_bind_modify.
    change (superblock (vol_set_cow v1 c)) with (superblock v). fold v2. rewrite E3. by rewrite <- app_assoc.
  - by eapply data_written_cons; [..|apply U|exact N|exact W3].
  - destruct (tree_blocks _ _ _ _ _ _ Hr) as [_ Hfp].
    eapply tree_evolves_trans; [|exact Hfp| |exact Ev3].
    + pose proof (dw_next _ _ _ W3). simpl in *. lia.
    + by eapply tree_evolves_next; [..|exact (tu_evolves _ _ _ _ _ _ _ _ _ _ U)].
Qed.

(** ** Allocation *)

Lemma length_padded_chunks fuel start data : (length (padded_chunks fuel start data) <= fuel)%nat.
Proof.
  revert start data. induction fuel as [|fuel IH]; intros start [|x data]; simpl; try lia. specialize (IH (start + 1) (drop (Z.to_nat 4096) (x :: data))). simpl in IH. lia.
Qed.

(** The blocks of a buffer written from [a] on. *)
Definition data_chunks (a : Z) (data : list Z) : list (Z * list Z) :=
  padded_chunks (Z.to_nat (block_count_for data)) a data.

Lemma data_chunks_spec a data w :
  w ∈ data_chunks a data -> a <= w.1 < a + block_count_for data /\ len w.2 = 4096.
Proof.
  intros Hin. pose proof (padded_chunks_spec (Z.to_nat (block_count_for data)) a data) as Hs.
  rewrite Forall_forall in Hs. destruct (Hs w Hin). split; [|done].
  assert (0 <= block_count_for data) by (apply Z.div_pos; lia). lia.
Qed.

(** Reserving the blocks keeps the invariant. *)
Lemma vol_rep_reserve v m s n count :
  vol_rep v m s -> 0 <= n -> vol_next_free_block v + n < 2 ^ 64 -> is_u64 count ->
  let v1 := vol_set_superblock (vol_set_cow v {| dirty_cache := dirty_block_cache v;
              next_free_block := vol_next_free_block v + n; freed_blocks := [] |})
              (sb_set_free_count (superblock v) count) in
  vol_rep v1 m s /\ vol_step v v1 n.
Proof.
  intros Hv Hn Hr Hc v1. assert (vol_step v v1 n) as S.
  { split; [done|done| |simpl; lia|by eexists _, _, _, _, _]. split; simpl; [lia|done|done|auto]. }
  split; [|done]. eapply vol_rep_step; [exact Hv|exact S|simpl; lia|done| | | | |apply Hv| |apply Hv].
  - pose proof (wf_inodes _ (vr_wf _ _ _ Hv)). simpl. ilia.
  - eapply tree_in_step; [exact S|apply Hv].
  - eapply tree_in_step; [exact S|apply Hv].
  - destruct (vr_free _ _ _ Hv) as (fe & Hf & Hfe). exists fe. split; [|done]. by eapply tree_in_step.
  - eapply extents_wf_mono; [|apply Hv]. simpl. lia.
Qed.

(** A volume whose cache received the data blocks it had reserved. *)
Lemma data_written_step v n count ws v2 :
  let v1 := vol_set_superblock (vol_set_cow v {| dirty_cache := dirty_block_cache v;
              next_free_block := vol_next_free_block v + n; freed_blocks := [] |})
              (sb_set_free_count (superblock v) count) in
  0 <= n -> data_written v1 ws v2 ->
  (forall w, w ∈ ws -> vol_next_free_block v <= w.1 < vol_next_free_block v + n /\ length w.2 = 4096%nat /\ bytes_ok w.2) ->
  vol_step v v2 (n + INSERT_BLOCKS * len ws).
Proof.
  intros v1 Hn [Hd Hi (r & Hsb) Hnx Hold Hbl Hnew] Hws. simpl in *. split; [done|done| |lia|].
  - split; simpl; [lia|done| |].
    + intros x Hx. rewrite Hold; [done|lia|]. intros (w & -> & Hin)%list_elem_of_fmap. apply Hws in Hin. lia.
    + intros x b Hx. destruct (Hnew x b Hx) as [?|[Hin|(?&?)]]; [by left|right|right; split; [lia|done]].
      destruct (Hws _ Hin) as (?&?&?). simpl in *. split; [lia|done].
  - rewrite Hsb. by eexists _, _, _, _, _.
Qed.

Lemma data_chunks_blocks a data w :
  bytes_ok data -> w ∈ data_chunks a data ->
  a <= w.1 < a + block_count_for data /\ length w.2 = 4096%nat /\ bytes_ok w.2.
Proof.
  intros Hok Hin. destruct (data_chunks_spec _ _ _ Hin) as [? ?]. split; [done|]. split; [lia|].
  pose proof (padded_chunks_bytes (Z.to_nat (block_count_for data)) a data Hok) as Hbs.
  rewrite Forall_forall in Hbs. by apply Hbs.
Qed.

Lemma length_data_chunks a data : len (data_chunks a data) <= block_count_for data.
Proof.
  pose proof (length_padded_chunks (Z.to_nat (block_count_for data)) a data).
  assert (0 <= block_count_for data) by (apply Z.div_pos; lia). unfold data_chunks. lia.
Qed.

(** The reserved blocks are written: the invariant holds, and the superseded nodes
    of the checksum tree are known. *)
Lemma write_reserved_data v m s data count :
  let n := block_count_for data in
  let a := vol_next_free_block v in
  let b := sb_next_cow_block_address (superblock v) in
  let v1 := vol_set_superblock (vol_set_cow v {| dirty_cache := dirty_block_cache v;
              next_free_block := a + n; freed_blocks := [] |}) (sb_set_free_count (superblock v) count) in
  vol_rep v m s -> bytes_ok data -> 0 < len data -> is_u64 count -> a + 28 * n < 2 ^ 64 ->
  exists v2 l, write_data_blocks (Z.to_nat n) (next_transaction_id v) data a [] v1 = (v2, Ok l)
    /\ vol_rep v2 m (with_sums s (data_chunks a data)) /\ vol_step v v2 (28 * n) /\ data_written v1 (data_chunks a data) v2
    /\ len (blocks_below b l) <= 4 * b /\ Forall (fun x => 0 <= x) l
    /\ forall p, tree_committed v checksum_tree (sb_checksum_tree_root_block (superblock v)) p ->
       exists p', tree_committed v2 checksum_tree (sb_checksum_tree_root_block (superblock v2)) p'
         /\ len (blocks_below b l) <= 2 * (p - p').
Proof.
  intros n a b v1 Hv Hok Hlen Hc Hroom. pose proof (vr_boundary _ _ _ Hv) as Hb.
  pose proof (block_count_for_bounds data) as Hn. fold n in Hn. assert (INSERT_BLOCKS = 27) as HI by done.
  destruct (vol_rep_reserve v m s n count Hv ltac:(lia) ltac:(fold a; lia) Hc) as [Hv1 S1]. fold a v1 in Hv1, S1.
  destruct (vr_sums _ _ _ Hv) as (fs & Hr & Hfs). destruct (tree_blocks _ _ _ _ _ _ Hr) as [_ Hfp].
  assert (tree_rep checksum_tree (device v1) (vol_cow v1 []) (sb_checksum_tree_root_block (superblock v1)) s fs) as Hr1
    by by eapply (tree_rep_extends _ (device v) (vol_cow v [])); [apply S1|].
  pose proof (length_data_chunks a data) as Hlw. fold n in Hlw.
  destruct (write_data_blocks_correct (next_transaction_id v) (Z.to_nat n) data v1 a [] s fs)
    as (v2 & l & fs2 & E2 & W2 & R2 & Ev2); try done; change (padded_chunks (Z.to_nat n) a data) with (data_chunks a data) in *;
    change (vol_next_free_block v1) with (a + n).
  { apply Hv. } { lia. } { unfold a. lia. }
  { intros x Hx (w & -> & Hin)%list_elem_of_fmap. rewrite Forall_forall in Hfp. specialize (Hfp _ Hx). simpl in Hfp.
    apply data_chunks_spec in Hin. fold a in Hfp. lia. }
  { apply Forall_forall. intros w Hin%data_chunks_spec. fold n in Hin. lia. } { unfold a. lia. } { lia. }
  assert (vol_step v v2 (28 * n)) as S2.
  { eapply vol_step_mono; [|apply (data_written_step v n count (data_chunks a data) v2 ltac:(lia) W2)]; [lia|].
    intros w. by apply data_chunks_blocks. }
  exists v2, l. split; [exact E2|]. split; [|split; [done|split; [done|]]].
  - pose proof (dw_next _ _ _ W2) as N2. change (vol_next_free_block v1) with (a + n) in N2.
    destruct (dw_superblock _ _ _ W2) as (r & Hsb). 
    eapply vol_rep_step; [exact Hv|exact S2|lia|by rewrite Hsb|by rewrite Hsb; pose proof (wf_inodes _ (vr_wf _ _ _ Hv)); simpl; ilia|..].
    + rewrite Hsb. eapply tree_in_step; [exact S2|apply Hv].
    + exists fs2. split; [done|]. rewrite Hsb. rewrite Forall_forall in *.
      intros x [Hx|Hx]%(te_blocks _ _ _ _ _ Ev2); [by apply Hfs|]. simpl in Hx. fold a in Hx.
      change (data_start (sb_set_checksum_root (superblock v1) r)) with (data_start (superblock v)). unfold a in *. lia.
    + rewrite Hsb. destruct (vr_free _ _ _ Hv) as (fe & Hf & Hfe). exists fe. split; [|done]. by eapply tree_in_step.
    + apply Hv.
    + eapply extents_wf_mono; [|apply Hv]. fold a. lia.
    + rewrite Hsb. apply Hv.
  - pose proof (footprint_nonneg _ _ _ _ _ _ Hr) as Hnn. split; [|split].
    + pose proof (superseded_few b _ _ _ _ _ Ev2 Hnn ltac:(simpl; fold a; unfold b, a in *; lia)). unfold b in *. lia.
    + eapply superseded_nonneg; [exact Ev2|done|simpl; fold a; unfold a; lia].
    + intros p (m' & fp & Hr' & ->). rewrite (tree_unique _ _ _ _ _ _ _ _ Hr' Hr). exists (committed b fs2). split.
      * exists (with_sums s (data_chunks a data)), fs2. split; [done|]. by rewrite (vs_boundary _ _ _ S2).
      * apply (te_count _ _ _ _ _ Ev2). simpl. fold a. unfold a, b in *. lia.
Qed.

Lemma allocate_data_correct v m s data :
  let n := block_count_for data in
  let a := vol_next_free_block v in
  vol_rep v m s -> bytes_ok data -> 0 < len data -> a + n <= sb_total_block_count (superblock v) ->
  vol_room v (2 * n + 1) ->
  exists v', allocate_and_write_data_blocks data v = (v', Ok a)
    /\ vol_rep v' m (with_sums s (data_chunks a data)) /\ vol_moved v v' (2 * n + 1) /\ a + n <= vol_next_free_block v'
    /\ (forall x block, (x, block) ∈ data_chunks a data -> dirty_block_cache v' !! x = Some block)
    /\ sb_allocated_inode_count (superblock v') = sb_allocated_inode_count (superblock v).
Proof.
  intros n a Hv Hok Hlen Htot Hroom. set (b := sb_next_cow_block_address (superblock v)).
  pose proof (vr_boundary _ _ _ Hv) as Hb. pose proof (block_count_for_bounds data) as Hn. fold n in Hn.
  destruct (OP_BLOCKS_bound b ltac:(unfold b; lia)) as (HO1 & HO2 & HO3). assert (INSERT_BLOCKS = 27) as HI by done.
  destruct Hroom as [R1 R2]. fold a b in R1, R2. pose proof (wf_total _ (vr_wf _ _ _ Hv)) as Htw.
  pose proof (wf_free _ (vr_wf _ _ _ Hv)) as Hfw.
  assert (0 <= RETURN_BLOCKS b) as HR by (unfold RETURN_BLOCKS; assert (FREE_BLOCKS = 55) as -> by done; unfold b; lia).
  assert (28 * n + RETURN_BLOCKS b <= (2 * n + 1) * OP_BLOCKS b) as Hcost.
  { assert (54 * n <= OP_BLOCKS b * (2 * n)) by (replace (54 * n) with (27 * (2 * n)) by lia; apply Z.mul_le_mono_nonneg_r; lia). lia. }
  unfold allocate_and_write_data_blocks. rewrite st_bind_get. fold n a.
  rewrite (proj2 (Z.eqb_neq n 0)) by lia. rewrite (st_bind_lift _ _ _ (a + n)) by (apply checked_add_Ok; ilia).
  destruct (Z.ltb_spec (sb_total_block_count (superblock v)) (a + n)); [lia|].
  rewrite st_bind_modify. unfold modify_superblock. rewrite st_bind_modify.
  change (superblock (vol_set_cow v _)) with (superblock v).
  set (count := saturating_sub (sb_free_block_count (superblock v)) n).
  assert (0 <= count <= sb_free_block_count (superblock v)) as Hcnt by (unfold count, saturating_sub; ilia).
  destruct (write_reserved_data v m s data count Hv Hok Hlen ltac:(ilia) ltac:(fold n a; lia))
    as (v2 & l & E2 & Hv2 & S2 & W2 & Hl & Hnn & Hdebt).
  rewrite (st_bind_Ok _ _ _ _ _ E2). fold n a b in Hv2, S2, W2, Hl. destruct (dw_superblock _ _ _ W2) as (r & Hsb).
  pose proof (vs_next _ _ _ S2) as N2. fold a in N2. pose proof (dw_next _ _ _ W2) as N2'. simpl in N2'.
  destruct (vol_rep_return v2 _ _ l Hv2 Hnn) as (v3 & E3 & S3 & Hv3 & F3 & Hset); rewrite ?Hsb.
  { exact Hl. } { simpl. fold b. lia. } { simpl. fold b. lia. }
  rewrite Hsb in S3, F3. cbn in F3. fold b in F3. change (sb_next_cow_block_address _) with b in S3.
  exists v3. rewrite (st_bind_Ok _ _ _ _ _ E3). split; [done|]. split; [exact Hv3|].
  pose proof (ext_next _ _ _ (fs_extends _ _ _ S3)) as M3. simpl in M3. split; [|split; [lia|split]].
  - pose proof (free_step_vol _ _ _ S3) as S3'. split; fold b; [|lia|].
    + eapply vol_step_mono; [|exact (vol_step_trans _ _ _ _ _ S2 S3')]. lia.
    + intros p (pi & pf & ps & Hpi & Hpf & Hps & ->). destruct (Hdebt ps Hps) as (ps' & Hps' & Hle).
      destruct (Hset pf) as (pf' & Hpf' & Hle'); [rewrite Hsb; by eapply tree_committed_step|].
      destruct (fs_superblock _ _ _ S3) as (r' & k & Hsb3).
      exists (2 * (pi + pf' + ps')). split; [exists pi, pf', ps'; split; [|split; [done|split; [|done]]]|].
      * rewrite Hsb3, Hsb. eapply tree_committed_step; [exact S3'|]. by eapply tree_committed_step.
      * rewrite Hsb3. by eapply tree_committed_step.
      * rewrite (vs_boundary _ _ _ S2) in Hle'. fold b in Hle, Hle'. assert (FREE_BLOCKS = 55) as HF by done. fold a. lia.
  - intros x block Hin. pose proof (ext_old _ _ _ (fs_extends _ _ _ S3) x) as Hx. simpl in Hx.
    destruct (data_chunks_spec _ _ _ Hin) as [Hr _]. simpl in Hr. fold n in Hr. rewrite Hx by lia.
    by apply (dw_blocks _ _ _ W2).
  - destruct (fs_superblock _ _ _ S3) as (r' & k & ->). by rewrite Hsb.
Qed.
End data_blocks.
