(* ===== verification/FileContents.v ===== *)
(** * FileContents: what a file holds on a volume

    The extents of a file hold the segments of [FileModel.file] in blocks that match
    their recorded checksums.  [volume_read_file_data] returns the bytes those
    segments show, or an error where none covers a byte, and
    [volume_write_file_data] at any offset stores a segment. *)

From S2P Require Import Prelude Checksum Device Superblock Node NodeCodec BTree BTreeInv BTreeWrite.
From S2P Require Import BTreeInsert BTreeDelete TreeStore Inode Extent FreeSpace ChecksumTree XxHash Dir Journal JournalLaws.
From S2P Require Import Volume FileModel VolumeInv VolumeDirs VolumeUnlink VolumeFiles.

Definition extent_record (n : Z) (e : BafsExtentData) : BafsLeafItem :=
  BafsLeafItem_new (extent_key n (logical_byte_offset e)) (serialise_extent_data_to_bytes e).

(** ** Contents *)

Section contents.
Context {D : Type} `{BlockDevice D} `{!TreeStore D}.
Implicit Types v : BafsVolume D.

(** Block [a] holds [block], and its recorded checksum matches. *)
Record block_holds v (s : gmap BafsKey (list Z)) (a : Z) (block : list Z) : Prop := {
  bh_read : read_block (device v) (dirty_block_cache v) a = Ok block;
  bh_length : len block = 4096;
  bh_bytes : bytes_ok block;
  bh_sum : s !! checksum_key a = Some (checksum_record a (compute_crc32c block));
}.

(** The block of a segment that starts at its byte [o]. *)
Definition piece (bytes : list Z) (o : Z) : list Z := take (Z.to_nat 4096) (drop (Z.to_nat o) bytes).

(** The extent [e] holds the segment [seg]. *)
Record extent_holds v (s : gmap BafsKey (list Z)) (seg : Z * list Z) (e : BafsExtentData) : Prop := {
  eh_wf : extent_wf e;
  eh_offset : logical_byte_offset e = seg.1;
  eh_count : 0 < block_count e;
  eh_length : len seg.2 = 4096 * block_count e;
  eh_end : seg.1 + len seg.2 < 2 ^ 64;
  eh_blocks : forall j, 0 <= j < block_count e ->
    data_start (superblock v) <= first_disk_block e + j < vol_next_free_block v
    /\ block_holds v s (first_disk_block e + j) (piece seg.2 (4096 * j));
}.

(** The extents [es] of inode [n] hold the contents of [f]. *)
Record file_rep v (m s : gmap BafsKey (list Z)) (n : Z) (f : file) (es : list BafsExtentData) : Prop := {
  fr_items : extent_range m n (extent_record n <$> es);
  fr_ordered : ordered (file_segments f);
  fr_extents : Forall2 (extent_holds v s) (file_segments f) es;
}.

(** *** Reading *)

Lemma verify_block_holds v m s a block :
  vol_rep v m s -> 0 <= a < vol_next_free_block v -> block_holds v s a block ->
  verify_data_block_checksum (device v) (dirty_block_cache v) (sb_checksum_tree_root_block (superblock v)) a block = Ok tt.
Proof.
  intros Hv Ha [_ Hl Hok Hs]. destruct (vr_sums _ _ _ Hv) as (fs & Hr & _). pose proof (vr_boundary _ _ _ Hv) as Hb.
  pose proof (verify_checksum_correct (device v) (vol_cow v []) _ s fs a block Hr (vol_room_0 _ _ _ [] Hv)) as Hver.
  rewrite Hs in Hver. change (dirty_block_cache v) with (dirty_cache (vol_cow v [])).
  rewrite (Hver ltac:(split; [lia|unfold u64_max; lia]) (compute_crc32c block)); [|by apply compute_crc32c_u32|done].
  by rewrite verify_crc32c_compute.
Qed.

(** The loop over the extents finds the first one that covers an offset. *)
Lemma find_extent_first v s n segs es o :
  Forall2 (extent_holds v s) segs es ->
  find_extent_covering (extent_record n <$> es) o = Ok None /\ byte_at segs o = None
  \/ exists segs1 seg segs2 e, segs = segs1 ++ seg :: segs2 /\ Forall (fun x => ~ covers o x) segs1 /\ covers o seg
       /\ extent_holds v s seg e /\ find_extent_covering (extent_record n <$> es) o = Ok (Some e).
Proof.
  induction 1 as [|seg e segs es He _ IH]; [by left|]. csimpl. pose proof He as [Hw Ho Hc Hl Hend _].
  rewrite deserialise_serialise_extent by done. cbn [obind]. pose proof (ewf_offset _ Hw) as Hu. unfold is_u64 in Hu.
  rewrite checked_mul_Ok by lia. cbn [obind]. rewrite checked_add_Ok by lia. cbn [obind]. rewrite Ho.
  assert ((seg.1 <=? o) && (o <? seg.1 + block_count e * 4096) = bool_decide (covers o seg)) as ->.
  { unfold covers. destruct (Z.leb_spec seg.1 o), (Z.ltb_spec o (seg.1 + block_count e * 4096)); simpl; symmetry;
      [apply bool_decide_eq_true_2|apply bool_decide_eq_false_2..]; lia. }
  destruct (decide (covers o seg)) as [Hcov|Hcov].
  - rewrite bool_decide_eq_true_2 by done. right. exists [], seg, segs, e. done.
  - rewrite bool_decide_eq_false_2 by done. destruct IH as [[E Hn]|(s1 & sg & s2 & e' & -> & Hall & H1 & H2 & H3)]; [left; done|right].
    exists (seg :: s1), sg, s2, e'. split; [done|]. split; [by constructor|done].
Qed.

Lemma drop_piece (bytes : list Z) base w k :
  0 <= base -> 0 <= w -> 0 <= k -> w + k <= 4096 ->
  take (Z.to_nat k) (drop (Z.to_nat w) (piece bytes base)) = take (Z.to_nat k) (drop (Z.to_nat (base + w)) bytes).
Proof.
  intros. unfold piece. rewrite skipn_firstn_comm, drop_drop, take_take. f_equal; [lia|]. f_equal. lia.
Qed.

(** What the extent that covers [o] leads to: a verified block that holds the
    bytes of the file from [o] to the end of the block. *)
Definition round_reads v (f : file) (o : Z) (e : BafsExtentData) (block : list Z) : Prop :=
  let w := (o - logical_byte_offset e) mod 4096 in
  let a := first_disk_block e + (o - logical_byte_offset e) / 4096 in
  logical_byte_offset e <= o /\ a < 2 ^ 64 /\ read_block (device v) (dirty_block_cache v) a = Ok block
  /\ verify_data_block_checksum (device v) (dirty_block_cache v) (sb_checksum_tree_root_block (superblock v)) a block = Ok tt
  /\ forall k, 0 <= k <= 4096 - w ->
     exists text, file_read f o k = Some text /\ get_slice (E:=BafsError) block w k = Ok text.

Lemma extent_round v m s f o segs1 seg segs2 e :
  vol_rep v m s -> file_segments f = segs1 ++ seg :: segs2 -> ordered (file_segments f) ->
  Forall (fun x => ~ covers o x) segs1 -> covers o seg -> extent_holds v s seg e ->
  exists block, round_reads v f o e block.
Proof.
  intros Hv Hsegs Hord Hno Hcov [Hw Ho Hc Hl Hend Hb]. rewrite Hsegs in Hord. pose proof Hcov as Hr. unfold covers in Hr.
  set (q := (o - seg.1) / 4096). set (w := (o - seg.1) mod 4096).
  pose proof (Z.div_mod (o - seg.1) 4096 ltac:(done)) as Hdm. fold q w in Hdm.
  pose proof (Z.mod_pos_bound (o - seg.1) 4096 ltac:(done)) as Hwb. fold w in Hwb.
  assert (0 <= q < block_count e) as Hq by lia. destruct (Hb q Hq) as [Ha Hbl].
  pose proof (vr_boundary _ _ _ Hv) as Hbd. pose proof (ewf_first _ Hw) as Hfirst. unfold is_u64 in Hfirst.
  exists (piece seg.2 (4096 * q)). unfold round_reads. rewrite Ho. fold q w. split; [lia|]. split; [lia|]. split; [apply Hbl|].
  split; [eapply verify_block_holds; [exact Hv|lia|exact Hbl]|]. intros k Hk.
  exists (take (Z.to_nat k) (drop (Z.to_nat (o - seg.1)) seg.2)). split.
  - apply file_read_Some. rewrite length_take, length_drop. split; [lia|]. intros i Hi. rewrite Hsegs.
    rewrite (byte_at_covering segs1 seg segs2 o (o + i)) by (done || unfold covers; lia).
    rewrite lookup_take_lt by lia. rewrite lookup_drop. f_equal. lia.
  - rewrite get_slice_Ok by (rewrite ?(bh_length _ _ _ _ Hbl); lia). f_equal. rewrite drop_piece by lia. do 2 f_equal. lia.
Qed.

(** One round of the loop. *)
Lemma read_round v m s n f es o :
  vol_rep v m s -> file_rep v m s n f es -> 1 <= n < 2 ^ 64 ->
  let found := read_extent_data_for_file_offset (device v) (dirty_block_cache v) (sb_inode_tree_root_block (superblock v)) n o in
  found = Ok None /\ byte_at (file_segments f) o = None
  \/ exists e block, found = Ok (Some e) /\ round_reads v f o e block.
Proof.
  intros Hv [Hitems Hord Hext] Hn. destruct (vr_inodes _ _ _ Hv) as (fp & Hr & _).
  destruct (tree_range _ _ _ _ _ _ _ _ Hr (vol_room_0 _ _ _ [] Hv) (extent_scan_allowed n Hn)) as (items & E & Hrange).
  rewrite (range_of_unique _ _ _ _ _ Hrange Hitems) in E. unfold read_extent_data_for_file_offset.
  change (dirty_block_cache v) with (dirty_cache (vol_cow v [])). rewrite E. cbn [obind].
  destruct (find_extent_first v s n _ es o Hext) as [[Ef Hb]|(segs1 & seg & segs2 & e & Hsegs & Hno & Hcov & Hh & Ef)]; [by left|right].
  destruct (extent_round v m s f o segs1 seg segs2 e Hv Hsegs Hord Hno Hcov Hh) as [block Hblock]. by exists e, block.
Qed.

(** Putting the next [text] behind what the buffer holds. *)
Lemma splice_filled (pre text buf : list Z) :
  len pre + len text <= len buf ->
  splice (pre ++ drop (length pre) buf) (len pre) text = (pre ++ text) ++ drop (length (pre ++ text)) buf.
Proof.
  intros Hl. unfold splice. rewrite take_app_length' by lia. rewrite <- app_assoc. do 2 f_equal.
  rewrite drop_app_ge by lia. rewrite drop_drop, length_app. f_equal. lia.
Qed.

(** What reading [N] bytes from [off] on leaves in the buffer. *)
Definition reads_into (f : file) (off N : Z) (buf : list Z) (outcome : list Z * result Z) : Prop :=
  match file_read f off N with
  | Some text => outcome = (text ++ drop (length text) buf, Ok N)
  | None => outcome.2 = Err CorruptedStructure
  end.

Lemma read_file_loop_correct v m s n f es off N buf fuel : forall pre,
  vol_rep v m s -> file_rep v m s n f es -> 1 <= n < 2 ^ 64 -> 0 <= off -> len pre <= N -> N <= len buf -> off + N < 2 ^ 64 ->
  file_read f off (len pre) = Some pre -> N - len pre <= Z.of_nat fuel ->
  reads_into f off N buf (read_file_loop fuel v n off N (len pre) (pre ++ drop (length pre) buf)).
Proof.
  induction fuel as [|fuel IH]; intros pre Hv Hf Hn Hoff Hpre HN Hmax Hread Hfuel; cbn [read_file_loop];
    (destruct (Z.leb_spec N (len pre)) as [Hge|Hlt];
      [replace N with (len pre) by lia; unfold reads_into; by rewrite Hread|]); [lia|].
  rewrite (st_bind_lift _ _ _ (off + len pre)) by (apply checked_add_Ok; lia).
  destruct (read_round v m s n f es (off + len pre) Hv Hf Hn) as [[E Hb]|(e & block & E1 & Hlo & Ha & E2 & E3 & Hslice)].
  { rewrite (st_bind_lift _ _ _ _ E). unfold reads_into. by rewrite (file_read_None f off N (off + len pre)) by (lia || done). }
  rewrite (st_bind_lift _ _ _ _ E1), (st_bind_lift _ _ _ e eq_refl).
  rewrite (st_bind_lift _ _ _ (off + len pre - logical_byte_offset e)) by (by apply checked_sub_Ok).
  set (w := (off + len pre - logical_byte_offset e) mod 4096) in *. set (q := (off + len pre - logical_byte_offset e) / 4096) in *.
  pose proof (Z.mod_pos_bound (off + len pre - logical_byte_offset e) 4096 ltac:(done)) as Hw. fold w in Hw.
  rewrite (st_bind_lift _ _ _ (first_disk_block e + q)) by (by apply checked_add_Ok).
  rewrite (st_bind_lift _ _ _ _ E2), (st_bind_lift _ _ _ _ E3), st_bind_get.
  set (k := Z.min (4096 - w) (N - len pre)). destruct (Hslice k ltac:(lia)) as (text & Ht & Eslice).
  pose proof (file_read_length f (off + len pre) k text ltac:(lia) Ht) as Hk.
  rewrite (st_bind_lift _ _ _ ((pre ++ text) ++ drop (length (pre ++ text)) buf)).
  - rewrite st_bind_modify. replace (len pre + k) with (len (pre ++ text)) by (rewrite length_app; lia).
    apply IH; rewrite ?length_app; try done; [lia| |lia]. replace (Z.of_nat _) with (len pre + k) by lia. apply file_read_app; [lia..|done|done].
  - rewrite Eslice. cbn [obind]. unfold put_slice. rewrite length_app, length_drop. rewrite (splice_filled pre text buf) by lia.
    repeat case_bool. done.
Qed.

(** Reading fills the buffer with the bytes the file shows from the offset on, as
    many as there are, and leaves the rest of the buffer alone. *)
Lemma volume_read_correct v m s n f es inode off buf :
  vol_rep v m s -> file_rep v m s n f es -> 1 <= n < 2 ^ 64 -> inode_at m n inode -> is_regular_file inode = true ->
  file_size_in_bytes inode = file_size f -> 0 <= off ->
  reads_into f off (Z.max 0 (Z.min (len buf) (file_size f - off))) buf (volume_read_file_data v n off buf).
Proof.
  intros Hv Hf Hn Hi Hreg Hsize Hoff. set (N := Z.max 0 _). unfold volume_read_file_data. rewrite st_bind_get.
  destruct (Z.eqb_spec (len buf) 0) as [Hz|Hz]; [assert (N = 0) as -> by lia; done|].
  rewrite (st_bind_lift _ _ _ inode) by (by eapply volume_read_inode_correct). rewrite Hreg, Hsize. cbn [negb].
  destruct (Z.leb_spec (file_size f) off) as [Hle|Hgt]; [assert (N = 0) as -> by lia; done|].
  assert (Z.min (len buf) (file_size f - off) = N) as -> by lia.
  pose proof (iwf_size _ (proj2 Hi)) as Hu. unfold is_u64, u64_max in Hu.
  apply (read_file_loop_correct v m s n f es off N buf (Z.to_nat N) []); try done; simpl; lia.
Qed.

(** *** Frames *)

Lemma read_block_step v v' k a :
  vol_step v v' k -> a < vol_next_free_block v ->
  read_block (device v') (dirty_block_cache v') a = read_block (device v) (dirty_block_cache v) a.
Proof.
  intros [Hd _ X _ _] Ha. unfold read_block. rewrite Hd. pose proof (ext_old _ _ _ X a Ha) as Hc. simpl in Hc.
  by rewrite Hc.
Qed.

Lemma block_holds_step v v' k s s' a block :
  vol_step v v' k -> a < vol_next_free_block v -> s' !! checksum_key a = s !! checksum_key a ->
  block_holds v s a block -> block_holds v' s' a block.
Proof. intros S Ha Hs [Hr Hl Hb Hsum]. split; [by rewrite (read_block_step _ _ _ _ S Ha)|done|done|by rewrite Hs]. Qed.

Lemma vol_step_data_start v v' k : vol_step v v' k -> data_start (superblock v') = data_start (superblock v).
Proof. intros [_ _ _ _ (fc & ic & ir & fr & cr & Hsb)]. by rewrite Hsb. Qed.

Lemma extent_range_frame m m' n items :
  (forall f, is_u64 f -> m' !! extent_key n f = m !! extent_key n f) -> extent_range m n items -> extent_range m' n items.
Proof.
  intros Heq [Hs Hin]. split; [done|]. intros k bytes. rewrite Hin. split; intros [Hk Hr]; (split; [|done]);
    apply extent_range_key in Hr as (Ho & Ht & Hf); destruct k as [o t f]; simpl in *; subst o t; specialize (Heq f Hf);
    unfold extent_key in *; congruence.
Qed.

Lemma extent_holds_step v v' k s s' seg e :
  vol_step v v' k -> (forall a, a < vol_next_free_block v -> s' !! checksum_key a = s !! checksum_key a) ->
  extent_holds v s seg e -> extent_holds v' s' seg e.
Proof.
  intros S Hs [Hw Ho Hc Hl Hend Hb]. pose proof (vs_grows _ _ _ S). split; try done. intros j Hj.
  destruct (Hb j Hj) as [Ha Hbl]. rewrite (vol_step_data_start _ _ _ S). split; [lia|].
  eapply block_holds_step; [exact S|lia|apply Hs; lia|done].
Qed.

(** Steps that leave the file's records alone leave its contents alone. *)
Lemma file_rep_step v v' k m s m' s' n f es :
  file_rep v m s n f es -> vol_step v v' k -> (forall x, is_u64 x -> m' !! extent_key n x = m !! extent_key n x) ->
  (forall a, a < vol_next_free_block v -> s' !! checksum_key a = s !! checksum_key a) ->
  file_rep v' m' s' n f es.
Proof.
  intros [Hitems Hord Hext] S Hem Hsm. split; [by eapply extent_range_frame|done|].
  eapply Forall2_impl; [exact Hext|]. intros seg e. by apply (extent_holds_step v v' k).
Qed.

(** *** Writing *)

Definition new_extent (off a count : Z) : BafsExtentData :=
  {| logical_byte_offset := off; first_disk_block := a; block_count := count; extent_flags := 0; extent_reserved := 0 |}.

Definition with_extent (m : gmap BafsKey (list Z)) (n : Z) (e : BafsExtentData) : gmap BafsKey (list Z) :=
  <[extent_key n (logical_byte_offset e) := serialise_extent_data_to_bytes e]> m.

Lemma extent_value_ok e : value_ok (serialise_extent_data_to_bytes e).
Proof. split; [apply serialise_extent_ok|]. rewrite length_serialise_extent. unfold VALUE_MAX. lia. Qed.

(** The extents of a file after one is written, by their offsets. *)
Fixpoint put_extent (e : BafsExtentData) (es : list BafsExtentData) : list BafsExtentData :=
  match es with
  | [] => [e]
  | e' :: es' =>
      if logical_byte_offset e <? logical_byte_offset e' then e :: es
      else if logical_byte_offset e =? logical_byte_offset e' then e :: es'
      else e' :: put_extent e es'
  end.

Lemma put_extent_holds v s seg e segs es :
  extent_holds v s seg e -> Forall2 (extent_holds v s) segs es ->
  Forall2 (extent_holds v s) (put_segment seg segs) (put_extent e es).
Proof.
  intros He. induction 1 as [|seg' e' segs es He' Hes IH]; simpl; [by constructor|].
  rewrite (eh_offset _ _ _ _ He), (eh_offset _ _ _ _ He').
  destruct (seg.1 <? seg'.1); [constructor; [done|by constructor]|]. destruct (seg.1 =? seg'.1); by constructor.
Qed.

Abbreviation offsets es := (logical_byte_offset <$> es).

Lemma records_sorted n es : items_sorted (extent_record n <$> es) <-> StronglySorted Z.lt (offsets es).
Proof.
  unfold items_sorted. induction es as [|e es IH]; csimpl; [split; constructor|].
  split; intros [Hs Hall]%StronglySorted_inv; (constructor; [by apply IH|]); rewrite !Forall_fmap in *;
    (eapply Forall_impl; [exact Hall|]); intros e' Hlt; apply key_lt_lex in Hlt || apply key_lt_lex; simpl in *; lia.
Qed.

Lemma put_extent_sorted e es :
  StronglySorted Z.lt (offsets es) -> StronglySorted Z.lt (offsets (put_extent e es)).
Proof.
  intros Hs. pose proof (put_segment_ordered (logical_byte_offset e, []) ((fun e => (logical_byte_offset e, [])) <$> es)) as Hp.
  assert (forall l, ((fun e => (logical_byte_offset e, @nil Z)) <$> l).*1 = offsets l) as Hl.
  { intros l. by rewrite <- list_fmap_compose. }
  rewrite Hl in Hp. specialize (Hp Hs). erewrite <- Hl. revert Hp. clear Hs. 
  enough (put_segment (logical_byte_offset e, []) ((fun e => (logical_byte_offset e, @nil Z)) <$> es)
    = (fun e => (logical_byte_offset e, [])) <$> put_extent e es) as -> by done.
  induction es as [|e' es IH]; csimpl; [done|]. by repeat case_match; csimpl; rewrite ?IH.
Qed.

Lemma put_extent_elem e es x :
  StronglySorted Z.lt (offsets es) ->
  x ∈ put_extent e es <-> x = e \/ x ∈ es /\ logical_byte_offset x <> logical_byte_offset e.
Proof.
  induction es as [|e' es IH]; intros Hs; simpl; [rewrite list_elem_of_singleton, elem_of_nil; tauto|].
  csimpl in Hs. apply StronglySorted_inv in Hs as [Hs Hall].
  assert (forall y, y ∈ es -> logical_byte_offset e' < logical_byte_offset y) as Hlt.
  { intros y Hy. rewrite Forall_fmap, Forall_forall in Hall. by apply Hall. }
  destruct (Z.ltb_spec (logical_byte_offset e) (logical_byte_offset e'));
    [|destruct (Z.eqb_spec (logical_byte_offset e) (logical_byte_offset e'))]; rewrite !elem_of_cons.
  - split; [|tauto]. intros [->|[->|Hx]]; [by left|right..]; (split; [tauto|]); [lia|]. apply Hlt in Hx. lia.
  - split; [|intros [->|[[->|Hx] Hne]]; [by left|lia|by right]]. intros [->|Hx]; [by left|right]. split; [tauto|]. apply Hlt in Hx. lia.
  - rewrite IH by done. split; [|tauto]. intros [->|[->|[Hx Hne]]]; [right|by left|by right; tauto]. split; [by left|lia].
Qed.

(** A new extent record among those of the file. *)
Lemma extent_range_put m n es e :
  extent_range m n (extent_record n <$> es) -> extent_wf e ->
  extent_range (with_extent m n e) n (extent_record n <$> put_extent e es).
Proof.
  intros [Hs%records_sorted Hin] He. split; [by apply records_sorted, put_extent_sorted|].
  intros k bytes. unfold with_extent. rewrite lookup_insert_Some, list_elem_of_fmap. split.
  - intros (x & Ex & [->|[Hx Hne]]%put_extent_elem); [| |done].
    + injection Ex as -> ->. split; [by left|]. apply extent_range_key. split; [done|]. split; [done|]. apply He.
    + assert (BafsLeafItem_new k bytes ∈ extent_record n <$> es) as [Hm Hr]%Hin by (rewrite Ex; by apply list_elem_of_fmap_2).
      split; [|done]. right. split; [|done]. injection Ex as -> _. intros [= E]. congruence.
  - intros [[[<- <-]|[Hk Hm]] Hr].
    + exists e. split; [done|]. apply put_extent_elem; [done|by left].
    + assert (BafsLeafItem_new k bytes ∈ extent_record n <$> es) as (x & Ex & Hx)%list_elem_of_fmap by by apply Hin.
      exists x. split; [done|]. apply put_extent_elem; [done|right]. split; [done|]. intros E. apply Hk. injection Ex as -> _. by rewrite E.
Qed.

Lemma piece_padded data j :
  0 <= j < block_count_for data ->
  piece (padded data) (4096 * j) = piece data (4096 * j) ++ zeros (4096 - len (piece data (4096 * j))).
Proof.
  intros Hj. pose proof (block_count_for_bounds data) as Hb. unfold piece, padded. rewrite length_take, length_drop.
  destruct (decide (4096 * j + 4096 <= len data)).
  - rewrite drop_app_le by lia. rewrite take_app_le by (rewrite length_drop; lia).
    rewrite zeros_nonpos by lia. by rewrite app_nil_r.
  - rewrite drop_app_le by lia. rewrite !take_ge by (rewrite ?length_app, length_drop, ?length_zeros; lia).
    do 2 f_equal. lia.
Qed.

(** The blocks of a write hold its segment. *)
Lemma written_extent_holds v v' k s off data :
  let a := vol_next_free_block v in
  let nb := block_count_for data in
  let ws := data_chunks a data in
  vol_step v v' k -> is_u64 a -> data_start (superblock v) <= a -> a + nb <= vol_next_free_block v' -> a + nb < 2 ^ 64 ->
  bytes_ok data -> 0 < len data -> 0 <= off -> off + 4096 * nb < 2 ^ 64 ->
  (forall x block, (x, block) ∈ ws -> dirty_block_cache v' !! x = Some block) ->
  extent_holds v' (with_sums s ws) (off, padded data) (new_extent off a nb).
Proof.
  intros a nb ws S Ha Hds Ha' Hmax Hok Hlen Hoff Hlim Hcache. pose proof (block_count_for_bounds data) as Hbc. fold nb in Hbc.
  split; simpl; rewrite ?length_padded; fold nb; try lia.
  - split; simpl; try ilia; (split; [ilia|unfold u64_max; lia]).
  - intros j Hj. rewrite (vol_step_data_start _ _ _ S). split; [lia|].
    pose proof (padded_chunks_lookup (Z.to_nat nb) a data j ltac:(lia) ltac:(lia) ltac:(lia)) as Hin.
    change (padded_chunks _ a data) with ws in Hin. cbv zeta in Hin. fold (piece data (4096 * j)) in Hin.
    rewrite <- (piece_padded data j) in Hin by (fold nb; lia).
    destruct (data_chunks_blocks _ _ _ Hok Hin) as (_ & Hbl4 & Hbok). cbn [fst snd] in Hbl4, Hbok.
    split; [unfold read_block; by rewrite (Hcache _ _ Hin)|lia|done|]. apply with_sums_in; [apply padded_chunks_NoDup|exact Hin].
Qed.

(** The file after the blocks, the extent and the inode are written. *)
Lemma file_rep_write v v' k m s n f es off data inode :
  let a := vol_next_free_block v in
  let nb := block_count_for data in
  let e := new_extent off a nb in
  let ws := data_chunks a data in
  vol_rep v m s -> file_rep v m s n f es -> vol_step v v' k -> a + nb <= vol_next_free_block v' -> a + nb < 2 ^ 64 ->
  bytes_ok data -> 0 < len data -> 0 <= off -> off + 4096 * nb < 2 ^ 64 ->
  (forall x block, (x, block) ∈ ws -> dirty_block_cache v' !! x = Some block) ->
  file_rep v' (with_inode (with_extent m n e) inode) (with_sums s ws) n (file_write off data f) (put_extent e es).
Proof.
  intros a nb e ws Hv [Hitems Hord Hext] S Ha' Hmax Hok Hlen Hoff Hlim Hcache. pose proof (vr_boundary _ _ _ Hv) as Hb.
  assert (extent_holds v' (with_sums s ws) (off, padded data) e) as He.
  { eapply written_extent_holds; try done; [split; unfold u64_max; lia|lia]. }
  split; cbn [file_write file_segments].
  - eapply extent_range_frame; [|apply (extent_range_put m n es e Hitems), He].
    intros x _. unfold with_inode. by rewrite lookup_insert_ne.
  - by apply put_segment_ordered.
  - apply put_extent_holds; [done|]. eapply Forall2_impl; [exact Hext|]. intros seg x. apply (extent_holds_step v v' k); [done|].
    intros y Hy. apply with_sums_other. intros (w & -> & Hw%data_chunks_spec)%list_elem_of_fmap. lia.
Qed.

Lemma inode_set_data_wf inode size blocks g :
  inode_wf inode -> is_u64 size -> is_u64 blocks -> is_u64 g -> inode_wf (inode_set_data inode size blocks g).
Proof. intros [] ???. by constructor. Qed.

(** Writing the extent record of [n]. *)
Lemma write_extent_correct v m s n e :
  vol_rep v m s -> vol_room v 1 -> 1 <= n <= sb_allocated_inode_count (superblock v) -> extent_wf e ->
  0 < block_count e -> first_disk_block e + block_count e <= vol_next_free_block v ->
  exists c root v', on_cow [] (write_extent_data_to_inode_tree (device v) (sb_inode_tree_root_block (superblock v)) n e
                                 (next_transaction_id v)) v = (vol_set_cow v c, Ok (root, freed_blocks c))
    /\ return_freed_cow_blocks_to_free_extent_tree (freed_blocks c)
         (vol_set_superblock (vol_set_cow v c) (sb_set_inode_root (superblock v) root)) = (v', Ok tt)
    /\ vol_rep v' (with_extent m n e) s /\ vol_moved v v' 1
    /\ sb_allocated_inode_count (superblock v') = sb_allocated_inode_count (superblock v).
Proof.
  intros Hv Hroom Hn He Hc Hlim. pose proof (wf_inodes _ (vr_wf _ _ _ Hv)) as Hic.
  apply vol_inode_update with (m := m); [done|done|..].
  - intros fp Hr. eapply tree_insert_updated; [exact Hr|apply extent_key_allowed; [ilia|apply He]|apply extent_value_ok|apply Hv|].
    by eapply vol_room_cow.
  - apply dir_wf_insert_other; [apply Hv|done].
  - unfold with_extent. intros k bytes [[<- <-]|[_ Hk]]%lookup_insert_Some Ht; [by exists e|by apply (vr_extents _ _ _ Hv)].
  - apply numbers_insert; [apply Hv|simpl; lia].
Qed.

(** A write at any offset: its blocks, its extent record and its inode. *)
Lemma volume_write_correct v m s n inode off data :
  let nb := block_count_for data in
  let a := vol_next_free_block v in
  let size := Z.max (off + len data) (file_size_in_bytes inode) in
  let inode' := inode_set_data inode size (allocated_block_count inode + nb) (next_transaction_id v) in
  vol_rep v m s -> 1 <= n < 2 ^ 64 -> inode_at m n inode -> inode_number inode = n -> is_regular_file inode = true ->
  0 <= off -> off + 4096 * nb < 2 ^ 64 -> bytes_ok data -> 0 < len data ->
  a + nb <= sb_total_block_count (superblock v) -> allocated_block_count inode + nb < 2 ^ 64 -> vol_room v (2 * nb + 3) ->
  exists v', volume_write_file_data n off data v = (v', Ok (len data))
    /\ vol_rep v' (with_inode (with_extent m n (new_extent off a nb)) inode') (with_sums s (data_chunks a data))
    /\ vol_moved v v' (2 * nb + 3) /\ a + nb <= vol_next_free_block v' /\ inode_wf inode'
    /\ (forall x block, (x, block) ∈ data_chunks a data -> dirty_block_cache v' !! x = Some block)
    /\ sb_allocated_inode_count (superblock v') = sb_allocated_inode_count (superblock v).
Proof.
  intros nb a size inode' Hv Hn Hi Hnum Hreg Hoff Hlim Hok Hlen Htot Hblocks Hroom. set (e := new_extent off a nb).
  pose proof (vr_boundary _ _ _ Hv) as Hb. pose proof (block_count_for_bounds data) as Hbc. fold nb in Hbc.
  pose proof Hi as [Him Hiw]. pose proof (vr_numbers _ _ _ Hv _ _ Him) as Hnc. simpl in Hnc.
  unfold volume_write_file_data. destruct (Z.eqb_spec (len data) 0); [lia|]. rewrite st_bind_get.
  rewrite (st_bind_lift _ _ _ inode) by by eapply volume_read_inode_correct. rewrite Hreg. cbn [negb].
  destruct (allocate_data_correct v m s data) as (v1 & E1 & Hv1 & M1 & N1 & C1 & I1);
    [done|done|done|done|eapply vol_room_mono; [lia| |exact Hroom]; fold nb; lia|].
  rewrite (st_bind_Ok _ _ _ _ _ E1), st_bind_get. fold nb a in Hv1, M1, N1, C1 |- *. set (s' := with_sums s (data_chunks a data)) in *.
  change {| logical_byte_offset := off; first_disk_block := a; block_count := nb; extent_flags := 0; extent_reserved := 0 |} with e.
  assert (extent_wf e) as He by (split; simpl; try ilia; split; unfold u64_max, a in *; lia).
  pose proof (vol_room_moved v v1 (2 * nb + 1) 2 ltac:(by replace (2 * nb + 1 + 2) with (2 * nb + 3) by lia) M1) as R1.
  assert (0 <= sb_next_cow_block_address (superblock v1)) as Hb1 by (rewrite (vs_boundary _ _ _ (vm_step _ _ _ M1)); lia).
  destruct (write_extent_correct v1 m s' n e) as (c & root & v2 & E2 & E3 & Hv2 & M2 & I2).
  { done. } { eapply vol_room_mono; [done| |exact R1]. lia. } { lia. } { done. } { simpl. lia. } { simpl. lia. }
  rewrite (vs_id _ _ _ (vm_step _ _ _ M1)) in E2. rewrite (st_bind_Ok _ _ _ _ _ E2).
  unfold modify_superblock. rewrite st_bind_modify. change (superblock (vol_set_cow v1 c)) with (superblock v1).
  rewrite (st_bind_Ok _ _ _ _ _ E3). rewrite (st_bind_lift _ _ _ (off + len data)) by (apply checked_add_Ok; lia).
  rewrite (st_bind_lift _ _ _ (allocated_block_count inode + nb)) by by apply checked_add_Ok.
  assert (inode_wf inode') as Hiw'.
  { destruct Hiw. apply inode_set_data_wf; try done; [unfold size; ilia| |apply Hv]. split; [ilia|unfold u64_max; lia]. }
  fold size inode'. destruct (volume_write_inode_correct v2 (with_extent m n e) s' inode') as (v3 & E4 & Hv3 & M3 & I3).
  { done. } { exact (vol_room_moved v1 v2 1 1 R1 M2). } { simpl. lia. } { done. }
  rewrite (st_bind_Ok _ _ _ _ _ E4). exists v3. split; [done|]. split; [exact Hv3|].
  pose proof (vol_moved_trans _ _ _ _ _ M1 (vol_moved_trans _ _ _ _ _ M2 M3)) as M.
  replace (2 * nb + 1 + (1 + 1)) with (2 * nb + 3) in M by lia. split; [exact M|].
  pose proof (vm_step _ _ _ (vol_moved_trans _ _ _ _ _ M2 M3)) as S23. pose proof (vs_grows _ _ _ S23).
  split; [lia|]. split; [done|]. split; [|congruence].
  intros x block Hin. destruct (data_chunks_spec _ _ _ Hin) as [Hr _]. simpl in Hr. fold nb a in Hr.
  pose proof (ext_old _ _ _ (vs_extends _ _ _ S23) x) as Hx. simpl in Hx. rewrite Hx by lia. by apply C1.
Qed.

Lemma inode_at_unique m n inode inode' : inode_at m n inode -> inode_at m n inode' -> inode = inode'.
Proof.
  intros [Hi Hw] [Hi' Hw']. rewrite Hi in Hi'. apply Some_inj, (f_equal deserialise_inode_from_bytes) in Hi'.
  rewrite !deserialise_serialise_inode in Hi' by done. congruence.
Qed.
End contents.
