(* ===== verification/VolumeCommit.v ===== *)
(** * VolumeCommit: commits, mounts and crashes of a whole volume

    Flushing and mounting a volume again gives back what it represented; a crash
    at any point of a flush leaves what it represented before or after. *)

From S2P Require Import Prelude Checksum Device Superblock Node NodeCodec BTree BTreeInv BTreeWrite.
From S2P Require Import BTreeInsert BTreeDelete TreeStore Inode Extent FreeSpace ChecksumTree XxHash Dir Journal JournalLaws.
From S2P Require Import Volume FileModel VolumeInv VolumeDirs VolumeUnlink VolumeFiles FileContents.

(** The volume a mount produces from a device and its superblock. *)
Definition mounted {D} (d : D) (sb : BafsSuperblock) : BafsVolume D :=
  {| device := d; superblock := sb; dirty_block_cache := ∅;
     next_transaction_id := sb_last_committed_transaction_id sb + 1;
     vol_next_free_block := sb_next_cow_block_address sb |}.

Section commit.
Context `{BlockDeviceLaws D} `{!TreeStore D}.
Implicit Types v : BafsVolume D.

(** ** Transactions *)

(** [v] grew from the volume [v0]: the device and the transaction are the same, new
    blocks lie behind the allocator, and of the superblock only counters, roots and
    the allocation boundary changed. Requests, and commits that are refused, lead
    to such volumes. *)
Record grown v0 v : Prop := {
  gr_device : device v = device v0;
  gr_id : next_transaction_id v = next_transaction_id v0;
  gr_extends : extends (vol_cow v0 []) (vol_cow v []) [];
  gr_superblock : exists free_count inodes inode_root free_root checksum_root boundary,
    superblock v = sb_with (superblock v0) free_count inodes inode_root free_root checksum_root boundary;
}.

Lemma grown_refl v : grown v v.
Proof. split; [done|done|apply extends_refl|]. do 6 eexists. symmetry. apply sb_with_same. Qed.

Lemma grown_step v0 v v' k : grown v0 v -> vol_step v v' k -> grown v0 v'.
Proof.
  intros [D1 I1 X1 (fc & ic & ir & fr & cr & nc & S1)] [D2 I2 X2 _ (fc' & ic' & ir' & fr' & cr' & S2)].
  split; [congruence..| |].
  - change (@nil Z) with (@nil Z ++ []). by eapply extends_trans.
  - eexists fc', ic', ir', fr', cr', _. by rewrite S2, S1.
Qed.

Lemma grown_data_start v0 v : grown v0 v -> data_start (superblock v) = data_start (superblock v0).
Proof. intros [_ _ _ (fc & ic & ir & fr & cr & nc & ->)]. done. Qed.

(** A transaction only has blocks behind the committed ones. *)
Lemma grown_cache (d : D) sb v a block :
  grown (mounted d sb) v -> dirty_block_cache v !! a = Some block -> sb_next_cow_block_address sb <= a.
Proof.
  intros [_ _ X _] Ha. destruct (ext_new _ _ _ X a block Ha) as [Hold|[Hr _]]; [by destruct (lookup_empty_Some a block)|]. apply Hr.
Qed.

(** Every read of a block on the device succeeds. *)
Definition readable (d : D) : Prop := forall a, on_device d a -> device_read_block d a = Ok (image d a).

Lemma up_readable d : device_up d -> len (content d) < 2 ^ 64 -> readable d.
Proof. intros Hup Hl a [Ha Ho]. apply device_read_block_up; [done|done|lia]. Qed.

(** ** The same volume on another device *)

(** Everything but the transaction, the boundary and the checksum agrees. *)
Definition same_volume (sb sb' : BafsSuperblock) : Prop :=
  sb_free_block_count sb' = sb_free_block_count sb
  /\ sb_allocated_inode_count sb' = sb_allocated_inode_count sb
  /\ sb_inode_tree_root_block sb' = sb_inode_tree_root_block sb
  /\ sb_free_extent_tree_root_block sb' = sb_free_extent_tree_root_block sb
  /\ sb_checksum_tree_root_block sb' = sb_checksum_tree_root_block sb
  /\ sb_journal_start_block sb' = sb_journal_start_block sb
  /\ sb_journal_size_in_blocks sb' = sb_journal_size_in_blocks sb
  /\ sb_total_block_count sb' = sb_total_block_count sb.

Definition same_reads v (d' : D) : Prop :=
  forall x, data_start (superblock v) <= x < vol_next_free_block v ->
    read_block d' ∅ x = read_block (device v) (dirty_block_cache v) x.

Lemma tree_in_reload v d' sb' K root m :
  tree_in v K root m -> same_reads v d' -> data_start sb' = data_start (superblock v) ->
  vol_next_free_block v <= sb_next_cow_block_address sb' -> tree_in (mounted d' sb') K root m.
Proof.
  intros (fp & Hr & Hfp) Hreads Hds Hn. exists fp. split; [|simpl; by rewrite Hds].
  destruct (tree_blocks _ _ _ _ _ _ Hr) as [_ Hb]. eapply tree_frame; [exact Hr| |exact Hn].
  intros x Hx. rewrite Forall_forall in Hfp, Hb. specialize (Hfp x Hx). specialize (Hb x Hx). simpl in Hb.
  simpl. apply Hreads. lia.
Qed.

(** The device [d'] with the superblock [sb'] holds what [v] holds. *)
Record reloads v (d' : D) (sb' : BafsSuperblock) : Prop := {
  rl_reads : same_reads v d';
  rl_volume : same_volume (superblock v) sb';
  rl_wf : sb_wf sb';
  rl_next : sb_next_cow_block_address sb' = vol_next_free_block v;
  rl_id : sb_last_committed_transaction_id sb' + 1 < 2 ^ 64;
}.

Lemma vol_rep_reload v d' sb' m s : vol_rep v m s -> reloads v d' sb' -> vol_rep (mounted d' sb') m s.
Proof.
  intros Hv [Hreads (Efc & Eic & Eir & Efr & Ecr & Ejs & Ejn & Etot) Hwf Hn Hid].
  assert (data_start sb' = data_start (superblock v)) as Hds by (unfold data_start; congruence).
  pose proof (vr_boundary _ _ _ Hv) as Hb.
  assert (forall K root m, tree_in v K root m -> tree_in (mounted d' sb') K root m) as Htree.
  { intros K root m' Ht. eapply tree_in_reload; [exact Ht|done|done|lia]. }
  split; cbn [mounted superblock device dirty_block_cache vol_next_free_block next_transaction_id];
    rewrite ?Eic, ?Eir, ?Efr, ?Ecr, ?Hn, ?Hds.
  - apply Htree, Hv.
  - apply Htree, Hv.
  - destruct (vr_free _ _ _ Hv) as (fe & Hf & Hok). exists fe. auto.
  - apply Hv.
  - apply Hv.
  - apply Hv.
  - apply Hv.
  - pose proof (wf_txid _ Hwf). split; [ilia|unfold u64_max; lia].
  - lia.
  - done.
  - by intros a block Ha.
Qed.

Lemma reload_data_start v d' sb' : reloads v d' sb' -> data_start sb' = data_start (superblock v).
Proof. intros Hrl. destruct (rl_volume _ _ _ Hrl) as (_ & _ & _ & _ & _ & Ejs & Ejn & _). unfold data_start. by rewrite Ejs, Ejn. Qed.

Lemma file_rep_reload v d' sb' m s n f es :
  file_rep v m s n f es -> reloads v d' sb' -> file_rep (mounted d' sb') m s n f es.
Proof.
  intros [Hitems Hord Hext] Hrl. pose proof Hrl as [Hreads _ _ Hnc _]. split; [done|done|].
  eapply Forall2_impl; [exact Hext|]. intros seg e [Hw Ho Hc Hl Hend Hb]. split; try done. intros j Hj.
  destruct (Hb j Hj) as [Ha [Hr Hbl Hok Hs]]. simpl. rewrite (reload_data_start _ _ _ Hrl). split; [lia|]. split; try done.
  simpl. by rewrite Hreads.
Qed.

(** The cache holds no more blocks than the transaction has handed out. *)
Lemma cache_entries_count (d : D) sb v m s :
  grown (mounted d sb) v -> vol_rep v m s ->
  len (cache_entries (dirty_block_cache v)) <= vol_next_free_block v - sb_next_cow_block_address sb.
Proof.
  intros Hg Hv. pose proof (ext_next _ _ _ (gr_extends _ _ Hg)) as Hn. simpl in Hn. set (l := (cache_entries (dirty_block_cache v)).*1).
  assert (l ⊆+ seqZ (sb_next_cow_block_address sb) (vol_next_free_block v - sb_next_cow_block_address sb)) as Hsub.
  { apply NoDup_submseteq; [apply cache_entries_NoDup|]. intros a [b Hab]%cache_entries_addresses.
    pose proof (grown_cache _ _ _ _ _ Hg Hab). apply (vr_cache _ _ _ Hv) in Hab as [Ha _]. apply elem_of_seqZ. lia. }
  apply submseteq_length in Hsub. unfold l in Hsub. rewrite length_fmap, length_seqZ in Hsub. lia.
Qed.

(** ** Mounting *)

Lemma mount_correct d sb d' sb' replayed :
  mount_superblock d = Ok sb -> recover_journal_on_mount (d, sb) = ((d', sb'), Ok replayed) ->
  sb_last_committed_transaction_id sb' + 1 < 2 ^ 64 -> bafs_mount d = (d', Ok (mounted d' sb')).
Proof.
  intros Hsb Hrec Hid. unfold bafs_mount. rewrite Hsb, Hrec. cbn [obind]. by rewrite checked_add_Ok.
Qed.

Lemma mount_superblock_primary d sb :
  read_superblock_from_device d BAFS_PRIMARY_SUPERBLOCK_BLOCK_ADDRESS = Ok sb -> mount_superblock d = Ok sb.
Proof. intros E. unfold mount_superblock. by rewrite E. Qed.

Lemma mount_superblock_backup d sb e :
  read_superblock_from_device d BAFS_PRIMARY_SUPERBLOCK_BLOCK_ADDRESS = Err e ->
  read_superblock_from_device d BAFS_BACKUP_SUPERBLOCK_BLOCK_ADDRESS = Ok sb -> mount_superblock d = Ok sb.
Proof. intros E E'. unfold mount_superblock. by rewrite E. Qed.

(** What a device holds between transactions: a readable superblock and nothing
    to replay. *)
Record settled (d : D) (sb : BafsSuperblock) : Prop := {
  se_layout : volume_layout d sb;
  se_mount : mount_superblock d = Ok (seal_with_checksum sb);
  se_journal : parse_journal (journal_area d sb) (sb_last_committed_transaction_id sb) = Ok None;
  se_id : sb_last_committed_transaction_id sb + 1 < 2 ^ 64;
  se_device : sb_next_cow_block_address sb * 4096 <= len (content d);
}.

Lemma settled_mount d sb :
  device_up d -> settled d sb -> bafs_mount d = (d, Ok (mounted d (seal_with_checksum sb))).
Proof.
  intros Hup [Hl Hm Hj Hid _]. apply (mount_correct d (seal_with_checksum sb) _ _ false); [done| |exact Hid].
  apply recover_nothing; [done|by apply volume_layout_seal|exact Hj].
Qed.

Lemma mount_superblock_image d sb :
  device_up d -> volume_layout d sb -> image d BAFS_PRIMARY_SUPERBLOCK_BLOCK_ADDRESS = superblock_block sb ->
  mount_superblock d = Ok (seal_with_checksum sb).
Proof.
  intros Hup Hl Himg. apply mount_superblock_primary.
  pose proof (layout_on_device d sb BAFS_PRIMARY_SUPERBLOCK_BLOCK_ADDRESS Hl) as Hon.
  destruct Hl. apply read_superblock_image; try done. by apply Hon.
Qed.

(** ** Flushing *)

(** The superblock a flush writes. *)
Definition flushed_superblock v : BafsSuperblock :=
  sb_set_transaction (sb_set_next_cow (superblock v) (vol_next_free_block v)) (next_transaction_id v).

(** The volume can be flushed: its record fits the journal and every block it has
    handed out lies on the device. *)
Record flushable v : Prop := {
  fl_layout : volume_layout (device v) (superblock v);
  fl_device : vol_next_free_block v * 4096 <= len (content (device v));
  fl_fits : record_fits (superblock v) (dirty_block_cache v);
  fl_id : next_transaction_id v + 1 < 2 ^ 64;
}.

Lemma next_cow_layout v m s :
  vol_rep v m s -> volume_layout (device v) (superblock v) ->
  volume_layout (device v) (sb_set_next_cow (superblock v) (vol_next_free_block v)).
Proof.
  intros Hv []. constructor; try done. pose proof (vr_boundary _ _ _ Hv) as Hb. unfold sb_set_next_cow.
  destruct vl_wf. apply sb_wf_with; try done. split; unfold u64_max; lia.
Qed.

Lemma flush_ready v m s :
  vol_rep v m s -> flushable v -> dirty_block_cache v <> ∅ ->
  commit_ready (device v) (sb_set_next_cow (superblock v) (vol_next_free_block v)) (next_transaction_id v) (dirty_block_cache v).
Proof.
  intros Hv [Hl Hdev Hfit Hid] Hne. pose proof (vr_boundary _ _ _ Hv) as Hb. unfold data_start in Hb. split; try done.
  - by eapply next_cow_layout.
  - apply Hv.
  - apply Forall_forall. intros [a block] Ha%cache_entries_elem. apply (vr_cache _ _ _ Hv) in Ha as (Ha & Hlen & Hok). unfold data_start in Ha.
    split; [split; simpl; unfold u64_max; lia|]. split; [done|]. simpl. lia.
  - intros a block Ha. apply (vr_cache _ _ _ Hv) in Ha as (Ha & _). unfold data_start in Ha. simpl. split; [lia|]. split; lia.
Qed.

(** What the device holds after a flush is what the cache showed before. *)
Lemma flushed_reads v d' m s :
  vol_rep v m s -> flushable v -> readable (device v) -> readable d' -> length (content d') = length (content (device v)) ->
  (forall a, data_start (superblock v) <= a < vol_next_free_block v ->
     image d' a = default (image (device v) a) (dirty_block_cache v !! a)) ->
  same_reads v d'.
Proof.
  intros Hv [_ Hdev _ _] Hr Hr' Hl Himg x Hx. pose proof (vr_boundary _ _ _ Hv) as Hb.
  assert (on_device (device v) x) as Hon by (split; lia). unfold read_block. rewrite lookup_empty.
  rewrite Hr' by by eapply on_device_length. rewrite Himg by lia.
  destruct (dirty_block_cache v !! x); [done|]. by rewrite Hr.
Qed.

Lemma flushed_superblock_same v : same_volume (superblock v) (seal_with_checksum (flushed_superblock v)).
Proof. by repeat split. Qed.

Lemma flushed_superblock_wf v m s : vol_rep v m s -> flushable v -> sb_wf (flushed_superblock v).
Proof.
  intros Hv [Hl _ _ _]. apply sb_wf_set_transaction; [|apply Hv]. apply (next_cow_layout v m s Hv Hl).
Qed.

(** The commit of a flush. *)
Lemma flush_commit v m s :
  vol_rep v m s -> flushable v -> device_up (device v) ->
  exists d', commit_transaction {| transaction_id := next_transaction_id v |} (dirty_block_cache v)
               (device v, sb_set_next_cow (superblock v) (vol_next_free_block v))
             = ((d', seal_with_checksum (flushed_superblock v)), Ok tt)
    /\ device_up d' /\ length (content d') = length (content (device v))
    /\ image d' BAFS_PRIMARY_SUPERBLOCK_BLOCK_ADDRESS = superblock_block (flushed_superblock v)
    /\ (forall a, data_start (superblock v) <= a -> image d' a = default (image (device v) a) (dirty_block_cache v !! a))
    /\ ((dirty_block_cache v = ∅ -> parse_journal (journal_area (device v) (superblock v)) (next_transaction_id v) = Ok None) ->
        parse_journal (journal_area d' (superblock v)) (next_transaction_id v) = Ok None).
Proof.
  intros Hv Hfl Hup. pose proof (fl_layout _ Hfl) as Hl. pose proof (next_cow_layout _ _ _ Hv Hl) as Hl'.
  pose proof (vr_id _ _ _ Hv) as Hid. destruct (decide (dirty_block_cache v = ∅)) as [Hnil|Hne].
  - destruct (commit_empty_correct (device v) _ (next_transaction_id v) Hup Hl' Hid)
      as (d' & E & Hup' & Hlen & Hprim & _ & Himg). rewrite Hnil. exists d'. split; [exact E|]. do 2 (split; [done|]).
    split; [done|]. unfold BAFS_JOURNAL_START_BLOCK_ADDRESS in Himg.
    pose proof (vl_start _ _ Hl) as Hs. pose proof (vl_size _ _ Hl) as Hn. unfold BAFS_JOURNAL_START_BLOCK_ADDRESS in Hs.
    split.
    + intros a Ha. rewrite lookup_empty. simpl. apply Himg. unfold data_start in Ha. lia.
    + intros Hp. replace (journal_area d' (superblock v)) with (journal_area (device v) (superblock v)); [by apply Hp|].
      unfold journal_area. f_equal. apply list_fmap_ext. intros i a Ha%lookup_seqZ. symmetry. apply Himg. lia.
  - destruct (commit_transaction_correct (device v) _ (next_transaction_id v) (dirty_block_cache v) Hup (flush_ready _ _ _ Hv Hfl Hne))
      as (d' & E & Hup' & Hlen & (rest & Harea) & Hprim & _ & Himg).
    exists d'. split; [exact E|]. do 4 (split; [done|]). intros _.
    change (journal_area d' (superblock v))
      with (journal_area d' (sb_set_next_cow (superblock v) (vol_next_free_block v))).
    rewrite Harea. apply parse_record_old; [apply (flush_ready _ _ _ Hv Hfl Hne)|done|lia].
Qed.

(** A flush leaves a settled device that holds the volume. *)
Lemma flush_settled v m s :
  vol_rep v m s -> flushable v -> device_up (device v) ->
  (dirty_block_cache v = ∅ -> parse_journal (journal_area (device v) (superblock v)) (next_transaction_id v) = Ok None) ->
  exists d', flush_and_commit v = (mounted d' (seal_with_checksum (flushed_superblock v)), Ok tt)
    /\ device_up d' /\ image d' BAFS_PRIMARY_SUPERBLOCK_BLOCK_ADDRESS = superblock_block (flushed_superblock v)
    /\ length (content d') = length (content (device v))
    /\ settled d' (flushed_superblock v) /\ reloads v d' (seal_with_checksum (flushed_superblock v)).
Proof.
  intros Hv Hfl Hup Hparse. destruct (flush_commit v m s Hv Hfl Hup) as (d' & E & Hup' & Hlen & Hprim & Himg & Hp).
  exists d'. pose proof (flushed_superblock_wf _ _ _ Hv Hfl) as Hwf. pose proof (fl_layout _ Hfl) as Hl.
  pose proof (vl_small _ _ Hl) as Hsmall. pose proof (fl_id _ Hfl) as Hid. pose proof (vr_boundary _ _ _ Hv) as Hb.
  split; [|split; [done|split; [done|split; [done|split]]]].
  - unfold flush_and_commit. rewrite st_bind_get. unfold modify_superblock. rewrite st_bind_modify.
    unfold st_zoom. unfold st_bind at 1. cbn [device superblock vol_set_superblock]. unfold begin_transaction. rewrite E.
    rewrite (st_bind_lift _ _ _ (next_transaction_id v + 1)) by by apply checked_add_Ok. done.
  - assert (volume_layout d' (flushed_superblock v)) as Hl'.
    { apply (volume_layout_set_transaction d' _ _ (vr_id _ _ _ Hv)). eapply volume_layout_length; [exact Hlen|].
      by eapply next_cow_layout. }
    split; [done|by apply mount_superblock_image|exact (Hp Hparse)|exact Hid|].
    simpl. rewrite Hlen. apply Hfl.
  - split; [|apply flushed_superblock_same|by apply sb_wf_seal|done|exact Hid].
    eapply flushed_reads; [done|done|by apply up_readable|apply up_readable; [done|by rewrite Hlen]|done|].
    intros a Ha. apply Himg. lia.
Qed.

(** ** Crashes *)

Lemma restart_image (d d1 : D) : content d1 = content d -> image d1 = image d.
Proof. intros Hc. unfold image. by rewrite Hc. Qed.

Lemma flush_runs_writes v m s v' r :
  vol_rep v m s -> flushable v -> dirty_block_cache v <> ∅ -> flush_and_commit v = (v', r) ->
  write_blocks_home (commit_writes (sb_set_next_cow (superblock v) (vol_next_free_block v)) (next_transaction_id v)
    (cache_entries (dirty_block_cache v))) (device v) = (device v', r).
Proof.
  intros Hv Hfl Hne E. pose proof (flush_ready _ _ _ Hv Hfl Hne) as Hready.
  destruct (commit_transaction {| transaction_id := next_transaction_id v |} (dirty_block_cache v)
    (device v, sb_set_next_cow (superblock v) (vol_next_free_block v))) as [[d1 sb1] r1] eqn:Ec.
  pose proof (commit_runs_writes _ _ _ _ _ _ _ Hready Ec) as Hrun.
  enough (device v' = d1 /\ r = r1) as [-> ->] by done.
  revert E. unfold flush_and_commit. rewrite st_bind_get. unfold modify_superblock. rewrite st_bind_modify.
  unfold st_zoom. unfold st_bind at 1. cbn [device superblock vol_set_superblock]. unfold begin_transaction. rewrite Ec.
  destruct r1 as [[]| | |]; [|by intros [= <- <-]..].
  rewrite (st_bind_lift _ _ _ (next_transaction_id v + 1)) by (apply checked_add_Ok, Hfl). by intros [= <- <-].
Qed.

Lemma flush_interrupted v m s v' r :
  vol_rep v m s -> flushable v -> dirty_block_cache v <> ∅ -> flush_and_commit v = (v', r) ->
  interrupted (device v)
    (commit_writes (sb_set_next_cow (superblock v) (vol_next_free_block v)) (next_transaction_id v)
       (cache_entries (dirty_block_cache v))) (device v').
Proof.
  intros Hv Hfl Hne E. eapply write_blocks_home_interrupted; [|exact (flush_runs_writes v m s v' r Hv Hfl Hne E)]. by eapply commit_writable, flush_ready.
Qed.

(** What a flush does, given what its commit does. *)
Definition attempted v (d : D) (sb : BafsSuperblock) : BafsVolume D :=
  {| device := d; superblock := sb; dirty_block_cache := dirty_block_cache v;
     next_transaction_id := next_transaction_id v; vol_next_free_block := vol_next_free_block v |}.

Lemma flush_eq v d sb r :
  commit_transaction {| transaction_id := next_transaction_id v |} (dirty_block_cache v)
    (device v, sb_set_next_cow (superblock v) (vol_next_free_block v)) = ((d, sb), r) ->
  flush_and_commit v
  = match r, checked_add 64 (next_transaction_id v) 1 with
    | Ok _, Ok next => ({| device := d; superblock := sb; dirty_block_cache := ∅; next_transaction_id := next;
                           vol_next_free_block := vol_next_free_block v |}, Ok tt)
    | Ok _, r | r, _ => (attempted v d sb, let? _ := r in Ok tt)
    end.
Proof.
  intros E. unfold flush_and_commit. rewrite st_bind_get. unfold modify_superblock. rewrite st_bind_modify.
  unfold st_zoom. unfold st_bind at 1. cbn [device superblock vol_set_superblock]. unfold begin_transaction. rewrite E.
  by destruct r as [[]| | |].
Qed.

(** With nothing dirty a flush writes the superblocks alone. *)
Lemma flush_empty_runs v m s v' r :
  vol_rep v m s -> flushable v -> dirty_block_cache v = ∅ -> flush_and_commit v = (v', r) ->
  write_blocks_home (superblock_writes (flushed_superblock v)) (device v) = (device v', r).
Proof.
  intros Hv Hfl Hnil E. pose proof (flushed_superblock_wf v m s Hv Hfl) as Hwf.
  destruct (write_blocks_home (superblock_writes (flushed_superblock v)) (device v)) as [d1 r1] eqn:Ew.
  assert (commit_transaction {| transaction_id := next_transaction_id v |} (dirty_block_cache v)
    (device v, sb_set_next_cow (superblock v) (vol_next_free_block v)) = ((d1, seal_with_checksum (flushed_superblock v)), r1)) as Ec.
  { unfold commit_transaction. rewrite decide_True by done. cbn [transaction_id]. rewrite st_bind_modify.
    change (sb_set_transaction _ _) with (flushed_superblock v). by rewrite write_superblock_writes, Ew. }
  rewrite (flush_eq v _ _ _ Ec), (checked_add_Ok 64 _ 1) in E by apply Hfl. by destruct r1 as [[]| | |]; simplify_eq.
Qed.

Lemma flush_empty_interrupted v m s v' r :
  vol_rep v m s -> flushable v -> dirty_block_cache v = ∅ -> flush_and_commit v = (v', r) ->
  interrupted (device v) (superblock_writes (flushed_superblock v)) (device v').
Proof.
  intros Hv Hfl Hnil E. eapply write_blocks_home_interrupted; [|by eapply flush_empty_runs].
  eapply superblock_writable; [apply Hfl|by eapply flushed_superblock_wf].
Qed.

Lemma superblocks_interrupted (d d1 : D) sb :
  interrupted d (superblock_writes sb) d1 -> forall a, 3 <= a -> image d1 a = image d a.
Proof.
  intros (_ & past & todo & Hsplit & Himg).
  assert (forall w, w ∈ superblock_writes sb -> w.1 <= 2) as Hlow.
  { unfold superblock_writes, BAFS_BACKUP_SUPERBLOCK_BLOCK_ADDRESS, BAFS_PRIMARY_SUPERBLOCK_BLOCK_ADDRESS.
    intros w. rewrite !elem_of_cons, elem_of_nil. intros [->|[->|[]]]; simpl; lia. }
  intros a Ha. rewrite Himg; [apply apply_writes_other; intros (w & -> & Hin)%list_elem_of_fmap|lia|intros w Hw ->];
    [specialize (Hlow w ltac:(rewrite Hsplit; apply elem_of_app; by left)); lia|].
  destruct todo as [|y todo]; [done|]. injection Hw as ->. specialize (Hlow w ltac:(rewrite Hsplit; apply elem_of_app; right; left)). lia.
Qed.

(** A flush whose record does not fit the journal is refused. In memory the boundary
    has been moved. *)
Definition refused v : BafsVolume D := vol_set_superblock v (sb_set_next_cow (superblock v) (vol_next_free_block v)).

Lemma flush_refused v m s :
  vol_rep v m s -> volume_layout (device v) (superblock v) -> ~ record_fits (superblock v) (dirty_block_cache v) ->
  len (cache_entries (dirty_block_cache v)) < 2 ^ 32 -> flush_and_commit v = (refused v, Err OutOfSpace).
Proof.
  intros Hv Hl Hbig Hcount. unfold record_fits in Hbig.
  pose proof (vl_size _ _ Hl) as Hsize. unfold BAFS_JOURNAL_SIZE_MAX_BLOCKS in Hsize.
  assert (dirty_block_cache v <> ∅) as Hne.
  { intros E. apply Hbig. rewrite E. change (len (cache_entries ∅)) with 0. lia. }
  unfold flush_and_commit. rewrite st_bind_get. unfold modify_superblock. rewrite st_bind_modify.
  apply st_bind_Err. unfold st_zoom, begin_transaction. cbn [device superblock vol_set_superblock].
  rewrite commit_oversized; [reflexivity|..].
  - by apply (next_cow_layout v m s Hv Hl).
  - change (sb_journal_size_in_blocks (sb_set_next_cow _ _)) with (sb_journal_size_in_blocks (superblock v)). lia.
  - done.
  - apply Forall_forall. intros [a block] Ha%cache_entries_elem. apply (vr_cache _ _ _ Hv) in Ha as (Ha & Hlen & Hok).
    pose proof (vr_boundary _ _ _ Hv). split; [split; simpl; unfold u64_max; lia|]. split; [done|]. simpl. lia.
  - lia.
  - change (sb_journal_size_in_blocks (sb_set_next_cow _ _)) with (sb_journal_size_in_blocks (superblock v)). lia.
Qed.

(** A torn write is noticed: a journal that does not hold the complete record does
    not pass for one, and a torn primary superblock is not read as a third one.
    [sb] is the superblock on the device, [sb'] the one being written. *)
Record torn_writes_detected (d1 : D) (sb sb' : BafsSuperblock) (record : list Z) : Prop := {
  td_journal : (exists rest, journal_area d1 sb = record ++ rest)
    \/ parse_journal (journal_area d1 sb) (sb_last_committed_transaction_id sb) = Ok None;
  td_primary : read_superblock_from_device d1 BAFS_PRIMARY_SUPERBLOCK_BLOCK_ADDRESS = Ok sb
    \/ read_superblock_from_device d1 BAFS_PRIMARY_SUPERBLOCK_BLOCK_ADDRESS = Ok (seal_with_checksum sb')
    \/ exists e, read_superblock_from_device d1 BAFS_PRIMARY_SUPERBLOCK_BLOCK_ADDRESS = Err e;
}.

Section crash.
Context (d d1 : D) (sb : BafsSuperblock) (v : BafsVolume D) (m0 s0 m s : gmap BafsKey (list Z)).
Local Abbreviation v0 := (mounted d (seal_with_checksum sb)).
Context (Hv0 : vol_rep v0 m0 s0) (Hgrown : grown v0 v) (Hv : vol_rep v m s) (Hfl : flushable v).
Context (Hread : readable d) (Hlay : volume_layout d sb).
Context (Hprim : read_superblock_from_device d BAFS_PRIMARY_SUPERBLOCK_BLOCK_ADDRESS = Ok (seal_with_checksum sb)).
Context (Hup : device_up d1) (Hlen : length (content d1) = length (content d)).

Lemma crash_ids :
  next_transaction_id v = sb_last_committed_transaction_id sb + 1
  /\ sb_next_cow_block_address sb <= vol_next_free_block v
  /\ sb_journal_start_block (superblock v) = sb_journal_start_block sb
  /\ sb_journal_size_in_blocks (superblock v) = sb_journal_size_in_blocks sb
  /\ device v = d.
Proof.
  destruct Hgrown as [Hd Hi X (fc & ic & ir & fr & cr & nc & Hsb)]. rewrite Hi, Hd, Hsb. pose proof (ext_next _ _ _ X) as Hn. done.
Qed.

Lemma crash_layout : volume_layout d1 sb.
Proof. by eapply volume_layout_length. Qed.

Lemma crash_read a sb' :
  0 <= a <= 2 -> sb_wf sb' -> sb_magic_number sb' = BAFS_MAGIC_NUMBER -> sb_version sb' = BAFS_SUPPORTED_VERSION ->
  image d1 a = superblock_block sb' -> read_superblock_from_device d1 a = Ok (seal_with_checksum sb').
Proof.
  intros Ha Hwf Hm Hve Himg. apply read_superblock_image; try done; [|lia].
  eapply layout_on_device; [apply crash_layout|done].
Qed.

(** A device that still has the committed blocks mounts as the old volume. *)
Lemma old_volume d2 sb2 :
  readable d2 -> length (content d2) = length (content d) -> same_volume sb sb2 -> sb_wf sb2 ->
  sb_next_cow_block_address sb2 = sb_next_cow_block_address sb -> sb_last_committed_transaction_id sb2 + 1 < 2 ^ 64 ->
  (forall a, data_start sb <= a < sb_next_cow_block_address sb -> image d2 a = image d a) ->
  reloads v0 d2 sb2.
Proof.
  intros Hr2 Hl2 Hsame Hwf Hnc Hid Himg. split; [|done..].
  destruct crash_ids as (_ & Enc & _ & _ & Ed). pose proof (fl_device _ Hfl) as Hdev.
  rewrite Ed in Hdev. pose proof (vr_boundary _ _ _ Hv0) as Hb0. simpl in Hb0.
  change (data_start (seal_with_checksum sb)) with (data_start sb) in Hb0.
  intros x Hx. simpl in Hx. change (data_start (seal_with_checksum sb)) with (data_start sb) in Hx.
  assert (on_device d x) as Hon by (split; lia). unfold read_block. simpl. rewrite lookup_empty.
  rewrite Hr2 by by eapply on_device_length. rewrite Hread by done. by rewrite Himg.
Qed.

(** A complete record is replayed onto the old superblock. *)
Lemma replay_mount rest :
  dirty_block_cache v <> ∅ ->
  read_superblock_from_device d1 BAFS_PRIMARY_SUPERBLOCK_BLOCK_ADDRESS = Ok (seal_with_checksum sb) ->
  journal_area d1 sb = commit_record (next_transaction_id v) (cache_entries (dirty_block_cache v)) ++ rest ->
  (forall a, data_start sb <= a < sb_next_cow_block_address sb -> image d1 a = image d a) ->
  exists d2 sb2, bafs_mount d1 = (d2, Ok (mounted d2 (seal_with_checksum sb2))) /\ device_up d2 /\ settled d2 sb2
    /\ reloads v0 d2 (seal_with_checksum sb2).
Proof.
  intros Hdirty Hp Harea Himg. destruct crash_ids as (Eid & Enc & Ejs & Ejn & Ed). pose proof (fl_id _ Hfl) as Hid.
  pose proof (flush_ready _ _ _ Hv Hfl Hdirty) as Hready. pose proof crash_layout as Hl1.
  set (sb2 := sb_set_transaction (seal_with_checksum sb) (next_transaction_id v)).
  assert (sb_wf sb2) as Hwf2 by (apply sb_wf_set_transaction; [apply sb_wf_seal, Hlay|apply Hv]).
  destruct (recover_replay d1 (seal_with_checksum sb) (next_transaction_id v) (cache_entries (dirty_block_cache v)) rest)
    as (d2 & Erec & Hup2 & Hl2 & Himg2).
  { done. } { by apply volume_layout_seal. } { exact Harea. } { apply Hready. }
  { pose proof (cr_fits _ _ _ _ Hready) as Hf. unfold record_fits in Hf.
    pose proof (vl_size _ _ (cr_layout _ _ _ _ Hready)) as Hs. unfold BAFS_JOURNAL_SIZE_MAX_BLOCKS in Hs. lia. }
  { apply Hv. } { simpl. lia. }
  { eapply Forall_impl; [exact (entries_writable _ _ _ _ Hready)|]. intros w. apply writable_length. by rewrite Ed. }
  fold sb2 in Erec, Himg2. exists d2, sb2.
  pose proof (vl_start _ _ Hlay) as Hst. pose proof (vl_size _ _ Hlay) as Hsz. unfold BAFS_JOURNAL_START_BLOCK_ADDRESS in Hst.
  assert (forall a, 3 <= a < sb_next_cow_block_address sb -> image d2 a = image d1 a) as Hother.
  { intros a Ha. rewrite Himg2 by lia. rewrite apply_writes_app, apply_writes_other.
    - apply apply_writes_other. rewrite cache_entries_addresses. intros [block Hblock].
      apply (grown_cache _ _ _ _ _ Hgrown) in Hblock. simpl in Hblock. lia.
    - unfold superblock_writes, BAFS_BACKUP_SUPERBLOCK_BLOCK_ADDRESS, BAFS_PRIMARY_SUPERBLOCK_BLOCK_ADDRESS. csimpl.
      rewrite !not_elem_of_cons. repeat split; [lia..|apply not_elem_of_nil]. }
  pose proof (vr_boundary _ _ _ Hv0) as Hb0. simpl in Hb0. change (data_start (seal_with_checksum sb)) with (data_start sb) in Hb0.
  assert (volume_layout d2 sb2) as Hlay2.
  { eapply volume_layout_length; [exact Hl2|]. apply volume_layout_set_transaction; [apply Hv|by apply volume_layout_seal]. }
  split; [|split; [done|split; [split|]]].
  - apply (mount_correct d1 (seal_with_checksum sb) _ _ true); [by apply mount_superblock_primary|exact Erec|exact Hid].
  - done.
  - apply mount_superblock_image; [done..|]. rewrite Himg2 by done. rewrite apply_writes_app. unfold superblock_writes.
    cbn [apply_writes]. by rewrite Z.eqb_refl.
  - replace (journal_area d2 sb2) with (journal_area d1 sb).
    + rewrite Harea. apply parse_record_old; [apply Hready|apply Hv|simpl; lia].
    + unfold journal_area. f_equal. apply list_fmap_ext. intros i a Ha%lookup_seqZ. symmetry. apply Hother.
      unfold data_start in Hb0. unfold sb2 in Ha. simpl in Ha. lia.
  - exact Hid.
  - simpl. rewrite Hl2, Hlen. pose proof (fl_device _ Hfl) as Hdev. rewrite Ed in Hdev.
    lia.
  - apply old_volume; try done; [|congruence|by apply sb_wf_seal|].
    + apply up_readable; [done|]. rewrite Hl2. apply (vl_small _ _ Hl1).
    + intros a Ha. rewrite Hother by (unfold data_start in Ha; lia). by apply Himg.
Qed.

(** All blocks are home and one superblock is the new one. *)
Lemma new_mount :
  mount_superblock d1 = Ok (seal_with_checksum (flushed_superblock v)) ->
  parse_journal (journal_area d1 sb) (next_transaction_id v) = Ok None ->
  (forall a, data_start sb <= a -> image d1 a = default (image d a) (dirty_block_cache v !! a)) ->
  settled d1 (flushed_superblock v) /\ reloads v d1 (seal_with_checksum (flushed_superblock v)).
Proof.
  intros Hm Hparse Himg. destruct crash_ids as (Eid & Enc & Ejs & Ejn & Ed). pose proof (flushed_superblock_wf _ _ _ Hv Hfl) as Hwf.
  pose proof (vl_small _ _ Hlay) as Hsmall.
  assert (journal_area d1 (flushed_superblock v) = journal_area d1 sb) as Eja.
  { unfold journal_area. simpl. by rewrite Ejs, Ejn. }
  split; [split; [|done| |exact (fl_id _ Hfl)|]|].
  - apply (volume_layout_set_transaction d1 _ _ (vr_id _ _ _ Hv)).
    eapply volume_layout_length; [|by eapply next_cow_layout; [exact Hv|apply Hfl]]. by rewrite Ed.
  - by rewrite Eja.
  - simpl. rewrite Hlen, <- Ed. apply Hfl.
  - split; [|apply flushed_superblock_same|by apply sb_wf_seal|done|exact (fl_id _ Hfl)].
    eapply flushed_reads; [exact Hv|exact Hfl|by rewrite Ed|apply up_readable; [done|by rewrite Hlen]|by rewrite Ed|].
    intros a Ha. rewrite Ed. apply Himg. unfold data_start in *. lia.
Qed.

(** The device the crash left mounts as the volume before or after the flush. *)
Definition mounts_either : Prop :=
  exists d2 sb2, bafs_mount d1 = (d2, Ok (mounted d2 (seal_with_checksum sb2))) /\ device_up d2 /\ settled d2 sb2
    /\ (reloads v0 d2 (seal_with_checksum sb2) \/ reloads v d2 (seal_with_checksum sb2)).

Lemma crash_replay rest :
  dirty_block_cache v <> ∅ ->
  read_superblock_from_device d1 BAFS_PRIMARY_SUPERBLOCK_BLOCK_ADDRESS = Ok (seal_with_checksum sb) ->
  journal_area d1 sb = commit_record (next_transaction_id v) (cache_entries (dirty_block_cache v)) ++ rest ->
  (forall a, data_start sb <= a -> dirty_block_cache v !! a = None -> image d1 a = image d a) -> mounts_either.
Proof.
  intros Hdirty Hp Ha Himg. destruct crash_ids as (_ & Enc & _ & _ & _).
  destruct (replay_mount rest Hdirty Hp Ha) as (d2 & sb2 & ? & ? & ? & ?); [|by exists d2, sb2; eauto].
  intros a Hra. apply Himg; [lia|]. destruct (dirty_block_cache v !! a) eqn:E; [|done].
  apply (grown_cache _ _ _ _ _ Hgrown) in E. simpl in E. lia.
Qed.

Lemma crash_unlogged :
  read_superblock_from_device d1 BAFS_PRIMARY_SUPERBLOCK_BLOCK_ADDRESS = Ok (seal_with_checksum sb) ->
  parse_journal (journal_area d1 sb) (sb_last_committed_transaction_id sb) = Ok None ->
  (forall a, data_start sb <= a -> image d1 a = image d a) -> mounts_either.
Proof.
  intros Hp Hnone Himg. destruct crash_ids as (Eid & Enc & _ & _ & Ed). pose proof (fl_id _ Hfl) as Hid.
  pose proof (fl_device _ Hfl) as Hdev. rewrite Ed in Hdev.
  assert (settled d1 sb) as Hset.
  { split; [apply crash_layout|by apply mount_superblock_primary|done|lia|rewrite Hlen; lia]. }
  exists d1, sb. split; [by apply settled_mount|]. do 2 (split; [done|]). left.
  apply old_volume; try done; [|apply sb_wf_seal, Hlay|simpl; lia|].
  - apply up_readable; [done|]. rewrite Hlen. apply Hlay.
  - intros a Ha. apply Himg. lia.
Qed.

Lemma crash_flushed :
  mount_superblock d1 = Ok (seal_with_checksum (flushed_superblock v)) ->
  parse_journal (journal_area d1 sb) (next_transaction_id v) = Ok None ->
  (forall a, data_start sb <= a -> image d1 a = default (image d a) (dirty_block_cache v !! a)) -> mounts_either.
Proof.
  intros Hm Ha Himg. destruct (new_mount Hm Ha Himg) as [Hset Hrl].
  exists d1, (flushed_superblock v). split; [by apply settled_mount|]. by auto.
Qed.

Lemma crash_old_primary :
  image d1 BAFS_PRIMARY_SUPERBLOCK_BLOCK_ADDRESS = image d BAFS_PRIMARY_SUPERBLOCK_BLOCK_ADDRESS ->
  read_superblock_from_device d1 BAFS_PRIMARY_SUPERBLOCK_BLOCK_ADDRESS = Ok (seal_with_checksum sb).
Proof.
  intros E. rewrite <- Hprim. unfold read_superblock_from_device.
  assert (on_device d BAFS_PRIMARY_SUPERBLOCK_BLOCK_ADDRESS) as Hon by by eapply layout_on_device.
  rewrite (Hread _ Hon), (up_readable d1), E; [done|done|rewrite Hlen; apply Hlay|by eapply on_device_length].
Qed.

Lemma crash_new_superblock a :
  0 <= a <= 2 -> image d1 a = superblock_block (flushed_superblock v) ->
  read_superblock_from_device d1 a = Ok (seal_with_checksum (flushed_superblock v)).
Proof. intros Ha Himg. apply crash_read; [done|by eapply flushed_superblock_wf|apply Hfl|apply Hfl|exact Himg]. Qed.

(** A transaction without blocks writes only the superblocks, the backup first. *)
Lemma crash_empty :
  dirty_block_cache v = ∅ -> parse_journal (journal_area d sb) (sb_last_committed_transaction_id sb) = Ok None ->
  interrupted d (superblock_writes (flushed_superblock v)) d1 ->
  read_superblock_from_device d1 BAFS_PRIMARY_SUPERBLOCK_BLOCK_ADDRESS = Ok (seal_with_checksum sb)
  \/ read_superblock_from_device d1 BAFS_PRIMARY_SUPERBLOCK_BLOCK_ADDRESS = Ok (seal_with_checksum (flushed_superblock v))
  \/ (exists e, read_superblock_from_device d1 BAFS_PRIMARY_SUPERBLOCK_BLOCK_ADDRESS = Err e) -> mounts_either.
Proof.
  intros Hnil Hparse Hint Htp. pose proof (superblocks_interrupted _ _ _ Hint) as Hrest. destruct Hint as (_ & past & todo & Hsplit & Himg). pose proof (vl_start _ _ Hlay) as Hst. pose proof (vl_size _ _ Hlay) as Hsz.
  unfold BAFS_JOURNAL_START_BLOCK_ADDRESS in Hst. destruct crash_ids as (Eid & _).
  assert (journal_area d1 sb = journal_area d sb) as Eja.
  { unfold journal_area. f_equal. apply list_fmap_ext. intros i a Ha%lookup_seqZ. apply Hrest. lia. }
  assert (read_superblock_from_device d1 BAFS_PRIMARY_SUPERBLOCK_BLOCK_ADDRESS = Ok (seal_with_checksum sb) -> mounts_either) as Hold.
  { intros Hp. apply crash_unlogged; [done|by rewrite Eja|]. intros a Ha. apply Hrest. unfold data_start in Ha. lia. }
  assert (mount_superblock d1 = Ok (seal_with_checksum (flushed_superblock v)) -> mounts_either) as Hnew.
  { intros Hm. apply crash_flushed; [done|rewrite Eja, Eid; by apply (parse_journal_mono _ (sb_last_committed_transaction_id sb)); [lia|]|].
    intros a Ha. rewrite Hnil, lookup_empty. apply Hrest. unfold data_start in Ha. lia. }
  destruct Htp as [Hp|[Hp|[e Hp]]]; [by apply Hold|by apply Hnew, mount_superblock_primary|].
  destruct past as [|w past]; simpl in Hsplit.
  - apply Hold, crash_old_primary. subst todo. apply Himg; [done|]. by intros w [= <-].
  - injection Hsplit as <- Hsplit. apply Hnew. eapply mount_superblock_backup; [exact Hp|]. apply crash_new_superblock; [done|].
    destruct past as [|w past]; simpl in Hsplit.
    + subst todo. rewrite Himg; [done|done|]. by intros w [= <-].
    + injection Hsplit as <- Hsplit. destruct past, todo; [|done..]. rewrite Himg; [done|done|by intros w].
Qed.

Lemma crash_mount :
  dirty_block_cache v <> ∅ ->
  crash_state d (sb_set_next_cow (superblock v) (vol_next_free_block v)) (next_transaction_id v) (dirty_block_cache v) d1 ->
  torn_writes_detected d1 (seal_with_checksum sb) (flushed_superblock v)
    (commit_record (next_transaction_id v) (cache_entries (dirty_block_cache v))) -> mounts_either.
Proof.
  intros Hdirty.
  destruct crash_ids as (Eid & Enc & Ejs & Ejn & Ed).
  assert (journal_area d1 (sb_set_next_cow (superblock v) (vol_next_free_block v)) = journal_area d1 sb) as Eja
    by (unfold journal_area; simpl; by rewrite Ejs, Ejn).
  pose proof (vl_start _ _ Hlay) as Hst. pose proof (vl_size _ _ Hlay) as Hsz. unfold BAFS_JOURNAL_START_BLOCK_ADDRESS in Hst.
  intros Hcrash [Htj Htp].
  destruct Hcrash as [Himg|rest Harea Hp Himg|rest Harea Hback Himg]; simpl in *; rewrite ?Eja, ?Ejs, ?Ejn in *.
  - assert (read_superblock_from_device d1 BAFS_PRIMARY_SUPERBLOCK_BLOCK_ADDRESS = Ok (seal_with_checksum sb)) as Hp.
    { apply crash_old_primary, Himg; unfold BAFS_PRIMARY_SUPERBLOCK_BLOCK_ADDRESS; lia. }
    destruct Htj as [[rest Harea]|Hnone].
    + apply (crash_replay rest Hdirty Hp Harea). intros a Ha _. apply Himg; unfold data_start in Ha; lia.
    + apply (crash_unlogged Hp Hnone). intros a Ha. apply Himg; unfold data_start in Ha; lia.
  - exact (crash_replay rest Hdirty (crash_old_primary Hp) Harea Himg).
  - assert (read_superblock_from_device d1 BAFS_BACKUP_SUPERBLOCK_BLOCK_ADDRESS
      = Ok (seal_with_checksum (flushed_superblock v))) as Hbk.
    { by apply crash_new_superblock. }
    assert (parse_journal (journal_area d1 sb) (next_transaction_id v) = Ok None) as Hparse.
    { rewrite Harea. apply parse_record_old; [apply (flush_ready _ _ _ Hv Hfl Hdirty)|apply Hv|lia]. }
    destruct Htp as [Hp|[Hp|[e Hp]]].
    + apply (crash_replay rest Hdirty Hp Harea). intros a Ha Hn. rewrite Himg by done. by rewrite Hn.
    + apply crash_flushed; [by apply mount_superblock_primary|exact Hparse|done].
    + apply crash_flushed; [by eapply mount_superblock_backup|exact Hparse|done].
Qed.
End crash.

(** ** Committing a transaction *)

(** Every block the volume has handed out lies on the device. Only the blocks of
    file data are checked for that when they are handed out. *)
Definition within_device v : Prop := vol_next_free_block v * 4096 <= len (content (device v)).

(** Transactions are numbered in 64 bits, and their blocks counted in 32. *)
Record commit_bounds v : Prop := {
  cb_id : next_transaction_id v + 1 < 2 ^ 64;
  cb_count : len (cache_entries (dirty_block_cache v)) < 2 ^ 32;
}.

(** The transaction [v] grew from the settled device can be committed. *)
Record committable v : Prop := {
  cm_device : vol_next_free_block v * 4096 <= len (content (device v));
  cm_fits : record_fits (superblock v) (dirty_block_cache v);
  cm_id : next_transaction_id v + 1 < 2 ^ 64;
}.

Lemma grown_layout d sb v m s :
  volume_layout d sb -> grown (mounted d (seal_with_checksum sb)) v -> vol_rep v m s -> volume_layout (device v) (superblock v).
Proof.
  intros [] [Hd _ _ (fc & ic & ir & fr & cr & nc & Hsb)] Hv. simpl in Hd. rewrite Hsb, Hd. constructor; try done.
  rewrite <- Hsb. apply Hv.
Qed.

Lemma committable_flushable d sb v m s :
  volume_layout d sb -> grown (mounted d (seal_with_checksum sb)) v -> vol_rep v m s -> committable v -> flushable v.
Proof. intros Hl Hg Hv [Hdev Hfits Hid]. split; try done. by eapply grown_layout. Qed.

Lemma commit_settled d sb v m s :
  device_up d -> settled d sb -> grown (mounted d (seal_with_checksum sb)) v -> vol_rep v m s -> committable v ->
  exists d', flush_and_commit v = (mounted d' (seal_with_checksum (flushed_superblock v)), Ok tt)
    /\ device_up d' /\ image d' BAFS_PRIMARY_SUPERBLOCK_BLOCK_ADDRESS = superblock_block (flushed_superblock v)
    /\ length (content d') = length (content d)
    /\ settled d' (flushed_superblock v) /\ reloads v d' (seal_with_checksum (flushed_superblock v)).
Proof.
  intros Hup [Hl _ Hj _ _] Hg Hv Hcm. pose proof (committable_flushable _ _ _ _ _ Hl Hg Hv Hcm) as Hfl.
  destruct Hg as [Hd Hi _ (fc & ic & ir & fr & cr & nc & Hsb)]. simpl in Hd, Hi. rewrite <- Hd.
  apply (flush_settled v m s Hv Hfl); [by rewrite Hd|]. intros _.
  rewrite Hd, Hsb, Hi. by apply (parse_journal_mono _ (sb_last_committed_transaction_id sb)); [lia|].
Qed.
End commit.
