(* ===== verification/FileSystem.v ===== *)
(** * FileSystem: what a volume promises

    An abstract file system (numbered nodes, named entries, file contents), the
    relation between a mounted volume and its abstract state, and the proof that
    every operation of volume.rs does what the abstract operation says. *)

From S2P Require Import Prelude Checksum Device Superblock Node NodeCodec BTree BTreeInv BTreeWrite.
From S2P Require Import BTreeInsert BTreeDelete TreeStore Inode Extent FreeSpace ChecksumTree XxHash Dir Journal JournalLaws.
From S2P Require Import Volume FileModel VolumeInv VolumeDirs VolumeUnlink VolumeFiles FileContents VolumeCommit.

(** ** The abstract file system *)

(** A directory carries its link count, which unlinking its name lowers. *)
Inductive fs_node := DirectoryNode (links : Z) | FileNode (contents : file).

Record fs := {
  fs_count : Z;
  fs_nodes : gmap Z fs_node;
  fs_names : gmap (Z * list Z) Z;
}.

Inductive request :=
  | CreateFile (parent : Z) (name : list Z)
  | CreateDirectory (parent : Z) (name : list Z)
  | WriteFile (number offset : Z) (data : list Z)
  | ReadFile (number offset count : Z)
  | Lookup (parent : Z) (name : list Z)
  | Unlink (parent : Z) (name : list Z).

Inductive reply := Done | Number (n : Z) | Found (child : option Z) | Bytes (bytes : list Z).

Definition fs_set_node (A : fs) (n : Z) (node : fs_node) : fs :=
  {| fs_count := fs_count A; fs_nodes := <[n := node]> (fs_nodes A); fs_names := fs_names A |}.

Definition fs_add_node (A : fs) (node : fs_node) : fs :=
  {| fs_count := fs_count A + 1; fs_nodes := <[fs_count A + 1 := node]> (fs_nodes A); fs_names := fs_names A |}.

(** The name [x] has the key of [name] in directory [p]. *)
Definition collides (p : Z) (name : list Z) (x : Z * list Z) : Prop :=
  x.1 = p /\ xxhash64_with_seed_zero x.2 = xxhash64_with_seed_zero name.

#[global] Instance collides_dec p name x : Decision (collides p name x).
Proof. unfold collides. apply _. Defined.

(** A directory holds one name for every hash: a new one takes the place of the
    other, whose node stays without a name. *)
Definition fs_add_name (A : fs) (p : Z) (name : list Z) (n : Z) : fs :=
  {| fs_count := fs_count A; fs_nodes := fs_nodes A;
     fs_names := <[(p, name) := n]> (filter (fun x => ~ collides p name x.1) (fs_names A)) |}.

(** A rejected name still uses up a number: the node stays without a name. *)
Definition spec_create (node : fs_node) (p : Z) (name : list Z) (A : fs) : fs * result reply :=
  match fs_nodes A !! p with
  | None => (A, Err NotFound)
  | Some (FileNode _) => (A, Err NotADirectory)
  | Some (DirectoryNode _) =>
      let n := fs_count A + 1 in
      let A1 := fs_add_node A node in
      if decide (1 <= len name <= 255) then
        match fs_names A !! (p, name) with
        | Some _ => (A1, Err AlreadyExists)
        | None => (fs_add_name A1 p name n, Ok (Number n))
        end
      else (A1, Err InvalidArgument)
  end.

Definition spec_write (n off : Z) (data : list Z) (A : fs) : fs * result reply :=
  if len data =? 0 then (A, Ok (Number 0))
  else
    match fs_nodes A !! n with
    | None => (A, Err NotFound)
    | Some (DirectoryNode _) => (A, Err NotARegularFile)
    | Some (FileNode f) => (fs_set_node A n (FileNode (file_write off data f)), Ok (Number (len data)))
    end.

Definition spec_read (n off count : Z) (A : fs) : fs * result reply :=
  if count =? 0 then (A, Ok (Bytes []))
  else
    match fs_nodes A !! n with
    | None => (A, Err NotFound)
    | Some (DirectoryNode _) => (A, Err NotARegularFile)
    | Some (FileNode f) =>
        match file_read f off (Z.min count (file_size f - off)) with
        | Some bytes => (A, Ok (Bytes bytes))
        | None => (A, Err CorruptedStructure)
        end
    end.

Definition spec_lookup (p : Z) (name : list Z) (A : fs) : fs * result reply :=
  match fs_nodes A !! p with
  | None => (A, Err NotFound)
  | Some (FileNode _) => (A, Err NotADirectory)
  | Some (DirectoryNode _) => (A, Ok (Found (fs_names A !! (p, name))))
  end.

(** The node an unlink leaves: a file has one link, a directory starts with two. *)
Definition unlinked_node (node : option fs_node) : option fs_node :=
  match node with
  | Some (DirectoryNode links) => if links <=? 1 then None else Some (DirectoryNode (links - 1))
  | _ => None
  end.

Definition spec_unlink (p : Z) (name : list Z) (A : fs) : fs * result reply :=
  match fs_names A !! (p, name) with
  | None => (A, Err NotFound)
  | Some n =>
      ({| fs_count := fs_count A; fs_nodes := partial_alter unlinked_node n (fs_nodes A);
          fs_names := delete (p, name) (fs_names A) |}, Ok Done)
  end.

Definition spec (q : request) : fs -> fs * result reply :=
  match q with
  | CreateFile p name => spec_create (FileNode new_file) p name
  | CreateDirectory p name => spec_create (DirectoryNode 2) p name
  | WriteFile n off data => spec_write n off data
  | ReadFile n off count => spec_read n off count
  | Lookup p name => spec_lookup p name
  | Unlink p name => spec_unlink p name
  end.

(** A request that stores data in a file. *)
Definition stores (A : fs) (q : request) : bool :=
  match q with
  | WriteFile n _ data => negb (len data =? 0) && match fs_nodes A !! n with Some (FileNode _) => true | _ => false end
  | _ => false
  end.

(** What a request answers and leaves, on a volume that is [full] for it or not. *)
Definition answers (full : bool) (A : fs) (q : request) : fs * result reply :=
  if full && stores A q then (A, Err OutOfSpace) else spec q A.

(** The requests whose outcome the specification fixes: numbers and names are
    ones the interface admits, and the ends and the block counts of files stay
    within their integers. *)
Definition admissible (A : fs) (q : request) : Prop :=
  match q with
  | CreateFile p name | CreateDirectory p name => 1 <= p < 2 ^ 64 /\ is_str name /\ fs_count A + 1 < 2 ^ 64
  | WriteFile n off data =>
      1 <= n < 2 ^ 64 /\ bytes_ok data /\ 0 <= off /\ off + 4096 * block_count_for data < 2 ^ 64
      /\ forall f, fs_nodes A !! n = Some (FileNode f) -> file_blocks f + block_count_for data < 2 ^ 64
  | ReadFile n off count => 1 <= n < 2 ^ 64 /\ 0 <= off /\ 0 <= count
  | Lookup p name | Unlink p name => 1 <= p < 2 ^ 64
  end.

(** How many tree updates a request makes at most. *)
Definition cost (A : fs) (q : request) : Z :=
  match q with
  | CreateFile _ _ | CreateDirectory _ _ => 2
  | WriteFile _ _ data => 2 * block_count_for data + 3
  | ReadFile _ _ _ | Lookup _ _ => 0
  | Unlink p name =>
      match fs_names A !! (p, name) with
      | Some n =>
          match fs_nodes A !! n with
          | Some (FileNode f) => UNLINK_UPDATES (len (file_segments f)) + file_blocks f
          | _ => 3
          end
      | None => 0
      end
  end.

(** ** The operations of a volume as requests *)

Section execute.
Context {D : Type} `{BlockDevice D}.

Definition map_reply {A B} (f : A -> B) (r : result A) : result B := let? a := r in Ok (f a).

(** The blocks left behind the bump pointer are too few for the data. *)
Definition no_room (v : BafsVolume D) (q : request) : bool :=
  match q with
  | WriteFile _ _ data => sb_total_block_count (superblock v) <? vol_next_free_block v + block_count_for data
  | _ => false
  end.

Definition execute (q : request) (v : BafsVolume D) : BafsVolume D * result reply :=
  match q with
  | CreateFile p name => let '(v, r) := volume_create_file p name v in (v, map_reply Number r)
  | CreateDirectory p name => let '(v, r) := volume_create_directory p name v in (v, map_reply Number r)
  | WriteFile n off data => let '(v, r) := volume_write_file_data n off data v in (v, map_reply Number r)
  | ReadFile n off count =>
      let '(buffer, r) := volume_read_file_data v n off (zeros count) in
      (v, map_reply (fun bytes_read => Bytes (take (Z.to_nat bytes_read) buffer)) r)
  | Lookup p name => (v, map_reply Found (volume_lookup_directory_entry v p name))
  | Unlink p name => let '(v, r) := volume_unlink_directory_entry p name v in (v, map_reply (fun _ => Done) r)
  end.
End execute.

(** ** The abstract state of a volume *)

(** [m] and [m'] agree on everything but the directory entries of object [n]. *)
Definition same_object (m m' : gmap BafsKey (list Z)) (n : Z) : Prop :=
  forall k, object_id k = n -> item_type k <> ITEM_TYPE_DIRECTORY_ENTRY -> m' !! k = m !! k.

Record directory_node (m : gmap BafsKey (list Z)) (n links : Z) (inode : BafsInode) : Prop := {
  dn_inode : inode_at m n inode;
  dn_number : inode_number inode = n;
  dn_type : is_directory inode = true;
  dn_links : hard_link_count inode = links;
  dn_allocated : allocated_block_count inode = 0;
  dn_extents : forall k, object_id k = n -> item_type k = ITEM_TYPE_EXTENT_DATA -> m !! k = None;
}.

Section refine.
Context {D : Type} `{BlockDevice D} `{!TreeStore D}.
Implicit Types v : BafsVolume D.
Implicit Types m s : gmap BafsKey (list Z).

Record file_node v m s (n : Z) (f : file) (inode : BafsInode) (es : list BafsExtentData) : Prop := {
  fn_inode : inode_at m n inode;
  fn_number : inode_number inode = n;
  fn_type : is_regular_file inode = true;
  fn_links : hard_link_count inode = 1;
  fn_size : file_size_in_bytes inode = file_size f;
  fn_allocated : allocated_block_count inode = file_blocks f;
  fn_file : file_rep v m s n f es;
}.

Definition node_rep v m s (n : Z) (node : option fs_node) : Prop :=
  match node with
  | None => m !! inode_key n = None
  | Some (DirectoryNode links) => exists inode, directory_node m n links inode
  | Some (FileNode f) => exists inode es, file_node v m s n f inode es
  end.

(** The type a directory entry gives for its child. *)
Definition node_type (node : option fs_node) : Z :=
  match node with
  | Some (DirectoryNode _) => CHILD_TYPE_DIRECTORY
  | _ => CHILD_TYPE_REGULAR_FILE
  end.

(** The trees [m] and [s] of a volume show the abstract file system [A]. *)
Record fs_view v m s (A : fs) : Prop := {
  fsr_count : sb_allocated_inode_count (superblock v) = fs_count A;
  fsr_nodes : forall n, 1 <= n < 2 ^ 64 -> node_rep v m s n (fs_nodes A !! n);
  fsr_names : forall p name, child_inode_number <$> dir_lookup m p name = fs_names A !! (p, name);
  fsr_named : forall p name n, fs_names A !! (p, name) = Some n -> 1 < n <= fs_count A /\ is_Some (fs_nodes A !! n);
  fsr_unique : forall x y n, fs_names A !! x = Some n -> fs_names A !! y = Some n -> x = y;
  fsr_types : forall p name e, dir_lookup m p name = Some e ->
    child_type e = node_type (fs_nodes A !! child_inode_number e);
}.

Lemma entry_child v m s A p name e :
  fs_view v m s A -> dir_lookup m p name = Some e -> fs_names A !! (p, name) = Some (child_inode_number e).
Proof. intros Hview He. by rewrite <- (fsr_names _ _ _ _ Hview), He. Qed.

Definition fs_rep v m s (A : fs) : Prop := vol_rep v m s /\ fs_view v m s A.

(** *** Frames *)

Lemma same_object_inode m m' n inode : same_object m m' n -> inode_at m n inode -> inode_at m' n inode.
Proof. intros Hm [Hi Hwf]. split; [|done]. by rewrite Hm. Qed.

Lemma node_rep_step v v' k m s m' s' n node :
  node_rep v m s n node -> vol_step v v' k -> same_object m m' n ->
  (forall a, a < vol_next_free_block v -> s' !! checksum_key a = s !! checksum_key a) -> node_rep v' m' s' n node.
Proof.
  intros Hn S Hm Hs. destruct node as [[links|bytes]|].
  - destruct Hn as (inode & [Hi Hnum Ht Hl Ha He]). exists inode. split; try done; [by eapply same_object_inode|].
    intros x Ho Hx. rewrite Hm by (rewrite ?Hx; done). by apply He.
  - destruct Hn as (inode & es & [Hi Hnum Ht Hl Hsz Ha Hf]). exists inode, es. split; try done.
    + by eapply same_object_inode.
    + eapply file_rep_step; [exact Hf|exact S|intros x _; by apply Hm|exact Hs].
  - simpl in *. by rewrite Hm.
Qed.

Lemma same_object_refl m n : same_object m m n.
Proof. done. Qed.

Lemma same_object_trans m1 m2 m3 n : same_object m1 m2 n -> same_object m2 m3 n -> same_object m1 m3 n.
Proof. intros H1 H2 k Ho Ht. by rewrite H2, H1. Qed.

Lemma same_object_entry m p e n : same_object m (with_entry m p e) n.
Proof. intros k Ho Ht. unfold with_entry. rewrite lookup_insert_ne; [done|]. by intros <-. Qed.

Lemma same_object_inode_ne m inode n : inode_number inode <> n -> same_object m (with_inode m inode) n.
Proof. intros Hne k Ho Ht. unfold with_inode. rewrite lookup_insert_ne; [done|]. by intros <-. Qed.

Lemma same_object_extent_ne m n' e n : n' <> n -> same_object m (with_extent m n' e) n.
Proof. intros Hne k Ho Ht. unfold with_extent. rewrite lookup_insert_ne; [done|]. by intros <-. Qed.

Lemma same_object_unlinked m p name inode n :
  inode_number inode <> n -> same_object m (unlinked m p name inode) n.
Proof.
  intros Hne k Ho Ht. unfold unlinked.
  assert (delete (make_directory_entry_key p name) m !! k = m !! k) as Hk.
  { rewrite lookup_delete_ne; [done|]. by intros <-. }
  destruct (hard_link_count inode <=? 1).
  - rewrite lookup_delete_ne by by intros <-. unfold without_extents. rewrite <- Hk. apply option_eq. intros x.
    rewrite map_lookup_filter_Some. split; [tauto|]. intros Hx. split; [done|]. simpl. intros [Hx1 _]. congruence.
  - unfold with_inode. rewrite lookup_insert_ne; [done|]. by intros <-.
Qed.

(** *** Creating *)

Lemma file_node_new v m s n g :
  1 <= n < 2 ^ 64 -> is_u64 g -> (forall k bytes, m !! k = Some bytes -> object_id k <> n) ->
  node_rep v (with_inode m (new_regular_file n g 0)) s n (Some (FileNode new_file)).
Proof.
  intros Hn Hg Hfree. set (inode := new_regular_file n g 0).
  assert (inode_at (with_inode m inode) n inode) as Hi.
  { split; [apply lookup_insert_eq|]. apply new_regular_file_wf; ilia. }
  exists inode, []. split; try done. split; [|constructor|constructor].
  split; [constructor|]. intros k bytes. rewrite elem_of_nil, extent_range_key. split; [done|]. intros (Hk & Ho & Ht & _).
  unfold with_inode in Hk. rewrite lookup_insert_ne in Hk by (intros <-; done). by eapply Hfree.
Qed.

Lemma directory_node_new v m s n g :
  1 <= n < 2 ^ 64 -> is_u64 g -> (forall k bytes, m !! k = Some bytes -> object_id k <> n) ->
  node_rep v (with_inode m (new_directory n g 0)) s n (Some (DirectoryNode 2)).
Proof.
  intros Hn Hg Hfree. set (inode := new_directory n g 0). exists inode. split; try done.
  - split; [apply lookup_insert_eq|]. apply new_directory_wf; ilia.
  - intros k Ho Ht. unfold with_inode. rewrite lookup_insert_ne by (intros <-; done).
    destruct (m !! k) eqn:E; [|done]. by apply Hfree in E.
Qed.

(** A new node that has no name yet. *)
Lemma fs_view_add_node v v' k m s A inode node :
  fs_view v m s A -> vol_step v v' k -> inode_number inode = fs_count A + 1 ->
  sb_allocated_inode_count (superblock v') = fs_count A + 1 ->
  node_rep v' (with_inode m inode) s (fs_count A + 1) (Some node) ->
  fs_view v' (with_inode m inode) s (fs_add_node A node).
Proof.
  intros Hview S Hnum Hcount Hnew. pose proof Hview as [Hc Hnodes Hnames Hnamed Huniq Htypes]. split; try done; simpl.
  - intros n Hn. destruct (decide (n = fs_count A + 1)) as [->|Hne]; [by rewrite lookup_insert_eq|].
    rewrite lookup_insert_ne by done. eapply node_rep_step; [by apply Hnodes|exact S| |done].
    apply same_object_inode_ne. congruence.
  - intros p name. unfold with_inode. rewrite dir_lookup_insert_inode. apply Hnames.
  - intros p name n Hn. apply Hnamed in Hn as [? Hn]. split; [lia|]. by apply lookup_insert_is_Some'; right.
  - intros p name e. unfold with_inode. rewrite dir_lookup_insert_inode. intros He.
    pose proof (entry_child _ _ _ _ _ _ _ Hview He) as [Hch _]%Hnamed.
    rewrite lookup_insert_ne by lia. by apply Htypes in He.
Qed.

(** The names of a directory after one is added. *)
Lemma dir_lookup_add m p name n type p' name' :
  entry_ok (new_entry name n type) ->
  dir_lookup (with_entry m p (new_entry name n type)) p' name'
  = if decide ((p', name') = (p, name)) then Some (new_entry name n type)
    else if decide (collides p name (p', name')) then None else dir_lookup m p' name'.
Proof.
  intros He. unfold with_entry. destruct (decide ((p', name') = (p, name))) as [[= -> ->]|Hne].
  { exact (dir_lookup_insert_eq m p _ He). }
  destruct (decide (collides p name (p', name'))) as [[Hp Hh]|Hno]; simpl in *.
  - subst p'. apply (dir_lookup_insert_collision m p _ name' He); simpl; congruence.
  - apply dir_lookup_insert_ne. intros [= Hp Hh]. apply Hno. by split.
Qed.

Lemma fs_add_name_lookup A p name n x :
  fs_names (fs_add_name A p name n) !! x
  = if decide (x = (p, name)) then Some n else if decide (collides p name x) then None else fs_names A !! x.
Proof.
  simpl. destruct (decide (x = (p, name))) as [->|Hne]; [by rewrite lookup_insert_eq|]. rewrite lookup_insert_ne by done.
  destruct (decide (collides p name x)) as [Hc|Hc].
  - apply map_lookup_filter_None_2. right. intros y _ Hn. by apply Hn.
  - apply option_eq. intros y. rewrite map_lookup_filter_Some. simpl. tauto.
Qed.

(** Naming the newest node. *)
Lemma fs_view_add_name v v' k m s A p name type n :
  fs_view v m s A -> vol_step v v' k ->
  sb_allocated_inode_count (superblock v') = fs_count A -> entry_ok (new_entry name n type) ->
  1 < n <= fs_count A -> is_Some (fs_nodes A !! n) ->
  type = node_type (fs_nodes A !! n) -> (forall x, fs_names A !! x <> Some n) ->
  fs_view v' (with_entry m p (new_entry name n type)) s (fs_add_name A p name n).
Proof.
  intros [Hc Hnodes Hnames Hnamed Huniq Htypes] S Hcount He Hn Hnode Htype Hfresh.
  assert (forall x n', fs_names (fs_add_name A p name n) !! x = Some n' ->
    x = (p, name) /\ n' = n \/ x <> (p, name) /\ fs_names A !! x = Some n') as Hadd.
  { intros x n'. rewrite fs_add_name_lookup. repeat case_decide; intros E; [left|done|right]; split; congruence. }
  split; try done.
  - intros n' Hn'. eapply node_rep_step; [by apply Hnodes|exact S|apply same_object_entry|done].
  - intros p' name'. rewrite (dir_lookup_add _ _ _ _ _ _ _ He), fs_add_name_lookup. by repeat case_decide.
  - intros p' name' n' [[_ ->]|[_ Hx]]%Hadd; [done|]. by eapply Hnamed.
  - intros x y n' [[-> ->]|[Hx1 Hx]]%Hadd [[-> Hy]|[Hy1 Hy]]%Hadd; [done|by apply Hfresh in Hy| |by eapply Huniq].
    subst n'. by apply Hfresh in Hx.
  - intros p' name' e. rewrite (dir_lookup_add _ _ _ _ _ _ _ He). repeat case_decide; [|done|apply Htypes].
    intros E. apply Some_inj in E as <-. exact Htype.
Qed.

(** [v] answers a request with [r] and becomes [v'], and the abstract state [A']. *)
Definition moves_to v (outcome : BafsVolume D * result reply) (A' : fs) (r : result reply) : Prop :=
  exists v' m' s' k, outcome = (v', r) /\ fs_rep v' m' s' A' /\ vol_step v v' k.

Lemma moves_to_same v m s A r : fs_rep v m s A -> moves_to v (v, r) A r.
Proof. intros Hf. exists v, m, s, 0. split; [done|]. split; [done|]. apply vol_step_refl. Qed.

(** The same within [k] updates. *)
Definition moves_within v (k : Z) (outcome : BafsVolume D * result reply) (A' : fs) (r : result reply) : Prop :=
  exists v' m' s', outcome = (v', r) /\ fs_rep v' m' s' A' /\ vol_moved v v' k.

Lemma moves_within_same v m s A r k : 0 <= k -> fs_rep v m s A -> moves_within v k (v, r) A r.
Proof.
  intros Hk Hf. exists v, m, s. split; [done|]. split; [done|]. pose proof (vr_boundary _ _ _ (proj1 Hf)).
  eapply vol_moved_mono; [lia|exact Hk|apply vol_moved_refl].
Qed.

Lemma moves_within_to v k outcome A r : moves_within v k outcome A r -> moves_to v outcome A r.
Proof. intros (v' & m' & s' & E & Hf & [S _]). exists v', m', s'. by eexists. Qed.

Lemma vol_room_cost v m s k k' : vol_rep v m s -> k' <= k -> vol_room v k -> vol_room v k'.
Proof. intros Hv. pose proof (vr_boundary _ _ _ Hv). apply vol_room_mono. lia. Qed.

(** The parent is not a directory. *)
Lemma create_bad_parent v m s A new_inode type node p name :
  fs_rep v m s A -> vol_room v 2 -> fresh_inode new_inode -> is_u8 type -> admissible A (CreateFile p name) ->
  (forall links, fs_nodes A !! p <> Some (DirectoryNode links)) ->
  exists r, spec_create node p name A = (A, Err r) /\ volume_create_entry new_inode type p name v = (v, Err r).
Proof.
  intros [Hv [Hc Hnodes _ _ _ _]] Hroom Hnew Htype (Hp & Hstr & Hcount) Hnot. unfold spec_create.
  pose proof (Hnodes p Hp) as Hpar. destruct (fs_nodes A !! p) as [[links|bytes]|]; [by destruct (Hnot links)| |].
  - destruct Hpar as (inode & es & [Hi Hnum Ht _ _ _ _]). exists NotADirectory. split; [done|].
    pose proof (volume_create_entry_correct new_inode type v m s p inode name Hv Hroom Hnew Htype Hstr Hp Hi) as Hcr.
    rewrite Hc in Hcr. specialize (Hcr Hcount). cbv zeta in Hcr.
    assert (is_directory inode = false) as Hd.
    { unfold is_directory, is_regular_file in *. apply Z.eqb_eq in Ht. by rewrite Ht. }
    by rewrite Hd in Hcr.
  - exists NotFound. split; [done|]. by eapply volume_create_missing_parent.
Qed.

Lemma fs_rep_create v m s A new_inode type node p name :
  fs_rep v m s A -> vol_room v 2 -> fresh_inode new_inode -> is_u8 type -> admissible A (CreateFile p name) ->
  (forall v m s n g, 1 <= n < 2 ^ 64 -> is_u64 g -> (forall k bytes, m !! k = Some bytes -> object_id k <> n) ->
     node_rep v (with_inode m (new_inode n g 0)) s n (Some node)) ->
  type = node_type (Some node) ->
  moves_within v 2 (let '(v, r) := volume_create_entry new_inode type p name v in (v, map_reply Number r))
    (spec_create node p name A).1 (spec_create node p name A).2.
Proof.
  intros Hf Hroom Hnew Htype Hadm Hnode Htn.
  assert ((exists links, fs_nodes A !! p = Some (DirectoryNode links))
    \/ ~ exists links, fs_nodes A !! p = Some (DirectoryNode links)) as [[links Ep]|Hnot].
  { destruct (fs_nodes A !! p) as [[links|]|]; [left; by eexists|right; by intros [? [=]]..]. }
  2: { destruct (create_bad_parent v m s A new_inode type node p name) as (r & -> & ->); [done..| |by eapply moves_within_same].
       intros links Hl. apply Hnot. by exists links. }
  destruct Hadm as (Hp & Hstr & Hcount). destruct Hf as [Hv Hview]. pose proof Hview as [Hc Hnodes Hnames Hnamed Huniq _].
  unfold spec_create. pose proof (Hnodes p Hp) as Hpar. rewrite Ep in *. destruct Hpar as (inode & [Hi Hnum Ht _ _ _]).
  pose proof (volume_create_entry_correct new_inode type v m s p inode name Hv Hroom Hnew Htype Hstr Hp Hi) as Hcr.
  rewrite Hc in Hcr. specialize (Hcr Hcount). cbv zeta in Hcr. rewrite Ht in Hcr. destruct Hcr as (v' & M & Cv' & Hcr). pose proof (vm_step _ _ _ M) as S.
  set (n := fs_count A + 1) in *. set (ino := new_inode n (next_transaction_id v) 0) in *.
  assert (1 < n < 2 ^ 64) as Hn by (pose proof (vr_root _ _ _ Hv); unfold n; lia).
  assert (fs_view v' (with_inode m ino) s (fs_add_node A node)) as Hadd.
  { eapply fs_view_add_node; [exact Hview|exact S|apply Hnew|exact Cv'|]. apply Hnode; [lia|apply Hv|].
    intros k bytes Hk%(vr_numbers _ _ _ Hv). unfold n. lia. }
  assert (forall x, fs_names A !! x <> Some n) as Hfresh.
  { intros [x1 x2] Hx%Hnamed. unfold n in Hx. lia. }
  pose proof (Hnames p name) as Hlook.
  destruct (decide (1 <= len name <= 255)) as [Hlen|Hlen].
  2: { destruct Hcr as [-> Hv']. exists v', (with_inode m ino), s. split; [done|]. by split; [split|exact M]. }
  destruct (dir_lookup m p name) as [e|]; rewrite <- Hlook; destruct Hcr as [-> Hv'].
  { exists v', (with_inode m ino), s. split; [done|]. by split; [split|exact M]. }
  exists v', (with_entry (with_inode m ino) p (new_entry name n type)), s. split; [done|]. split; [|exact M].
  split; [done|]. eapply fs_view_add_name; [exact Hadd|apply vol_step_refl|done| |simpl; lia| | |done].
  - apply new_entry_ok; try done. split; unfold u64_max; lia.
  - exists node. apply lookup_insert_eq.
  - simpl. by rewrite lookup_insert_eq.
Qed.

(** *** Writing *)

Lemma block_count_for_len data : 0 < len data -> 0 < block_count_for data <= len data.
Proof. intros Hd. pose proof (block_count_for_bounds data). lia. Qed.

(** The requests that change nothing: no data, no such file, no room. *)
Lemma volume_write_empty v n off data : len data = 0 -> volume_write_file_data n off data v = (v, Ok 0).
Proof. intros Hd. unfold volume_write_file_data. by rewrite Hd. Qed.

Lemma volume_write_missing v m s n off data :
  vol_rep v m s -> 1 <= n < 2 ^ 64 -> 0 < len data -> m !! inode_key n = None ->
  volume_write_file_data n off data v = (v, Err NotFound).
Proof.
  intros Hv Hn Hd Hm. unfold volume_write_file_data. destruct (Z.eqb_spec (len data) 0); [lia|].
  rewrite st_bind_get. by rewrite (volume_read_inode_missing v m s n Hv Hn Hm).
Qed.

Lemma volume_write_not_file v m s n off data inode :
  vol_rep v m s -> 1 <= n < 2 ^ 64 -> 0 < len data -> inode_at m n inode -> is_regular_file inode = false ->
  volume_write_file_data n off data v = (v, Err NotARegularFile).
Proof.
  intros Hv Hn Hd Hi Ht. unfold volume_write_file_data. destruct (Z.eqb_spec (len data) 0); [lia|].
  rewrite st_bind_get, (st_bind_lift _ _ _ inode) by by eapply volume_read_inode_correct. by rewrite Ht.
Qed.

Lemma volume_write_full v m s n off data inode :
  vol_rep v m s -> 1 <= n < 2 ^ 64 -> 0 < len data -> inode_at m n inode -> is_regular_file inode = true ->
  vol_next_free_block v + block_count_for data < 2 ^ 64 ->
  sb_total_block_count (superblock v) < vol_next_free_block v + block_count_for data ->
  volume_write_file_data n off data v = (v, Err OutOfSpace).
Proof.
  intros Hv Hn Hd Hi Ht Hw Hfull. unfold volume_write_file_data. destruct (Z.eqb_spec (len data) 0); [lia|].
  rewrite st_bind_get, (st_bind_lift _ _ _ inode) by by eapply volume_read_inode_correct. rewrite Ht. cbn [negb].
  pose proof (block_count_for_len data Hd). apply st_bind_Err. unfold allocate_and_write_data_blocks. rewrite st_bind_get.
  destruct (Z.eqb_spec (block_count_for data) 0); [lia|]. pose proof (vr_boundary _ _ _ Hv).
  rewrite (st_bind_lift _ _ _ (vol_next_free_block v + block_count_for data)) by (apply checked_add_Ok; lia).
  by destruct (Z.ltb_spec (sb_total_block_count (superblock v)) (vol_next_free_block v + block_count_for data)); [|lia].
Qed.

(** Replacing the contents of a file. *)
Lemma fs_view_set_file v v' k m s m' s' A n f :
  fs_view v m s A -> vol_step v v' k -> sb_allocated_inode_count (superblock v') = sb_allocated_inode_count (superblock v) ->
  (forall n', n' <> n -> same_object m m' n') -> (forall p name, dir_lookup m' p name = dir_lookup m p name) ->
  (forall a, a < vol_next_free_block v -> s' !! checksum_key a = s !! checksum_key a) ->
  node_rep v' m' s' n (Some (FileNode f)) -> node_type (fs_nodes A !! n) = CHILD_TYPE_REGULAR_FILE ->
  fs_view v' m' s' (fs_set_node A n (FileNode f)).
Proof.
  intros [Hc Hnodes Hnames Hnamed Huniq Htypes] S Hcount Hm Hd Hs Hnode Htype. split; simpl; try done; [congruence| | | |].
  - intros n' Hn'. destruct (decide (n' = n)) as [->|Hne]; [by rewrite lookup_insert_eq|].
    rewrite lookup_insert_ne by done. eapply node_rep_step; [by apply Hnodes|exact S|by apply Hm|exact Hs].
  - intros p name. rewrite Hd. apply Hnames.
  - intros p name n' Hn'. apply Hnamed in Hn' as [? Hn']. split; [done|]. by apply lookup_insert_is_Some'; right.
  - intros p name e. rewrite Hd. intros He. apply Htypes in He as ->. destruct (decide (child_inode_number e = n)) as [->|Hne].
    + by rewrite lookup_insert_eq, Htype.
    + by rewrite lookup_insert_ne.
Qed.

Lemma file_node_write v m s n f inode es off data :
  let nb := block_count_for data in
  let a := vol_next_free_block v in
  vol_rep v m s -> file_node v m s n f inode es -> 1 <= n < 2 ^ 64 -> bytes_ok data -> 0 < len data -> 0 <= off ->
  off + 4096 * nb < 2 ^ 64 -> file_blocks f + nb < 2 ^ 64 -> a + nb <= sb_total_block_count (superblock v) ->
  vol_room v (2 * nb + 3) ->
  exists v' m' s', volume_write_file_data n off data v = (v', Ok (len data)) /\ vol_rep v' m' s' /\ vol_moved v v' (2 * nb + 3)
    /\ node_rep v' m' s' n (Some (FileNode (file_write off data f)))
    /\ sb_allocated_inode_count (superblock v') = sb_allocated_inode_count (superblock v)
    /\ (forall n', n' <> n -> same_object m m' n') /\ (forall p name, dir_lookup m' p name = dir_lookup m p name)
    /\ (forall x, x < a -> s' !! checksum_key x = s !! checksum_key x).
Proof.
  intros nb a Hv [Hi Hnum Ht Hl Hsz Ha Hf] Hn Hok Hdata Hoff Hmax Hblocks Hfit Hroom.
  destruct (volume_write_correct v m s n inode off data Hv Hn Hi Hnum Ht Hoff Hmax Hok Hdata Hfit ltac:(by rewrite Ha) Hroom)
    as (v' & E & Hv' & M & Hnext & Hiw & Hcache & Hcount). fold nb a in Hv', M, Hnext.
  set (inode' := inode_set_data _ _ _ _) in *. pose proof (vr_boundary _ _ _ Hv) as Hb. pose proof (wf_total _ (vr_wf _ _ _ Hv)) as Hu.
  eexists v', _, _. split; [exact E|]. split; [exact Hv'|]. split; [exact M|]. split; [|split; [exact Hcount|split; [|split]]].
  - exists inode', (put_extent (new_extent off a nb) es). split; try done.
    + rewrite <- Hnum. by apply (inode_at_insert_eq _ inode').
    + simpl. by rewrite Hsz.
    + simpl. by rewrite Ha.
    + eapply file_rep_write; try done; [apply M|]. unfold is_u64, u64_max in Hu. fold a nb. lia.
  - intros n' Hne. eapply same_object_trans; [by apply same_object_extent_ne|]. apply same_object_inode_ne. simpl. congruence.
  - intros p name. unfold with_inode. rewrite dir_lookup_insert_inode. unfold with_extent. by rewrite dir_lookup_insert_ne.
  - intros x Hx. apply with_sums_other. intros (w & -> & Hw%data_chunks_spec)%list_elem_of_fmap. fold a in Hw. lia.
Qed.

(** A write of [data] to file [n], with contents [f], that fits its integers and the
    volume. *)
Record write_ready v (A : fs) (n : Z) (f : file) (off : Z) (data : list Z) : Prop := {
  wr_number : 1 <= n < 2 ^ 64;
  wr_node : fs_nodes A !! n = Some (FileNode f);
  wr_bytes : bytes_ok data;
  wr_data : 0 < len data;
  wr_offset : 0 <= off;
  wr_end : off + 4096 * block_count_for data < 2 ^ 64;
  wr_blocks : file_blocks f + block_count_for data < 2 ^ 64;
  wr_fits : vol_next_free_block v + block_count_for data <= sb_total_block_count (superblock v);
  wr_room : vol_room v (2 * block_count_for data + 3);
}.

Lemma write_outcome v m s A n f off data :
  fs_rep v m s A -> write_ready v A n f off data ->
  exists v' m' s', volume_write_file_data n off data v = (v', Ok (len data))
    /\ fs_rep v' m' s' (fs_set_node A n (FileNode (file_write off data f))) /\ vol_moved v v' (2 * block_count_for data + 3).
Proof.
  intros [Hv Hview] [Hn Hnode Hok Hd Hoff Hmax Hbl Hfit Hroom]. pose proof (fsr_nodes _ _ _ _ Hview n Hn) as Hrep.
  rewrite Hnode in Hrep. destruct Hrep as (inode & es & Hfile).
  destruct (file_node_write v m s n f inode es off data) as (v' & m' & s' & E & Hv' & M & Hnew & C & Hm & Hdir & Hs); try done.
  exists v', m', s'. split; [done|]. split; [|exact M]. split; [exact Hv'|].
  eapply fs_view_set_file; [exact Hview|exact (vm_step _ _ _ M)|exact C|exact Hm|exact Hdir|exact Hs|exact Hnew|by rewrite Hnode].
Qed.

Lemma fs_rep_write v m s A n off data :
  let q := WriteFile n off data in
  fs_rep v m s A -> vol_room v (2 * block_count_for data + 3) -> admissible A q ->
  moves_within v (2 * block_count_for data + 3) (let '(v, r) := volume_write_file_data n off data v in (v, map_reply Number r))
    (answers (no_room v q) A q).1 (answers (no_room v q) A q).2.
Proof.
  intros q Hf Hroom (Hn & Hok & Hoff & Hmax & Hadm). pose proof Hf as [Hv Hview].
  assert (0 <= 2 * block_count_for data + 3) as Hk by (pose proof (block_count_for_bounds data); lia).
  unfold answers, q. cbn [no_room stores spec]. unfold spec_write.
  destruct (Z.eqb_spec (len data) 0) as [Hz|Hz]; cbn [negb andb].
  { rewrite volume_write_empty, andb_false_r by done. by eapply moves_within_same. }
  assert (0 < len data) as Hdata by lia. pose proof (fsr_nodes _ _ _ _ Hview n Hn) as Hnode.
  destruct (fs_nodes A !! n) as [[links|f]|] eqn:Enode; rewrite ?andb_false_r, ?andb_true_r.
  - destruct Hnode as (inode & [Hi _ Ht _ _ _]). rewrite (volume_write_not_file v m s n off data inode); try done.
    + by eapply moves_within_same.
    + unfold is_directory, is_regular_file in *. apply Z.eqb_eq in Ht. by rewrite Ht.
  - specialize (Hadm f eq_refl).
    destruct (Z.ltb_spec (sb_total_block_count (superblock v)) (vol_next_free_block v + block_count_for data)) as [Hfit|Hfit].
    + destruct Hnode as (inode & es & Hfile).
      rewrite (volume_write_full v m s n _ data inode); try done; try apply Hfile; [by eapply moves_within_same|].
      pose proof (block_count_for_len data Hdata) as Hnb. destruct Hroom as [Hroom1 Hroom2]. pose proof (vr_boundary _ _ _ Hv) as Hb.
      pose proof (OP_BLOCKS_bound (sb_next_cow_block_address (superblock v)) ltac:(lia)) as Hop.
      unfold INSERT_BLOCKS in Hop. set (op := OP_BLOCKS _) in *. nia.
    + destruct (write_outcome v m s A n f off data Hf) as (v' & m' & s' & E & Hf' & M); [by constructor|].
      rewrite E. by exists v', m', s'.
  - rewrite (volume_write_missing v m s n off data); try done. by eapply moves_within_same.
Qed.

(** *** Reading *)

Lemma read_outcome v m s A n f off buf :
  fs_rep v m s A -> 1 <= n < 2 ^ 64 -> fs_nodes A !! n = Some (FileNode f) -> 0 <= off ->
  reads_into f off (Z.max 0 (Z.min (len buf) (file_size f - off))) buf (volume_read_file_data v n off buf).
Proof.
  intros [Hv Hview] Hn Hnode Hoff. pose proof (fsr_nodes _ _ _ _ Hview n Hn) as Hrep. rewrite Hnode in Hrep.
  destruct Hrep as (inode & es & [Hi Hnum Ht Hl Hsz Ha Hfile]). by eapply volume_read_correct.
Qed.

(** The segments of a file are ordered. *)
Lemma node_ordered v m s A n f :
  fs_rep v m s A -> 1 <= n < 2 ^ 64 -> fs_nodes A !! n = Some (FileNode f) -> ordered (file_segments f).
Proof.
  intros [_ Hview] Hn Hnode. pose proof (fsr_nodes _ _ _ _ Hview n Hn) as Hrep. rewrite Hnode in Hrep.
  destruct Hrep as (inode & es & Hfile). apply (fn_file _ _ _ _ _ _ _ Hfile).
Qed.

(** A read that fills its buffer, and one that fails. *)
Lemma read_fills v m s A n f off count text :
  fs_rep v m s A -> 1 <= n < 2 ^ 64 -> fs_nodes A !! n = Some (FileNode f) -> 0 <= off -> 0 <= count ->
  off + count <= file_size f -> file_read f off count = Some text ->
  volume_read_file_data v n off (zeros count) = (text, Ok count).
Proof.
  intros Hf Hn Hnode Hoff Hc Hle Hread. pose proof (read_outcome v m s A n f off (zeros count) Hf Hn Hnode Hoff) as Ho.
  unfold reads_into in Ho. rewrite length_zeros, Z2Nat.id in Ho by lia. replace (Z.max _ _) with count in Ho by lia.
  rewrite Hread in Ho. apply file_read_length in Hread; [|done]. rewrite Ho, drop_ge by (rewrite length_zeros; lia).
  by rewrite app_nil_r.
Qed.

Lemma read_filled v m s A n f off count text :
  fs_rep v m s A -> 1 <= n < 2 ^ 64 -> fs_nodes A !! n = Some (FileNode f) -> 0 <= off -> 0 < count ->
  volume_read_file_data v n off (zeros count) = (text, Ok count) -> off + count <= file_size f /\ file_read f off count = Some text.
Proof.
  intros Hf Hn Hnode Hoff Hc Hread. pose proof (read_outcome v m s A n f off (zeros count) Hf Hn Hnode Hoff) as Ho.
  unfold reads_into in Ho. rewrite length_zeros, Z2Nat.id, Hread in Ho by lia. set (N := Z.max _ _) in *.
  destruct (file_read f off N) as [text'|] eqn:E; [|done]. injection Ho as Ht HN. split; [lia|]. rewrite HN, E.
  pose proof (file_read_length f off N text' ltac:(lia) E). rewrite drop_ge, app_nil_r in Ht by (rewrite length_zeros; lia). by rewrite Ht.
Qed.

Lemma read_fails v m s A n f off buf :
  fs_rep v m s A -> 1 <= n < 2 ^ 64 -> fs_nodes A !! n = Some (FileNode f) -> 0 <= off < file_size f -> 0 < len buf ->
  byte_at (file_segments f) off = None -> (volume_read_file_data v n off buf).2 = Err CorruptedStructure.
Proof.
  intros Hf Hn Hnode Hoff Hbuf Hb. pose proof (read_outcome v m s A n f off buf Hf Hn Hnode ltac:(lia)) as Ho.
  unfold reads_into in Ho. by rewrite (file_read_None f off _ off) in Ho by (done || lia).
Qed.

Lemma fs_rep_read v m s A n off count :
  fs_rep v m s A -> admissible A (ReadFile n off count) ->
  moves_to v (execute (ReadFile n off count) v) (spec_read n off count A).1 (spec_read n off count A).2.
Proof.
  intros Hf (Hn & Hoff & Hcount). pose proof Hf as [Hv Hview]. cbn [execute]. unfold spec_read.
  pose proof (fsr_nodes _ _ _ _ Hview n Hn) as Hnode.
  destruct (Z.eqb_spec count 0) as [->|Hz].
  { by eapply (moves_to_same v m s A). }
  assert ((len (zeros count) =? 0) = false) as Hne by (apply Z.eqb_neq; rewrite length_zeros; lia).
  destruct (fs_nodes A !! n) as [[links|f]|] eqn:Enode.
  - destruct Hnode as (inode & [Hi _ Ht _ _ _]). unfold volume_read_file_data. rewrite st_bind_get, Hne.
    rewrite (st_bind_lift _ _ _ inode) by by eapply volume_read_inode_correct.
    assert (is_regular_file inode = false) as ->; [|by eapply moves_to_same].
    unfold is_directory, is_regular_file in *. apply Z.eqb_eq in Ht. by rewrite Ht.
  - pose proof (read_outcome v m s A n f off (zeros count) Hf Hn Enode Hoff) as Hread.
    unfold reads_into in Hread. rewrite length_zeros, Z2Nat.id in Hread by lia. rewrite file_read_max in Hread.
    destruct (file_read f off (Z.min count (file_size f - off))) as [text|] eqn:Etext.
    + apply file_read_Some in Etext as [Hlen _]. rewrite Hread. cbn [map_reply obind]. rewrite take_app_le, take_ge by lia.
      by eapply moves_to_same.
    + destruct (volume_read_file_data v n off (zeros count)) as [buffer r]. simpl in Hread. subst r. by eapply moves_to_same.
  - unfold volume_read_file_data. rewrite st_bind_get, Hne. rewrite (volume_read_inode_missing v m s n Hv Hn Hnode).
    by eapply moves_to_same.
Qed.

Lemma fs_rep_lookup v m s A p name :
  fs_rep v m s A -> admissible A (Lookup p name) ->
  moves_to v (execute (Lookup p name) v) (spec_lookup p name A).1 (spec_lookup p name A).2.
Proof.
  intros Hf Hp. pose proof Hf as [Hv Hview]. cbn [execute admissible] in *. unfold spec_lookup.
  pose proof (fsr_nodes _ _ _ _ Hview p Hp) as Hnode. destruct (fs_nodes A !! p) as [[links|bytes]|].
  - destruct Hnode as (inode & [Hi _ Ht _ _ _]). rewrite (volume_lookup_correct v m s p inode name Hv Hp Hi), Ht.
    rewrite <- (fsr_names _ _ _ _ Hview). by eapply moves_to_same.
  - destruct Hnode as (inode & es & [Hi _ Ht _ _ _ _]). rewrite (volume_lookup_correct v m s p inode name Hv Hp Hi).
    assert (is_directory inode = false) as ->; [|by eapply moves_to_same].
    unfold is_directory, is_regular_file in *. apply Z.eqb_eq in Ht. by rewrite Ht.
  - unfold volume_lookup_directory_entry. rewrite (volume_read_inode_missing v m s p Hv Hp Hnode). by eapply moves_to_same.
Qed.

(** *** Unlinking *)

Lemma dir_lookup_unlinked m p name inode p' name' e :
  dir_wf m -> dir_lookup m p name = Some e ->
  dir_lookup (unlinked m p name inode) p' name'
  = if decide ((p', name') = (p, name)) then None else dir_lookup m p' name'.
Proof.
  intros Hwf He.
  assert (unlinked m p name inode !! make_directory_entry_key p' name'
    = delete (make_directory_entry_key p name) m !! make_directory_entry_key p' name') as Hk.
  { unfold unlinked. destruct (hard_link_count inode <=? 1).
    - rewrite lookup_delete_ne by done. unfold without_extents. apply option_eq. intros x.
      rewrite map_lookup_filter_Some. split; [tauto|]. intros Hx. split; [done|]. by intros [_ Hx2].
    - unfold with_inode. by rewrite lookup_insert_ne. }
  unfold dir_lookup at 1. rewrite Hk. fold (dir_lookup (delete (make_directory_entry_key p name) m) p' name').
  destruct (decide ((p', name') = (p, name))) as [[= -> ->]|Hne]; [apply dir_lookup_delete_eq|].
  destruct (decide (make_directory_entry_key p name = make_directory_entry_key p' name')) as [Ek|Ek];
    [|by apply dir_lookup_delete_ne].
  unfold dir_lookup at 1. rewrite <- Ek, lookup_delete_eq. destruct (dir_lookup m p' name') as [e'|] eqn:E'; [|done].
  apply (dir_lookup_Some _ _ _ _ Hwf) in He as (Hm & He & Hn). apply (dir_lookup_Some _ _ _ _ Hwf) in E' as (Hm' & He' & Hn').
  rewrite <- Ek, Hm in Hm'. apply Some_inj in Hm' as Hs. exfalso. apply Hne. injection Ek as -> _. f_equal.
  apply (f_equal deserialise_dir_entry_from_bytes) in Hs. rewrite !deserialise_serialise_entry in Hs by done. congruence.
Qed.

Lemma volume_unlink_missing v m s p name :
  vol_rep v m s -> 1 <= p < 2 ^ 64 -> dir_lookup m p name = None ->
  volume_unlink_directory_entry p name v = (v, Err NotFound).
Proof.
  intros Hv Hp Hd. unfold volume_unlink_directory_entry. rewrite st_bind_get.
  destruct (vr_inodes _ _ _ Hv) as (fp & Hr & _). change (dirty_block_cache v) with (dirty_cache (vol_cow v [])).
  by rewrite (directory_lookup_correct (device v) (vol_cow v []) _ m fp p name Hr (vol_room_0 _ _ _ [] Hv)
    (vr_dirs _ _ _ Hv) Hp), Hd.
Qed.

(** The number of extents and of blocks of a node, within its cost. *)
Lemma node_extents v m s A n p name :
  fs_rep v m s A -> 1 < n < 2 ^ 64 -> fs_names A !! (p, name) = Some n -> is_Some (fs_nodes A !! n) ->
  exists inode, inode_at m n inode /\ inode_number inode = n
    /\ hard_link_count inode = match fs_nodes A !! n with Some (DirectoryNode links) => links | _ => 1 end
    /\ 0 <= allocated_block_count inode
    /\ UNLINK_UPDATES (Z.of_nat (size (extents_of m n))) + allocated_block_count inode <= cost A (Unlink p name).
Proof.
  intros [Hv [Hc Hnodes _ _ _ _]] Hn Hname [node Hnode]. specialize (Hnodes n ltac:(lia)). cbn [cost].
  rewrite Hname, Hnode in *. destruct node as [links|bytes]; simpl in Hnodes.
  - destruct Hnodes as (inode & [Hi Hnum Ht Hl Ha He]). exists inode. do 3 (split; [done|]). rewrite Ha. split; [done|].
    assert (extents_of m n = ∅) as ->; [|done]. apply map_empty. intros k. apply eq_None_not_Some.
    intros [x Hx]. apply map_lookup_filter_Some in Hx as [Hk [Ho Ht']]. simpl in *. by rewrite (He k Ho Ht') in Hk.
  - destruct Hnodes as (inode & es & [Hi Hnum Ht Hl Hsz Ha Hf]). exists inode. do 3 (split; [done|]).
    pose proof (iwf_blocks _ (proj2 Hi)) as Hu. split; [ilia|].
    rewrite <- (extent_range_length _ _ _ _ (vr_extents _ _ _ Hv) (fr_items _ _ _ _ _ _ Hf)), length_fmap, Ha.
    by rewrite (Forall2_length _ _ _ (fr_extents _ _ _ _ _ _ Hf)).
Qed.

Lemma node_rep_unlinked v v' m s p name n node inode :
  node_rep v m s n node -> inode_at m n inode -> inode_number inode = n ->
  hard_link_count inode = match node with Some (DirectoryNode links) => links | _ => 1 end ->
  node_rep v' (unlinked m p name inode) s n (unlinked_node node).
Proof.
  intros Hnode Hi Hnum Hlinks.
  assert (hard_link_count inode <= 1 -> node_rep v' (unlinked m p name inode) s n None) as Hgone.
  { intros Hle. simpl. unfold unlinked. destruct (Z.leb_spec (hard_link_count inode) 1); [|lia]. rewrite Hnum. apply lookup_delete_eq. }
  destruct node as [[links|bytes]|]; cbn [unlinked_node]; try (apply Hgone; lia).
  destruct (Z.leb_spec links 1) as [Hle|Hgt]; [apply Hgone; lia|]. destruct Hnode as (ino & [Hi2 Hnum2 Ht Hl Ha Hx]).
  rewrite (inode_at_unique _ _ _ _ Hi2 Hi) in *. clear ino Hi2. exists (inode_set_links inode (links - 1)).
  unfold unlinked. destruct (Z.leb_spec (hard_link_count inode) 1); [lia|]. rewrite Hlinks. destruct Hi as [_ Hw].
  pose proof (iwf_links _ Hw) as Hu. split; try done.
  - split; [|apply inode_set_links_wf; [done|unfold is_u32 in *; lia]]. unfold with_inode. simpl. rewrite Hnum. apply lookup_insert_eq.
  - intros k Ho Htk. unfold with_inode. rewrite lookup_insert_ne by (intros <-; done).
    rewrite lookup_delete_ne by (intros <-; done). by apply Hx.
Qed.

Lemma fs_view_unlink v v' k m s A p name n inode e :
  vol_rep v m s -> fs_view v m s A -> vol_step v v' k ->
  sb_allocated_inode_count (superblock v') = sb_allocated_inode_count (superblock v) ->
  dir_lookup m p name = Some e -> child_inode_number e = n -> 1 < n < 2 ^ 64 ->
  inode_at m n inode -> inode_number inode = n ->
  hard_link_count inode = match fs_nodes A !! n with Some (DirectoryNode links) => links | _ => 1 end ->
  fs_view v' (unlinked m p name inode) s (spec_unlink p name A).1.
Proof.
  intros Hv [Hc Hnodes Hnames Hnamed Huniq Htypes] S C He Hen Hn Hi Hnum Hlinks. pose proof (Hnames p name) as Hname.
  rewrite He in Hname. simpl in Hname. rewrite Hen in Hname. unfold spec_unlink. rewrite <- Hname. split; simpl.
  - congruence.
  - intros n' Hn'. destruct (decide (n' = n)) as [->|Hne].
    + rewrite lookup_partial_alter_eq. eapply node_rep_unlinked; [by apply Hnodes|done..].
    + assert (forall o, node_rep v m s n' o -> node_rep v' (unlinked m p name inode) s n' o) as Hframe.
      { intros o Ho. eapply node_rep_step; [exact Ho|exact S|apply same_object_unlinked; congruence|done]. }
      rewrite lookup_partial_alter_ne by done. by apply Hframe, Hnodes.
  - intros p' name'. rewrite (dir_lookup_unlinked m p name inode p' name' e (vr_dirs _ _ _ Hv) He).
    destruct (decide ((p', name') = (p, name))) as [->|Hne]; [by rewrite lookup_delete_eq|].
    rewrite lookup_delete_ne by done. apply Hnames.
  - intros p' name' n' [Hne Hn']%lookup_delete_Some. destruct (Hnamed _ _ _ Hn') as [? Hnode]. split; [done|].
    assert (n' <> n) as Hnn by (intros ->; apply Hne; by eapply Huniq).
    by rewrite lookup_partial_alter_ne.
  - intros x y n' [_ Hx]%lookup_delete_Some [_ Hy]%lookup_delete_Some. by eapply Huniq.
  - intros p' name' e'. rewrite (dir_lookup_unlinked m p name inode p' name' e (vr_dirs _ _ _ Hv) He).
    destruct (decide ((p', name') = (p, name))) as [|Hne]; [done|]. intros He'. pose proof (Hnames p' name') as Hn'.
    rewrite He' in Hn'. assert (child_inode_number e' <> n) as Hnn by (intros E; apply Hne; eapply Huniq; [|done]; simpl in Hn'; congruence).
    rewrite lookup_partial_alter_ne by done. by apply Htypes in He'.
Qed.

Lemma fs_rep_unlink v m s A p name :
  fs_rep v m s A -> vol_room v (cost A (Unlink p name)) -> admissible A (Unlink p name) ->
  moves_to v (execute (Unlink p name) v) (spec_unlink p name A).1 (spec_unlink p name A).2.
Proof.
  intros Hf [Hroom1 Hroom2] Hp. pose proof Hf as [Hv Hview]. cbn [execute admissible] in *.
  pose proof (fsr_names _ _ _ _ Hview p name) as Hname. destruct (dir_lookup m p name) as [e|] eqn:He; simpl in Hname.
  2: { unfold spec_unlink. rewrite <- Hname, (volume_unlink_missing v m s p name Hv Hp He). by eapply moves_to_same. }
  set (n := child_inode_number e) in *. symmetry in Hname. destruct (fsr_named _ _ _ _ Hview _ _ _ Hname) as [Hn Hnode].
  rewrite <- (fsr_count _ _ _ _ Hview) in Hn. pose proof (wf_inodes _ (vr_wf _ _ _ Hv)) as Hu. unfold is_u64, u64_max in Hu.
  destruct (node_extents v m s A n p name Hf ltac:(lia) Hname Hnode) as (inode & Hi & Hnum & Hlinks & Ha & Hcost).
  pose proof (vr_boundary _ _ _ Hv) as Hb.
  pose proof (OP_BLOCKS_bound (sb_next_cow_block_address (superblock v)) ltac:(lia)) as Hop. unfold INSERT_BLOCKS in Hop.
  set (op := OP_BLOCKS (sb_next_cow_block_address (superblock v))) in *.
  destruct (volume_unlink_correct v m s p name e inode Hv Hp He) as (v' & E & Hv' & S & C);
    rewrite ?Hnum; try done; try lia; fold op; [nia|nia|].
  rewrite E. exists v', (unlinked m p name inode), s. eexists. split; [|split; [split; [exact Hv'|]|exact S]].
  - unfold spec_unlink. by rewrite Hname.
  - apply (fs_view_unlink v v' _ m s A p name n inode e Hv Hview S C He eq_refl); [lia|done..].
Qed.

(** *** Every request *)

Lemma execute_refines v m s A q k :
  fs_rep v m s A -> admissible A q -> cost A q <= k -> vol_room v k ->
  moves_to v (execute q v) (answers (no_room v q) A q).1 (answers (no_room v q) A q).2.
Proof.
  intros Hf Hadm Hcost Hroom. pose proof (vol_room_cost _ _ _ _ _ (proj1 Hf) Hcost Hroom) as Hr. clear Hroom.
  destruct q as [p name|p name|n off data|n off count|p name|p name].
  - by eapply moves_within_to, (fs_rep_create v m s); try done; [apply new_regular_file_fresh|apply file_node_new].
  - eapply moves_within_to, (fs_rep_create v m s); try done; [apply new_directory_fresh|apply directory_node_new].
  - by eapply moves_within_to, fs_rep_write.
  - by eapply fs_rep_read.
  - by eapply fs_rep_lookup.
  - by eapply fs_rep_unlink.
Qed.
End refine.

(** ** Reloading *)

Section reload.
Context `{BlockDeviceLaws D} `{!TreeStore D}.
Implicit Types v : BafsVolume D.

Lemma fs_rep_reload v d' sb' m s A : fs_rep v m s A -> reloads v d' sb' -> fs_rep (mounted d' sb') m s A.
Proof.
  intros [Hv [Hc Hnodes Hnames Hnamed Huniq Htypes]] Hrl. split; [by eapply vol_rep_reload|].
  pose proof (rl_volume _ _ _ Hrl) as (_ & Eic & _). split; try done; [by rewrite <- Hc|].
  intros n Hn. specialize (Hnodes n Hn). destruct (fs_nodes A !! n) as [[links|bytes]|]; [done| |done].
  destruct Hnodes as (inode & es & [Hi Hnum Ht Hl Hsz Ha Hf]). exists inode, es. split; try done. by eapply file_rep_reload.
Qed.

(** The boundary of the superblock in memory does not matter. *)
Lemma fs_rep_refused v m s A : fs_rep v m s A -> fs_rep (refused v) m s A.
Proof.
  intros [Hv [Hc Hnodes Hnames Hnamed Huniq Htypes]]. split.
  - pose proof (vr_boundary _ _ _ Hv) as Hb. destruct Hv. split; try done.
    + change (data_start (superblock (refused v))) with (data_start (superblock v)). simpl. lia.
    + destruct vr_wf. apply sb_wf_with; try done. split; unfold u64_max; lia.
  - split; try done. intros n Hn. specialize (Hnodes n Hn). destruct (fs_nodes A !! n) as [[links|bytes]|]; [done| |done].
    destruct Hnodes as (inode & es & [Hi Hnum Ht Hl Hsz Ha [Hit Hord Hext]]). exists inode, es. split; try done. split; try done.
    eapply Forall2_impl; [exact Hext|]. intros seg e [Hw Ho Hcnt Hlen Hend Hbl]. split; try done. intros j Hj.
    destruct (Hbl j Hj) as [Hra [Hrd Hblk Hok Hs]]. by split.
Qed.

Lemma grown_refused (v0 v : BafsVolume D) : grown v0 v -> grown v0 (refused v).
Proof.
  intros [Hd Hi X (fc & ic & ir & fr & cr & nc & Hsb)]. split; [done..|]. simpl. rewrite Hsb. by eexists _, _, _, _, _, _.
Qed.

(** The volume on another device. *)
Definition set_device v (d : D) : BafsVolume D :=
  {| device := d; superblock := superblock v; dirty_block_cache := dirty_block_cache v;
     next_transaction_id := next_transaction_id v; vol_next_free_block := vol_next_free_block v |}.

(** [d] shows the blocks of [v] that its cache does not hold. *)
Definition shows_blocks v (d : D) : Prop :=
  forall a, data_start (superblock v) <= a < vol_next_free_block v ->
    read_block d (dirty_block_cache v) a = read_block (device v) (dirty_block_cache v) a.

Lemma shows_blocks_image v (d : D) :
  0 <= data_start (superblock v) -> readable (device v) -> readable d -> length (content d) = length (content (device v)) ->
  vol_next_free_block v * 4096 <= len (content (device v)) ->
  (forall a, data_start (superblock v) <= a -> dirty_block_cache v !! a = None -> image d a = image (device v) a) ->
  shows_blocks v d.
Proof.
  intros Hds Hr Hr' Hl Hdev Himg a Ha. unfold read_block. destruct (dirty_block_cache v !! a) eqn:E; [done|].
  assert (on_device (device v) a) as Hon by (split; lia). rewrite (Hr _ Hon), Hr' by by eapply on_device_length.
  rewrite Himg; [done|lia|done].
Qed.

Lemma fs_rep_device v d m s A : fs_rep v m s A -> shows_blocks v d -> fs_rep (set_device v d) m s A.
Proof.
  intros [Hv [Hc Hnodes Hnames Hnamed Huniq Htypes]] Hsame. pose proof (vr_boundary _ _ _ Hv) as Hb.
  assert (forall K root m, tree_in v K root m -> tree_in (set_device v d) K root m) as Htree.
  { intros K root m' (fp & Ht & Hfp). exists fp. split; [|done]. destruct (tree_blocks _ _ _ _ _ _ Ht) as [_ Hbl].
    eapply tree_frame; [exact Ht| |simpl; lia]. intros x Hx. rewrite Forall_forall in Hbl, Hfp. specialize (Hbl x Hx). simpl in *.
    apply Hsame. split; [by apply Hfp|lia]. }
  split.
  - destruct Hv. destruct vr_free as (fe & Hfe & Hok). split; try done; [by apply Htree..|]. exists fe. by split; [apply Htree|].
  - split; try done. intros n Hn. specialize (Hnodes n Hn). destruct (fs_nodes A !! n) as [[links|bytes]|]; [done| |done].
    destruct Hnodes as (inode & es & [Hi Hnum Ht Hl Hsz Ha [Hit Hord Hext]]). exists inode, es. split; try done. split; try done.
    eapply Forall2_impl; [exact Hext|]. intros seg e [Hw Ho Hcnt Hlen Hend Hbl]. split; try done. intros j Hj.
    destruct (Hbl j Hj) as [Hra [Hrd Hblk Hok Hs]]. split; [done|]. split; try done. simpl. by rewrite Hsame.
Qed.

(** Another device with the same contents. *)
Lemma fs_rep_same_content v d m s A :
  fs_rep v m s A -> content d = content (device v) -> readable (device v) -> readable d ->
  vol_next_free_block v * 4096 <= len (content (device v)) -> fs_rep (set_device v d) m s A.
Proof.
  intros Hf Hc Hr Hr' Hdev. pose proof (vr_boundary _ _ _ (proj1 Hf)) as Hb. apply fs_rep_device; [done|].
  apply shows_blocks_image; [lia|done|done|by rewrite Hc|done|]. intros a _ _. unfold image. by rewrite Hc.
Qed.
End reload.
