(* ===== verification/Format.v ===== *)
(** * Format: an empty volume

    Trees of a single leaf, and the volume [bafs_format] leaves on a device. *)

From S2P Require Import Prelude Checksum Device Superblock Node NodeCodec BTree BTreeInv BTreeWrite.
From S2P Require Import BTreeInsert BTreeDelete TreeStore Inode Extent FreeSpace ChecksumTree XxHash Dir Journal JournalLaws.
From S2P Require Import Volume FileModel VolumeInv VolumeDirs VolumeUnlink VolumeFiles FileContents VolumeCommit.

(** ** Trees of a single leaf *)

Section single_leaf.
Context {D : Type} `{BlockDevice D} (d : D) (P : BafsKey -> Prop) (lo : option BafsKey).

Definition leaf_tree (c : cow) (a : Z) (items : list BafsLeafItem) : Prop :=
  tree_at P (fun x => read_tree_node d (dirty_cache c) x) 0 2 a lo None items [a] /\ 0 <= a < next_free_block c.

Lemma leaf_tree_extends c c' fr a items : extends c c' fr -> leaf_tree c a items -> leaf_tree c' a items.
Proof.
  intros X [Ht Ha]. split; [|pose proof (ext_next _ _ _ X); lia]. eapply tree_at_frame; [|exact Ht].
  intros x ->%list_elem_of_singleton. unfold read_tree_node, read_block. by rewrite (ext_old _ _ _ X) by lia.
Qed.

Lemma insert_leaf_tree c a items k v g :
  leaf_tree c a items -> P k -> key_wf k -> in_bounds lo None k -> bytes_ok v -> len v <= VALUE_MAX -> is_u64 g ->
  leaf_serialised_size (items_put k v items) <= 4096 -> next_free_block c + 2 < 2 ^ 64 ->
  exists c', insert_into_tree d a k v g c = (c', Ok (next_free_block c)) /\ extends c c' [a]
    /\ next_free_block c' = next_free_block c + 1 /\ leaf_tree c' (next_free_block c) (items_put k v items).
Proof.
  intros [(node & Hrd & Hwf & Hl & Hb & Ems & _ & Hs & Hok) Ha] HP Hk Hkb Hv Hvl Hg Hsz Hn. rewrite Ems in *. clear Ems items.
  set (items := items_put k v (node_leaf_items node)) in *. set (node' := node_set_leaf_items node items (len items)).
  destruct (nwf_leaf _ Hwf Hl) as (Hni & _ & Hw & _).
  pose proof (items_put_sorted k v _ Hs) as Hs'.
  assert (Forall leaf_item_wf items) as Hw' by by apply items_put_Forall.
  assert (Forall (item_ok P lo None) items) as Hok' by by apply items_put_Forall.
  assert (node_wf (node_set_location node' (next_free_block c) g)) as Hwf'
    by (apply leaf_wf_intro; simpl; auto using nwf_flags; split; unfold u64_max; lia).
  destruct (write_cow_clone_extends d node' a g c) as (c' & E & X & N & R); [lia|done|].
  exists c'. split; [|split; [done|split; [done|]]].
  - unfold insert_into_tree. change TREE_FUEL with (S 255).
    assert (insert_recursive 256 d a k v g c = (c', Ok (next_free_block c, None))) as Erec; [|by rewrite (st_bind_Ok _ _ _ _ _ Erec)].
    cbn [insert_recursive]. rewrite st_bind_get, (st_bind_lift _ _ _ node Hrd), Hl.
    change (Z.of_nat 0 =? 0) with true. cbv iota. rewrite (st_bind_lift _ _ _ node') by by apply leaf_put_correct.
    unfold leaf_node_would_overflow. change (node_leaf_items node') with items.
    destruct (Z.ltb_spec 4096 (leaf_serialised_size items)); [lia|]. cbn [negb]. by rewrite (st_bind_Ok _ _ _ _ _ E).
  - split; [|lia]. exact (leaf_at_intro P _ _ (node_set_location node' (next_free_block c) g) lo None 2 R Hwf' Hl Hb Hs' Hok').
Qed.

Lemma delete_leaf_tree c a k v g :
  leaf_tree c a [BafsLeafItem_new k v] -> is_u64 g -> next_free_block c + 2 < 2 ^ 64 ->
  exists c', delete_from_tree d a k g c = (c', Ok (next_free_block c)) /\ extends c c' [a]
    /\ next_free_block c' = next_free_block c + 1 /\ leaf_tree c' (next_free_block c) [].
Proof.
  intros [(node & Hrd & Hwf & Hl & Hb & Ems & _ & Hs & Hok) Ha] Hg Hn. symmetry in Ems.
  rewrite <- Ems in Hs, Hok.
  destruct (delete_leaf_found d P k g Hg node a c lo None 2 [] v []) as (c' & E & X & N & Ht); try done; [lia..|].
  exists c'. split; [|split; [done|split; [done|split; [exact Ht|lia]]]].
  unfold delete_from_tree. change TREE_FUEL with (S 255).
  assert (delete_recursive 256 d a k g c = (c', Ok (next_free_block c, true))) as Erec; [|by rewrite (st_bind_Ok _ _ _ _ _ Erec)].
  cbn [delete_recursive]. rewrite st_bind_get, (st_bind_lift _ _ _ node Hrd), Hl.
  change (Z.of_nat 0 =? 0) with true. cbv iota.
  assert (search_leaf k (node_leaf_items node) = inl 0%nat) as Hfind; [|by rewrite Hfind].
  destruct (search_leaf_spec k _ Hs) as (l1 & l2 & H1 & H2 & [[E' ->]|(w & E' & ->)]); rewrite Ems in E'.
  - exfalso. assert (BafsLeafItem_new k v ∈ l1 ++ l2) as Hin by (rewrite <- E'; left).
    rewrite Forall_forall in H1, H2. apply elem_of_app in Hin as [Hin|Hin]; [specialize (H1 _ Hin)|specialize (H2 _ Hin)];
      simpl in *; by eapply key_lt_irrefl.
  - destruct l1 as [|x l1]; [done|]. apply (f_equal length) in E'. rewrite length_app in E'. simpl in E'. lia.
Qed.

Lemma leaf_tree_rep K c a items :
  tk_keys K = P -> tk_anchor K = lo -> anchored lo items -> leaf_tree c a items ->
  btree_rep K d c a (items_map items) [a].
Proof.
  intros HP Hlo Hanc [Ht Ha]. exists items. rewrite HP, Hlo. split; [|done]. split; [by exists 0%nat|].
  split; [apply NoDup_singleton|]. split; [by apply Forall_singleton|done].
Qed.
End single_leaf.

(** An empty tree, and the trees that were there before. *)
Lemma create_leaf_tree {D : Type} `{BlockDevice D} (d : D) c a g :
  0 <= a < next_free_block c -> next_free_block c < 2 ^ 64 -> is_u64 g -> dirty_cache c !! a = None ->
  exists c', create_empty_tree a g c = (c', Ok tt) /\ next_free_block c' = next_free_block c
    /\ freed_blocks c' = freed_blocks c
    /\ (exists block, dirty_cache c' = <[a := block]> (dirty_cache c) /\ length block = 4096%nat /\ bytes_ok block)
    /\ (forall P lo, leaf_tree d P lo c' a [])
    /\ forall P lo b items, b <> a -> leaf_tree d P lo c b items -> leaf_tree d P lo c' b items.
Proof.
  intros Ha Hn Hg Hnew.
  destruct (create_empty_tree_correct d (fun _ => True) c a g Ha Hn Hg) as (c' & E & N & F & (block & Hc & Hb) & Hr).
  exists c'. do 3 (split; [assumption|]). split; [exists block; exact (conj Hc Hb)|]. split.
  - intros P lo. split; [|lia]. destruct Hr as ((lvl & Ht) & _).
    assert (exists node, read_tree_node d (dirty_cache c') a = Ok node /\ node_wf node /\ node_level node = 0
      /\ node_leaf_items node = []) as (node & Hrd & Hwf & Hl & Hi).
    { unfold create_empty_tree, write_tree_node_to_cache in E. set (n := fresh_node 0 a g [] [] 0) in E.
      assert (node_wf n) as Hwf by (apply leaf_wf_intro; simpl; auto; try ilia; try (split; unfold u64_max; lia); vm_compute; discriminate).
      rewrite (st_bind_lift _ _ _ (node_block n)) in E by by apply serialise_node_layout.
      unfold write_block_to_cache in E. pose proof (length_node_block n Hwf) as Hlen.
      destruct (Z.eqb_spec (len (node_block n)) 4096); [|lia]. injection E as <-.
      exists (node_sealed n). split; [|by split; [apply node_sealed_wf|]].
      unfold read_tree_node, read_block. simpl. rewrite lookup_insert_eq. by apply deserialise_node_layout. }
    exists node. split; [done|]. split; [done|]. split; [done|]. split; [by destruct lo|].
    rewrite Hi. split; [done|]. split; [done|]. split; constructor.
  - intros P lo b items Hne [Ht Hb']. split; [|lia]. eapply tree_at_frame; [|exact Ht].
    intros x ->%list_elem_of_singleton. unfold read_tree_node, read_block. rewrite Hc. by rewrite lookup_insert_ne.
Qed.

(** ** The three trees of a new volume *)

Definition root_item : BafsLeafItem :=
  BafsLeafItem_new root_inode_key (serialise_inode_to_bytes (new_directory BAFS_ROOT_INODE_NUMBER 1 0)).

Definition cache_within (ds : Z) (c : cow) : Prop :=
  forall x block, dirty_cache c !! x = Some block ->
    ds <= x < next_free_block c /\ length block = 4096%nat /\ bytes_ok block.

Lemma cache_within_extends ds c c' fr :
  ds <= next_free_block c -> extends c c' fr -> cache_within ds c -> cache_within ds c'.
Proof.
  intros Hds X Hc x block Hx. pose proof (ext_next _ _ _ X).
  destruct (ext_new _ _ _ X x block Hx) as [Hold|(Hr & ?)]; [|split; [lia|done]].
  apply Hc in Hold as (? & ?). split; [lia|done].
Qed.

Section format_trees.
Context {D : Type} `{BlockDevice D} (d : D) (ds total : Z).
Context (Hds : 0 <= ds) (Htotal : ds + 13 <= total) (Hmax : total < 2 ^ 64).

Definition format_start : cow := {| dirty_cache := ∅; next_free_block := ds + 3; freed_blocks := [] |}.

Lemma create_format_trees P1 lo1 P2 P3 :
  exists c, (let! _ := create_empty_tree ds 1 in
             let! _ := create_empty_tree (ds + 1) 1 in
             create_empty_tree (ds + 2) 1) format_start = (c, Ok tt)
    /\ next_free_block c = ds + 3 /\ cache_within ds c
    /\ leaf_tree d P1 lo1 c ds [] /\ leaf_tree d P2 None c (ds + 1) [] /\ leaf_tree d P3 None c (ds + 2) [].
Proof.
  assert (is_u64 1) as H1 by ilia.
  destruct (create_leaf_tree d format_start ds 1) as (c1 & E1 & N1 & F1 & (b1 & Hc1 & Hl1 & Ho1) & T1 & K1); [simpl; lia..|done|done|].
  destruct (create_leaf_tree d c1 (ds + 1) 1) as (c2 & E2 & N2 & F2 & (b2 & Hc2 & Hl2 & Ho2) & T2 & K2);
    [rewrite N1; simpl; lia..|done|rewrite Hc1, lookup_insert_ne by lia; done|].
  destruct (create_leaf_tree d c2 (ds + 2) 1) as (c3 & E3 & N3 & F3 & (b3 & Hc3 & Hl3 & Ho3) & T3 & K3);
    [rewrite N2, N1; simpl; lia..|done|rewrite Hc2, Hc1, !lookup_insert_ne by lia; done|].
  exists c3. rewrite (st_bind_Ok _ _ _ _ _ E1), (st_bind_Ok _ _ _ _ _ E2). split; [done|].
  split; [by rewrite N3, N2, N1|]. split; [|split; [|split]].
  - intros x block. rewrite Hc3, Hc2, Hc1, N3, N2, N1. simpl.
    rewrite !lookup_insert_Some, lookup_empty. intros [[<- <-]|[_ [[<- <-]|[_ [[<- <-]|[_ [=]]]]]]].
    + split; [lia|exact (conj Hl3 Ho3)].
    + split; [lia|exact (conj Hl2 Ho2)].
    + split; [lia|exact (conj Hl1 Ho1)].
  - apply K3, K2, T1; lia.
  - apply K3, T2; lia.
  - apply T3.
Qed.

Local Abbreviation free_keys := (tk_keys free_tree).

(** A free extent in an empty leaf. *)
Lemma insert_free_leaf c a start count :
  leaf_tree d free_keys None c a [] -> 0 <= start < 2 ^ 64 -> 0 <= count < 2 ^ 64 -> next_free_block c + 2 < 2 ^ 64 ->
  exists c', insert_free_extent_into_tree d a start count 1 c = (c', Ok (next_free_block c)) /\ extends c c' [a]
    /\ next_free_block c' = next_free_block c + 1 /\ leaf_tree d free_keys None c' (next_free_block c) [free_item start count].
Proof.
  intros Ht Hs Hc Hn.
  assert (is_u64 start) as Hsu by ilia. assert (is_u64 1) as Hg by ilia.
  destruct (insert_leaf_tree d free_keys None c a [] (free_key start)
    (serialise_free_extent_to_bytes {| fe_block_address := start; fe_block_count := count |}) 1) as (c' & E & X & N & T).
  { done. } { by apply free_key_allowed. } { by apply free_key_wf. } { done. }
  { unfold serialise_free_extent_to_bytes. rewrite !bytes_ok_app. auto with bytes. }
  { unfold serialise_free_extent_to_bytes. rewrite length_app, !length_le_bytes. unfold VALUE_MAX. lia. } { done. }
  { unfold items_put. simpl. unfold leaf_serialised_size, serialise_free_extent_to_bytes. simpl. vm_compute. done. } { done. }
  exists c'. split; [exact E|]. done.
Qed.

Lemma insert_root_leaf c a :
  leaf_tree d key_wf (Some root_inode_key) c a [] -> next_free_block c + 2 < 2 ^ 64 ->
  exists c', write_inode_to_tree d a (new_directory BAFS_ROOT_INODE_NUMBER 1 0) 1 c = (c', Ok (next_free_block c))
    /\ extends c c' [a] /\ next_free_block c' = next_free_block c + 1
    /\ leaf_tree d key_wf (Some root_inode_key) c' (next_free_block c) [root_item].
Proof.
  intros Ht Hn. assert (inode_wf (new_directory BAFS_ROOT_INODE_NUMBER 1 0)) as Hi
    by (apply new_directory_wf; unfold BAFS_ROOT_INODE_NUMBER; ilia).
  pose proof (serialise_inode_value_ok _ Hi) as [Hb Hl].
  assert (1 <= BAFS_ROOT_INODE_NUMBER < 2 ^ 64) as Hroot by (unfold BAFS_ROOT_INODE_NUMBER; lia).
  destruct (inode_key_allowed _ Hroot) as (Hk & _ & Hk').
  apply (insert_leaf_tree d key_wf (Some root_inode_key) c a [] root_inode_key);
    [exact Ht|exact Hk|exact Hk'|split; [apply key_le_refl|exact I]|exact Hb|exact Hl|ilia| |exact Hn].
  unfold items_put. rewrite filter_nil. cbn [app]. rewrite leaf_serialised_size_cons.
  cbn [li_value]. rewrite length_serialise_inode by exact Hi. vm_compute. discriminate.
Qed.

(** The inode tree holds the root directory; the free-extent tree one extent, from
    its own root block to the end; the checksum tree nothing. *)
Lemma format_trees_correct :
  exists c, format_trees d total ds (ds + 1) (ds + 2) format_start = (c, Ok (ds + 3, ds + 6, ds + 2))
    /\ next_free_block c = ds + 7 /\ cache_within ds c
    /\ leaf_tree d key_wf (Some root_inode_key) c (ds + 3) [root_item]
    /\ leaf_tree d free_keys None c (ds + 6) [free_item (ds + 6) (total - (ds + 6))]
    /\ leaf_tree d (tk_keys checksum_tree) None c (ds + 2) [].
Proof.
  destruct (create_format_trees key_wf (Some root_inode_key) free_keys (tk_keys checksum_tree))
    as (c3 & E3 & N3 & W3 & T1 & T2 & T3).
  destruct (insert_root_leaf c3 ds T1) as (c4 & E4 & X4 & N4 & T4); [lia|]. rewrite N3 in *.
  destruct (insert_free_leaf c4 (ds + 1) (ds + 4) (total - (ds + 4))) as (c5 & E5 & X5 & N5 & T5);
    [by eapply leaf_tree_extends|lia..|]. rewrite N4 in *.
  destruct (delete_leaf_tree d free_keys None c5 (ds + 3 + 1) (free_key (ds + 4)) (free_record (ds + 4) (total - (ds + 4))) 1)
    as (c6 & E6 & X6 & N6 & T6); [exact T5|ilia|lia|]. rewrite N5 in *.
  destruct (insert_free_leaf c6 (ds + 3 + 1 + 1) (ds + 6) (total - (ds + 6))) as (c7 & E7 & X7 & N7 & T7); [done|lia..|].
  rewrite N6 in *. exists c7. split; [|split; [lia|split; [|split; [|split]]]].
  - unfold format_trees. revert E3. unfold st_bind at 1 2. unfold st_bind at 1 2 3.
    destruct (create_empty_tree ds 1 format_start) as [k1 [[]| | |]]; [|done..].
    destruct (create_empty_tree (ds + 1) 1 k1) as [k2 [[]| | |]]; [|done..]. intros ->.
    rewrite (st_bind_Ok _ _ _ _ _ E4), st_bind_get, N4. unfold saturating_sub.
    destruct (Z.eqb_spec (Z.max 0 (total - (ds + 3 + 1))) 0); [lia|].
    replace (Z.max 0 (total - (ds + 3 + 1))) with (total - (ds + 4)) by lia.
    replace (ds + 3 + 1) with (ds + 4) in * by lia.
    rewrite (st_bind_Ok _ _ _ _ _ E5), st_bind_get, N5. destruct (Z.ltb_spec (ds + 4) (ds + 4 + 1)); [|lia].
    rewrite (st_bind_Ok _ _ _ _ _ E6), st_bind_get, N6. 
    destruct (Z.ltb_spec 0 (Z.max 0 (total - (ds + 4 + 1 + 1)))); [|lia].
    replace (Z.max 0 (total - (ds + 4 + 1 + 1))) with (total - (ds + 6)) by lia.
    replace (ds + 4 + 1 + 1) with (ds + 6) in * by lia.
    by rewrite (st_bind_Ok _ _ _ _ _ E7).
  - eapply cache_within_extends; [|exact X7|]; [lia|]. eapply cache_within_extends; [|exact X6|]; [lia|].
    eapply cache_within_extends; [|exact X5|]; [lia|]. eapply cache_within_extends; [|exact X4|exact W3]; lia.
  - eapply leaf_tree_extends; [exact X7|]. eapply leaf_tree_extends; [exact X6|]. by eapply leaf_tree_extends; [exact X5|].
  - by replace (ds + 3 + 1 + 1 + 1) with (ds + 6) in T7 by lia.
  - eapply leaf_tree_extends; [exact X7|]. eapply leaf_tree_extends; [exact X6|]. eapply leaf_tree_extends; [exact X5|].
    by eapply leaf_tree_extends; [exact X4|].
Qed.
End format_trees.

(** ** The formatted device *)

Definition options_wf (options : BafsFormatOptions) : Prop :=
  is_u64 (volume_uuid_lower options) /\ bytes_ok (volume_label options) /\ len (volume_label options) = 32.

Lemma default_options_wf : options_wf BafsFormatOptions_default.
Proof. split; [by split|]. split; [|done]. repeat constructor; vm_compute; congruence. Qed.

Lemma label_words_wf label :
  bytes_ok label -> len label = 32 -> Forall is_u64 (label_words label) /\ length (label_words label) = 4%nat.
Proof.
  intros Hok Hl. unfold label_words. destruct (next_les 4 8 label) as [zs rest] eqn:E.
  apply next_les_inv in E as (_ & Hlen & Hzs & _); [|done|lia]. done.
Qed.

Lemma format_superblock_wf options total count ir fr cr n next :
  options_wf options -> is_u64 total -> is_u64 count -> is_u64 ir -> is_u64 fr -> is_u64 cr -> is_u64 n -> is_u64 next ->
  sb_wf (format_superblock options total count ir fr cr n next).
Proof.
  intros (Hu & Hlok & Hll) ???????. destruct (label_words_wf _ Hlok Hll) as [Hlw Hlwl].
  assert (forall n, (0 <=? n) && (n <? u32_max) = true -> is_u32 n) as Hn32.
  { intros x [Hx1%Z.leb_le Hx2%Z.ltb_lt]%andb_true_iff. by split. }
  assert (forall n, (0 <=? n) && (n <? u64_max) = true -> is_u64 n) as Hn64.
  { intros x [Hx1%Z.leb_le Hx2%Z.ltb_lt]%andb_true_iff. by split. }
  constructor; lazymatch goal with
  | |- is_u32 _ => apply Hn32; reflexivity
  | |- is_u64 _ => first [assumption|apply Hn64; reflexivity]
  | |- _ => split
  end.
  - repeat constructor; vm_compute; discriminate.
  - done.
  - constructor; [done|]. constructor; [by apply Hn64|constructor].
  - done.
  - exact Hlw.
  - exact Hlwl.
  - change (sb_reserved _) with (replicate 348 0). apply Forall_replicate. by split.
  - change (sb_reserved _) with (replicate 348 0). apply length_replicate.
Qed.

Lemma parse_journal_zeros n last : 24 <= n -> parse_journal (zeros n) last = Ok None.
Proof.
  intros Hn. unfold parse_journal. rewrite length_zeros.
  destruct (Z.ltb_spec (Z.of_nat (Z.to_nat n)) JOURNAL_COMMIT_RECORD_HEADER_SIZE_BYTES); [done|].
  replace n with (8 + (n - 8)) by lia. rewrite zeros_app by lia. by rewrite get_slice_prefix by done.
Qed.

Lemma concat_zero_blocks start (n : nat) :
  concat ((fun _ : Z => zeros 4096) <$> seqZ start (Z.of_nat n)) = zeros (4096 * Z.of_nat n).
Proof.
  revert start. induction n as [|n IH]; intros start; [done|].
  rewrite seqZ_cons, fmap_cons by lia. cbn [concat]. replace (Z.pred (Z.of_nat (S n))) with (Z.of_nat n) by lia.
  rewrite IH, <- zeros_app by lia. f_equal. lia.
Qed.

Lemma data_area_bounds total :
  256 <= compute_journal_size_in_blocks total <= 16384
  /\ compute_data_area_start_block total = 3 + compute_journal_size_in_blocks total.
Proof.
  split; [|done]. unfold compute_journal_size_in_blocks, BAFS_JOURNAL_SIZE_MIN_BLOCKS, BAFS_JOURNAL_SIZE_MAX_BLOCKS. lia.
Qed.

Lemma items_map_single k v : items_map [BafsLeafItem_new k v] = {[k := v]}.
Proof. exact (insert_empty k v). Qed.

Section format.
Context `{BlockDeviceLaws D}.

Lemma zero_journal_blocks_writes n block d :
  zero_journal_blocks n block d = write_blocks_home ((fun a => (a, zeros 4096)) <$> seqZ block (Z.of_nat n)) d.
Proof.
  revert block d. induction n as [|n IH]; intros block d; [done|].
  rewrite seqZ_cons, fmap_cons by lia. replace (Z.pred (Z.of_nat (S n))) with (Z.of_nat n) by lia.
  cbn [zero_journal_blocks write_blocks_home]. unfold st_bind.
  destruct (device_write_block block (zeros 4096) d) as [d1 [[]| | |]]; [apply IH|done..].
Qed.

(** The superblock of a new volume of [total] blocks. *)
Definition new_superblock (options : BafsFormatOptions) (total : Z) : BafsSuperblock :=
  let ds := compute_data_area_start_block total in
  format_superblock options total (total - (ds + 7)) (ds + 3) (ds + 6) (ds + 2)
    (compute_journal_size_in_blocks total) (ds + 7).

(** What a new inode tree stores. *)
Definition new_inodes : gmap BafsKey (list Z) :=
  {[root_inode_key := serialise_inode_to_bytes (new_directory BAFS_ROOT_INODE_NUMBER 1 0)]}.

(** The one extent of a new free-extent tree: all blocks from the tree's own root on. *)
Definition new_free_map (total : Z) : free_map :=
  let ds := compute_data_area_start_block total in {[ds + 6 := total - (ds + 6)]}.

(** A device that holds the blocks of the new trees mounts as an empty volume. *)
Lemma new_volume_rep (d d' : D) options total c :
  let ds := compute_data_area_start_block total in
  let sb := seal_with_checksum (new_superblock options total) in
  0 <= total < 2 ^ 64 -> ds + 13 <= total -> options_wf options -> next_free_block c = ds + 7 ->
  leaf_tree d key_wf (Some root_inode_key) c (ds + 3) [root_item] ->
  leaf_tree d (tk_keys free_tree) None c (ds + 6) [free_item (ds + 6) (total - (ds + 6))] ->
  leaf_tree d (tk_keys checksum_tree) None c (ds + 2) [] ->
  (forall x, ds <= x < ds + 7 -> read_block d' ∅ x = read_block d (dirty_cache c) x) ->
  vol_rep (mounted d' sb) new_inodes ∅
  /\ tree_in (mounted d' sb) free_tree (ds + 6) (free_encode (new_free_map total)).
Proof.
  intros ds sb Ht Hmin Hopt Hn T1 T2 T3 Hreads.
  pose proof (data_area_bounds total) as [Hj Eds']. fold ds in Eds'.
  assert (sb_wf sb) as Hwf.
  { apply sb_wf_seal, format_superblock_wf; try done; fold ds; split; unfold u64_max; try lia.
    all: unfold ds, compute_data_area_start_block, BAFS_JOURNAL_START_BLOCK_ADDRESS in *; lia. }
  assert (data_start sb = ds) as Eds by done.
  assert (forall K a items, ds <= a < ds + 7 -> anchored (tk_anchor K) items ->
    leaf_tree d (tk_keys K) (tk_anchor K) c a items -> tree_in (mounted d' sb) K a (items_map items)) as Htree.
  { intros K a items Ha Hanc Htr. exists [a]. split; [|apply Forall_singleton; simpl; lia].
    eapply (tree_frame K d c); [exact (leaf_tree_rep d _ _ K c a items eq_refl eq_refl Hanc Htr)| |simpl; fold ds; lia].
    intros x ->%list_elem_of_singleton. by apply Hreads. }
  assert (tree_in (mounted d' sb) free_tree (ds + 6) (free_encode (new_free_map total))) as Hfree.
  { replace (free_encode _) with (items_map [free_item (ds + 6) (total - (ds + 6))]).
    - apply (Htree free_tree (ds + 6) [free_item (ds + 6) (total - (ds + 6))]); [lia|by intros l [=]|exact T2].
    - unfold new_free_map. fold ds. rewrite <- insert_empty, free_encode_insert. unfold free_encode.
      by rewrite map_imap_empty, kmap_empty. }
  split; [|exact Hfree].
  split; cbn [mounted superblock device dirty_block_cache vol_next_free_block next_transaction_id].
  - unfold new_inodes. rewrite <- items_map_single. apply (Htree inode_tree (ds + 3) [root_item]); [lia| |exact T1]. intros l [= <-]. left.
  - apply (Htree checksum_tree (ds + 2) []); [lia|by intros l [=]|exact T3].
  - exists (new_free_map total). split; [exact Hfree|].
    apply map_Forall_singleton. fold ds. unfold FREE_LIMIT. lia.
  - unfold new_inodes. by intros k v [<- _]%lookup_singleton_Some.
  - unfold new_inodes. by intros k v [<- _]%lookup_singleton_Some.
  - unfold new_inodes. by intros k v [<- _]%lookup_singleton_Some.
  - done.
  - by split.
  - simpl. fold ds. lia.
  - done.
  - done.
Qed.

(** The writes of a format: the zeroed journal, the trees, the superblocks. *)
Definition format_writes (sb : BafsSuperblock) (cache : gmap Z (list Z)) : list (Z * list Z) :=
  ((fun a => (a, zeros 4096)) <$> seqZ (sb_journal_start_block sb) (sb_journal_size_in_blocks sb))
  ++ cache_entries cache ++ superblock_writes sb.

Lemma zeroed_addresses start n : ((fun a : Z => (a, zeros 4096)) <$> seqZ start n).*1 = seqZ start n.
Proof. rewrite <- list_fmap_compose. apply list_fmap_id. Qed.

Lemma format_layout d options total :
  options_wf options -> 0 <= total -> compute_data_area_start_block total + 13 <= total ->
  total * 4096 <= len (content d) -> len (content d) < 2 ^ 64 -> volume_layout d (new_superblock options total).
Proof.
  intros Hopt Ht Hmin Hdev Hsm. pose proof (data_area_bounds total) as [Hj Eds].
  constructor; try done; cbn [new_superblock format_superblock sb_journal_start_block sb_journal_size_in_blocks];
    unfold BAFS_JOURNAL_START_BLOCK_ADDRESS, BAFS_JOURNAL_SIZE_MAX_BLOCKS; try lia.
  apply format_superblock_wf; try done; split; unfold u64_max; lia.
Qed.

Lemma format_writable d options total c :
  let sb := new_superblock options total in
  volume_layout d sb -> next_free_block c * 4096 <= len (content d) ->
  cache_within (compute_data_area_start_block total) c -> Forall (writable d) (format_writes sb (dirty_cache c)).
Proof.
  intros sb Hl Hn Hc. pose proof (data_area_bounds total) as [Hj Eds]. pose proof (vl_end _ _ Hl) as Hend.
  pose proof (vl_small _ _ Hl) as Hsm. change (sb_journal_start_block sb) with 3 in Hend.
  apply Forall_app. split; [|apply Forall_app; split].
  - apply Forall_fmap, Forall_forall. intros a Ha%elem_of_seqZ. change (sb_journal_start_block sb) with 3 in Ha.
    apply on_device_writable; [done|split; lia|]. by rewrite length_zeros.
  - apply Forall_forall. intros [a b] (Ha & Hb & _)%cache_entries_elem%Hc.
    apply on_device_writable; [done|split; lia|]. by rewrite Hb.
  - eapply superblock_writable; [exact Hl|apply Hl].
Qed.

Section formatting.
Context (d : D) (options : BafsFormatOptions) (total : Z).
Context (Hopt : options_wf options) (Htotal : total = total_sector_count d / BAFS_SECTORS_PER_BLOCK) (Hpos : 0 <= total).
Context (Hdev : total * 4096 <= len (content d)) (Hsmall : len (content d) < 2 ^ 64) (Hup : device_up d).
Local Abbreviation ds := (compute_data_area_start_block total).
Local Abbreviation sb := (new_superblock options total).

Lemma format_too_small : total < ds + 13 -> bafs_format options d = (d, Err OutOfSpace).
Proof.
  intros Hlt. unfold bafs_format. rewrite st_bind_get, <- Htotal.
  by destruct (Z.ltb_spec total (ds + 3 + 10)); [|lia].
Qed.

Lemma format_writes_eq c d' :
  ds + 13 <= total -> format_trees d total ds (ds + 1) (ds + 2) (format_start ds) = (c, Ok (ds + 3, ds + 6, ds + 2)) ->
  next_free_block c = ds + 7 -> sb_wf sb -> write_blocks_home (format_writes sb (dirty_cache c)) d = (d', Ok tt) ->
  bafs_format options d = (d', Ok tt).
Proof.
  intros Hmin Htrees Hn Hwf Hw. pose proof (data_area_bounds total) as [Hj Eds].
  apply write_blocks_home_app_inv in Hw as (d1 & Hw1 & (d2 & Hw2 & Hw3)%write_blocks_home_app_inv).
  unfold bafs_format. rewrite st_bind_get, <- Htotal. destruct (Z.ltb_spec total (ds + 3 + 10)); [lia|].
  fold (format_start ds). rewrite Htrees, (st_bind_lift _ _ _ (ds + 3, ds + 6, ds + 2)) by done. rewrite Hn.
  replace (saturating_sub total (ds + 7)) with (total - (ds + 7)) by (unfold saturating_sub; lia). fold sb.
  unfold st_bind at 1. rewrite zero_journal_blocks_writes, Z2Nat.id by lia.
  change (sb_journal_start_block sb) with BAFS_JOURNAL_START_BLOCK_ADDRESS in Hw1.
  change (sb_journal_size_in_blocks sb) with (compute_journal_size_in_blocks total) in Hw1. rewrite Hw1.
  unfold st_bind at 1. rewrite Hw2, write_superblock_writes by done. by rewrite Hw3.
Qed.

(** Formatting leaves a settled device that holds the empty root directory. *)
Lemma format_settled :
  ds + 13 <= total ->
  exists d', bafs_format options d = (d', Ok tt) /\ device_up d' /\ length (content d') = length (content d)
    /\ image d' BAFS_PRIMARY_SUPERBLOCK_BLOCK_ADDRESS = superblock_block sb
    /\ settled d' sb /\ vol_rep (mounted d' (seal_with_checksum sb)) new_inodes ∅
    /\ tree_in (mounted d' (seal_with_checksum sb)) free_tree (ds + 6) (free_encode (new_free_map total)).
Proof.
  intros Hmin. pose proof (data_area_bounds total) as [Hj Eds].
  destruct (format_trees_correct d ds total) as (c & Etrees & Hn & Hc & T1 & T2 & T3); [lia..|].
  pose proof (format_layout d options total Hopt Hpos Hmin Hdev Hsmall) as Hl.
  destruct (write_blocks_home_up d (format_writes sb (dirty_cache c)) Hup) as (d' & Hw & Hup' & Hlen & Himg).
  { apply format_writable; [done|lia|done]. }
  pose proof (volume_layout_length _ d' _ Hlen Hl) as Hl'.
  assert (forall a, 3 <= a -> a ∉ (superblock_writes sb).*1) as Hno.
  { intros a Ha. unfold superblock_writes, BAFS_BACKUP_SUPERBLOCK_BLOCK_ADDRESS, BAFS_PRIMARY_SUPERBLOCK_BLOCK_ADDRESS. csimpl.
    rewrite !not_elem_of_cons. repeat split; [lia..|apply not_elem_of_nil]. }
  exists d'. split; [by eapply format_writes_eq; [| | |apply Hl|]|]. split; [done|]. split; [done|].
  assert (image d' BAFS_PRIMARY_SUPERBLOCK_BLOCK_ADDRESS = superblock_block sb) as Hprim; [|split; [done|split; [split|]]].
  - rewrite Himg by done. unfold format_writes. rewrite !apply_writes_app. unfold superblock_writes.
    cbn [apply_writes]. by rewrite Z.eqb_refl.
  - done.
  - by apply mount_superblock_image.
  - unfold journal_area. change (sb_journal_start_block sb) with 3.
    change (sb_journal_size_in_blocks sb) with (compute_journal_size_in_blocks total).
    rewrite (list_fmap_ext _ (fun _ => zeros 4096)).
    + rewrite <- (Z2Nat.id (compute_journal_size_in_blocks total)), concat_zero_blocks by lia. apply parse_journal_zeros. lia.
    + intros i a Ha%lookup_seqZ. rewrite Himg by lia. unfold format_writes. rewrite !apply_writes_app.
      rewrite apply_writes_other by (apply Hno; lia). rewrite apply_writes_other.
      * apply apply_writes_in; [rewrite zeroed_addresses; apply NoDup_seqZ|]. apply list_elem_of_fmap. exists a.
        split; [done|]. apply elem_of_seqZ. change (sb_journal_start_block sb) with 3.
        change (sb_journal_size_in_blocks sb) with (compute_journal_size_in_blocks total). lia.
      * rewrite cache_entries_addresses. intros [b (Hb & _)%Hc]. lia.
  - done.
  - simpl. rewrite Hlen. lia.
  - assert (total < 2 ^ 64) as Ht64 by lia.
    apply (new_volume_rep d d' options total c (conj Hpos Ht64) Hmin Hopt Hn T1 T2 T3). intros x Hx. unfold read_block. rewrite lookup_empty.
    assert (on_device d x) as Hon by (split; lia).
    assert (len (content d') < 2 ^ 64) as Hsmall' by (rewrite Hlen; exact Hsmall).
    rewrite (up_readable d' Hup' Hsmall' x (on_device_length d d' x Hlen Hon)).
    rewrite Himg by lia. unfold format_writes. rewrite !apply_writes_app, apply_writes_other by (apply Hno; lia).
    rewrite apply_entries, apply_writes_other.
    + destruct (dirty_cache c !! x); [reflexivity|]. rewrite (up_readable d Hup Hsmall x Hon). reflexivity.
    + rewrite zeroed_addresses. intros Hin%elem_of_seqZ. change (sb_journal_start_block sb) with 3 in Hin.
      change (sb_journal_size_in_blocks sb) with (compute_journal_size_in_blocks total) in Hin. lia.
Qed.
End formatting.
End format.
