(* ===== verification/History.v ===== *)
(** * History: requests, commits, remounts and power failures

    A volume that starts from a formatted device goes through a history of
    requests, commits, remounts and power failures during a commit. Every such
    history is one of the abstract file system with a committed and a current
    state, as long as the volume does not outgrow its device. *)

From S2P Require Import Prelude Checksum Device Superblock Node NodeCodec BTree BTreeInv BTreeWrite.
From S2P Require Import BTreeInsert BTreeDelete TreeStore Inode Extent FreeSpace ChecksumTree XxHash Dir Journal JournalLaws.
From S2P Require Import Volume FileModel VolumeInv VolumeDirs VolumeUnlink VolumeFiles FileContents VolumeCommit FileSystem Format.

(** ** Histories of the specification *)

(** [Request budget q r]: request [q] is answered with [r] and makes at most
    [budget] tree updates. [Commit r]: a commit returns [r]. [Crash]: the power
    fails during a commit, and the device is mounted again. *)
Inductive event :=
  | Request (budget : Z) (q : request) (r : result reply)
  | Commit (r : result unit)
  | Remount
  | Crash.

(** The committed and the current state. A commit may be refused for want of space;
    then nothing changes. *)
Inductive fs_step : fs * fs -> event -> fs * fs -> Prop :=
  | step_request C A A' budget full q r :
      answers full A q = (A', r) -> fs_step (C, A) (Request budget q r) (C, A')
  | step_commit C A : fs_step (C, A) (Commit (Ok tt)) (A, A)
  | step_refused C A : fs_step (C, A) (Commit (Err OutOfSpace)) (C, A)
  | step_remount C A : fs_step (C, A) Remount (C, C)
  | step_crash_before C A : fs_step (C, A) Crash (C, C)
  | step_crash_after C A : fs_step (C, A) Crash (A, A).

Inductive fs_run : fs * fs -> list event -> fs * fs -> Prop :=
  | fs_run_nil X : fs_run X [] X
  | fs_run_cons X Y Z ev evs : fs_step X ev Y -> fs_run Y evs Z -> fs_run X (ev :: evs) Z.

Definition event_allowed (A : fs) (ev : event) : Prop :=
  match ev with
  | Request budget q _ => admissible A q /\ cost A q <= budget
  | _ => True
  end.

(** Whatever state the specification is in, the next event is an allowed one. *)
Fixpoint allowed (X : fs * fs) (evs : list event) : Prop :=
  match evs with
  | [] => True
  | ev :: evs => event_allowed X.2 ev /\ forall Y, fs_step X ev Y -> allowed Y evs
  end.

(** A new volume: the root directory, without entries. *)
Definition new_fs : fs := {| fs_count := 1; fs_nodes := {[1 := DirectoryNode 2]}; fs_names := ∅ |}.

(** ** Histories of a volume *)

Section history.
Context `{BlockDeviceLaws D} `{!TreeStore D}.
Implicit Types v : BafsVolume D.

(** A power failure: the commit runs on a device [failing] whose writes may fail
    from some point on, and the contents it leaves are found by the device [d1] of
    the next mount. *)
Record power_failure v (d1 : D) : Prop := {
  pf_commit : exists failing v' r, content failing = content (device v) /\ readable failing
    /\ flush_and_commit (set_device v failing) = (v', r) /\ content d1 = content (device v');
  pf_restarted : device_up d1;
  pf_detected : exists sb, read_superblock_from_device (device v) BAFS_PRIMARY_SUPERBLOCK_BLOCK_ADDRESS = Ok sb
    /\ torn_writes_detected d1 sb (flushed_superblock v)
         (commit_record (next_transaction_id v) (cache_entries (dirty_block_cache v)));
}.

(** One event, and the volume after it or the error of a mount. *)
Inductive vol_event v : event -> result (BafsVolume D) -> Prop :=
  | event_request budget q v' r :
      vol_room v budget -> execute q v = (v', r) -> vol_event v (Request budget q r) (Ok v')
  | event_commit v' r :
      commit_bounds v -> flush_and_commit v = (v', r) -> vol_event v (Commit r) (Ok v')
  | event_remount d r : bafs_mount (device v) = (d, r) -> vol_event v Remount r
  | event_crash d1 d2 r :
      commit_bounds v -> power_failure v d1 -> bafs_mount d1 = (d2, r) -> vol_event v Crash r.

Inductive vol_run v : list event -> result (BafsVolume D) -> Prop :=
  | vol_run_nil : vol_run v [] (Ok v)
  | vol_run_cons ev evs v' o : vol_event v ev (Ok v') -> vol_run v' evs o -> vol_run v (ev :: evs) o
  | vol_run_stop ev evs o : vol_event v ev o -> (forall v', o <> Ok v') -> vol_run v (ev :: evs) o.

(** ** The simulation *)

(** The device holds the committed state [C]; [v] grew from it and holds [A]. *)
Definition tracks v (C A : fs) : Prop :=
  exists sb m0 s0 m s, let v0 := mounted (device v) (seal_with_checksum sb) in
    device_up (device v) /\ settled (device v) sb /\ fs_rep v0 m0 s0 C /\ grown v0 v /\ fs_rep v m s A.

Lemma tracks_mounted d sb m s A :
  device_up d -> settled d sb -> fs_rep (mounted d (seal_with_checksum sb)) m s A ->
  tracks (mounted d (seal_with_checksum sb)) A A.
Proof. intros Hup Hs Hf. exists sb, m, s, m, s. do 3 (split; [done|]). split; [apply grown_refl|done]. Qed.

Lemma tracks_step v C A v' k m s A' : tracks v C A -> vol_step v v' k -> fs_rep v' m s A' -> tracks v' C A'.
Proof.
  intros (sb & m0 & s0 & m1 & s1 & Hup & Hs & Hf0 & G & Hf) S Hf'. exists sb, m0, s0, m, s. cbv zeta.
  rewrite (vs_device _ _ _ S). do 3 (split; [done|]). split; [by eapply grown_step|done].
Qed.

Lemma tracks_request v C A budget q v' r :
  tracks v C A -> admissible A q -> cost A q <= budget -> vol_room v budget -> execute q v = (v', r) ->
  exists A', answers (no_room v q) A q = (A', r) /\ tracks v' C A'.
Proof.
  intros Ht Hadm Hcost Hroom E. pose proof Ht as (sb & m0 & s0 & m & s & _ & _ & _ & _ & Hf).
  destruct (execute_refines v m s A q budget Hf Hadm Hcost Hroom) as (v1 & m1 & s1 & j & E1 & Hf1 & S1).
  rewrite E1 in E. injection E as <- <-. eexists. split; [apply surjective_pairing|]. by eapply tracks_step.
Qed.

Lemma tracks_commit v C A :
  tracks v C A -> committable v ->
  exists v', flush_and_commit v = (v', Ok tt) /\ bafs_mount (device v') = (device v', Ok v') /\ tracks v' A A.
Proof.
  intros (sb & m0 & s0 & m & s & Hup & Hs & Hf0 & G & Hf) Hcm.
  destruct (commit_settled _ _ _ _ _ Hup Hs G (proj1 Hf) Hcm) as (d' & E & Hup' & _ & _ & Hs' & Hrl).
  eexists. split; [exact E|]. split; [by apply settled_mount|]. eapply tracks_mounted; [done|done|by eapply fs_rep_reload].
Qed.

(** A commit that does not fit the journal changes nothing. *)
Lemma tracks_refused v C A :
  tracks v C A -> commit_bounds v -> ~ record_fits (superblock v) (dirty_block_cache v) ->
  flush_and_commit v = (refused v, Err OutOfSpace) /\ tracks (refused v) C A.
Proof.
  intros (sb & m0 & s0 & m & s & Hup & Hs & Hf0 & G & Hf) [_ Hcount] Hbig. split.
  - apply (flush_refused v m s); [apply Hf|by eapply grown_layout; [apply Hs|exact G|apply Hf]|done|done].
  - exists sb, m0, s0, m, s. do 3 (split; [done|]). split; [by apply grown_refused|by apply fs_rep_refused].
Qed.

Lemma tracks_remount v C A :
  tracks v C A -> exists v', bafs_mount (device v) = (device v, Ok v') /\ tracks v' C C.
Proof.
  intros (sb & m0 & s0 & m & s & Hup & Hs & Hf0 & G & Hf). eexists. split; [by apply settled_mount|].
  by eapply tracks_mounted.
Qed.

Lemma set_device_grown d sb v d' :
  grown (mounted d (seal_with_checksum sb)) v -> grown (mounted d' (seal_with_checksum sb)) (set_device v d').
Proof. intros [Hd Hi X Hsb]. by split. Qed.

Lemma settled_primary d sb sb' :
  settled d sb -> read_superblock_from_device d BAFS_PRIMARY_SUPERBLOCK_BLOCK_ADDRESS = Ok sb' -> sb' = seal_with_checksum sb.
Proof. intros [_ Hm _ _ _] E. unfold mount_superblock in Hm. rewrite E in Hm. congruence. Qed.

(** The same contents hold the same superblock. *)
Lemma same_content_superblock d d' sb :
  content d' = content d -> readable d -> readable d' -> volume_layout d sb ->
  read_superblock_from_device d' BAFS_PRIMARY_SUPERBLOCK_BLOCK_ADDRESS
  = read_superblock_from_device d BAFS_PRIMARY_SUPERBLOCK_BLOCK_ADDRESS.
Proof.
  intros Hc Hr Hr' Hl. unfold read_superblock_from_device.
  assert (on_device d BAFS_PRIMARY_SUPERBLOCK_BLOCK_ADDRESS) as Hon by by eapply layout_on_device.
  rewrite (Hr _ Hon), Hr' by by eapply on_device_length; [rewrite Hc|]. unfold image. by rewrite Hc.
Qed.

(** The same volume on the device that is about to fail. *)
Lemma tracks_failing v C A failing :
  tracks v C A -> within_device v -> content failing = content (device v) -> readable failing ->
  exists sb m0 s0 m s, let v0 := mounted failing (seal_with_checksum sb) in
    settled (device v) sb /\ volume_layout failing sb /\ readable (device v)
    /\ fs_rep v0 m0 s0 C /\ grown v0 (set_device v failing) /\ fs_rep (set_device v failing) m s A.
Proof.
  intros (sb & m0 & s0 & m & s & Hup & Hs & Hf0 & G & Hf) Hdev Hc Hr. pose proof (se_layout _ _ Hs) as Hl.
  assert (readable (device v)) as Hrv by (apply up_readable; [done|apply Hl]).
  exists sb, m0, s0, m, s. split; [done|]. split; [eapply volume_layout_length; [by rewrite Hc|exact Hl]|]. split; [done|]. split.
  { apply (fs_rep_same_content (mounted (device v) (seal_with_checksum sb))); [done..|apply Hs]. }
  split; [by eapply set_device_grown|by apply fs_rep_same_content].
Qed.

(** The commit was refused before it wrote anything. *)
Lemma crash_refused v C A d1 failing v1 r :
  tracks v C A -> within_device v -> commit_bounds v -> ~ record_fits (superblock v) (dirty_block_cache v) ->
  content failing = content (device v) -> readable failing -> flush_and_commit (set_device v failing) = (v1, r) ->
  content d1 = content (device v1) -> device_up d1 ->
  (exists sb, read_superblock_from_device (device v) BAFS_PRIMARY_SUPERBLOCK_BLOCK_ADDRESS = Ok sb) ->
  exists v', bafs_mount d1 = (d1, Ok v') /\ tracks v' C C.
Proof.
  intros Ht Hdev [_ Hcount] Hbig Hc Hr Efl Hc1 Hup1 [sb' Hp].
  destruct (tracks_failing v C A failing Ht Hdev Hc Hr) as (sb & m0 & s0 & m & s & Hs & Hlf & Hrv & Hf0 & G & Hf).
  pose proof (settled_primary _ _ _ Hs Hp) as ->. pose proof (se_layout _ _ Hs) as Hl.
  rewrite (flush_refused _ m s (proj1 Hf)) in Efl; [|by eapply grown_layout; [exact Hlf|exact G|apply Hf]|exact Hbig|exact Hcount].
  injection Efl as <- <-. simpl in Hc1. rewrite Hc in Hc1.
  assert (readable d1) as Hr1 by (apply up_readable; [done|rewrite Hc1; apply Hl]).
  assert (settled d1 sb) as Hs1.
  { destruct Hs as [_ _ Hj Hid Hd]. split; [eapply volume_layout_length; [by rewrite Hc1|exact Hl]| |by unfold journal_area, image; rewrite Hc1|done|by rewrite Hc1].
    apply mount_superblock_primary. by rewrite (same_content_superblock (device v) d1 sb). }
  eexists. split; [by apply settled_mount|]. eapply tracks_mounted; [done|done|].
  apply (fs_rep_same_content (mounted failing (seal_with_checksum sb))); [exact Hf0|simpl; congruence|done|done|].
  simpl. rewrite Hc. apply Hs.
Qed.

Lemma tracks_crash v C A d1 :
  tracks v C A -> within_device v -> commit_bounds v -> power_failure v d1 ->
  exists d2 v', bafs_mount d1 = (d2, Ok v') /\ (tracks v' C C \/ tracks v' A A).
Proof.
  intros Ht Hdev Hcb [(failing & v1 & r & Hc & Hr & Efl & Hc1) Hup1 (sb' & Hp & Htorn)].
  destruct (Z_le_dec (28 + 4104 * len (cache_entries (dirty_block_cache v))) (sb_journal_size_in_blocks (superblock v) * 4096)) as [Hfit|Hbig].
  2: { destruct (crash_refused v C A d1 failing v1 r) as (v' & E & Ht'); [done..|by exists sb'|]. exists d1, v'. auto. }
  destruct (tracks_failing v C A failing Ht Hdev Hc Hr) as (sb & m0 & s0 & m & s & Hs & Hlf & Hrv & Hf0 & G & Hff).
  pose proof (settled_primary _ _ _ Hs Hp) as ->. set (vf := set_device v failing) in *.
  assert (flushable vf) as Hfl.
  { eapply committable_flushable; [exact Hlf|exact G|apply Hff|]. split; [simpl; by rewrite Hc|exact Hfit|apply Hcb]. }
  assert (length (content d1) = length (content (device v1))) as Hlen by by rewrite Hc1.
  assert (forall ws, interrupted failing ws (device v1) -> interrupted failing ws d1) as Hrestart.
  { intros ws (Hl & past & todo & Hsplit & Himg). split; [by rewrite Hc1|]. exists past, todo. split; [done|].
    intros a Ha Hx. unfold image at 1. rewrite Hc1. by apply Himg. }
  enough (mounts_either failing d1 sb vf) as (d2 & sb2 & Em & Hup2 & Hs2 & Hrl).
  { exists d2, (mounted d2 (seal_with_checksum sb2)). split; [exact Em|].
    destruct Hrl as [Hrl|Hrl]; [left|right]; (eapply tracks_mounted; [done|done|]).
    + exact (fs_rep_reload _ _ _ _ _ _ Hf0 Hrl).
    + exact (fs_rep_reload _ _ _ _ _ _ Hff Hrl). }
  assert (read_superblock_from_device failing BAFS_PRIMARY_SUPERBLOCK_BLOCK_ADDRESS = Ok (seal_with_checksum sb)) as Hpf.
  { by rewrite (same_content_superblock (device v) failing sb Hc Hrv Hr (se_layout _ _ Hs)). }
  destruct (decide (dirty_block_cache v = ∅)) as [Hnil|Hdirty].
  - pose proof (Hrestart _ (flush_empty_interrupted vf m s v1 r (proj1 Hff) Hfl Hnil Efl)) as Hint.
    apply (crash_empty failing d1 sb vf m0 s0 m s); try done; [apply Hf0|apply Hff|apply Hint| |apply Htorn].
    replace (journal_area failing sb) with (journal_area (device v) sb) by (unfold journal_area, image; by rewrite Hc). apply Hs.
  - pose proof (Hrestart _ (flush_interrupted vf m s v1 r (proj1 Hff) Hfl Hdirty Efl)) as Hint.
    apply (crash_mount failing d1 sb vf m0 s0 m s); try done; [apply Hf0|apply Hff|apply Hint|].
    apply interrupted_crash_state; [exact (flush_ready vf m s (proj1 Hff) Hfl Hdirty)|exact Hint].
Qed.

(** The events that write the blocks of the volume to its device. *)
Definition writes_device (ev : event) : bool := match ev with Commit _ | Crash => true | _ => false end.

Lemma tracks_event v C A ev o :
  tracks v C A -> event_allowed A ev -> (writes_device ev = true -> within_device v) -> vol_event v ev o ->
  exists v' C' A', o = Ok v' /\ fs_step (C, A) ev (C', A') /\ tracks v' C' A'.
Proof.
  intros Ht Hok Hdev Hev. destruct Hev as [budget q v' r Hroom E|v' r Hcb E|d r E|d1 d2 r Hcb Hpf E].
  - destruct Hok as [Hadm Hcost]. destruct (tracks_request _ _ _ _ _ _ _ Ht Hadm Hcost Hroom E) as (A' & Hans & Ht').
    exists v', C, A'. split; [done|]. by split; [econstructor|].
  - destruct (Z_le_dec (28 + 4104 * len (cache_entries (dirty_block_cache v))) (sb_journal_size_in_blocks (superblock v) * 4096)) as [Hfit|Hbig].
    + destruct (tracks_commit v C A Ht) as (v1 & E1 & _ & Ht'); [split; [by apply Hdev|exact Hfit|apply Hcb]|].
      rewrite E1 in E. injection E as <- <-. exists v1, A, A. split; [done|]. by split; [constructor|].
    + destruct (tracks_refused v C A Ht Hcb Hbig) as [E1 Ht']. rewrite E1 in E. injection E as <- <-.
      exists (refused v), C, A. split; [done|]. by split; [constructor|].
  - destruct (tracks_remount _ _ _ Ht) as (v1 & E1 & Ht'). rewrite E1 in E. injection E as <- <-.
    exists v1, C, C. split; [done|]. by split; [constructor|].
  - destruct (tracks_crash _ _ _ _ Ht (Hdev eq_refl) Hcb Hpf) as (d3 & v1 & E1 & Ht'). rewrite E1 in E. injection E as <- <-.
    destruct Ht' as [Ht'|Ht']; [exists v1, C, C|exists v1, A, A]; (split; [done|]); (split; [|done]);
      [apply step_crash_before|apply step_crash_after].
Qed.

(** The run follows the specification to its end, or to the point where blocks that
    do not lie on the device would have to be written. *)
Definition follows v (X : fs * fs) (evs : list event) (o : result (BafsVolume D)) : Prop :=
  exists done rest v' X', evs = done ++ rest /\ vol_run v done (Ok v') /\ fs_run X done X' /\ tracks v' X'.1 X'.2
    /\ (rest = [] /\ o = Ok v'
        \/ (exists ev, head rest = Some ev /\ writes_device ev = true) /\ ~ within_device v').

Lemma tracks_run evs : forall v C A o,
  tracks v C A -> allowed (C, A) evs -> vol_run v evs o -> follows v (C, A) evs o.
Proof.
  induction evs as [|ev evs IH]; intros v C A o Ht Hall Hrun.
  { inversion Hrun; subst. exists [], [], v, (C, A). split; [done|]. split; [constructor|]. split; [constructor|]. auto. }
  destruct Hall as [Hok Hall].
  destruct (decide (writes_device ev = true /\ ~ vol_next_free_block v * 4096 <= len (content (device v)))) as [[Hw Hno]|Hdev].
  { exists [], (ev :: evs), v, (C, A). split; [done|]. split; [constructor|]. split; [constructor|]. split; [done|].
    right. split; [by exists ev|done]. }
  assert (writes_device ev = true -> within_device v) as Hin.
  { intros Hw. unfold within_device. destruct (Z_le_dec (vol_next_free_block v * 4096) (len (content (device v)))); [done|]. by destruct Hdev. }
  inversion Hrun as [|? ? v' ? Hev Hrest|? ? ? Hev Hno]; subst;
    destruct (tracks_event _ _ _ _ _ Ht Hok Hin Hev) as (v1 & C1 & A1 & Eo & Hst & Ht1); [|by destruct (Hno v1)].
  injection Eo as ->. destruct (IH _ _ _ _ Ht1 (Hall _ Hst) Hrest) as (past & rest & v2 & X2 & -> & Hr2 & Hf2 & Ht2 & Hend).
  exists (ev :: past), rest, v2, X2. split; [done|]. split; [by econstructor|]. split; [by econstructor|]. done.
Qed.
(** Where the blocks of the volume stay on the device the whole run is followed. *)
Lemma follows_whole v X evs o :
  follows v X evs o ->
  (forall past ev rest v', evs = past ++ ev :: rest -> writes_device ev = true -> vol_run v past (Ok v') -> within_device v') ->
  exists v' X', o = Ok v' /\ fs_run X evs X' /\ tracks v' X'.1 X'.2.
Proof.
  intros (past & rest & v' & X' & -> & Hrun & Hfs & Ht & [[-> ->]|[(ev & Hhd & Hw) Hno]]) Hin.
  - exists v', X'. by rewrite app_nil_r.
  - destruct rest as [|ev' rest]; simplify_eq/=. destruct Hno. by eapply Hin.
Qed.

Lemma vol_run_request v budget q r v' : vol_run v [Request budget q r] (Ok v') -> execute q v = (v', r).
Proof.
  intros Hrun. inversion Hrun as [|? ? v1 ? Hev Hnil|? ? ? Hev Hno]; subst; inversion Hev; subst; [|by destruct (Hno v')].
  inversion Hnil; subst. done.
Qed.
End history.

(** ** New volumes *)

Section new_volume.
Context {D : Type} `{BlockDevice D} `{!TreeStore D}.

Lemma new_fs_view (v : BafsVolume D) s : sb_allocated_inode_count (superblock v) = 1 -> fs_view v new_inodes s new_fs.
Proof.
  intros Hc. assert (forall p name, dir_lookup new_inodes p name = None) as Hd.
  { intros p name. unfold dir_lookup, new_inodes. by rewrite lookup_singleton_ne. }
  split; simpl; [done| | | | |].
  - intros n Hn. destruct (decide (n = 1)) as [->|Hne].
    + rewrite lookup_singleton_eq. exists (new_directory BAFS_ROOT_INODE_NUMBER 1 0). split; try done.
      * split; [apply lookup_singleton_eq|]. apply new_directory_wf; unfold BAFS_ROOT_INODE_NUMBER; ilia.
      * intros k Ho Ht. unfold new_inodes. rewrite lookup_singleton_ne; [done|]. by intros <-.
    + rewrite lookup_singleton_ne by done. simpl. unfold new_inodes. rewrite lookup_singleton_ne; [done|].
      intros [= Hk]. unfold BAFS_ROOT_INODE_NUMBER in Hk. congruence.
  - intros p name. by rewrite Hd.
  - intros p name n Hn. by rewrite lookup_empty in Hn.
  - intros x y n Hx. by rewrite lookup_empty in Hx.
  - intros p name e He. by rewrite Hd in He.
Qed.
End new_volume.

Section formatted.
Context `{BlockDeviceLaws D}.

(** A device that can be formatted. *)
Record formattable (d : D) (options : BafsFormatOptions) : Prop := {
  fm_options : options_wf options;
  fm_up : device_up d;
  fm_sectors : 0 <= total_sector_count d /\ total_sector_count d / 8 * 4096 <= len (content d) < 2 ^ 64;
}.

Lemma format_tracks (d : D) options :
  formattable d options -> let total := total_sector_count d / 8 in
  compute_data_area_start_block total + 13 <= total ->
  exists d' v, bafs_format options d = (d', Ok tt) /\ bafs_mount d' = (d', Ok v) /\ tracks v new_fs new_fs
    /\ v = mounted d' (seal_with_checksum (new_superblock options total)) /\ length (content d') = length (content d)
    /\ image d' BAFS_PRIMARY_SUPERBLOCK_BLOCK_ADDRESS = superblock_block (new_superblock options total)
    /\ settled d' (new_superblock options total)
    /\ tree_in v free_tree (sb_free_extent_tree_root_block (superblock v)) (free_encode (new_free_map total)).
Proof.
  intros [Hopt Hup [Hs Hdev]] total Hmin.
  destruct (format_settled d options total) as (d' & E & Hup' & Hlen & Hprim & Hset & Hv & Hfree); try done; [|lia..|].
  { apply Z.div_pos; lia. }
  eexists d', _. split; [exact E|]. split; [by apply settled_mount|]. split; [|done].
  eapply tracks_mounted; [done|done|]. split; [exact Hv|]. by apply new_fs_view.
Qed.
End formatted.
