(* ===== verification/Retry.v ===== *)
(** * Retry: commits that fail and are tried again

    When a device write fails, [flush_and_commit] returns its error and leaves the
    volume with its cache, a superblock that already counts the transaction, and a
    device that holds part of the writes.  The next attempt writes the same
    transaction again: however many attempts fail, one on a working device commits
    it. *)

From S2P Require Import Prelude Checksum Device Superblock Node NodeCodec BTree BTreeInv BTreeWrite.
From S2P Require Import BTreeInsert BTreeDelete TreeStore Inode Extent FreeSpace ChecksumTree XxHash Dir Journal JournalLaws.
From S2P Require Import Volume FileModel VolumeInv VolumeDirs VolumeUnlink VolumeFiles FileContents VolumeCommit FileSystem Format History.

(** ** Superblocks of a failed commit *)

(** [sb'] differs from [sb] at most in what a commit sets: the allocation boundary,
    the transaction and the checksum. *)
Definition sb_like (sb sb' : BafsSuperblock) : Prop :=
  exists next id checksum, sb' = sb_set_checksum (sb_set_transaction (sb_set_next_cow sb next) id) checksum.

Lemma sb_like_refl sb : sb_like sb sb.
Proof.
  exists (sb_next_cow_block_address sb), (sb_last_committed_transaction_id sb), (sb_superblock_checksum sb). by destruct sb.
Qed.

Lemma sb_like_next sb sb' next : sb_like sb sb' -> sb_like sb (sb_set_next_cow sb' next).
Proof. intros (n & id & c & ->). by exists next, id, c. Qed.

Lemma sb_like_sealed sb next id : sb_like sb (seal_with_checksum (sb_set_transaction (sb_set_next_cow sb next) id)).
Proof. by exists next, id, (compute_checksum (sb_set_transaction (sb_set_next_cow sb next) id)). Qed.

(** Sealing replaces the checksum whatever it was. *)
Lemma seal_set_checksum sb c : sb_wf sb -> sb_wf (sb_set_checksum sb c) -> seal_with_checksum (sb_set_checksum sb c) = seal_with_checksum sb.
Proof.
  intros Hw Hw'. unfold seal_with_checksum, compute_checksum. rewrite !serialise_superblock_header by done. reflexivity.
Qed.

Lemma seal_like sb sb' next id :
  sb_like sb sb' -> sb_wf sb -> sb_wf sb' -> is_u64 next -> is_u64 id ->
  seal_with_checksum (sb_set_transaction (sb_set_next_cow sb' next) id)
  = seal_with_checksum (sb_set_transaction (sb_set_next_cow sb next) id).
Proof.
  intros (n & i & c & ->) Hw Hw' Hn Hid.
  change (sb_set_transaction (sb_set_next_cow (sb_set_checksum (sb_set_transaction (sb_set_next_cow sb n) i) c) next) id)
    with (sb_set_checksum (sb_set_transaction (sb_set_next_cow sb next) id) c).
  assert (sb_wf (sb_set_transaction (sb_set_next_cow sb next) id)) as Hy.
  { apply sb_wf_set_transaction; [|done]. destruct Hw. by apply sb_wf_with. }
  apply seal_set_checksum; [done|]. apply sb_wf_set_checksum; [done|]. exact (wf_checksum _ Hw').
Qed.

Section retry.
Context `{BlockDeviceLaws D} `{!TreeStore D}.
Implicit Types v w : BafsVolume D.

Lemma st_bind_stop {S E} (m : ST S E unit) (f : unit -> ST S E unit) s s' r :
  m s = (s', r) -> r <> Ok tt -> st_bind m f s = (s', r).
Proof. intros Hm Hr. unfold st_bind. rewrite Hm. by destruct r as [[]| | |]. Qed.

Lemma on_part_eq (m : ST D BafsError unit) d (sb : BafsSuperblock) d' r :
  m d = (d', r) -> on_device_part m (d, sb) = ((d', sb), r).
Proof. intros Hm. unfold on_device_part, st_zoom. cbn [fst snd]. by rewrite Hm. Qed.

(** Two superblocks of the same volume: a commit does the same to the device, and it
    leaves the same superblock if it reaches it. *)
Lemma commit_like d sb sb' next id cache :
  sb_like sb sb' -> sb_wf sb -> sb_wf sb' -> is_u64 next -> is_u64 id ->
  exists d1 sb1 sb1' r,
    commit_transaction {| transaction_id := id |} cache (d, sb_set_next_cow sb next) = ((d1, sb1), r)
    /\ commit_transaction {| transaction_id := id |} cache (d, sb_set_next_cow sb' next) = ((d1, sb1'), r)
    /\ (r <> Ok tt /\ sb1' = sb_set_next_cow sb' next
        \/ sb1' = sb1 /\ sb1 = seal_with_checksum (sb_set_transaction (sb_set_next_cow sb next) id)).
Proof.
  intros Hlike Hw Hw' Hn Hid. pose proof (seal_like sb sb' next id Hlike Hw Hw' Hn Hid) as Hseal.
  assert (forall d, write_superblock_to_device (d, sb_set_transaction (sb_set_next_cow sb' next) id)
    = write_superblock_to_device (D:=D) (d, sb_set_transaction (sb_set_next_cow sb next) id)) as Hwrite.
  { intros e. unfold write_superblock_to_device. rewrite !st_bind_modify. by rewrite Hseal. }
  assert (forall d, exists d1 r, write_superblock_to_device (D:=D) (d, sb_set_transaction (sb_set_next_cow sb next) id)
    = ((d1, seal_with_checksum (sb_set_transaction (sb_set_next_cow sb next) id)), r)) as Hsealed.
  { intros e. unfold write_superblock_to_device. rewrite st_bind_modify, st_bind_get. unfold st_zoom. cbn [fst snd].
    destruct (st_bind _ _ e) as [d1 r]. by exists d1, r. }
  unfold commit_transaction. destruct (decide (cache = ∅)) as [_|Hne]; cbn [transaction_id].
  - rewrite !st_bind_modify, Hwrite. destruct (Hsealed d) as (d1 & r & E). rewrite E.
    do 4 eexists. split; [done|]. split; [done|]. by right.
  - destruct (build_commit_record id (cache_entries cache)) as [record|e| |] eqn:Er;
      [|unfold st_bind, st_lift; by do 4 eexists; (split; [done|]); (split; [done|]); left..].
    rewrite !(st_bind_lift _ _ _ _ eq_refl), !st_bind_get.
    assert (write_bytes_to_journal (sb_set_next_cow sb' next) record d = write_bytes_to_journal (sb_set_next_cow sb next) record d) as Ej.
    { destruct Hlike as (n & i & c & ->). reflexivity. }
    destruct (write_bytes_to_journal (sb_set_next_cow sb next) record d) as [d1 r1] eqn:E1.
    pose proof (on_part_eq _ d (sb_set_next_cow sb next) d1 r1 E1) as EX. pose proof (on_part_eq _ d (sb_set_next_cow sb' next) d1 r1 Ej) as EX'.
    destruct (decide (r1 = Ok tt)) as [->|Hr1].
    2: { do 4 eexists. split; [by apply st_bind_stop|]. split; [by apply st_bind_stop|]. by left. }
    rewrite (st_bind_Ok _ _ _ _ _ EX), (st_bind_Ok _ _ _ _ _ EX').
    destruct (write_blocks_home (cache_entries cache) d1) as [d2 r2] eqn:E2.
    pose proof (on_part_eq _ d1 (sb_set_next_cow sb next) d2 r2 E2) as EY. pose proof (on_part_eq _ d1 (sb_set_next_cow sb' next) d2 r2 E2) as EY'.
    destruct (decide (r2 = Ok tt)) as [->|Hr2].
    2: { do 4 eexists. split; [by apply st_bind_stop|]. split; [by apply st_bind_stop|]. by left. }
    rewrite (st_bind_Ok _ _ _ _ _ EY), (st_bind_Ok _ _ _ _ _ EY'). rewrite !st_bind_modify, Hwrite.
    destruct (Hsealed d2) as (d3 & r & E). rewrite E. do 4 eexists. split; [done|]. split; [done|]. by right.
Qed.

(** ** Attempts *)

(** [w] is the volume [v] after some failed attempts to commit it: the same
    transaction, on a device on which only the blocks that the commit writes may
    differ. *)
Record pending v w : Prop := {
  pd_cache : dirty_block_cache w = dirty_block_cache v;
  pd_id : next_transaction_id w = next_transaction_id v;
  pd_next : vol_next_free_block w = vol_next_free_block v;
  pd_superblock : sb_like (superblock v) (superblock w);
  pd_wf : sb_wf (superblock w);
  pd_length : length (content (device w)) = length (content (device v));
  pd_readable : readable (device w);
  pd_blocks : forall a, data_start (superblock v) <= a -> dirty_block_cache v !! a = None -> image (device w) a = image (device v) a;
  pd_journal : dirty_block_cache v = ∅ -> forall a, BAFS_JOURNAL_START_BLOCK_ADDRESS <= a -> image (device w) a = image (device v) a;
}.

(** An attempt goes like one of [v] on the same device. *)
Lemma flush_like v w w1 r :
  pending v w -> sb_wf (superblock v) -> is_u64 (next_transaction_id v) -> is_u64 (vol_next_free_block v) ->
  flush_and_commit w = (w1, r) ->
  exists u1, flush_and_commit (set_device v (device w)) = (u1, r) /\ device u1 = device w1 /\ (r = Ok tt -> w1 = u1)
    /\ (r <> Ok tt -> dirty_block_cache w1 = dirty_block_cache v /\ next_transaction_id w1 = next_transaction_id v
         /\ vol_next_free_block w1 = vol_next_free_block v /\ sb_like (superblock v) (superblock w1) /\ sb_wf (superblock w1)).
Proof.
  intros [Hc Hid Hn Hsb Hwf _ _ _ _] Hwf0 Hi Hnx.
  destruct (commit_like (device w) (superblock v) (superblock w) (vol_next_free_block v) (next_transaction_id v) (dirty_block_cache v)
    Hsb Hwf0 Hwf Hnx Hi) as (d1 & sb1 & sb1' & rc & E & E' & Hres).
  assert (sb_like (superblock v) sb1' /\ sb_wf sb1') as [Hlike1 Hwf1].
  { destruct Hres as [[_ ->]|[-> ->]].
    - split; [by apply sb_like_next|]. destruct Hwf. by apply sb_wf_with.
    - split; [apply sb_like_sealed|]. apply sb_wf_seal, sb_wf_set_transaction; [|done]. destruct Hwf0. by apply sb_wf_with. }
  rewrite (flush_eq (set_device v (device w)) d1 sb1 rc E), (flush_eq w d1 sb1' rc) by (rewrite Hid, Hc, Hn; exact E').
  cbn [set_device next_transaction_id vol_next_free_block]. rewrite Hid.
  assert (forall r', r' <> Ok tt -> (attempted w d1 sb1', r') = (w1, r) ->
    exists u1, (attempted (set_device v (device w)) d1 sb1, r') = (u1, r) /\ device u1 = device w1 /\ (r = Ok tt -> w1 = u1)
    /\ (r <> Ok tt -> dirty_block_cache w1 = dirty_block_cache v /\ next_transaction_id w1 = next_transaction_id v
         /\ vol_next_free_block w1 = vol_next_free_block v /\ sb_like (superblock v) (superblock w1) /\ sb_wf (superblock w1))) as Hfail.
  { intros r' Hr' [= <- <-]. eexists. split; [reflexivity|]. split; [reflexivity|]. split; [done|]. intros _. by cbn. }
  destruct rc as [[]|e| |]; try (apply Hfail; done). destruct Hres as [[Hno _]|[-> _]]; [done|].
  destruct (checked_add 64 (next_transaction_id v) 1) as [next|e| |]; try (apply Hfail; done).
  intros [= <- <-]. eexists. split; [reflexivity|]. split; [reflexivity|]. split; [|done]. intros _. by rewrite Hn.
Qed.

(** With nothing dirty an attempt touches the superblocks alone. *)
Lemma flush_empty_writes v m s v' r :
  vol_rep v m s -> flushable v -> dirty_block_cache v = ∅ -> flush_and_commit v = (v', r) ->
  length (content (device v')) = length (content (device v))
  /\ forall a, BAFS_JOURNAL_START_BLOCK_ADDRESS <= a -> image (device v') a = image (device v) a.
Proof.
  intros Hv Hfl Hnil E. pose proof (flush_empty_interrupted v m s v' r Hv Hfl Hnil E) as Hint. split; [apply Hint|].
  unfold BAFS_JOURNAL_START_BLOCK_ADDRESS. intros a Ha. by apply (superblocks_interrupted _ _ _ Hint).
Qed.

(** Whatever happens to an attempt, only the blocks of the commit change. *)
Lemma flush_leaves v m s v' r :
  vol_rep v m s -> flushable v -> flush_and_commit v = (v', r) ->
  length (content (device v')) = length (content (device v))
  /\ (forall a, data_start (superblock v) <= a -> dirty_block_cache v !! a = None -> image (device v') a = image (device v) a)
  /\ (dirty_block_cache v = ∅ -> forall a, BAFS_JOURNAL_START_BLOCK_ADDRESS <= a -> image (device v') a = image (device v) a).
Proof.
  intros Hv Hfl E. pose proof (vl_start _ _ (fl_layout _ Hfl)) as Hst. pose proof (vl_size _ _ (fl_layout _ Hfl)) as Hsz.
  destruct (decide (dirty_block_cache v = ∅)) as [Hnil|Hne].
  - destruct (flush_empty_writes v m s v' r Hv Hfl Hnil E) as [Hl Himg]. split; [exact Hl|]. split; [|done].
    intros a Ha _. apply Himg. unfold data_start in Ha. lia.
  - pose proof (flush_interrupted v m s v' r Hv Hfl Hne E) as Hint. split; [apply Hint|]. split; [|by intros Hnil].
    pose proof (vr_boundary _ _ _ Hv) as Hb. intros a Ha Hnone.
    destruct (interrupted_crash_state _ _ _ _ _ (flush_ready v m s Hv Hfl Hne) Hint) as [Himg|rest _ _ Himg|rest _ _ Himg];
      unfold data_start in *; simpl in Himg.
    + apply Himg; lia.
    + by apply Himg.
    + rewrite Himg by done. by rewrite Hnone.
Qed.

Section attempts.
Context (v : BafsVolume D) (C A : fs) (Htracks : tracks v C A) (Hcommittable : committable v).

(** The volume [v], on the device of a failed attempt. *)
Lemma pending_volume w :
  pending v w -> exists m s, fs_rep (set_device v (device w)) m s A /\ flushable (set_device v (device w))
    /\ (dirty_block_cache v = ∅ ->
        parse_journal (journal_area (device w) (superblock v)) (next_transaction_id v) = Ok None).
Proof.
  intros Hp. destruct Htracks as (sb & m0 & s0 & m & s & Hup & [Hl _ Hj _ _] & Hf0 & G & Hf).
  pose proof (committable_flushable _ _ _ _ _ Hl G (proj1 Hf) Hcommittable) as Hfl. pose proof (vr_boundary _ _ _ (proj1 Hf)) as Hb.
  exists m, s. split; [|split].
  - apply fs_rep_device; [done|]. apply shows_blocks_image; [lia|apply up_readable; [done|apply Hl]|apply Hp|apply Hp|apply Hcommittable|apply Hp].
  - destruct Hfl as [Hlay Hdev Hfit Hid]. split; simpl; [|by rewrite (pd_length _ _ Hp)|done|done].
    eapply volume_layout_length; [apply Hp|done].
  - intros Hnil. destruct G as [_ Hi _ (fc & ic & ir & fr & cr & nc & Hsb)]. simpl in Hi. rewrite Hi.
    assert (journal_area (device w) (superblock v) = journal_area (device v) sb) as ->.
    { rewrite Hsb. unfold journal_area. apply (f_equal (@concat Z)), list_fmap_ext. intros i a Ha%lookup_seqZ. apply (pd_journal _ _ Hp Hnil).
      pose proof (vl_start _ _ Hl). simpl in Ha. lia. }
    by apply (parse_journal_mono _ (sb_last_committed_transaction_id sb)); [simpl; lia|].
Qed.

Lemma pending_start d : content d = content (device v) -> readable d -> pending v (set_device v d).
Proof.
  intros Hc Hr. destruct Htracks as (sb & m0 & s0 & m & s & _ & _ & _ & _ & [Hv _]).
  split; cbn [set_device device dirty_block_cache next_transaction_id vol_next_free_block superblock];
    [reflexivity|reflexivity|reflexivity|apply sb_like_refl|apply Hv|by rewrite Hc|exact Hr|..]; intros; unfold image; by rewrite Hc.
Qed.

Lemma pending_again w w1 r d :
  pending v w -> flush_and_commit w = (w1, r) -> r <> Ok tt -> content d = content (device w1) -> readable d ->
  pending v (set_device w1 d).
Proof.
  intros Hp E Hr Hc Hrd. destruct (pending_volume w Hp) as (m & s & [Hv _] & Hfl & _).
  pose proof (vr_boundary _ _ _ Hv) as Hb. simpl in Hb.
  destruct (flush_like v w w1 r Hp) as (u1 & Eu & Hdev & _ & Hkeep); [apply Hv|apply Hv|split; unfold u64_max; simpl in *; lia|exact E|].
  destruct (Hkeep Hr) as (Ec & Ei & En & Hsb & Hwf).
  destruct (flush_leaves _ m s u1 r Hv Hfl Eu) as (Hl & Himg & Hj). rewrite Hdev in Hl, Himg, Hj. simpl in Hl, Himg, Hj.
  assert (forall a, image d a = image (device w1) a) as Hd by (intros a; unfold image; by rewrite Hc).
  split; cbn [set_device device dirty_block_cache next_transaction_id vol_next_free_block superblock];
    [exact Ec|exact Ei|exact En|exact Hsb|exact Hwf|rewrite Hc, Hl; apply Hp|exact Hrd|..].
  - intros a Ha Hnone. rewrite Hd, Himg by done. by apply (pd_blocks _ _ Hp).
  - intros Hnil a Ha. rewrite Hd, Hj by done. by apply (pd_journal _ _ Hp).
Qed.

(** An attempt on a working device commits. *)
Lemma pending_commits w :
  pending v w -> device_up (device w) ->
  exists v', flush_and_commit w = (v', Ok tt) /\ bafs_mount (device v') = (device v', Ok v') /\ tracks v' A A.
Proof.
  intros Hp Hup. destruct (pending_volume w Hp) as (m & s & Hf & Hfl & Hj). pose proof Hf as [Hv _].
  pose proof (vr_boundary _ _ _ Hv) as Hb. simpl in Hb.
  destruct (flush_settled _ m s Hv Hfl Hup Hj) as (d' & E & Hup' & _ & _ & Hs' & Hrl).
  destruct (flush_and_commit w) as [v' r] eqn:Ew.
  destruct (flush_like v w v' r Hp) as (u1 & Eu & _ & Hsame & _); [apply Hv|apply Hv|split; unfold u64_max; simpl in *; lia|exact Ew|].
  rewrite E in Eu. injection Eu as <- <-. rewrite (Hsame eq_refl) in *. eexists. split; [reflexivity|].
  split; [by apply settled_mount|]. eapply tracks_mounted; [done|done|by eapply fs_rep_reload].
Qed.
End attempts.

(** The volumes that failed attempts to commit [v] leave; before each attempt the
    device may change in whether it works, not in what it holds. *)
Inductive attempts v : BafsVolume D -> Prop :=
  | attempts_start d : content d = content (device v) -> readable d -> attempts v (set_device v d)
  | attempts_again w w1 r d :
      attempts v w -> flush_and_commit w = (w1, r) -> r <> Ok tt -> content d = content (device w1) -> readable d ->
      attempts v (set_device w1 d).

Lemma attempts_pending v C A w : tracks v C A -> committable v -> attempts v w -> pending v w.
Proof.
  intros Ht Hcm. induction 1 as [d Hc Hr|w w1 r d _ IH E Hr Hc Hrd]; [by eapply pending_start|by eapply pending_again].
Qed.
End retry.
