(* ===== verification/Examples.v ===== *)
(** * Examples: the concrete volume of the witnesses

    A device of 1 GiB, its format and a file on it: where the hypotheses of the
    properties of a whole volume hold together. *)

From S2P Require Import Prelude Checksum Device Superblock Node NodeCodec BTree BTreeInv BTreeWrite.
From S2P Require Import BTreeInsert BTreeDelete TreeStore Inode Extent FreeSpace ChecksumTree XxHash Dir Journal JournalLaws.
From S2P Require Import Volume FileModel VolumeInv VolumeDirs VolumeUnlink VolumeFiles FileContents VolumeCommit FileSystem Format History.

(** *** A volume of 2^18 blocks (1 GiB) with a file *)

Definition example_name : list Z := [97].

Lemma example_name_str : is_str example_name.
Proof. apply ascii_is_str. repeat constructor; lia. Qed.

Lemma create_example_admissible A : fs_count A < 100 -> admissible A (CreateFile 1 example_name).
Proof. intros Hc. split; [lia|]. split; [apply example_name_str|lia]. Qed.

(** The new file, number 2. *)
Definition example_fs : fs := (spec (CreateFile 1 example_name) new_fs).1.

Lemma example_fs_eq : spec (CreateFile 1 example_name) new_fs = (example_fs, Ok (Number 2)).
Proof. reflexivity. Qed.

Section example.
Context `{BlockDeviceLaws D}.
Implicit Types v : BafsVolume D.

Local Abbreviation example_sb := (new_superblock BafsFormatOptions_default (2 ^ 18)).

(** The new volume after [k] updates. *)
Definition example_after v (k : Z) : Prop :=
  exists d' m s, vol_rep (mounted d' (seal_with_checksum example_sb)) m s /\ vol_moved (mounted d' (seal_with_checksum example_sb)) v k.

Lemma example_after_moved v v' k j : example_after v k -> vol_moved v v' j -> example_after v' (k + j).
Proof. intros (d' & m & s & Hv & M) M'. exists d', m, s. split; [done|by eapply vol_moved_trans]. Qed.

Lemma example_room (d' : D) k : 0 <= k <= 1000 -> vol_room (mounted d' (seal_with_checksum example_sb)) k.
Proof.
  intros Hk. unfold vol_room. cbn [mounted superblock vol_next_free_block].
  change (sb_next_cow_block_address _) with 2631. change (sb_free_block_count _) with (2 ^ 18 - 2631).
  change (OP_BLOCKS 2631) with 868257. lia.
Qed.

Lemma example_after_room v k j : example_after v k -> 0 <= k -> 0 <= j -> k + j <= 1000 -> vol_room v j.
Proof. intros (d' & m & s & _ & M) Hk Hj Hle. eapply vol_room_moved; [|exact M]. apply example_room. lia. Qed.

(** The updates take far less than the volume has: a new volume has seven blocks to
    return. *)
Lemma example_after_next v k :
  example_after v k -> vol_next_free_block v <= 4941 + 27 * k /\ sb_total_block_count (superblock v) = 2 ^ 18
    /\ sb_journal_size_in_blocks (superblock v) = 2621.
Proof.
  intros (d' & m & s & Hv & M). pose proof (vol_moved_next _ _ _ _ _ Hv M) as Hn.
  change (vol_next_free_block (mounted d' _)) with 2631 in Hn. change (6 * FREE_BLOCKS * _) with 2310 in Hn. unfold INSERT_BLOCKS in Hn.
  pose proof (vs_superblock _ _ _ (vm_step _ _ _ M)) as (fc & ic & ir & fr & cr & ->). split; [lia|done].
Qed.

Lemma example_after_grown v k : example_after v k -> exists d', grown (mounted d' (seal_with_checksum example_sb)) v.
Proof. intros (d' & m & s & _ & M). exists d'. eapply grown_step; [apply grown_refl|apply M]. Qed.

(** A few updates fit the journal. *)
Lemma example_after_committable v m s k :
  example_after v k -> vol_rep v m s -> k <= 9 -> len (content (device v)) = 2 ^ 30 -> committable v.
Proof.
  intros Ha Hv Hk Hl. destruct (example_after_next v k Ha) as (Hn & _ & Hj). destruct (example_after_grown v k Ha) as (d' & G).
  pose proof (cache_entries_count _ _ _ _ _ G Hv) as Hc. change (sb_next_cow_block_address _) with 2631 in Hc.
  split; [rewrite Hl; lia| |rewrite (gr_id _ _ G); change (1 + 1 + 1 < 2 ^ 64); lia]. unfold record_fits. rewrite Hj. lia.
Qed.

Lemma example_write_ready v A f off data k :
  example_after v k -> 0 <= k <= 100 -> fs_nodes A !! 2 = Some (FileNode f) ->
  file_blocks f <= 2 -> bytes_ok data -> 0 < len data <= 8192 -> 0 <= off < 2 ^ 32 -> write_ready v A 2 f off data.
Proof.
  intros Ha Hk Hnode Hbl Hok Hlen Hoff. pose proof (block_count_for_bounds data). destruct (example_after_next v k Ha) as (Hn & Ht & _).
  split; try done; [lia|lia|lia|lia|rewrite Ht; lia|]. eapply (example_after_room v k); [done|lia|lia|lia].
Qed.

Context (d : D) (Hd : formattable d BafsFormatOptions_default) (Hsectors : total_sector_count d = 2 ^ 21).

Lemma example_total : total_sector_count d / 8 = 2 ^ 18.
Proof. by rewrite Hsectors. Qed.

Lemma example_large : compute_data_area_start_block (total_sector_count d / 8) + 13 <= total_sector_count d / 8.
Proof. rewrite example_total. vm_compute. discriminate. Qed.

Lemma example_new :
  exists d', let v := mounted d' (seal_with_checksum example_sb) in
    bafs_format BafsFormatOptions_default d = (d', Ok tt) /\ bafs_mount d' = (d', Ok v)
    /\ tracks v new_fs new_fs /\ length (content d') = length (content d)
    /\ image d' BAFS_PRIMARY_SUPERBLOCK_BLOCK_ADDRESS = superblock_block example_sb /\ settled d' example_sb.
Proof.
  destruct (format_tracks d BafsFormatOptions_default Hd example_large) as (d' & v & E & Em & Ht & -> & Hlen & Hp & Hs & _).
  rewrite example_total in *. exists d'. auto 10.
Qed.

(** The file is created. *)
Lemma example_create (d' : D) m s :
  let v0 := mounted d' (seal_with_checksum example_sb) in
  fs_rep v0 m s new_fs ->
  exists v m' s', volume_create_file 1 example_name v0 = (v, Ok 2) /\ fs_rep v m' s' example_fs /\ vol_moved v0 v 2.
Proof.
  intros v0 Hf.
  pose proof (fs_rep_create v0 m s new_fs new_regular_file CHILD_TYPE_REGULAR_FILE (FileNode new_file) 1 example_name Hf
    (example_room d' 2 ltac:(lia)) new_regular_file_fresh ltac:(by split) (create_example_admissible new_fs ltac:(done)) file_node_new eq_refl)
    as (v & m' & s' & E & Hf' & M).
  change (spec_create (FileNode new_file) 1 example_name new_fs) with (spec (CreateFile 1 example_name) new_fs) in *.
  rewrite example_fs_eq in *. exists v, m', s'. split; [|done].
  change (volume_create_file 1 example_name v0) with (volume_create_entry new_regular_file CHILD_TYPE_REGULAR_FILE 1 example_name v0).
  destruct (volume_create_entry _ _ _ _ v0) as [v1 r]. injection E as -> Er. by destruct r; simplify_eq/=.
Qed.

Lemma example_file :
  exists d' v m s, let v0 := mounted d' (seal_with_checksum example_sb) in
    bafs_format BafsFormatOptions_default d = (d', Ok tt) /\ bafs_mount d' = (d', Ok v0)
    /\ volume_create_file 1 example_name v0 = (v, Ok 2) /\ fs_rep v m s example_fs /\ example_after v 2
    /\ tracks v new_fs example_fs /\ settled d' example_sb /\ device v = d' /\ length (content d') = length (content d)
    /\ image d' BAFS_PRIMARY_SUPERBLOCK_BLOCK_ADDRESS = superblock_block example_sb.
Proof.
  destruct example_new as (d' & E & Em & Ht & Hlen & Hp & Hs). pose proof Ht as (sb & m0 & s0 & m & s & _ & _ & _ & _ & Hf).
  destruct (example_create d' m s Hf) as (v & m' & s' & Ec & Hf' & M). exists d', v, m', s'. do 4 (split; [done|]).
  split; [exists d', m, s; split; [apply Hf|done]|]. split; [by eapply tracks_step; [..|apply M|]|].
  split; [done|]. split; [by rewrite (vs_device _ _ _ (vm_step _ _ _ M))|done].
Qed.

(** The file with its first bytes. *)
Lemma example_file_written data :
  bytes_ok data -> 0 < len data <= 8192 ->
  exists (v : BafsVolume D) m s, let f := file_write 0 data new_file in
    fs_rep v m s (fs_set_node example_fs 2 (FileNode f)) /\ write_ready v (fs_set_node example_fs 2 (FileNode f)) 2 f 3 [7]
    /\ write_ready v (fs_set_node example_fs 2 (FileNode f)) 2 f 3 [8] /\ write_ready v (fs_set_node example_fs 2 (FileNode f)) 2 f 0 [7].
Proof.
  intros Hok Hlen. destruct example_file as (d' & v & m & s & _ & _ & _ & Hf & Ha & _).
  pose proof (block_count_for_bounds data) as Hbc. set (nb := block_count_for data) in *.
  destruct (write_outcome v m s example_fs 2 new_file 0 data Hf) as (v' & m' & s' & _ & Hf' & M).
  { eapply (example_write_ready v example_fs); [exact Ha|lia|done|done|done|done|done]. }
  fold nb in M. pose proof (example_after_moved _ _ _ _ Ha M) as Ha'. exists v', m', s'. cbv zeta. split; [exact Hf'|].
  split; [|split]; (eapply example_write_ready;
    [exact Ha'|lia|reflexivity|change (0 + nb <= 2); lia|by repeat constructor|done|done]).
Qed.
End example.

(** *** A volume with an uncommitted block *)

Section touched.
Context `{BlockDeviceLaws D}.

Definition touched (v : BafsVolume D) : BafsVolume D :=
  {| device := device v; superblock := superblock v;
     dirty_block_cache := <[vol_next_free_block v := zeros 4096]> (dirty_block_cache v);
     next_transaction_id := next_transaction_id v; vol_next_free_block := vol_next_free_block v + 1 |}.

Lemma touched_step v : vol_step v (touched v) 1.
Proof.
  split; simpl; [done|done| |lia|].
  - split; simpl; [lia|done| |].
    + intros x Hx. rewrite lookup_insert_ne by lia. done.
    + intros x b [[<- <-]|[_ Hx]]%lookup_insert_Some; [|by left]. right. split; [lia|].
      split; [by rewrite length_zeros|apply zeros_bytes_ok].
  - do 5 eexists. symmetry. apply sb_with_same.
Qed.

Lemma touched_rep v m s A : fs_rep v m s A -> vol_next_free_block v + 1 < 2 ^ 64 -> fs_rep (touched v) m s A.
Proof.
  intros [Hv [Hc Hnodes Hnames Hnamed Huniq Htypes]] Hn. pose proof (touched_step v) as S. split.
  - pose proof (wf_inodes _ (vr_wf _ _ _ Hv)) as Hu. pose proof (wf_free _ (vr_wf _ _ _ Hv)) as Hfc.
    unfold is_u64, u64_max in Hu. destruct (vr_free _ _ _ Hv) as (fe & Hfe & Hok).
    apply (vol_rep_step v (touched v) 1 m s); try done; simpl; [lia|..].
    + eapply tree_in_step; [exact S|apply Hv].
    + eapply tree_in_step; [exact S|apply Hv].
    + exists fe. split; [|done]. by eapply tree_in_step.
    + apply Hv.
    + eapply extents_wf_mono; [|apply Hv]. lia.
    + apply Hv.
  - split; try done. intros n Hnn. eapply node_rep_step; [by apply Hnodes|exact S|apply same_object_refl|done].
Qed.

Lemma touched_tracks v C A : tracks v C A -> vol_next_free_block v + 1 < 2 ^ 64 -> tracks (touched v) C A.
Proof.
  intros Ht Hn. pose proof Ht as (sb & m0 & s0 & m & s & _ & _ & _ & _ & Hf).
  eapply tracks_step; [exact Ht|apply touched_step|by apply touched_rep].
Qed.

Lemma touched_dirty v : dirty_block_cache (touched v) <> ∅.
Proof. apply insert_non_empty. Qed.

(** A commit that stopped after its record. *)
Lemma record_in_journal v m s :
  vol_rep v m s -> flushable v -> dirty_block_cache v <> ∅ -> device_up (device v) ->
  exists d1 rest, device_up d1 /\ length (content d1) = length (content (device v))
    /\ journal_area d1 (superblock v)
       = commit_record (next_transaction_id v) (cache_entries (dirty_block_cache v)) ++ rest
    /\ forall a, 0 <= a -> ~ (BAFS_JOURNAL_START_BLOCK_ADDRESS <= a < data_start (superblock v)) -> image d1 a = image (device v) a.
Proof.
  intros Hv Hfl Hdirty Hup. pose proof (flush_ready v m s Hv Hfl Hdirty) as Hready.
  set (sb := sb_set_next_cow (superblock v) (vol_next_free_block v)) in *.
  set (record := commit_record (next_transaction_id v) (cache_entries (dirty_block_cache v))).
  pose proof (commit_writable _ _ _ _ Hready) as Hw. apply Forall_app in Hw as [Hw _].
  destruct (write_blocks_home_up (device v) _ Hup Hw) as (d1 & _ & Hup1 & Hlen & Himg).
  pose proof (vl_start _ _ (fl_layout _ Hfl)) as Hst. pose proof (vl_size _ _ (fl_layout _ Hfl)) as Hsz.
  assert (0 <= sb_journal_start_block (superblock v)) as Hpos by (unfold BAFS_JOURNAL_START_BLOCK_ADDRESS in Hst; lia).
  destruct (journal_area_record d1 sb record (image (device v)) (length_ready_record _ _ _ _ Hready)) as [rest Hrest].
  { change (0 <= sb_journal_size_in_blocks (superblock v)). lia. }
  { intros a Ha. apply Himg. change (sb_journal_start_block sb) with (sb_journal_start_block (superblock v)) in Ha. lia. }
  exists d1, rest. split; [exact Hup1|]. split; [exact Hlen|]. split; [exact Hrest|]. intros a Ha Hout.
  rewrite Himg by exact Ha. apply apply_writes_other. intros (w & -> & Hin)%list_elem_of_fmap. apply Hout.
  apply (record_chunks_within _ _ _ _ _ Hready) in Hin as [Hin _].
  change (sb_journal_start_block sb) with (sb_journal_start_block (superblock v)) in Hin.
  change (sb_journal_size_in_blocks sb) with (sb_journal_size_in_blocks (superblock v)) in Hin. unfold data_start. lia.
Qed.

(** A commit that wrote nothing. *)
Lemma nothing_torn (d : D) sb sb' record :
  settled d sb -> read_superblock_from_device d BAFS_PRIMARY_SUPERBLOCK_BLOCK_ADDRESS = Ok (seal_with_checksum sb) ->
  torn_writes_detected d (seal_with_checksum sb) sb' record.
Proof. intros Hs Hp. split; [right; exact (se_journal _ _ Hs)|by left]. Qed.
End touched.

(** *** The device: 1 GiB of memory, whose writes do not fail *)

Definition example_device : FaultInjectionDisk :=
  {| fi_inner := MemoryDisk_new (2 ^ 30); fi_countdown := None |}.

Lemma length_example_device : len (content example_device) = 2 ^ 30.
Proof. change (content example_device) with (zeros (2 ^ 30)). rewrite length_zeros. lia. Qed.

Lemma example_sectors : total_sector_count example_device = 2 ^ 21.
Proof. reflexivity. Qed.

Lemma example_formattable : formattable example_device BafsFormatOptions_default.
Proof.
  split; [apply default_options_wf| |].
  - split; [reflexivity|]. change (len (content example_device) < 2 ^ 64). rewrite length_example_device. lia.
  - rewrite example_sectors, length_example_device. change (2 ^ 21 / 8) with (2 ^ 18). lia.
Qed.

(** The volume a format leaves. *)
Lemma example_new_rep :
  exists d' m s, fs_rep (D:=FaultInjectionDisk) (mounted d' (seal_with_checksum (new_superblock BafsFormatOptions_default (2 ^ 18))))
    m s new_fs.
Proof.
  destruct (example_new example_device example_formattable example_sectors)
    as (d' & _ & _ & (? & ? & ? & m & s & _ & _ & _ & _ & Hf) & _).
  by exists d', m, s.
Qed.
