(* ===== verification/JournalTheorems.v ===== *)
(** * JournalTheorems: the contract of journal.rs

    What a commit record carries, which damage recovery notices, and what a commit
    and a recovery do to the device. *)

From S2P Require Import Prelude Checksum Device Superblock Journal JournalLaws Volume Format.

(** ** Commit records *)

(** C21: the record of a transaction, at the start of the journal, is parsed as that
    transaction by a volume that has not committed it, and ignored by one that has;
    replaying it writes exactly the blocks that were recorded. *)
Theorem commit_record_roundtrip id entries :
  Forall entry_wf entries -> len entries < 2 ^ 32 -> is_u64 id ->
  exists record, build_commit_record id entries = Ok record /\ len record = 28 + 4104 * len entries
    /\ forall rest last,
       parse_journal (record ++ rest) last
       = (if last <? id then Ok (Some (id, entries.*1, 20 + 8 * len entries)) else Ok None)
       /\ forall (D : Type) (HD : BlockDevice D) (d : D),
            replay_blocks (record ++ rest) entries.*1 (20 + 8 * len entries) d = write_blocks_home entries d.
Proof.
  intros Hwf Hn Hid. exists (commit_record id entries). split; [by apply build_commit_record_layout|].
  split; [by rewrite length_commit_record by done; lia|]. intros rest last. split.
  - destruct (Z.ltb_spec last id); [by apply parse_record_new|by apply parse_record_old].
  - intros D HD d. by apply replay_record.
Qed.

(** What parsing a journal may find: nothing, or a newer transaction whose blocks lie
    in the buffer. *)
Definition found_in_journal (buffer : list Z) (last : Z) (found : option (Z * list Z * Z)) : Prop :=
  match found with
  | None => True
  | Some (id, addresses, cursor) =>
      last < id < 2 ^ 64 /\ Forall is_u64 addresses /\ cursor = 20 + 8 * len addresses
      /\ cursor + 4096 * len addresses + 8 <= len buffer
  end.

Lemma get_addresses_returns count : forall buffer cursor,
  bytes_ok buffer -> 0 <= cursor -> cursor + 8 * Z.of_nat count <= len buffer ->
  returns (fun '(addresses, cursor') => Forall is_u64 addresses /\ length addresses = count /\ cursor' = cursor + 8 * Z.of_nat count)
    (fun _ => False) (get_addresses count buffer cursor).
Proof.
  induction count as [|count IH]; intros buffer cursor Hb Hc Hl; simpl.
  { split; [constructor|]. split; [done|lia]. }
  rbind (apply get_le_returns; [done|lia..]). intros a Ha. rbind (apply IH; [done|lia..]).
  intros [addresses cursor'] (Hall & Hlen & ->). simpl. split; [constructor; [exact Ha|done]|]. split; [by rewrite Hlen|lia].
Qed.

(** C23: whatever bytes the journal area holds, looking for a record in it neither
    panics nor fails; a record that is found is newer than the last commit, and its
    addresses and all of its blocks lie in the area. *)
Theorem parse_journal_total buffer last :
  bytes_ok buffer -> returns (found_in_journal buffer last) (fun _ => False) (parse_journal buffer last).
Proof.
  intros Hb. unfold parse_journal, JOURNAL_COMMIT_RECORD_HEADER_SIZE_BYTES.
  destruct (Z.ltb_spec (len buffer) 24); [done|]. rbind (apply get_slice_returns; [done|lia..]). intros magic _.
  case_match; [done|]. rbind (apply get_le_returns; [done|lia..]). intros id Hid.
  destruct (Z.leb_spec id last); [done|]. rbind (apply get_le_returns; [done|lia..]). intros count Hcount.
  destruct (Z.ltb_spec (len buffer) (24 + 8 * count + 4096 * count + 4)); [done|].
  rbind (apply get_le_returns; [done|lia..]). intros stored _. rbind (apply get_slice_returns; [done|lia..]). intros body _.
  case_match; [done|]. rbind (apply get_addresses_returns; [done|lia|lia]). intros [addresses cursor] (Hall & Hlen & ->). simpl.
  split; [lia|]. split; [done|]. split; lia.
Qed.

(** Bytes before or after an altered stretch are what they were. *)
Lemma unaltered_slice (pre good bad post rest : list Z) (o n : nat) :
  length good = length bad -> (length pre + length good <= o)%nat \/ (o + n <= length pre)%nat ->
  (o + n <= length (pre ++ good ++ post))%nat ->
  take n (drop o (pre ++ bad ++ post ++ rest)) = take n (drop o (pre ++ good ++ post)).
Proof.
  intros Hlen Hout Hin. rewrite !length_app in Hin. apply list_eq. intros i.
  destruct (decide (i < n)%nat) as [Hi|Hi]; [|by rewrite !lookup_take_ge by lia].
  rewrite !lookup_take_lt, !lookup_drop by lia. destruct Hout as [Hout|Hout]; [|by rewrite !lookup_app_l by lia].
  rewrite !(lookup_app_r pre) by lia. rewrite (lookup_app_r bad), (lookup_app_r good) by lia. rewrite Hlen.
  by rewrite lookup_app_l by lia.
Qed.

Lemma record_count_slice id entries :
  get_slice (E:=BafsError) (record_body id entries) 16 4 = Ok (le_bytes 4 (len entries)).
Proof.
  unfold record_body. rewrite (app_assoc JOURNAL_COMMIT_RECORD_MAGIC). rewrite get_slice_Ok.
  - by f_equal.
  - lia.
  - lia.
  - rewrite !length_app, !length_le_bytes. simpl length. lia.
Qed.

(** Altered bytes of the body, outside the block count. *)
Lemma corrupted_body_ignored id entries pre good bad post rest last :
  Forall entry_wf entries -> len entries < 2 ^ 32 -> is_u64 id -> record_body id entries = pre ++ good ++ post ->
  bytes_ok bad -> length good = length bad -> (length good <= 4)%nat -> good <> bad ->
  (length pre + length good <= 16)%nat \/ (20 <= length pre)%nat ->
  parse_journal (pre ++ bad ++ post ++ le_bytes 4 (compute_crc32c (record_body id entries)) ++ rest) last = Ok None.
Proof.
  intros Hwf Hn Hid Hbody Hbad Hlen H4 Hne Hout.
  pose proof (record_body_bytes_ok id entries Hwf) as Hok. rewrite Hbody in Hok.
  pose proof (length_record_body id entries Hwf) as Hbl. rewrite Hbody, !length_app in Hbl.
  set (crc := compute_crc32c (record_body id entries)). set (buffer := pre ++ bad ++ post ++ le_bytes 4 crc ++ rest).
  assert (len buffer = 28 + 4104 * len entries + len rest) as Hbuf.
  { unfold buffer. rewrite !length_app, length_le_bytes. lia. }
  assert (is_u32 crc) as Hcrc by (apply compute_crc32c_u32; by rewrite Hbody).
  assert (bytes_ok (pre ++ bad ++ post)) as Hok'.
  { rewrite !bytes_ok_app in *. tauto. }
  assert (get_le (E:=BafsError) buffer 16 4 = Ok (len entries)) as Hcount.
  { pose proof (record_count_slice id entries) as Hs. rewrite Hbody in Hs. unfold get_le.
    assert (get_slice (E:=BafsError) buffer 16 4 = get_slice (pre ++ good ++ post) 16 4) as ->.
    { rewrite !get_slice_Ok by (rewrite ?length_app; lia). f_equal. apply unaltered_slice; rewrite ?length_app; lia. }
    rewrite Hs. cbn [obind]. f_equal. apply le_val_bytes_id. simpl. lia. }
  unfold parse_journal, JOURNAL_COMMIT_RECORD_HEADER_SIZE_BYTES.
  destruct (Z.ltb_spec (len buffer) 24); [done|]. rewrite (get_slice_Ok buffer 0 8) by lia. cbn [obind]. case_match; [done|].
  unfold get_le at 1. rewrite (get_slice_Ok buffer 8 8) by lia. cbn [obind]. case_match; [done|].
  rewrite Hcount. cbn [obind]. case_match; [done|].
  assert (buffer = (pre ++ bad ++ post) ++ le_bytes 4 crc ++ rest) as Eb by (unfold buffer; by rewrite <- !app_assoc).
  rewrite Eb. rewrite get_le_bytes_app by (rewrite ?length_app; done || lia). cbn [obind].
  rewrite get_slice_prefix by (rewrite !length_app; lia). cbn [obind].
  assert ((crc =? compute_crc32c (pre ++ bad ++ post)) = false) as ->; [|done].
  apply Z.eqb_neq. unfold crc. rewrite Hbody. intros E. symmetry in E. revert E. by apply crc_burst_differs.
Qed.

(** Altered bytes of the checksum. *)
Lemma corrupted_checksum_ignored id entries bad rest last :
  Forall entry_wf entries -> len entries < 2 ^ 32 -> is_u64 id -> bytes_ok bad -> length bad = 4%nat ->
  bad <> le_bytes 4 (compute_crc32c (record_body id entries)) ->
  parse_journal (record_body id entries ++ bad ++ rest) last = Ok None.
Proof.
  intros Hwf Hn Hid Hbad Hlen Hne. pose proof (record_body_bytes_ok id entries Hwf) as Hok.
  pose proof (length_record_body id entries Hwf) as Hbl. set (body := record_body id entries) in *.
  set (buffer := body ++ bad ++ rest).
  assert (len buffer = 28 + 4104 * len entries + len rest) as Hbuf by (unfold buffer; rewrite !length_app; lia).
  assert (get_le (E:=BafsError) buffer 16 4 = Ok (len entries)) as Hcount.
  { pose proof (record_count_slice id entries) as Hs. fold body in Hs. unfold get_le.
    assert (get_slice (E:=BafsError) buffer 16 4 = get_slice body 16 4) as ->.
    { by rewrite !get_slice_Ok by lia. }
    rewrite Hs. cbn [obind]. f_equal. apply le_val_bytes_id. simpl. lia. }
  unfold parse_journal, JOURNAL_COMMIT_RECORD_HEADER_SIZE_BYTES.
  destruct (Z.ltb_spec (len buffer) 24); [done|]. rewrite (get_slice_Ok buffer 0 8) by lia. cbn [obind]. case_match; [done|].
  unfold get_le at 1. rewrite (get_slice_Ok buffer 8 8) by lia. cbn [obind]. case_match; [done|].
  rewrite Hcount. cbn [obind]. case_match; [done|].
  assert (24 + 8 * len entries + 4096 * len entries = len body) as -> by lia.
  assert (get_le (E:=BafsError) buffer (len body) 4 = Ok (le_val bad)) as ->.
  { unfold get_le. rewrite get_slice_Ok by lia. cbn [obind]. unfold buffer.
    rewrite drop_app_length' by lia. by rewrite take_app_length' by (simpl; lia). }
  cbn [obind]. unfold buffer. rewrite get_slice_prefix by done. cbn [obind].
  assert ((le_val bad =? compute_crc32c body) = false) as ->; [|done].
  apply Z.eqb_neq. intros E. apply Hne. rewrite <- E. symmetry. by rewrite <- Hlen, le_bytes_val.
Qed.

(** C22: a record with up to four consecutive altered bytes, in the header before the
    block count, in the addresses and blocks behind it or in the checksum, is
    ignored: its transaction is not replayed. *)
Theorem corrupted_record_ignored id entries pre good bad post rest last :
  Forall entry_wf entries -> len entries < 2 ^ 32 -> is_u64 id -> commit_record id entries = pre ++ good ++ post ->
  bytes_ok bad -> length good = length bad -> (length good <= 4)%nat -> good <> bad ->
  (let checksum := 24 + 4104 * len entries in
   len pre + len good <= 16 \/ 20 <= len pre /\ len pre + len good <= checksum \/ checksum <= len pre) ->
  parse_journal (pre ++ bad ++ post ++ rest) last = Ok None.
Proof.
  intros Hwf Hn Hid Hrec Hbad Hlen H4 Hne Hout. cbv zeta in Hout. pose proof (length_record_body id entries Hwf) as Hbl.
  unfold commit_record in Hrec. set (crc := le_bytes 4 (compute_crc32c (record_body id entries))) in *.
  assert (length crc = 4%nat) as Hcl by apply length_le_bytes.
  pose proof (f_equal length Hrec) as Htot. rewrite !length_app in Htot.
  destruct (decide (24 + 4104 * len entries <= len pre)) as [Hcrc|Hbody].
  - assert (exists k, pre = record_body id entries ++ k /\ crc = k ++ good ++ post) as (k & -> & Ek).
    { destruct (app_eq_inv _ _ _ _ Hrec) as [(k & Hk & Hk')|(k & Hk & Hk')]; [|by exists k].
      assert (k = []) as -> by (apply nil_length_inv; apply (f_equal length) in Hk; rewrite length_app in Hk; lia).
      rewrite app_nil_r in Hk. exists []. by rewrite app_nil_r. }
    assert (bytes_ok crc) as Hok by apply le_bytes_ok. rewrite Ek, !bytes_ok_app in Hok. destruct Hok as (Hk & _ & Hp).
    rewrite Ek, !length_app in Hcl.
    replace ((record_body id entries ++ k) ++ bad ++ post ++ rest) with (record_body id entries ++ (k ++ bad ++ post) ++ rest)
      by (by rewrite <- !app_assoc).
    apply corrupted_checksum_ignored; try done; [by rewrite !bytes_ok_app|rewrite !length_app; lia|].
    fold crc. rewrite Ek. intros E%app_inv_head%app_inv_tail. by symmetry in E.
  - rewrite app_assoc in Hrec.
    assert (exists k, record_body id entries = (pre ++ good) ++ k /\ post = k ++ crc) as (k & Ek & ->).
    { destruct (app_eq_inv _ _ _ _ Hrec) as [(k & Hk & Hk')|(k & Hk & Hk')]; [by exists k|].
      assert (k = []) as -> by (apply nil_length_inv; apply (f_equal length) in Hk; rewrite !length_app in Hk; lia).
      rewrite app_nil_r in Hk. exists []. by rewrite app_nil_r. }
    rewrite <- app_assoc in Ek. rewrite <- app_assoc. apply corrupted_body_ignored with (good := good); try done. lia.
Qed.

(** ** Recovery and commit *)

Section properties.
Context `{BlockDeviceLaws D}.

Lemma journal_area_same (d d' : D) sb sb' :
  sb_journal_start_block sb' = sb_journal_start_block sb -> sb_journal_size_in_blocks sb' = sb_journal_size_in_blocks sb ->
  (forall a, sb_journal_start_block sb <= a < sb_journal_start_block sb + sb_journal_size_in_blocks sb ->
     image d' a = image d a) ->
  journal_area d' sb' = journal_area d sb.
Proof.
  intros Hs Hn Himg. unfold journal_area. rewrite Hs, Hn. f_equal. apply list_fmap_ext. intros i a Ha%lookup_seqZ.
  apply Himg. lia.
Qed.

(** C13: recovery that finds the record of a newer transaction writes its blocks
    home and records the transaction in both superblocks, changes no other block,
    and finds nothing to do the next time. *)
Theorem recovery_replays_once (d : D) sb id entries rest :
  device_up d -> volume_layout d sb -> journal_area d sb = commit_record id entries ++ rest ->
  Forall entry_wf entries -> len entries < 2 ^ 32 -> is_u64 id -> sb_last_committed_transaction_id sb < id ->
  NoDup entries.*1 ->
  Forall (fun e => on_device d e.1 /\ sb_journal_start_block sb + sb_journal_size_in_blocks sb <= e.1) entries ->
  exists d', let sb' := seal_with_checksum (sb_set_transaction sb id) in
    recover_journal_on_mount (d, sb) = ((d', sb'), Ok true)
    /\ (forall a block, (a, block) ∈ entries -> image d' a = block)
    /\ (forall a, 0 <= a -> a ∉ entries.*1 -> a <> BAFS_PRIMARY_SUPERBLOCK_BLOCK_ADDRESS ->
        a <> BAFS_BACKUP_SUPERBLOCK_BLOCK_ADDRESS -> image d' a = image d a)
    /\ read_superblock_from_device d' BAFS_PRIMARY_SUPERBLOCK_BLOCK_ADDRESS = Ok sb'
    /\ read_superblock_from_device d' BAFS_BACKUP_SUPERBLOCK_BLOCK_ADDRESS = Ok sb'
    /\ recover_journal_on_mount (d', sb') = ((d', sb'), Ok false).
Proof.
  intros Hup Hl Harea Hwf Hn Hid Hlast Hnd Hhome. pose proof (vl_start _ _ Hl) as Hst. pose proof (vl_size _ _ Hl) as Hsz.
  unfold BAFS_JOURNAL_START_BLOCK_ADDRESS in Hst. rewrite Forall_forall in Hhome.
  destruct (recover_replay d sb id entries rest Hup Hl Harea Hwf Hn Hid Hlast) as (d' & E & Hup' & Hlen & Himg).
  { apply Forall_forall. intros [a b] Hin. rewrite Forall_forall in Hwf. destruct (Hwf _ Hin) as (_ & _ & Hb).
    apply on_device_writable; [apply Hl|by apply Hhome in Hin as [? _]|done]. }
  assert (forall a, 0 <= a -> a <> BAFS_PRIMARY_SUPERBLOCK_BLOCK_ADDRESS -> a <> BAFS_BACKUP_SUPERBLOCK_BLOCK_ADDRESS ->
    image d' a = apply_writes entries (image d) a) as Hother.
  { intros a Ha Hp Hb. rewrite Himg by lia. rewrite apply_writes_app. apply apply_writes_other.
    unfold superblock_writes. csimpl. rewrite !not_elem_of_cons. repeat split; [done..|apply not_elem_of_nil]. }
  pose proof (volume_layout_length _ d' _ Hlen (volume_layout_set_transaction d sb id Hid Hl)) as Hl'.
  assert (forall a, a = BAFS_PRIMARY_SUPERBLOCK_BLOCK_ADDRESS \/ a = BAFS_BACKUP_SUPERBLOCK_BLOCK_ADDRESS ->
    read_superblock_from_device d' a = Ok (seal_with_checksum (sb_set_transaction sb id))) as Hread.
  { intros a Ha. assert (0 <= a <= 2) as Ha' by (unfold BAFS_PRIMARY_SUPERBLOCK_BLOCK_ADDRESS, BAFS_BACKUP_SUPERBLOCK_BLOCK_ADDRESS in Ha; lia).
    pose proof (layout_on_device d' _ a Hl' Ha') as Hon. destruct Hl'. apply read_superblock_image; try done; [lia|].
    rewrite Himg by lia. rewrite apply_writes_app. unfold superblock_writes. by destruct Ha as [-> | ->]. }
  exists d'. intros sb'. unfold BAFS_PRIMARY_SUPERBLOCK_BLOCK_ADDRESS, BAFS_BACKUP_SUPERBLOCK_BLOCK_ADDRESS in Hother, Hread |- *.
  split; [exact E|]. split; [|split; [|split; [by apply Hread; left|split; [by apply Hread; right|]]]].
  - intros a block Hin. rewrite Hother by (apply Hhome in Hin as [_ Hin]; simpl in Hin; lia). by apply apply_writes_in.
  - intros a Ha Hin Hp Hb. rewrite Hother by done. by apply apply_writes_other.
  - apply recover_nothing; [done| |].
    + apply volume_layout_seal. eapply volume_layout_length; [exact Hlen|]. by apply volume_layout_set_transaction.
    + rewrite (journal_area_same d d' sb sb'); [|done|done|].
      * rewrite Harea. apply parse_record_old; [done|done|simpl; lia].
      * intros a Ha. rewrite Hother by lia. apply apply_writes_other. intros ([a' b] & -> & Hin)%list_elem_of_fmap.
        apply Hhome in Hin as [_ Hin]. simpl in *. lia.
Qed.

(** C24: a transaction whose record does not fit the journal is refused before
    anything is written: the device and the superblock stay as they are. *)
Theorem oversized_commit_refused (d : D) sb id cache :
  sb_wf sb -> sb_journal_size_in_blocks sb * 4096 < 2 ^ 64 -> cache <> ∅ ->
  Forall entry_wf (cache_entries cache) -> len (cache_entries cache) < 2 ^ 32 ->
  sb_journal_size_in_blocks sb * 4096 < 28 + 4104 * len (cache_entries cache) ->
  commit_transaction {| transaction_id := id |} cache (d, sb) = ((d, sb), Err OutOfSpace).
Proof. apply commit_oversized. Qed.
End properties.

(** ** Witnesses *)

Definition example_entries : list (Z * list Z) := [(300, zeros 4096)].

Lemma example_entries_wf : Forall entry_wf example_entries.
Proof.
  apply Forall_singleton. split; [by split|]. cbn [snd]. split; [apply zeros_bytes_ok|]. rewrite length_zeros. lia.
Qed.

Lemma commit_record_roundtrip_witness :
  exists record, build_commit_record 7 example_entries = Ok record
    /\ parse_journal record 6 = Ok (Some (7, [300], 28)) /\ parse_journal record 7 = Ok None.
Proof.
  destruct (commit_record_roundtrip 7 example_entries) as (record & E & _ & Hp); [apply example_entries_wf|done|by split|].
  exists record. split; [exact E|]. pose proof (proj1 (Hp [] 6)) as H6. pose proof (proj1 (Hp [] 7)) as H7.
  rewrite app_nil_r in H6, H7. split; [exact H6|exact H7].
Defined.

(** A journal that starts like a record and goes on arbitrarily. *)
Lemma parse_journal_total_witness :
  let buffer := JOURNAL_COMMIT_RECORD_MAGIC ++ replicate 4088 255 in
  returns (found_in_journal buffer 0) (fun _ => False) (parse_journal buffer 0).
Proof.
  apply (parse_journal_total (JOURNAL_COMMIT_RECORD_MAGIC ++ replicate 4088 255) 0).
  apply Forall_app. split; [repeat constructor; ilia|apply Forall_replicate; ilia].
Defined.

(** The transaction id of the record turns from 7 into 9. *)
Lemma corrupted_record_ignored_witness :
  parse_journal (JOURNAL_COMMIT_RECORD_MAGIC ++ [9] ++ ([0; 0; 0; 0; 0; 0; 0] ++ le_bytes 4 1 ++ le_bytes 8 300 ++ zeros 4096 ++ zeros 4
    ++ le_bytes 4 (compute_crc32c (record_body 7 example_entries))) ++ []) 6 = Ok None.
Proof.
  apply (corrupted_record_ignored 7 example_entries _ [7]).
  - apply example_entries_wf.
  - done.
  - by split.
  - unfold commit_record. set (crc := compute_crc32c _). unfold record_body, example_entries. csimpl. rewrite !app_nil_r.
    rewrite <- !app_assoc. reflexivity.
  - by repeat constructor.
  - done.
  - simpl. lia.
  - discriminate.
  - left. simpl. lia.
Defined.

(** A volume of 301 blocks whose journal holds a record for block 300. *)
Definition example_journal : list Z :=
  commit_record 7 example_entries ++ zeros (256 * 4096 - 4132).

Definition replay_disk : MemoryDisk :=
  {| md_data := zeros (3 * 4096) ++ example_journal ++ zeros (42 * 4096); md_total_sectors := 2408 |}.

Lemma length_example_journal : len example_journal = 256 * 4096.
Proof.
  unfold example_journal. rewrite length_app, length_zeros, Nat2Z.inj_add, length_commit_record by apply example_entries_wf.
  change (len example_entries) with 1. lia.
Qed.

Lemma length_replay_disk : len (content replay_disk) = 301 * 4096.
Proof.
  change (content replay_disk) with (zeros (3 * 4096) ++ example_journal ++ zeros (42 * 4096)).
  pose proof length_example_journal. rewrite !length_app, !length_zeros. lia.
Qed.

Lemma replay_disk_layout : volume_layout replay_disk example_superblock.
Proof.
  constructor; rewrite ?length_replay_disk.
  - apply example_superblock_wf.
  - reflexivity.
  - reflexivity.
  - done.
  - done.
  - simpl. lia.
  - lia.
Qed.

Lemma replay_disk_journal :
  journal_area replay_disk example_superblock = commit_record 7 example_entries ++ zeros (256 * 4096 - 4132).
Proof.
  unfold journal_area, image. change (sb_journal_start_block example_superblock) with 3.
  change (sb_journal_size_in_blocks example_superblock) with (Z.of_nat 256).
  rewrite blocks_concat; [|lia|rewrite length_replay_disk; lia].
  change (content replay_disk) with (zeros (3 * 4096) ++ example_journal ++ zeros (42 * 4096)).
  pose proof length_example_journal as Hl.
  rewrite drop_app_length' by (rewrite length_zeros; lia). rewrite take_app_length' by lia. done.
Qed.

Lemma recovery_replays_once_witness :
  exists d', let sb' := seal_with_checksum (sb_set_transaction example_superblock 7) in
    recover_journal_on_mount (replay_disk, example_superblock) = ((d', sb'), Ok true)
    /\ recover_journal_on_mount (d', sb') = ((d', sb'), Ok false).
Proof.
  destruct (recovery_replays_once replay_disk example_superblock 7 example_entries (zeros (256 * 4096 - 4132)))
    as (d' & E & _ & _ & _ & _ & E').
  - change (len (content replay_disk) < 2 ^ 64). rewrite length_replay_disk. lia.
  - apply replay_disk_layout.
  - apply replay_disk_journal.
  - apply example_entries_wf.
  - done.
  - by split.
  - done.
  - apply NoDup_singleton.
  - apply Forall_singleton. unfold on_device. rewrite length_replay_disk. split; [simpl; lia|done].
  - exists d'. split; [exact E|exact E'].
Defined.

(** A journal of one block does not take a transaction of one block. *)
Lemma oversized_commit_refused_witness :
  commit_transaction {| transaction_id := 7 |} {[300 := zeros 4096]}
    (replay_disk, format_superblock BafsFormatOptions_default 300 34 262 265 261 1 266)
  = ((replay_disk, format_superblock BafsFormatOptions_default 300 34 262 265 261 1 266), Err OutOfSpace).
Proof.
  apply oversized_commit_refused.
  - apply format_superblock_wf; try by split. apply default_options_wf.
  - done.
  - apply map_non_empty_singleton.
  - apply example_entries_wf.
  - done.
  - done.
Defined.
