(* ===== verification/FileSystemTheorems.v ===== *)
(** * FileSystemTheorems: the contract of volume.rs

    The properties of the volume as a whole, each with a witness on a concrete
    volume of 1 GiB. *)

From S2P Require Import Prelude Checksum Device Superblock Node NodeCodec BTree BTreeInv BTreeWrite.
From S2P Require Import BTreeInsert BTreeDelete TreeStore Inode Extent FreeSpace ChecksumTree XxHash Dir Journal JournalLaws.
From S2P Require Import Volume FileModel VolumeInv VolumeDirs VolumeUnlink VolumeFiles FileContents VolumeCommit FileSystem Format History Retry Examples.

(** ** The free extents of a new volume *)

(** Two blocks are returned to a tree with one extent, which starts at the second. *)
Lemma new_free_tree_released `{BlockDevice D} `{!TreeStore D} total (d : D) c b a fp g :
  tree_rep free_tree d c b (free_encode {[b := total - b]}) fp -> 0 <= a -> a + 1 < b -> b + 1 < total -> total < 2 ^ 64 ->
  is_u64 g -> room c (2 * FREE_BLOCKS) ->
  exists c1 root1 c2 root2 fp2, free_blocks d b a 1 g c = (c1, Ok root1) /\ free_blocks d root1 b 1 g c1 = (c2, Ok root2)
    /\ tree_rep free_tree d c2 root2 (free_encode {[a := 1; b := 1]}) fp2.
Proof.
  intros Hr Ha Hab Hb Ht Hg Hroom. set (fe := {[b := total - b]} : free_map) in *.
  assert (free_ok total fe) as Hok by (apply map_Forall_singleton; lia).
  assert (forall x n, fe !! x = Some n -> x = b /\ n = total - b) as Hfe by (by intros x n [<- <-]%lookup_singleton_Some).
  destruct (free_blocks_correct total Ht d c b fe fp a 1 g Hr Hok) as (p & c1 & root1 & fp1 & fr1 & Hp & E1 & [X1 N1 _ R1]);
    [lia..|done|unfold room, FREE_BLOCKS, DELETE_BLOCKS, INSERT_BLOCKS in *; lia|].
  assert (p = None) as -> by (destruct p as [[x n]|]; [|done]; destruct Hp as [[-> ->]%Hfe Hx]; lia).
  assert (free_release fe None a 1 = {[a := 1; b := total - b]}) as Efe.
  { unfold free_release. simpl. destruct (fe !! (a + 1)) eqn:Ea; [apply Hfe in Ea; lia|]. by replace (a + 1 - a) with 1 by lia. }
  rewrite Efe in R1. set (fe1 := {[a := 1; b := total - b]} : free_map) in *.
  assert (free_ok total fe1) as Hok1 by (apply map_Forall_insert_2; [lia|done]).
  destruct (free_blocks_correct total Ht d c1 root1 fe1 fp1 b 1 g R1 Hok1) as (p & c2 & root2 & fp2 & fr2 & Hp2 & E2 & [_ _ _ R2]);
    [lia..|done|pose proof (ext_next _ _ _ X1); unfold room, FREE_BLOCKS, DELETE_BLOCKS, INSERT_BLOCKS in *; lia|].
  exists c1, root1, c2, root2, fp2. split; [done|]. split; [done|].
  rewrite (free_release_listed total fe1 p b 1 (total - b)) in R2; [|done| |done|by unfold fe1; rewrite lookup_insert_ne, lookup_singleton_eq by lia|lia].
  - unfold fe1 in R2. rewrite insert_insert_ne, insert_singleton_eq in R2 by lia. exact R2.
  - intros x n y k [[<- <-]|[_ [-> ->]%Hfe]]%lookup_insert_Some [[<- <-]|[_ [-> ->]%Hfe]]%lookup_insert_Some; lia.
Qed.

(** ** Properties *)

Section properties.
Context `{BlockDeviceLaws D}.


(** C2: on every branch, errors included, a request to create, write, read, look up
    or unlink answers what the abstract file system answers and leaves the volume
    in the abstract state it prescribes, without touching the device. A write of
    data to a file is refused exactly when the blocks behind the last one handed
    out are fewer than it needs. *)
Theorem request_refines (v : BafsVolume D) m s A q budget :
  fs_rep v m s A -> admissible A q -> cost A q <= budget -> vol_room v budget ->
  exists A' r v' m' s', answers (no_room v q) A q = (A', r) /\ execute q v = (v', r) /\ fs_rep v' m' s' A'
    /\ device v' = device v.
Proof.
  intros Hf Hadm Hcost Hroom.
  destruct (execute_refines v m s A q budget Hf Hadm Hcost Hroom) as (v' & m' & s' & k & E & Hf' & S).
  eexists _, _, v', m', s'. split; [apply surjective_pairing|]. do 2 (split; [done|]). apply S.
Qed.


(** C4: while every block handed out lies on the device, a commit whose record fits
    the journal succeeds, and mounting the device again gives the very volume the
    commit leaves, with the state of before the commit; one whose record does not
    fit is refused with [OutOfSpace], and the device and both states stay. *)
Theorem commit_durable (v : BafsVolume D) C A :
  tracks v C A -> within_device v -> commit_bounds v ->
  (record_fits (superblock v) (dirty_block_cache v) ->
   exists v', flush_and_commit v = (v', Ok tt) /\ bafs_mount (device v') = (device v', Ok v') /\ tracks v' A A)
  /\ (~ record_fits (superblock v) (dirty_block_cache v) ->
   exists v', flush_and_commit v = (v', Err OutOfSpace) /\ device v' = device v /\ tracks v' C A).
Proof.
  intros Ht Hdev Hcb. split; intros Hfits.
  - apply (tracks_commit v C A Ht). split; [done|done|apply Hcb].
  - destruct (tracks_refused v C A Ht Hcb Hfits) as [E Ht']. by exists (refused v).
Qed.

(** C5: for a transaction whose blocks lie on the device and whose record fits the
    journal, however often its commit fails, because the device refuses writes, and
    whatever part of it has reached the device, the next attempt on a working device
    commits it: mounting gives the very volume it leaves, with the state of before
    the first attempt. *)
Theorem failed_commit_retried (v w : BafsVolume D) C A :
  tracks v C A -> committable v -> attempts v w -> device_up (device w) ->
  exists v', flush_and_commit w = (v', Ok tt) /\ bafs_mount (device v') = (device v', Ok v') /\ tracks v' A A.
Proof.
  intros Ht Hcm Hatt. apply (pending_commits v C A Ht Hcm). by eapply attempts_pending.
Qed.

(** C8: [bafs_format] refuses a device without ten blocks beyond its structures and
    leaves it as it was; otherwise it succeeds and the device mounts, without
    anything to replay, as a volume that holds the empty root directory. *)
Theorem format_then_mount (d : D) options :
  formattable d options -> let total := total_sector_count d / 8 in
  if decide (compute_data_area_start_block total + 13 <= total) then
    exists d' v m s, bafs_format options d = (d', Ok tt) /\ bafs_mount d' = (d', Ok v) /\ fs_rep v m s new_fs
  else bafs_format options d = (d, Err OutOfSpace).
Proof.
  intros Hd total. destruct (decide (compute_data_area_start_block total + 13 <= total)) as [Hmin|Hmin].
  - destruct (format_tracks d options Hd Hmin) as (d' & v & E & Em & (? & ? & ? & m & s & _ & _ & _ & _ & Hf) & _).
    by exists d', v, m, s.
  - apply (format_too_small d options total eq_refl). fold total. lia.
Qed.

(** C7: data written at any offset is read back, unless a segment of the file that
    starts before the data reaches into it; whatever was read before the data
    reads the same, and so does what was read behind its blocks if no segment
    started at the offset. *)
Theorem write_then_read (v : BafsVolume D) m s A n f off data :
  fs_rep v m s A -> write_ready v A n f off data ->
  (forall seg, seg ∈ file_segments f -> seg.1 < off -> seg.1 + len seg.2 <= off) ->
  exists v', volume_write_file_data n off data v = (v', Ok (len data))
    /\ volume_read_file_data v' n off (zeros (len data)) = (data, Ok (len data))
    /\ forall o count bytes, 0 <= o -> 0 < count -> volume_read_file_data v n o (zeros count) = (bytes, Ok count) ->
       o + count <= off \/ off + 4096 * block_count_for data <= o /\ (forall seg, seg ∈ file_segments f -> seg.1 <> off) ->
       volume_read_file_data v' n o (zeros count) = (bytes, Ok count).
Proof.
  intros Hf Hw Hbefore. destruct (write_outcome v m s A n f off data Hf Hw) as (v' & m' & s' & E & Hf' & _).
  pose proof Hw as [Hn Hnode _ Hd Hoff _ _ _ _]. pose proof (node_ordered v m s A n f Hf Hn Hnode) as Hord.
  assert (fs_nodes (fs_set_node A n (FileNode (file_write off data f))) !! n = Some (FileNode (file_write off data f))) as Hnode'
    by apply lookup_insert_eq.
  exists v'. split; [exact E|]. split.
  - eapply read_fills; [exact Hf'|exact Hn|exact Hnode'|done|lia|simpl; lia|by apply file_read_written].
  - intros o count bytes Ho Hc Hread Hwhere. destruct (read_filled v m s A n f o count bytes Hf Hn Hnode Ho Hc Hread) as [Hle Htext].
    eapply read_fills; [exact Hf'|exact Hn|exact Hnode'|done|lia|simpl; lia|]. rewrite <- Htext.
    destruct Hwhere as [Hb|[Hb Hnew]]; [by apply file_read_before|by apply file_read_behind].
Qed.

(** C12: returning superseded blocks to the free-extent tree, which supersedes blocks
    of that tree in turn, always comes to an end; it keeps what the volume stores
    and adds at most six times the committed blocks to the free count. *)
Theorem freed_blocks_return_terminates (v : BafsVolume D) m s freed :
  let boundary := sb_next_cow_block_address (superblock v) in
  vol_rep v m s -> Forall (fun a => 0 <= a) freed -> len (blocks_below boundary freed) <= 4 * boundary ->
  vol_next_free_block v + RETURN_BLOCKS boundary < 2 ^ 64 -> sb_free_block_count (superblock v) + 6 * boundary < 2 ^ 64 ->
  exists v', return_freed_cow_blocks_to_free_extent_tree freed v = (v', Ok tt) /\ vol_rep v' m s
    /\ sb_free_block_count (superblock v') <= sb_free_block_count (superblock v) + 6 * boundary
    /\ vol_next_free_block v' <= vol_next_free_block v + RETURN_BLOCKS boundary.
Proof.
  intros b Hv Hnn Hfew Hn Hc. destruct (vol_rep_return v m s freed Hv Hnn Hfew Hn Hc) as (v' & E & S & Hv' & Hcount & _).
  exists v'. do 3 (split; [done|]). apply S.
Qed.

(** C32: a write inside a segment that starts before it is lost, although it
    succeeds: what is read there is the same whatever is written.  Overwriting the
    middle of a file and appending to a file that ends inside a block are such
    writes. *)
Theorem covered_write_is_lost (v : BafsVolume D) m s A n f seg off count :
  fs_rep v m s A -> seg ∈ file_segments f -> seg.1 < off -> off + count <= seg.1 + len seg.2 ->
  exists old, forall data, len data = count -> write_ready v A n f off data ->
    exists v', volume_write_file_data n off data v = (v', Ok count)
      /\ volume_read_file_data v' n off (zeros count) = (old, Ok count).
Proof.
  intros Hf Hin Hlt Hle. exists (default [] (file_read f off count)). intros data Hlen Hw. pose proof Hw as [Hn Hnode _ Hd Hoff _ _ _ _].
  pose proof (node_ordered v m s A n f Hf Hn Hnode) as Hord.
  destruct (write_outcome v m s A n f off data Hf Hw) as (v' & m' & s' & E & Hf' & _). rewrite Hlen in E.
  exists v'. split; [exact E|]. destruct (file_read_segment f seg off count) as [old Hold]; [done|done|lia|lia|done|].
  assert (default [] (file_read f off count) = old) as -> by by rewrite Hold.
  eapply read_fills; [exact Hf'|exact Hn|apply lookup_insert_eq|done|lia|simpl; lia|].
  rewrite <- Hold. apply (file_read_hidden f off data seg off count); [done|done|done|lia|done].
Qed.

(** C33: writing less at the offset of a segment than the segment holds makes the rest
    of it unreadable: the file keeps its size, but a byte behind the new blocks that
    only that segment covered reads as a corrupted structure. *)
Theorem shorter_overwrite_unreadable (v : BafsVolume D) m s A n f off data o byte :
  fs_rep v m s A -> write_ready v A n f off data -> volume_read_file_data v n o [0] = ([byte], Ok 1) ->
  off + 4096 * block_count_for data <= o -> (forall seg, seg ∈ file_segments f -> covers o seg -> seg.1 = off) ->
  exists v', volume_write_file_data n off data v = (v', Ok (len data))
    /\ forall buf, 0 < len buf -> (volume_read_file_data v' n o buf).2 = Err CorruptedStructure.
Proof.
  intros Hf Hw Hread Ho Hcov. pose proof Hw as [Hn Hnode _ Hd Hoff _ _ _ _]. pose proof (node_ordered v m s A n f Hf Hn Hnode) as Hord.
  pose proof (block_count_for_bounds data) as Hbc.
  destruct (read_filled v m s A n f o 1 [byte] Hf Hn Hnode ltac:(lia) ltac:(lia) Hread) as [Hle _].
  destruct (write_outcome v m s A n f off data Hf Hw) as (v' & m' & s' & E & Hf' & _).
  exists v'. split; [exact E|]. intros buf Hbuf.
  eapply read_fails; [exact Hf'|exact Hn|apply lookup_insert_eq|simpl; lia|done|by apply byte_at_replaced].
Qed.

(** C36: creating a name that is taken fails with [AlreadyExists], but the inode made
    for it stays: it has a link count of one and no directory names it. *)
Theorem rejected_create_leaks_inode (v : BafsVolume D) m s A p name links child :
  fs_rep v m s A -> admissible A (CreateFile p name) -> vol_room v 2 -> 1 <= len name <= 255 ->
  fs_nodes A !! p = Some (DirectoryNode links) -> fs_names A !! (p, name) = Some child ->
  exists v' inode, volume_create_file p name v = (v', Err AlreadyExists)
    /\ volume_read_inode v' (fs_count A + 1) = Ok inode /\ hard_link_count inode = 1
    /\ forall p' name', 1 <= p' < 2 ^ 64 -> volume_lookup_directory_entry v' p' name' <> Ok (Some (fs_count A + 1)).
Proof.
  intros Hf Hadm Hroom Hlen Hp Hname. pose proof Hadm as (Hp1 & _ & Hcount). pose proof Hf as [Hv Hview].
  pose proof (fs_rep_create v m s A new_regular_file CHILD_TYPE_REGULAR_FILE (FileNode new_file) p name Hf Hroom
    new_regular_file_fresh ltac:(by split) Hadm file_node_new eq_refl) as (v' & m' & s' & E & [Hv' Hview'] & _).
  revert E Hview'. unfold spec_create. rewrite Hp, decide_True, Hname by done. cbn [fst snd]. intros E Hview'.
  change (volume_create_entry new_regular_file CHILD_TYPE_REGULAR_FILE p name v) with (volume_create_file p name v) in E.
  destruct (volume_create_file p name v) as [v1 r]. injection E as -> Er.
  assert (1 <= fs_count A + 1 < 2 ^ 64) as Hn.
  { rewrite <- (fsr_count _ _ _ _ Hview). rewrite <- (fsr_count _ _ _ _ Hview) in Hcount.
    pose proof (vr_root _ _ _ Hv). lia. }
  pose proof (fsr_nodes _ _ _ _ Hview' _ Hn) as Hnode. simpl in Hnode. rewrite lookup_insert_eq in Hnode.
  destruct Hnode as (inode & es & [Hi Hnum Ht Hl _ _ _]). exists v', inode.
  split; [by destruct r; cbn in Er; simplify_eq|]. split; [by eapply volume_read_inode_correct|]. split; [done|].
  intros p' name' Hp' Hlook. pose proof (fs_rep_lookup v' m' s' _ p' name' (conj Hv' Hview') Hp') as (v2 & _ & _ & _ & E2 & _).
  cbn [execute] in E2. rewrite Hlook in E2. injection E2 as _ E2. revert E2. unfold spec_lookup.
  destruct (fs_nodes _ !! p') as [[]|]; cbn [snd]; intros E2; simplify_eq.
  assert (fs_names A !! (p', name') = Some (fs_count A + 1)) as Hx by by rewrite E2.
  apply (fsr_named _ _ _ _ Hview) in Hx. lia.
Qed.

(** C37: the free-extent tree of a new volume lists its own root block and the block
    that the next metadata write takes as free, one block more than the free count
    of the superblock. Once the roots of the inode tree and of the free-extent tree
    are returned to it, as the first update of the volume does, it lists these two
    blocks and nothing else. *)
Theorem new_free_tree_covers_itself (d : D) options g :
  formattable d options -> is_u64 g -> let total := total_sector_count d / 8 in
  compute_data_area_start_block total + 13 <= total ->
  exists d' v fe, bafs_format options d = (d', Ok tt) /\ bafs_mount d' = (d', Ok v)
    /\ let free_root := sb_free_extent_tree_root_block (superblock v) in
       let inode_root := sb_inode_tree_root_block (superblock v) in
       tree_in v free_tree free_root (free_encode fe) /\ is_free fe free_root /\ is_free fe (vol_next_free_block v)
       /\ fe = {[free_root := sb_free_block_count (superblock v) + 1]}
       /\ exists c1 root1 c2 root2 fp2,
            free_blocks d' free_root inode_root 1 g (vol_cow v []) = (c1, Ok root1)
            /\ free_blocks d' root1 free_root 1 g c1 = (c2, Ok root2)
            /\ tree_rep free_tree d' c2 root2 (free_encode {[inode_root := 1; free_root := 1]}) fp2.
Proof.
  intros Hd Hg total Hmin. pose proof (fm_sectors _ _ Hd) as Hdev. fold total in Hdev.
  destruct (format_tracks d options Hd Hmin) as (d' & v & E & Em & _ & Hv & _ & _ & _ & Hfree). fold total in Hv, Hfree.
  exists d', v, (new_free_map total). do 2 (split; [done|]). pose proof (data_area_bounds total) as [Hj Eds].
  set (ds := compute_data_area_start_block total) in *. cbv zeta. split; [exact Hfree|]. rewrite Hv in Hfree |- *.
  destruct Hfree as (fp & Hr & _). cbn [mounted superblock vol_next_free_block device] in *.
  change (sb_free_extent_tree_root_block _) with (ds + 6) in *. change (sb_next_cow_block_address _) with (ds + 7) in *.
  change (sb_free_block_count _) with (total - (ds + 7)). change (sb_inode_tree_root_block _) with (ds + 3).
  unfold new_free_map in *.
  split; [exists (ds + 6), (total - (ds + 6)); split; [apply lookup_singleton_eq|lia]|].
  split; [exists (ds + 6), (total - (ds + 6)); split; [apply lookup_singleton_eq|lia]|].
  split; [f_equal; lia|]. apply (new_free_tree_released total d' _ (ds + 6) (ds + 3) fp g); [exact Hr|lia..|done|].
  unfold room, FREE_BLOCKS, DELETE_BLOCKS, INSERT_BLOCKS. simpl. lia.
Qed.

End properties.

(** ** Witnesses *)

(** A device that fails its next write does not change. *)
Lemma failed_write_blocks ws (d : FaultInjectionDisk) :
  fi_countdown d = Some 0 -> ws <> [] -> forall d' r, write_blocks_home ws d = (d', r) -> d' = d /\ r <> Ok tt.
Proof.
  intros Hd. destruct ws as [|[a b] ws]; [done|]. intros _ d' r. cbn [write_blocks_home]. unfold st_bind at 1.
  enough (exists r, device_write_block a b d = (d, r) /\ r <> Ok tt) as (r1 & -> & Hr)
    by (destruct r1 as [[]| | |]; [done|by intros [= <- <-]..]).
  unfold device_write_block. unfold st_bind at 1. unfold st_lift.
  destruct (checked_mul 64 a BAFS_SECTORS_PER_BLOCK) as [lba| | |]; [|by eexists..].
  unfold st_bind. simpl. unfold FaultInjectionDisk_write_sectors. rewrite Hd. simpl. by eexists.
Qed.

Lemma superblock_writes_cons sb : superblock_writes sb <> [].
Proof. done. Qed.

Lemma commit_writes_cons sb id entries : commit_writes sb id entries <> [].
Proof. unfold commit_writes, superblock_writes. by destruct (record_chunks _ _), entries. Qed.

Local Abbreviation example_sb := (new_superblock BafsFormatOptions_default (2 ^ 18)).
Local Abbreviation repaired d := ({| fi_inner := fi_inner d; fi_countdown := None |} : FaultInjectionDisk).
Local Abbreviation failing d := ({| fi_inner := fi_inner d; fi_countdown := Some 0 |} : FaultInjectionDisk).

(** A commit on a device that refuses the first write leaves the device as it was. *)
Lemma commit_refused_write (v : BafsVolume FaultInjectionDisk) C A :
  tracks v C A -> committable v ->
  exists w r, flush_and_commit (set_device v (failing (device v))) = (w, r) /\ r <> Ok tt /\ device w = failing (device v)
    /\ readable (device w).
Proof.
  intros Ht Hcm. pose proof Ht as (sb & _ & _ & _ & _ & Hup & Hs & _).
  assert (readable (device v)) as Hrd by (apply up_readable; [done|apply Hs]).
  assert (readable (failing (device v))) as Hr by (intros a Ha; exact (Hrd a Ha)).
  destruct (tracks_failing v C A (failing (device v)) Ht (cm_device _ Hcm) eq_refl Hr) as (sb' & m0 & s0 & m & s & _ & Hl & _ & _ & G & Hf).
  set (vf := set_device v (failing (device v))) in *.
  assert (flushable vf) as Hfl by (eapply committable_flushable; [exact Hl|exact G|apply Hf|destruct Hcm; by split]).
  destruct (flush_and_commit vf) as [w r] eqn:E. exists w, r.
  enough (device w = failing (device v) /\ r <> Ok tt) as [Hdev Hno] by (rewrite Hdev; auto).
  destruct (decide (dirty_block_cache vf = ∅)) as [Hnil|Hdirty].
  - exact (failed_write_blocks _ (failing (device v)) eq_refl (superblock_writes_cons _) _ _ (flush_empty_runs vf m s w r (proj1 Hf) Hfl Hnil E)).
  - exact (failed_write_blocks _ (failing (device v)) eq_refl (commit_writes_cons _ _ _) _ _ (flush_runs_writes vf m s w r (proj1 Hf) Hfl Hdirty E)).
Qed.


(** A new volume with an uncommitted file. *)
Lemma example_uncommitted :
  exists d' v m s, let v0 := mounted d' (seal_with_checksum example_sb) in
    bafs_format BafsFormatOptions_default example_device = (d', Ok tt) /\ bafs_mount d' = (d', Ok v0)
    /\ execute (CreateFile 1 example_name) v0 = (v, Ok (Number 2)) /\ tracks v0 new_fs new_fs /\ tracks v new_fs example_fs
    /\ example_after v 2 /\ fs_rep v m s example_fs /\ committable v /\ commit_bounds v /\ device v = d'
    /\ len (content d') = 2 ^ 30 /\ settled d' example_sb
    /\ read_superblock_from_device d' BAFS_PRIMARY_SUPERBLOCK_BLOCK_ADDRESS = Ok (seal_with_checksum example_sb).
Proof.
  destruct (example_new example_device example_formattable example_sectors) as (d0 & E0 & _ & Ht0 & _).
  destruct (example_file example_device example_formattable example_sectors)
    as (d' & v & m & s & E & Em & Ec & Hf & Ha & Ht & Hs & Hdev & Hlen & Hp).
  rewrite E in E0. injection E0 as <-.
  assert (len (content d') = 2 ^ 30) as Hlen' by (by rewrite Hlen, length_example_device).
  assert (committable v) as Hcm by (apply (example_after_committable v m s 2); [done|apply Hf|lia|by rewrite Hdev]).
  exists d', v, m, s. do 2 (split; [done|]). split; [cbn [execute]; by rewrite Ec|]. do 4 (split; [done|]). split; [done|].
  split; [|split; [done|split; [done|split; [done|]]]].
  - split; [apply Hcm|]. destruct (example_after_next v 2 Ha) as (Hn & _). destruct (example_after_grown v 2 Ha) as (d1 & G).
    pose proof (cache_entries_count _ _ _ _ _ G (proj1 Hf)) as Hc. change (sb_next_cow_block_address _) with 2631 in Hc. lia.
  - pose proof (se_layout _ _ Hs) as Hlay. assert (device_up d') as Hup by (destruct Ht as (? & ? & ? & ? & ? & Hup & _); by rewrite <- Hdev).
    apply read_superblock_image; [exact Hup| |reflexivity|apply Hlay|apply Hlay|apply Hlay|exact Hp].
    apply (layout_on_device d' _ _ Hlay). unfold BAFS_PRIMARY_SUPERBLOCK_BLOCK_ADDRESS. lia.
Qed.








Lemma request_refines_witness :
  exists (v : BafsVolume FaultInjectionDisk) v', answers (no_room v (CreateFile 1 example_name)) new_fs (CreateFile 1 example_name)
      = (example_fs, Ok (Number 2))
    /\ execute (CreateFile 1 example_name) v = (v', Ok (Number 2)).
Proof.
  destruct example_new_rep as (d' & m & s & Hf).
  destruct (request_refines _ m s new_fs (CreateFile 1 example_name) 2 Hf) as (A' & r & v' & m' & s' & Hans & E & _).
  - by apply create_example_admissible.
  - done.
  - apply example_room. lia.
  - change (answers _ new_fs _) with (example_fs, Ok (Number 2) : result reply) in Hans. injection Hans as <- <-.
    exact (ex_intro _ _ (ex_intro _ v' (conj eq_refl E))).
Defined.

Lemma format_then_mount_witness :
  exists d' v m s, bafs_format BafsFormatOptions_default example_device = (d', Ok tt)
    /\ bafs_mount d' = (d', Ok v) /\ fs_rep v m s new_fs.
Proof.
  pose proof (format_then_mount example_device BafsFormatOptions_default example_formattable) as Hfm. cbv zeta in Hfm.
  rewrite decide_True in Hfm by exact (example_large example_device example_sectors). exact Hfm.
Defined.

Lemma new_free_tree_covers_itself_witness :
  exists d' v fe c1 root1 c2 root2, bafs_format BafsFormatOptions_default example_device = (d', Ok tt) /\ bafs_mount d' = (d', Ok v)
    /\ is_free fe (sb_free_extent_tree_root_block (superblock v))
    /\ free_blocks d' (sb_free_extent_tree_root_block (superblock v)) (sb_inode_tree_root_block (superblock v)) 1 2 (vol_cow v [])
       = (c1, Ok root1)
    /\ free_blocks d' root1 (sb_free_extent_tree_root_block (superblock v)) 1 2 c1 = (c2, Ok root2).
Proof.
  destruct (new_free_tree_covers_itself example_device BafsFormatOptions_default 2 example_formattable ltac:(ilia)
    (example_large example_device example_sectors))
    as (d' & v & fe & E & Em & _ & Hfree & _ & _ & c1 & root1 & c2 & root2 & fp2 & E1 & E2 & _).
  exists d', v, fe, c1, root1, c2, root2. split; [exact E|]. split; [exact Em|]. split; [exact Hfree|]. split; [exact E1|exact E2].
Defined.

Lemma commit_durable_witness :
  exists (v v' : BafsVolume FaultInjectionDisk), flush_and_commit v = (v', Ok tt)
    /\ bafs_mount (device v') = (device v', Ok v') /\ tracks v new_fs example_fs /\ tracks v' example_fs example_fs.
Proof.
  destruct example_uncommitted as (d' & v & m & s & _ & _ & _ & _ & Ht & _ & _ & Hcm & Hcb & _).
  destruct (commit_durable v new_fs example_fs Ht (cm_device _ Hcm) Hcb) as [Hfits _].
  destruct (Hfits (cm_fits _ Hcm)) as (v' & E & Em & Ht').
  exists v, v'. split; [exact E|]. split; [exact Em|]. split; [exact Ht|exact Ht'].
Defined.


(** One attempt on a device that refuses the first write, and one on the device
    repaired. *)
Lemma failed_commit_retried_witness :
  exists (v w w' : BafsVolume FaultInjectionDisk) r, tracks v new_fs example_fs
    /\ flush_and_commit (set_device v (failing (device v))) = (w, r) /\ r <> Ok tt
    /\ flush_and_commit (set_device w (repaired (device w))) = (w', Ok tt)
    /\ bafs_mount (device w') = (device w', Ok w') /\ tracks w' example_fs example_fs.
Proof.
  destruct example_uncommitted as (d' & v & m & s & _ & _ & _ & _ & Ht & _ & _ & Hcm & _ & Hdev & Hl & _).
  destruct (commit_refused_write v _ _ Ht Hcm) as (w & r & E & Hr & Hw & Hrd).
  pose proof Ht as (_ & _ & _ & _ & _ & Hup & _). rewrite <- Hdev in Hl.
  assert (readable (failing (device v))) as Hrf by (rewrite <- Hw; exact Hrd).
  destruct (failed_commit_retried v (set_device w (repaired (device w))) new_fs example_fs Ht Hcm) as (w' & E' & Em & Ht').
  - apply (attempts_again v (set_device v (failing (device v))) w r); [by apply attempts_start|exact E|exact Hr|reflexivity|].
    intros a Ha. exact (Hrd a Ha).
  - rewrite Hw. split; [reflexivity|]. change (len (content (device v)) < 2 ^ 64). rewrite Hl. lia.
  - exists v, w, w', r. split; [exact Ht|]. split; [exact E|]. split; [exact Hr|]. split; [exact E'|]. split; [exact Em|exact Ht'].
Defined.

Lemma write_then_read_witness :
  exists v v' : BafsVolume FaultInjectionDisk, volume_write_file_data 2 4096 [1; 2; 3] v = (v', Ok 3)
    /\ volume_read_file_data v' 2 4096 (zeros 3) = ([1; 2; 3], Ok 3).
Proof.
  destruct (example_file example_device example_formattable example_sectors) as (d' & v & m & s & _ & _ & _ & Hf & Ha & _).
  destruct (write_then_read v m s example_fs 2 new_file 4096 [1; 2; 3] Hf) as (v' & E & Hread & _).
  - eapply (example_write_ready v example_fs); [exact Ha|lia|reflexivity|done|by repeat constructor|done|done].
  - intros seg Hin. by apply elem_of_nil in Hin.
  - exists v, v'. split; [exact E|exact Hread].
Defined.

(** One more byte appended to a file of three. *)
Lemma covered_write_is_lost_witness :
  exists (v v1 v2 : BafsVolume FaultInjectionDisk) old, volume_write_file_data 2 3 [7] v = (v1, Ok 1)
    /\ volume_write_file_data 2 3 [8] v = (v2, Ok 1)
    /\ volume_read_file_data v1 2 3 (zeros 1) = (old, Ok 1)
    /\ volume_read_file_data v2 2 3 (zeros 1) = (old, Ok 1).
Proof.
  destruct (example_file_written example_device example_formattable example_sectors [1; 2; 3])
    as (v & m & s & Hf & Hw1 & Hw2 & _); [by repeat constructor|done|].
  destruct (covered_write_is_lost v m s _ 2 (file_write 0 [1; 2; 3] new_file) (0, padded [1; 2; 3]) 3 1 Hf ltac:(left) ltac:(done)) as (old & Hold).
  - cbn [fst snd]. rewrite length_padded. vm_compute. discriminate.
  - destruct (Hold [7] eq_refl Hw1) as (v1 & W1 & R1). destruct (Hold [8] eq_refl Hw2) as (v2 & W2 & R2).
    exists v, v1, v2, old. split; [exact W1|]. split; [exact W2|]. split; [exact R1|exact R2].
Defined.

(** A file of two blocks whose first byte is written again. *)
Lemma shorter_overwrite_unreadable_witness :
  exists v v' : BafsVolume FaultInjectionDisk, volume_read_file_data v 2 4096 [0] = ([0], Ok 1)
    /\ volume_write_file_data 2 0 [7] v = (v', Ok 1) /\ (volume_read_file_data v' 2 4096 [0]).2 = Err CorruptedStructure.
Proof.
  destruct (example_file_written example_device example_formattable example_sectors (zeros 4097)) as (v & m & s & Hf & _ & _ & Hw);
    [apply zeros_bytes_ok|rewrite length_zeros; lia|].
  assert (volume_read_file_data v 2 4096 [0] = ([0], Ok 1)) as Hread.
  { apply (read_fills v m s _ 2 (file_write 0 (zeros 4097) new_file) 4096 1 [0] Hf); [done|reflexivity|done|done|done|].
    pose proof (st_text _ _ (file_of_shows (zeros 4097)) 4096 1 ltac:(lia) ltac:(lia) ltac:(rewrite length_zeros; lia)) as Htext.
    unfold file_of in Htext. rewrite decide_False in Htext by (intros Hz%(f_equal length); rewrite length_zeros in Hz; simpl in Hz; lia).
    rewrite Htext. reflexivity. }
  destruct (shorter_overwrite_unreadable v m s _ 2 _ 0 [7] 4096 0 Hf Hw Hread) as (v' & E & Hfail).
  - vm_compute. discriminate.
  - intros seg Hin _. apply list_elem_of_singleton in Hin as ->. reflexivity.
  - exists v, v'. split; [exact Hread|]. split; [exact E|exact (Hfail [0] ltac:(done))].
Defined.

(** The block of the first inode tree, superseded by the root directory's insertion. *)
Lemma freed_blocks_return_terminates_witness :
  exists v v' : BafsVolume FaultInjectionDisk,
    return_freed_cow_blocks_to_free_extent_tree [2624] v = (v', Ok tt).
Proof.
  destruct example_new_rep as (d' & m & s & Hv & _).
  pose proof (freed_blocks_return_terminates _ m s [2624] Hv) as Hret. cbv zeta in Hret.
  change (sb_next_cow_block_address _) with 2631 in Hret. change (sb_free_block_count _) with (2 ^ 18 - 2631) in Hret at 1.
  destruct Hret as (v' & E & _).
  - apply Forall_singleton. lia.
  - change (blocks_below 2631 [2624]) with [2624]. simpl. lia.
  - change (vol_next_free_block _) with 2631. change (RETURN_BLOCKS 2631) with 868230. lia.
  - lia.
  - exact (ex_intro _ _ (ex_intro _ v' E)).
Defined.

Lemma rejected_create_leaks_inode_witness :
  exists (v v' : BafsVolume FaultInjectionDisk) inode, volume_create_file 1 example_name v = (v', Err AlreadyExists)
    /\ volume_read_inode v' 3 = Ok inode.
Proof.
  destruct (example_file example_device example_formattable example_sectors) as (d' & v & m & s & _ & _ & _ & Hf & Ha & _).
  destruct (rejected_create_leaks_inode v m s example_fs 1 example_name 2 2 Hf) as (v' & inode & E & Hr & _).
  - by apply create_example_admissible.
  - eapply (example_after_room v 2); [exact Ha|lia|lia|lia].
  - simpl. lia.
  - reflexivity.
  - reflexivity.
  - exists v, v', inode. split; [exact E|exact Hr].
Defined.


