(* ===== verification/Kernel.v ===== *)
(** * Kernel: the VFS adapter of kernel.rs

    The kernel's [Inode] trait as a class, the adapter [BafsKernelInode] as its
    instance over the cells that hold the mounted volumes, and the proof that the
    adapter shows the abstract file system of its volume. *)

From S2P Require Import Prelude Checksum Device Superblock Node NodeCodec BTree BTreeInv BTreeWrite.
From S2P Require Import BTreeInsert BTreeDelete TreeStore Inode Extent FreeSpace ChecksumTree XxHash Dir Journal JournalLaws.
From S2P Require Import Volume FileModel VolumeInv VolumeDirs VolumeUnlink VolumeFiles FileContents VolumeCommit FileSystem Format History Examples.

(** ** Types shared with the kernel *)

Inductive InodeType := RegularFile | Directory | CharDevice | Fifo | Symlink.

Record InodeStat := { stat_inode_number : Z; stat_size : Z; stat_mode : Z; stat_nlinks : Z }.

(** The permissions are [0o644]. *)
Definition InodeStat_regular (inode_number size : Z) : InodeStat :=
  {| stat_inode_number := inode_number; stat_size := size;
     stat_mode := Z.lor INODE_MODE_REGULAR_FILE (6 * 64 + 4 * 8 + 4); stat_nlinks := 1 |}.

(** The permissions are [0o755]. *)
Definition InodeStat_directory (inode_number : Z) : InodeStat :=
  {| stat_inode_number := inode_number; stat_size := 0;
     stat_mode := Z.lor INODE_MODE_DIRECTORY (7 * 64 + 5 * 8 + 5); stat_nlinks := 2 |}.

Record DirEntry := { dirent_name : list Z; dirent_inode_type : InodeType; dirent_inode_number : Z }.

Module Fs.
Inductive FsError :=
  | NotSupported
  | NotFound
  | NotDirectory
  | AlreadyExists
  | DirectoryNotEmpty
  | OutOfMemory
  | IoError
  | PermissionDenied
  | BrokenPipe
  | WouldBlock
  | TooManyLinks
  | InvalidArgument.

Definition to_errno (e : FsError) : Z :=
  match e with
  | NotSupported => -38
  | NotFound => -2
  | NotDirectory => -20
  | AlreadyExists => -17
  | DirectoryNotEmpty => -39
  | OutOfMemory => -12
  | IoError => -5
  | PermissionDenied => -13
  | BrokenPipe => -32
  | WouldBlock => -11
  | TooManyLinks => -31
  | InvalidArgument => -22
  end.

(** Distinct errors have distinct numbers. *)
#[global] Instance to_errno_inj : Inj (=) (=) to_errno.
Proof. by intros [] []. Qed.
End Fs.

Definition map_bafs_error_to_fs_error (bafs_error : BafsError) : Fs.FsError :=
  match bafs_error with
  | NotFound => Fs.NotFound
  | AlreadyExists => Fs.AlreadyExists
  | NotADirectory => Fs.NotDirectory
  | NotARegularFile => Fs.NotSupported
  | OutOfSpace => Fs.OutOfMemory
  | InvalidArgument => Fs.InvalidArgument
  | InputOutputError => Fs.IoError
  | InvalidChecksum _ => Fs.IoError
  | CorruptedStructure => Fs.IoError
  | _ => Fs.IoError
  end.

(** [Result<A, FsError>] *)
Abbreviation fs_result := (outcome Fs.FsError).

(** [map_err(map_bafs_error_to_fs_error)] *)
Definition map_err {A} (r : result A) : fs_result A :=
  match r with
  | Ok a => Ok a
  | Err e => Err (map_bafs_error_to_fs_error e)
  | Panic => Panic
  | OutOfFuel => OutOfFuel
  end.

Definition map_err_st {S A} (m : ST S BafsError A) : ST S Fs.FsError A :=
  fun s => let '(s, r) := m s in (s, map_err r).

(** [match r { Ok(a) => f a, Err(_) => default }] *)
Definition or_default {A B} (r : result A) (f : A -> B) (default : B) : fs_result B :=
  match r with
  | Ok a => Ok (f a)
  | Err _ => Ok default
  | Panic => Panic
  | OutOfFuel => OutOfFuel
  end.

(** ** The trait *)

Module Vfs.
(** [I] is the type of inodes, [S] the state they share. Strings are their UTF-8
    bytes. A call that cannot fail in Rust can still abort in the calls below it:
    its outcome is [Ok] or a panic. *)
Class Inode (I S : Type) := {
  inode_type : I -> S -> fs_result InodeType;
  stat : I -> S -> fs_result InodeStat;
  read_at : I -> S -> Z -> ST (list Z) Fs.FsError Z;
  write_at : I -> Z -> list Z -> ST S Fs.FsError Z;
  truncate : I -> Z -> ST S Fs.FsError unit;
  lookup : I -> S -> list Z -> fs_result (option I);
  readdir : I -> S -> nat -> fs_result (option DirEntry);
  create : I -> list Z -> ST S Fs.FsError I;
  mkdir : I -> list Z -> ST S Fs.FsError I;
  unlink : I -> list Z -> ST S Fs.FsError unit;
  set_mode : I -> Z -> ST S Fs.FsError unit;
  link_child : I -> list Z -> I -> ST S Fs.FsError unit;
}.

(** The provided methods. *)
Definition set_mode_provided {I S} (_ : I) (_ : Z) : ST S Fs.FsError unit := st_ret tt.

Definition link_child_provided {I S} (_ : I) (_ : list Z) (_ : I) : ST S Fs.FsError unit :=
  st_err Fs.NotSupported.
End Vfs.

(** ** Shared volumes *)

(** The memory of the kernel: the volumes in their [UnsafeCell]s, by location. *)
Abbreviation cells D := (gmap nat (BafsVolume D)).

(** [Arc<BafsVolumeHandle>]: where the cell is. *)
Record BafsVolumeHandle := { inner : nat }.

Section handle.
Context {D : Type} `{BlockDevice D}.

Definition BafsVolumeHandle_new (volume : BafsVolume D) (memory : cells D) : cells D * BafsVolumeHandle :=
  let location := fresh (dom memory) in
  (<[location := volume]> memory, {| inner := location |}).

(** A handle keeps its cell alive: there is no volume only where no handle is. *)
Definition borrow_volume (h : BafsVolumeHandle) (memory : cells D) : fs_result (BafsVolume D) :=
  match memory !! inner h with
  | Some volume => Ok volume
  | None => Panic
  end.

(** [m] runs on the volume behind the mutable reference. *)
Definition borrow_volume_mut {A} (h : BafsVolumeHandle) (m : ST (BafsVolume D) Fs.FsError A) : ST (cells D) Fs.FsError A :=
  fun memory =>
    match memory !! inner h with
    | Some volume => let '(volume, r) := m volume in (<[inner h := volume]> memory, r)
    | None => (memory, Panic)
    end.
End handle.

(** ** The adapter *)

Record BafsKernelInode := { ki_volume_handle : BafsVolumeHandle; ki_inode_number : Z }.

Definition BafsKernelInode_new (volume_handle : BafsVolumeHandle) (inode_number : Z) : BafsKernelInode :=
  {| ki_volume_handle := volume_handle; ki_inode_number := inode_number |}.

(** The clone of the [Arc] is the same location. *)
Definition make_inode_arc (i : BafsKernelInode) (target_inode_number : Z) : BafsKernelInode :=
  {| ki_volume_handle := ki_volume_handle i; ki_inode_number := target_inode_number |}.

Section adapter.
Context {D : Type} `{BlockDevice D}.
Implicit Types memory : cells D.

Definition kernel_inode_type (i : BafsKernelInode) memory : fs_result InodeType :=
  let? volume := borrow_volume (ki_volume_handle i) memory in
  or_default (volume_read_inode volume (ki_inode_number i))
    (fun inode => if is_directory inode then Directory else RegularFile) RegularFile.

Definition kernel_stat (i : BafsKernelInode) memory : fs_result InodeStat :=
  let? volume := borrow_volume (ki_volume_handle i) memory in
  or_default (volume_read_inode volume (ki_inode_number i))
    (fun inode => if is_directory inode then InodeStat_directory (ki_inode_number i)
                  else InodeStat_regular (ki_inode_number i) (file_size_in_bytes inode))
    (InodeStat_regular (ki_inode_number i) 0).

Definition kernel_read_at (i : BafsKernelInode) memory (offset : Z) : ST (list Z) Fs.FsError Z :=
  let! volume := st_lift (borrow_volume (ki_volume_handle i) memory) in
  map_err_st (volume_read_file_data volume (ki_inode_number i) offset).

Definition kernel_write_at (i : BafsKernelInode) (offset : Z) (buf : list Z) : ST (cells D) Fs.FsError Z :=
  borrow_volume_mut (ki_volume_handle i) (map_err_st (volume_write_file_data (ki_inode_number i) offset buf)).

Definition kernel_truncate (i : BafsKernelInode) (new_size : Z) : ST (cells D) Fs.FsError unit :=
  st_err Fs.NotSupported.

Definition kernel_lookup (i : BafsKernelInode) memory (name : list Z) : fs_result (option BafsKernelInode) :=
  let? volume := borrow_volume (ki_volume_handle i) memory in
  or_default (volume_lookup_directory_entry volume (ki_inode_number i) name) (fmap (make_inode_arc i)) None.

Definition kernel_dirent (entry : BafsDirEntry) : DirEntry :=
  {| dirent_name := filename entry;
     dirent_inode_type := if child_type entry =? CHILD_TYPE_DIRECTORY then Directory else RegularFile;
     dirent_inode_number := child_inode_number entry |}.

Definition kernel_readdir (i : BafsKernelInode) memory (index : nat) : fs_result (option DirEntry) :=
  let? volume := borrow_volume (ki_volume_handle i) memory in
  or_default (volume_read_directory_entry_at_index volume (ki_inode_number i) index) (fmap kernel_dirent) None.

Definition kernel_create (i : BafsKernelInode) (name : list Z) : ST (cells D) Fs.FsError BafsKernelInode :=
  let! new_inode_number :=
    borrow_volume_mut (ki_volume_handle i) (map_err_st (volume_create_file (ki_inode_number i) name)) in
  st_ret (make_inode_arc i new_inode_number).

Definition kernel_mkdir (i : BafsKernelInode) (name : list Z) : ST (cells D) Fs.FsError BafsKernelInode :=
  let! new_inode_number :=
    borrow_volume_mut (ki_volume_handle i) (map_err_st (volume_create_directory (ki_inode_number i) name)) in
  st_ret (make_inode_arc i new_inode_number).

Definition kernel_unlink (i : BafsKernelInode) (name : list Z) : ST (cells D) Fs.FsError unit :=
  borrow_volume_mut (ki_volume_handle i) (map_err_st (volume_unlink_directory_entry (ki_inode_number i) name)).

#[global] Instance BafsKernelInode_Inode : Vfs.Inode BafsKernelInode (cells D) := {
  Vfs.inode_type := kernel_inode_type;
  Vfs.stat := kernel_stat;
  Vfs.read_at := kernel_read_at;
  Vfs.write_at := kernel_write_at;
  Vfs.truncate := kernel_truncate;
  Vfs.lookup := kernel_lookup;
  Vfs.readdir := kernel_readdir;
  Vfs.create := kernel_create;
  Vfs.mkdir := kernel_mkdir;
  Vfs.unlink := kernel_unlink;
  Vfs.set_mode := Vfs.set_mode_provided;
  Vfs.link_child := Vfs.link_child_provided;
}.

(** The state is the device, which a failed mount may have changed, and the memory. *)
Definition bafs_mount_kernel_volume : ST (D * cells D) BafsError BafsKernelInode :=
  fun '(device, memory) =>
    match bafs_mount device with
    | (device, Ok volume) =>
        let root_inode_number := sb_root_inode_number (superblock volume) in
        let '(memory, handle) := BafsVolumeHandle_new volume memory in
        ((device, memory), Ok (BafsKernelInode_new handle root_inode_number))
    | (device, r) => ((device, memory), let? _ := r in Panic)
    end.
End adapter.

(** ** What the adapter shows *)

Definition node_inode_type (node : option fs_node) : InodeType :=
  match node with
  | Some (DirectoryNode _) => Directory
  | _ => RegularFile
  end.

Definition node_stat (n : Z) (node : option fs_node) : InodeStat :=
  match node with
  | Some (DirectoryNode _) => InodeStat_directory n
  | Some (FileNode f) => InodeStat_regular n (file_size f)
  | None => InodeStat_regular n 0
  end.

(** The children a directory shows by name. *)
Definition child_named (A : fs) (p : Z) (name : list Z) : option Z :=
  match fs_nodes A !! p with
  | Some (DirectoryNode _) => fs_names A !! (p, name)
  | _ => None
  end.

(** [e] is the entry of the directory [p] for one of its names. *)
Definition shown_entry (A : fs) (p : Z) (e : DirEntry) : Prop :=
  fs_names A !! (p, dirent_name e) = Some (dirent_inode_number e)
  /\ dirent_inode_type e = node_inode_type (fs_nodes A !! dirent_inode_number e).

(** A request of the abstract file system as a call of the trait, on an inode of the
    volume [h]. *)
Definition kernel_execute {D} `{BlockDevice D} (h : BafsVolumeHandle) (q : request) (memory : cells D)
    : cells D * fs_result reply :=
  let at_number n := BafsKernelInode_new h n in
  let number := fun i => Number (ki_inode_number i) in
  let replies {A} (f : A -> reply) (r : fs_result A) : fs_result reply := let? a := r in Ok (f a) in
  match q with
  | CreateFile p name => let '(memory, r) := Vfs.create (at_number p) name memory in (memory, replies number r)
  | CreateDirectory p name => let '(memory, r) := Vfs.mkdir (at_number p) name memory in (memory, replies number r)
  | WriteFile n off data => let '(memory, r) := Vfs.write_at (at_number n) off data memory in (memory, replies Number r)
  | ReadFile n off count =>
      let '(buffer, r) := Vfs.read_at (at_number n) memory off (zeros count) in
      (memory, replies (fun bytes_read => Bytes (take (Z.to_nat bytes_read) buffer)) r)
  | Lookup p name =>
      (memory, replies (fun child => Found (ki_inode_number <$> child)) (Vfs.lookup (at_number p) memory name))
  | Unlink p name => let '(memory, r) := Vfs.unlink (at_number p) name memory in (memory, replies (fun _ => Done) r)
  end.

(** The trait's lookup has no error: a failing one finds nothing. *)
Definition kernel_answer (q : request) (r : result reply) : fs_result reply :=
  match q, r with
  | Lookup _ _, Err _ => Ok (Found None)
  | _, _ => map_err r
  end.

(** The number by which the kernel reports an error: [ENOENT], [EEXIST], [ENOTDIR],
    [ENOSYS] for an operation on a directory that is one of files, [ENOMEM] for a
    full volume, [EINVAL], and [EIO] for everything that is wrong with the device or
    with what it stores. *)
Definition errno (e : BafsError) : Z :=
  match e with
  | NotFound => -2
  | AlreadyExists => -17
  | NotADirectory => -20
  | NotARegularFile => -38
  | OutOfSpace => -12
  | InvalidArgument => -22
  | _ => -5
  end.

Definition kernel_reply (q : request) (r : result reply) : outcome Z reply :=
  match r with
  | Ok reply => Ok reply
  | Err e => match q with Lookup _ _ => Ok (Found None) | _ => Err (errno e) end
  | Panic => Panic
  | OutOfFuel => OutOfFuel
  end.

(** What the caller of the trait sees: errors by their numbers. *)
Definition by_errno {A} (r : fs_result A) : outcome Z A :=
  match r with
  | Ok a => Ok a
  | Err e => Err (Fs.to_errno e)
  | Panic => Panic
  | OutOfFuel => OutOfFuel
  end.

Lemma kernel_answer_reply q r : by_errno (kernel_answer q r) = kernel_reply q r.
Proof. destruct q, r as [|[]| |]; reflexivity. Qed.

(** A call is the operation on the volume in the cell, and nothing else. *)
Lemma kernel_execute_execute {D} `{BlockDevice D} h q (memory : cells D) v :
  memory !! inner h = Some v ->
  kernel_execute h q memory = (<[inner h := (execute q v).1]> memory, kernel_answer q (execute q v).2).
Proof.
  intros Hv. destruct q as [p name|p name|n off data|n off count|p name|p name]; simpl; unfold kernel_create, kernel_mkdir,
    kernel_write_at, kernel_read_at, kernel_lookup, kernel_unlink, borrow_volume_mut, borrow_volume, map_err_st, st_bind, st_lift;
    simpl; rewrite Hv; simpl.
  - by destruct (volume_create_file p name v) as [v' []].
  - by destruct (volume_create_directory p name v) as [v' []].
  - by destruct (volume_write_file_data n off data v) as [v' []].
  - rewrite insert_id by by destruct (volume_read_file_data v n off (zeros count)).
    by destruct (volume_read_file_data v n off (zeros count)) as [v' []].
  - rewrite insert_id by done. by destruct (volume_lookup_directory_entry v p name) as [[]| | |].
  - by destruct (volume_unlink_directory_entry p name v) as [v' []].
Qed.

(** A mount takes a new cell. *)
Lemma mount_new_cell {D} `{BlockDevice D} (d : D) (memory : cells D) d' v :
  bafs_mount d = (d', Ok v) ->
  exists h, memory !! inner h = None
    /\ bafs_mount_kernel_volume (d, memory)
       = ((d', <[inner h := v]> memory), Ok (BafsKernelInode_new h (sb_root_inode_number (superblock v)))).
Proof.
  intros E. exists {| inner := fresh (dom memory) |}. split; [apply not_elem_of_dom, is_fresh|].
  unfold bafs_mount_kernel_volume. by rewrite E.
Qed.

(** ** The device is left alone *)

(** Tree operations on the cache leave the device of the volume alone. *)
Lemma on_cow_device {D} `{BlockDevice D} {A} freed (m : ST cow BafsError A) :
  preserves device (on_cow (D:=D) freed m).
Proof. intros v. unfold on_cow. by destruct (m (vol_cow v freed)). Qed.

#[export] Hint Resolve on_cow_device : preserves.

Section keeps_operations.
Context {D : Type} `{BlockDevice D}.

Lemma keeps_return_freed_loop boundary generation freed secondary :
  preserves device (return_freed_loop (D:=D) boundary generation freed secondary).
Proof. revert secondary. induction freed as [|b freed IH]; intros secondary; simpl; preserve. Qed.

Lemma keeps_return_freed_levels fuel freed : preserves device (return_freed_levels (D:=D) fuel freed).
Proof.
  revert freed. induction fuel as [|fuel IH]; intros [|b freed]; simpl; preserve; apply keeps_return_freed_loop.
Qed.

Lemma keeps_return_freed freed : preserves device (return_freed_cow_blocks_to_free_extent_tree (D:=D) freed).
Proof. unfold return_freed_cow_blocks_to_free_extent_tree. preserve. apply keeps_return_freed_levels. Qed.

Lemma keeps_write_data_blocks fuel generation data address freed :
  preserves device (write_data_blocks (D:=D) fuel generation data address freed).
Proof. revert data address freed. induction fuel as [|fuel IH]; intros [|b data] address freed; simpl; preserve. Qed.

#[local] Hint Resolve keeps_return_freed keeps_write_data_blocks : preserves.

Lemma keeps_allocate_and_write data : preserves device (allocate_and_write_data_blocks (D:=D) data).
Proof. unfold allocate_and_write_data_blocks. preserve. Qed.

Lemma keeps_write_inode inode : preserves device (volume_write_inode (D:=D) inode).
Proof. unfold volume_write_inode. preserve. Qed.

Lemma keeps_unlink_extents generation items inode_root free_root freed :
  preserves device (unlink_extents (D:=D) generation items inode_root free_root freed).
Proof. revert inode_root free_root freed. induction items as [|it items IH]; intros inode_root free_root freed; simpl; preserve. Qed.

#[local] Hint Resolve keeps_allocate_and_write keeps_write_inode keeps_unlink_extents : preserves.

Lemma keeps_execute q (v : BafsVolume D) : device (execute q v).1 = device v.
Proof.
  assert (forall new type p name, preserves device (volume_create_entry (D:=D) new type p name)) as Hcreate.
  { intros. unfold volume_create_entry, volume_allocate_inode_number. preserve. }
  assert (forall n off data, preserves device (volume_write_file_data (D:=D) n off data)) as Hwrite.
  { intros. unfold volume_write_file_data. preserve. }
  assert (forall p name, preserves device (volume_unlink_directory_entry (D:=D) p name)) as Hunlink.
  { intros. unfold volume_unlink_directory_entry, unlink_last_link. preserve. }
  destruct q as [p name|p name|n off data|n off count|p name|p name]; simpl.
  - specialize (Hcreate new_regular_file CHILD_TYPE_REGULAR_FILE p name v). unfold volume_create_file. by destruct (volume_create_entry _ _ _ _ v).
  - specialize (Hcreate new_directory CHILD_TYPE_DIRECTORY p name v). unfold volume_create_directory. by destruct (volume_create_entry _ _ _ _ v).
  - specialize (Hwrite n off data v). by destruct (volume_write_file_data _ _ _ v).
  - by destruct (volume_read_file_data _ _ _ _).
  - done.
  - specialize (Hunlink p name v). by destruct (volume_unlink_directory_entry _ _ v).
Qed.

Lemma kernel_call_device h q (memory : cells D) l :
  (device <$> (kernel_execute h q memory).1 !! l) = (device <$> memory !! l).
Proof.
  destruct (memory !! inner h) as [v|] eqn:E.
  - rewrite (kernel_execute_execute h q memory v E). cbn [fst]. destruct (decide (l = inner h)) as [->|Hne].
    + rewrite lookup_insert_eq, E. cbn. by rewrite keeps_execute.
    + by rewrite lookup_insert_ne.
  - destruct q; simpl; unfold kernel_create, kernel_mkdir, kernel_write_at, kernel_read_at, kernel_lookup, kernel_unlink,
      borrow_volume_mut, borrow_volume, st_bind, st_lift; simpl; by rewrite ?E.
Qed.

Lemma kernel_calls_device calls : forall (memory : cells D) l,
  (device <$> foldl (fun memory call => (kernel_execute call.1 call.2 memory).1) memory calls !! l) = (device <$> memory !! l).
Proof. induction calls as [|[h q] calls IH]; intros memory l; [done|]. simpl. by rewrite IH, kernel_call_device. Qed.
End keeps_operations.

(** ** Inodes and listings *)

Section view.
Context {D : Type} `{BlockDevice D} `{!TreeStore D}.
Implicit Types v : BafsVolume D.
Implicit Types memory : cells D.

(** What reading the inode of an abstract node gives. *)
Lemma read_inode_node v m s A n :
  fs_rep v m s A -> 1 <= n < 2 ^ 64 ->
  match fs_nodes A !! n with
  | None => volume_read_inode v n = Err NotFound
  | Some node => exists inode, volume_read_inode v n = Ok inode
      /\ is_directory inode = (match node with DirectoryNode _ => true | FileNode _ => false end)
      /\ forall f, node = FileNode f -> file_size_in_bytes inode = file_size f
  end.
Proof.
  intros [Hv Hview] Hn. pose proof (fsr_nodes _ _ _ _ Hview n Hn) as Hnode.
  destruct (fs_nodes A !! n) as [[links|bytes]|].
  - destruct Hnode as (inode & Hd). exists inode. split; [|split; [apply Hd|done]].
    eapply volume_read_inode_correct; [done|done|apply Hd].
  - destruct Hnode as (inode & es & [Hi _ Ht _ Hsize _ _]).
    exists inode. split; [by eapply volume_read_inode_correct|]. split; [|by intros ? [= <-]].
    unfold is_directory, is_regular_file in *. apply Z.eqb_eq in Ht. by rewrite Ht.
  - by eapply volume_read_inode_missing.
Qed.

Lemma kernel_lookup_shows memory h v m s A p name :
  memory !! inner h = Some v -> fs_rep v m s A -> 1 <= p < 2 ^ 64 ->
  kernel_lookup (BafsKernelInode_new h p) memory name = Ok (BafsKernelInode_new h <$> child_named A p name).
Proof.
  intros Hmem Hf Hp. destruct (fs_rep_lookup v m s A p name Hf Hp) as (v' & _ & _ & _ & E & _). simpl in E.
  unfold kernel_lookup, borrow_volume, child_named, spec_lookup in *. injection E as _ E. cbn [BafsKernelInode_new ki_inode_number ki_volume_handle].
  rewrite Hmem. cbn [obind].
  destruct (volume_lookup_directory_entry v p name) as [child|e| |]; simpl in E;
    destruct (fs_nodes A !! p) as [[]|]; simplify_eq/=; done.
Qed.

Lemma shown_entry_dirent v m s A p e :
  fs_rep v m s A -> dir_lookup m p (filename e) = Some e -> shown_entry A p (kernel_dirent e).
Proof.
  intros [_ Hview] He. split; simpl; [by eapply entry_child|]. rewrite (fsr_types _ _ _ _ Hview _ _ _ He).
  by destruct (fs_nodes A !! _) as [[]|].
Qed.

Lemma dirent_shown_entry v m s A p e :
  fs_rep v m s A -> shown_entry A p e -> exists e', dir_lookup m p (filename e') = Some e' /\ kernel_dirent e' = e.
Proof.
  intros Hf [Hname Htype]. pose proof Hf as [Hv Hview]. rewrite <- (fsr_names _ _ _ _ Hview) in Hname.
  apply fmap_Some in Hname as (e' & He & Hnum). pose proof (dir_lookup_Some _ _ _ _ (vr_dirs _ _ _ Hv) He) as (_ & _ & Hfn).
  rewrite <- Hfn in He. exists e'. split; [done|]. destruct (shown_entry_dirent v m s A p e' Hf He) as [_ Htype'].
  destruct e as [name type number]. simpl in *. subst name number type. unfold kernel_dirent. f_equal. exact Htype'.
Qed.

Lemma kernel_readdir_lists memory h v m s A p :
  memory !! inner h = Some v -> fs_rep v m s A -> 1 <= p < 2 ^ 64 ->
  exists entries, NoDup (dirent_name <$> entries) /\ (forall e, e ∈ entries <-> shown_entry A p e)
    /\ forall index, kernel_readdir (BafsKernelInode_new h p) memory index = Ok (entries !! index).
Proof.
  intros Hmem Hf Hp. pose proof Hf as [Hv _]. destruct (vr_inodes _ _ _ Hv) as (fp & Hr & _).
  destruct (directory_list_correct (device v) (vol_cow v []) _ m fp p Hr (vol_room_0 _ _ _ _ Hv) (vr_dirs _ _ _ Hv) Hp)
    as (entries & _ & [Hs Hin] & Hit).
  exists (kernel_dirent <$> entries). split; [|split].
  - rewrite <- list_fmap_compose. apply NoDup_fmap_2_strong; [|].
    + intros e1 e2 H1%Hin H2%Hin Heq. simpl in Heq. rewrite <- Heq in H2. congruence.
    + apply (NoDup_fmap_1 name_hash). by apply StronglySorted_lt_NoDup.
  - intros e. rewrite list_elem_of_fmap. split.
    + intros (e' & -> & He%Hin). by eapply shown_entry_dirent.
    + intros He. destruct (dirent_shown_entry v m s A p e Hf He) as (e' & He' & <-). exists e'. by split; [|apply Hin].
  - intros index. unfold kernel_readdir, borrow_volume. cbn [BafsKernelInode_new ki_inode_number ki_volume_handle]. rewrite Hmem.
    cbn [obind]. unfold volume_read_directory_entry_at_index.
    pose proof (Hit index) as Ei. cbn [vol_cow dirty_cache] in Ei. rewrite Ei. simpl. by rewrite list_lookup_fmap.
Qed.
End view.

(** ** Properties *)

Section properties.
Context `{BlockDeviceLaws D}.

(** C11: every inode of the kernel shows its abstract node: its type and stat are
    the node's, looking a name up finds the child of that name on the same volume
    and no other, and reading the directory by index gives each name once, with the
    child's number and type. *)
Theorem kernel_shows_file_system (memory : cells D) h v m s A n :
  memory !! inner h = Some v -> fs_rep v m s A -> 1 <= n < 2 ^ 64 ->
  let i := BafsKernelInode_new h n in
  Vfs.inode_type i memory = Ok (node_inode_type (fs_nodes A !! n))
  /\ Vfs.stat i memory = Ok (node_stat n (fs_nodes A !! n))
  /\ (forall name, Vfs.lookup i memory name = Ok (BafsKernelInode_new h <$> child_named A n name))
  /\ exists entries, NoDup (dirent_name <$> entries) /\ (forall e, e ∈ entries <-> shown_entry A n e)
    /\ forall index, Vfs.readdir i memory index = Ok (entries !! index).
Proof.
  intros Hmem Hf Hn i. pose proof (read_inode_node v m s A n Hf Hn) as Hread. simpl.
  split; [|split; [|split; [intros name; by eapply kernel_lookup_shows|by eapply kernel_readdir_lists]]].
  - unfold kernel_inode_type, borrow_volume, node_inode_type. simpl. rewrite Hmem. simpl.
    destruct (fs_nodes A !! n) as [node|]; [|by rewrite Hread]. destruct Hread as (inode & -> & Hd & _). simpl. rewrite Hd. by destruct node.
  - unfold kernel_stat, borrow_volume, node_stat. simpl. rewrite Hmem. simpl.
    destruct (fs_nodes A !! n) as [node|]; [|by rewrite Hread].
    destruct Hread as (inode & -> & Hd & Hsize). simpl. rewrite Hd. destruct node; [done|]. by rewrite (Hsize _ eq_refl).
Qed.

(** C10: a call through the kernel's trait answers what the abstract file system
    answers, with the error number of its error, and leaves the volume in the
    abstract state prescribed; a failing lookup finds nothing. Every inode of the
    volume sees the change, and no other mounted volume does. *)
Theorem kernel_requests_refine (memory : cells D) h v m s A q budget :
  memory !! inner h = Some v -> fs_rep v m s A -> admissible A q -> cost A q <= budget -> vol_room v budget ->
  exists A' r kr v' m' s', answers (no_room v q) A q = (A', r)
    /\ kernel_execute h q memory = (<[inner h := v']> memory, kr) /\ by_errno kr = kernel_reply q r
    /\ fs_rep v' m' s' A'.
Proof.
  intros Hmem Hf Hadm Hcost Hroom.
  destruct (execute_refines v m s A q budget Hf Hadm Hcost Hroom) as (v' & m' & s' & k & E & Hf' & _).
  eexists _, _, _, v', m', s'. split; [apply surjective_pairing|].
  split; [by rewrite (kernel_execute_execute h q memory v Hmem), E|]. split; [apply kernel_answer_reply|done].
Qed.

(** C35: the adapter never commits: whatever calls are made on a freshly formatted
    volume and on any others, successful or not, the device stays as it is, and
    mounting it again finds the empty root directory. *)
Theorem kernel_changes_are_lost (d : D) options (memory : cells D) calls :
  formattable d options ->
  let total := total_sector_count d / 8 in
  compute_data_area_start_block total + 13 <= total ->
  exists d' memory' h v, bafs_format options d = (d', Ok tt)
    /\ bafs_mount_kernel_volume (d', memory) = ((d', memory'), Ok (BafsKernelInode_new h 1))
    /\ let memory'' := foldl (fun memory call => (kernel_execute call.1 call.2 memory).1) memory' calls in
       (device <$> memory'' !! inner h) = Some d'
       /\ exists memory3 h', bafs_mount_kernel_volume (d', memory'') = ((d', memory3), Ok (BafsKernelInode_new h' 1))
         /\ memory3 !! inner h' = Some v
         /\ forall index, Vfs.readdir (BafsKernelInode_new h' 1) memory3 index = Ok None.
Proof.
  intros Hd total Hlarge. destruct (format_tracks d options Hd Hlarge) as (d' & v & E & Em & Ht & Hv & _).
  destruct Ht as (sb & m0 & s0 & m & s & _ & _ & _ & _ & Hf).
  assert (sb_root_inode_number (superblock v) = 1 /\ device v = d') as [Hroot Hdv] by by rewrite Hv.
  destruct (mount_new_cell d' memory d' v Em) as (h & _ & Ek). rewrite Hroot in Ek.
  exists d', (<[inner h := v]> memory), h, v. split; [exact E|]. split; [exact Ek|]. cbv zeta.
  set (memory'' := foldl _ _ _). split.
  - unfold memory''. rewrite (kernel_calls_device calls), lookup_insert_eq. simpl. by rewrite Hdv.
  - destruct (mount_new_cell d' memory'' d' v Em) as (h' & _ & Ek'). rewrite Hroot in Ek'.
    exists (<[inner h' := v]> memory''), h'. split; [exact Ek'|]. split; [apply lookup_insert_eq|]. intros index.
    destruct (kernel_readdir_lists (<[inner h' := v]> memory'') h' v m s new_fs 1 (lookup_insert_eq _ _ _) Hf ltac:(lia)) as (entries & _ & Hin & Hrd).
    destruct entries as [|e entries]; [exact (Hrd index)|]. destruct (proj1 (Hin e) ltac:(left)) as [Hname _].
    simpl in Hname. by rewrite lookup_empty in Hname.
Qed.
End properties.

(** ** Witnesses *)

Lemma kernel_shows_file_system_witness :
  exists (memory : cells FaultInjectionDisk) h,
    Vfs.inode_type (BafsKernelInode_new h 2) memory = Ok RegularFile
    /\ Vfs.lookup (BafsKernelInode_new h 1) memory example_name = Ok (Some (BafsKernelInode_new h 2)).
Proof.
  destruct (example_file example_device example_formattable example_sectors) as (d' & v & m & s & _ & _ & _ & Hf & _).
  exists {[7%nat := v]}, {| inner := 7 |}. split.
  - exact (proj1 (kernel_shows_file_system {[7%nat := v]} {| inner := 7 |} v m s example_fs 2 (lookup_singleton_eq _ _) Hf ltac:(lia))).
  - exact (proj1 (proj2 (proj2 (kernel_shows_file_system {[7%nat := v]} {| inner := 7 |} v m s example_fs 1 (lookup_singleton_eq _ _) Hf ltac:(lia)))) example_name).
Defined.

(** A file is created on a new volume, and on one that has it. *)
Lemma kernel_requests_refine_witness :
  exists (memory1 memory1' memory2 memory2' : cells FaultInjectionDisk) h kr1 kr2,
    kernel_execute h (CreateFile 1 example_name) memory1 = (memory1', kr1) /\ by_errno kr1 = Ok (Number 2)
    /\ kernel_execute h (CreateFile 1 example_name) memory2 = (memory2', kr2) /\ by_errno kr2 = Err (-17).
Proof.
  destruct example_new_rep as (d1 & m1 & s1 & Hf1). set (v1 := mounted d1 _) in Hf1.
  destruct (example_file example_device example_formattable example_sectors) as (d2 & v2 & m2 & s2 & _ & _ & _ & Hf2 & Ha2 & _).
  destruct (kernel_requests_refine {[7%nat := v1]} {| inner := 7 |} v1 m1 s1 new_fs (CreateFile 1 example_name) 2
    (lookup_singleton_eq _ _) Hf1) as (A1 & r1 & kr1 & v1' & m1' & s1' & Hans1 & E1 & R1 & _);
    [by apply create_example_admissible|done|apply example_room; lia|].
  destruct (kernel_requests_refine {[7%nat := v2]} {| inner := 7 |} v2 m2 s2 example_fs (CreateFile 1 example_name) 2
    (lookup_singleton_eq _ _) Hf2) as (A2 & r2 & kr2 & v2' & m2' & s2' & Hans2 & E2 & R2 & _);
    [by apply create_example_admissible|done|eapply (example_after_room v2 2); [exact Ha2|lia|lia|lia]|].
  apply (f_equal snd) in Hans1, Hans2. cbn [snd] in Hans1, Hans2. subst r1 r2.
  eexists _, _, _, _, _, kr1, kr2. split; [exact E1|]. split; [exact R1|]. split; [exact E2|exact R2].
Defined.

Lemma kernel_changes_are_lost_witness :
  exists (d' : FaultInjectionDisk) memory' h,
    bafs_mount_kernel_volume (d', ∅) = ((d', memory'), Ok (BafsKernelInode_new h 1))
    /\ (device <$> (kernel_execute {| inner := 0 |} (CreateFile 1 example_name) memory').1 !! inner h) = Some d'.
Proof.
  destruct (kernel_changes_are_lost example_device BafsFormatOptions_default ∅ [({| inner := 0 |}, CreateFile 1 example_name)] example_formattable
    (example_large example_device example_sectors)) as (d' & memory' & h & v & _ & E1 & E2 & _).
  exists d', memory', h. exact (conj E1 E2).
Defined.
