(* ===== verification/Tools.v ===== *)
(** * Tools: the command line tool bafs-tools

    The subcommands of main.rs on the files of the host, what they print, and the
    proof that what [write] stores in an image is what [read] prints. What the host
    says of files it cannot open and how long the benchmark takes are parameters. *)

From stdpp Require Import strings.
From S2P Require Import Prelude Text Checksum Device Superblock Node NodeCodec BTree BTreeInv BTreeWrite.
From S2P Require Import BTreeInsert BTreeDelete TreeStore Inode Extent FreeSpace ChecksumTree XxHash Dir Journal JournalLaws.
From S2P Require Import Volume FileModel VolumeInv VolumeDirs VolumeUnlink VolumeFiles FileContents VolumeCommit FileSystem Format History Examples.

(** ** Errors *)

Inductive io_error :=
  | HostError (path : list Z)
  | InvalidData (file_size_in_bytes : Z)
  | Other (error : BafsError)
  | NoSuchFile (filename : list Z)
  | LostFile (filename : list Z)
  | DataCorruption (filename : list Z).

(** [{:?}] of a [BafsError], whose [Debug] is derived. *)
Definition BafsError_debug (e : BafsError) : list Z :=
  match e with
  | InputOutputError => str "InputOutputError"
  | InvalidChecksum block_address => str "InvalidChecksum { block_address: " ++ decimal block_address ++ str " }"
  | InvalidMagicNumber => str "InvalidMagicNumber"
  | UnsupportedVersion found_version => str "UnsupportedVersion { found_version: " ++ decimal found_version ++ str " }"
  | OutOfSpace => str "OutOfSpace"
  | NotFound => str "NotFound"
  | NotADirectory => str "NotADirectory"
  | NotARegularFile => str "NotARegularFile"
  | AlreadyExists => str "AlreadyExists"
  | InvalidArgument => str "InvalidArgument"
  | CorruptedStructure => str "CorruptedStructure"
  | NotSupported => str "NotSupported"
  end.

(** [{}] of an [io::Error]; [host_error] is what the host says of a path. *)
Definition io_error_fmt (host_error : list Z -> list Z) (e : io_error) : list Z :=
  match e with
  | HostError path => host_error path
  | InvalidData file_size_in_bytes =>
      str "image size " ++ decimal file_size_in_bytes ++ str " is not a multiple of " ++ decimal 512 ++ str " bytes"
  | Other error => BafsError_debug error
  | NoSuchFile filename => str "/" ++ filename ++ str " not found"
  | LostFile filename => filename ++ str " not found after remount"
  | DataCorruption filename => str "data corruption in " ++ filename ++ str " after remount"
  end.

(** ** Output *)

Record volume_info := {
  info_version : Z; info_block_size : Z; info_total_bytes : Z; info_total_blocks : Z; info_used_bytes : Z;
  info_free_bytes : Z; info_journal_bytes : Z; info_journal_blocks : Z; info_allocated_inodes : Z;
  info_last_transaction : Z; info_root_inode : Z;
}.

Inductive output :=
  | Formatting (image_path : list Z) (size_gib : Z)
  | FormatComplete
  | Info (info : volume_info)
  | ListHeader
  | ListEntry (child_inode_number : Z) (type_char : list Z) (filename : list Z)
  | EmptyDirectory
  | Wrote (host_source_path : list Z) (bytes_written : Z) (filename : list Z) (inode_number : Z)
  | Data (bytes : list Z)
  | BenchWriting (file_count total_bytes : Z)
  | BenchWriteReport (total_bytes : Z) (elapsed : Duration)
  | Remounting
  | BenchReadReport (total_bytes : Z) (elapsed : Duration)
  | Verified (verified_files file_count : Z).

(** A line ends with a newline. *)
Definition line (s : list Z) : list Z := s ++ [10].










(** ** The host *)

(** What is printed is kept as records; errors are text. *)
Record host := {
  host_files : gmap (list Z) (list Z);
  host_stdin : list Z;
  host_stdout : list output;
  host_stderr : list Z;
}.


(** ** Paths *)

(** The parts of a path between slashes. *)
Fixpoint split_path (path : list Z) : list (list Z) :=
  match path with
  | [] => [[]]
  | c :: path =>
      match split_path path with
      | part :: parts => if c =? 47 then [] :: part :: parts else (c :: part) :: parts
      | [] => [[c]]
      end
  end.

(** [Path::file_name]: the last component, if it is a normal one; empty components
    and [.] do not count. *)
Definition file_name (path : list Z) : option (list Z) :=
  match last (filter (fun part => part <> [] /\ part <> str ".") (split_path path)) with
  | Some part => if decide (part = str "..") then None else Some part
  | None => None
  end.

(** The name of a file in the root directory. A component of a [&str] is UTF-8. *)
Definition volume_filename (path : list Z) : list Z := default path (file_name path).

(** ** Commands on a mounted volume *)

(** [map_err(|error| io::Error::new(ErrorKind::Other, ...))] *)
Definition other {A} (r : result A) : outcome io_error A :=
  match r with
  | Ok a => Ok a
  | Err e => Err (Other e)
  | Panic => Panic
  | OutOfFuel => OutOfFuel
  end.

Section commands.
Context {D : Type} `{BlockDevice D}.
Implicit Types v : BafsVolume D.

(** The state of a command: the volume, or before the mount and after the unmount
    the device, and what has been printed. *)
Abbreviation CMD := (ST (BafsVolume D * list output) io_error).

Definition println {S} (o : output) : ST (S * list output) io_error unit :=
  st_modify (fun '(s, out) => (s, out ++ [o])).

Definition the_volume : CMD (BafsVolume D) := fun s => (s, Ok s.1).

Definition on_volume {A} (m : ST (BafsVolume D) BafsError A) : CMD A :=
  fun '(v, out) => let '(v, r) := m v in ((v, out), other r).

Definition on_tool_device {A} (m : ST D BafsError A) : ST (D * list output) io_error A :=
  fun '(d, out) => let '(d, r) := m d in ((d, out), other r).

(** Mount, run [body], unmount; an early return drops the volume. *)
Definition using_volume (body : CMD unit) : ST (D * list output) io_error unit :=
  fun '(d, out) =>
    let '(d, r) := bafs_mount d in
    match other r with
    | Ok v =>
        match body (v, out) with
        | ((v, out), Ok _) => let '(d, r) := bafs_unmount v in ((d, out), other r)
        | ((v, out), r) => ((device v, out), r)
        end
    | Err e => ((d, out), Err e)
    | Panic => ((d, out), Panic)
    | OutOfFuel => ((d, out), OutOfFuel)
    end.

(** The fields [info] prints. *)
Definition superblock_info (superblock : BafsSuperblock) : result volume_info :=
  let block_size := sb_block_size_in_bytes superblock in
  let? total_bytes := checked_mul 64 (sb_total_block_count superblock) block_size in
  let? free_bytes := checked_mul 64 (sb_free_block_count superblock) block_size in
  let used_bytes := saturating_sub total_bytes free_bytes in
  let? journal_bytes := checked_mul 64 (sb_journal_size_in_blocks superblock) block_size in
  Ok {| info_version := sb_version superblock; info_block_size := block_size; info_total_bytes := total_bytes;
        info_total_blocks := sb_total_block_count superblock; info_used_bytes := used_bytes;
        info_free_bytes := free_bytes; info_journal_bytes := journal_bytes;
        info_journal_blocks := sb_journal_size_in_blocks superblock;
        info_allocated_inodes := sb_allocated_inode_count superblock;
        info_last_transaction := sb_last_committed_transaction_id superblock;
        info_root_inode := sb_root_inode_number superblock |}.

Definition info_body : CMD unit :=
  let! v := the_volume in
  let! info := st_lift (other (superblock_info (superblock v))) in
  println (Info info).

(** The character before a name in a listing. *)
Definition type_char (child_type : Z) : list Z :=
  if child_type =? CHILD_TYPE_DIRECTORY then str "d"
  else if child_type =? CHILD_TYPE_REGULAR_FILE then str "-" else str "?".

(** The loop over the entries: how many there are. *)
Fixpoint ls_loop (fuel : nat) (root_inode_number : Z) (index : nat) : CMD nat :=
  match fuel with
  | O => st_lift OutOfFuel
  | S fuel =>
      let! v := the_volume in
      let! found := st_lift (other (directory_iterate (device v) (dirty_block_cache v)
                      (sb_inode_tree_root_block (superblock v)) root_inode_number index)) in
      match found with
      | Some entry =>
          let! _ := println (ListEntry (child_inode_number entry) (type_char (child_type entry)) (filename entry)) in
          ls_loop fuel root_inode_number (S index)
      | None => st_ret index
      end
  end.

Definition ls_body (fuel : nat) : CMD unit :=
  let! v := the_volume in
  let! _ := println ListHeader in
  let! index := ls_loop fuel (sb_root_inode_number (superblock v)) 0 in
  if decide (index = 0%nat) then println EmptyDirectory else st_ret tt.

Definition write_body (filename host_source_path source_data : list Z) : CMD unit :=
  let! v := the_volume in
  let! file_inode_number := on_volume (volume_create_file (sb_root_inode_number (superblock v)) filename) in
  let! bytes_written := on_volume (volume_write_file_data file_inode_number 0 source_data) in
  println (Wrote host_source_path bytes_written filename file_inode_number).

Definition find_file (missing : list Z -> io_error) (filename : list Z) : CMD Z :=
  let! v := the_volume in
  let! found := st_lift (other (volume_lookup_directory_entry v (sb_root_inode_number (superblock v)) filename)) in
  st_lift (match found with Some n => Ok n | None => Err (missing filename) end).

Definition CHUNK_SIZE : Z := 4 * 1024 * 1024.

Fixpoint read_chunks (fuel : nat) (file_inode_number offset : Z) : CMD unit :=
  match fuel with
  | O => st_lift OutOfFuel
  | S fuel =>
      let! v := the_volume in
      let '(buffer, r) := volume_read_file_data v file_inode_number offset (zeros CHUNK_SIZE) in
      let! bytes_read := st_lift (other r) in
      if bytes_read =? 0 then st_ret tt
      else
        let! chunk := st_lift (get_slice buffer 0 bytes_read) in
        let! _ := println (Data chunk) in
        let! offset := st_lift (checked_add 64 offset bytes_read) in
        if bytes_read <? CHUNK_SIZE then st_ret tt else read_chunks fuel file_inode_number offset
  end.

Definition read_body (fuel : nat) (filename : list Z) : CMD unit :=
  let! file_inode_number := find_file NoSuchFile filename in
  read_chunks fuel file_inode_number 0.

(** ** The benchmark *)

Definition FILE_COUNT : Z := 64.
Definition FILE_SIZE_BYTES : Z := 256 * 1024.
Definition FILES_PER_COMMIT : Z := 1.

(** [format!("bench_{:04}.bin", file_index)], for an index of at most four digits. *)
Definition bench_filename (file_index : Z) : list Z :=
  str "bench_" ++ digits 4 file_index ++ str ".bin".

(** Byte [index] of a file is [index & 0xFF]. *)
Definition bench_payload (n : Z) : list Z := (fun index => Z.land index 0xFF) <$> seqZ 0 n.

(** The files with the indices of a list. *)
Fixpoint bench_write_files (root_inode_number : Z) (file_indices : list Z) : CMD unit :=
  match file_indices with
  | [] => st_ret tt
  | file_index :: rest =>
      let! file_inode_number := on_volume (volume_create_file root_inode_number (bench_filename file_index)) in
      let! _ := on_volume (volume_write_file_data file_inode_number 0 (bench_payload FILE_SIZE_BYTES)) in
      let! _ := if (file_index + 1) mod FILES_PER_COMMIT =? 0 then on_volume flush_and_commit else st_ret tt in
      bench_write_files root_inode_number rest
  end.

Definition bench_write_body : CMD unit :=
  let! v := the_volume in
  bench_write_files (sb_root_inode_number (superblock v)) (seqZ 0 FILE_COUNT).

(** The buffer is used again for every file; the result counts the files. *)
Fixpoint bench_read_files (read_buffer : list Z) (verified_files : Z) (file_indices : list Z) : CMD Z :=
  match file_indices with
  | [] => st_ret verified_files
  | file_index :: rest =>
      let filename := bench_filename file_index in
      let! file_inode_number := find_file LostFile filename in
      let! v := the_volume in
      let '(read_buffer, r) := volume_read_file_data v file_inode_number 0 read_buffer in
      let! bytes_read := st_lift (other r) in
      let! bytes := st_lift (get_slice read_buffer 0 bytes_read) in
      if decide (bytes = bench_payload bytes_read)
      then bench_read_files read_buffer (verified_files + 1) rest
      else st_err (DataCorruption filename)
  end.

Definition bench_read_body (read_elapsed : Duration) : CMD unit :=
  let! verified_files := bench_read_files (zeros FILE_SIZE_BYTES) 0 (seqZ 0 FILE_COUNT) in
  let! _ := println (BenchReadReport (FILE_COUNT * FILE_SIZE_BYTES) read_elapsed) in
  println (Verified verified_files FILE_COUNT).
End commands.

(** ** The subcommands *)

Section subcommands.
Abbreviation HOST := (ST host io_error).

(** [FileBlockDevice::open] and what is done with the device: the writes go to the
    file, whatever the outcome. *)
Definition with_image {A} (image_path : list Z) (m : ST (FileBlockDevice * list output) io_error A) : HOST A :=
  fun h =>
    match host_files h !! image_path with
    | None => (h, Err (HostError image_path))
    | Some image =>
        match FileBlockDevice_open image with
        | None => (h, Err (InvalidData (len image)))
        | Some d =>
            let '((d, out), r) := m (d, host_stdout h) in
            ({| host_files := <[image_path := fd_file d]> (host_files h); host_stdin := host_stdin h;
                host_stdout := out; host_stderr := host_stderr h |}, r)
        end
    end.

(** The bytes of a host file, or of the standard input. *)
Definition read_source (host_source_path : list Z) : HOST (list Z) :=
  fun h =>
    if decide (host_source_path = str "-")
    then ({| host_files := host_files h; host_stdin := []; host_stdout := host_stdout h;
             host_stderr := host_stderr h |}, Ok (host_stdin h))
    else (h, match host_files h !! host_source_path with
             | Some bytes => Ok bytes
             | None => Err (HostError host_source_path)
             end).

Definition subcommand_format (image_path : list Z) : HOST unit :=
  with_image image_path
    (let! (device, _) := st_get in
     let! size := st_lift (checked_mul 64 (total_sector_count device) 512) in
     let! _ := println (Formatting image_path (size / (1024 * 1024 * 1024))) in
     let! _ := on_tool_device (bafs_format BafsFormatOptions_default) in
     println FormatComplete).

Definition subcommand_info (image_path : list Z) : HOST unit := with_image image_path (using_volume info_body).

Definition subcommand_ls (fuel : nat) (image_path directory_path : list Z) : HOST unit :=
  with_image image_path (using_volume (ls_body fuel)).

Definition subcommand_write (image_path volume_destination_path host_source_path : list Z) : HOST unit :=
  let! source_data := read_source host_source_path in
  with_image image_path
    (using_volume (write_body (volume_filename volume_destination_path) host_source_path source_data)).

Definition subcommand_read (fuel : nat) (image_path volume_path : list Z) : HOST unit :=
  with_image image_path (using_volume (read_body fuel (volume_filename volume_path))).

(** [write_elapsed] and [read_elapsed] are what the clock shows for the two phases. *)
Definition subcommand_bench (write_elapsed read_elapsed : Duration) (image_path : list Z) : HOST unit :=
  let total_bytes := FILE_COUNT * FILE_SIZE_BYTES in
  let print o := st_modify (fun h => {| host_files := host_files h; host_stdin := host_stdin h;
                                        host_stdout := host_stdout h ++ [o]; host_stderr := host_stderr h |}) in
  let! _ := print (BenchWriting FILE_COUNT total_bytes) in
  let! _ := with_image image_path (using_volume bench_write_body) in
  let! _ := print (BenchWriteReport total_bytes write_elapsed) in
  let! _ := print Remounting in
  with_image image_path (using_volume (bench_read_body read_elapsed)).

Definition usage : list Z :=
  line (str "bafs-tools — BAFS developer CLI" ++ [10])
  ++ line (str "USAGE:")
  ++ line (str "  bafs-tools format  <image>                  Format image as BAFS")
  ++ line (str "  bafs-tools info    <image>                  Print superblock info")
  ++ line (str "  bafs-tools ls      <image> [path]           List root directory")
  ++ line (str "  bafs-tools write   <image> <dest> <src>     Write host file into volume")
  ++ line (str "  bafs-tools read    <image> <path>           Read file to stdout")
  ++ line (str "  bafs-tools bench   <image>                  Write+read throughput benchmark")
  ++ line []
  ++ line (str "SAFE WORKFLOW (disk image — no hardware risk):")
  ++ line (str "  dd if=/dev/zero of=/tmp/bafs.img bs=1m count=1024")
  ++ line (str "  bafs-tools format /tmp/bafs.img")
  ++ line (str "  bafs-tools info   /tmp/bafs.img")
  ++ line (str "  bafs-tools write  /tmp/bafs.img /hello.txt /etc/hostname")
  ++ line (str "  bafs-tools ls     /tmp/bafs.img")
  ++ line (str "  bafs-tools read   /tmp/bafs.img /hello.txt")
  ++ line (str "  bafs-tools bench  /tmp/bafs.img").

(** [eprintln!] and [eprint!] *)
Definition eprint (text : list Z) (h : host) : host :=
  {| host_files := host_files h; host_stdin := host_stdin h; host_stdout := host_stdout h; host_stderr := host_stderr h ++ text |}.

(** The exit status; [fuel] is for the loops of [ls] and [read]. *)
Definition main (host_error : list Z -> list Z) (write_elapsed read_elapsed : Duration) (fuel : nat)
    (arguments : list (list Z)) (h : host) : host * outcome io_error Z :=
  let exits (text : list Z) : host * outcome io_error Z := (eprint text h, Ok 1) in
  let status (m : HOST unit) : host * outcome io_error Z :=
    match m h with
    | (h, Ok _) => (h, Ok 0)
    | (h, Err error) => (eprint (line (str "error: " ++ io_error_fmt host_error error)) h, Ok 1)
    | (h, Panic) => (h, Panic)
    | (h, OutOfFuel) => (h, OutOfFuel)
    end in
  match arguments with
  | _ :: subcommand :: image_path :: rest =>
      if decide (subcommand = str "format") then status (subcommand_format image_path)
      else if decide (subcommand = str "info") then status (subcommand_info image_path)
      else if decide (subcommand = str "ls")
        then status (subcommand_ls fuel image_path (default (str "/") (rest !! 0%nat)))
      else if decide (subcommand = str "write")
        then match rest with
             | dest :: src :: _ => status (subcommand_write image_path dest src)
             | _ => exits (line (str "error: write requires <image> <dest> <src>"))
             end
      else if decide (subcommand = str "read")
        then match rest with
             | path :: _ => status (subcommand_read fuel image_path path)
             | _ => exits (line (str "error: read requires <image> <path>"))
             end
      else if decide (subcommand = str "bench") then status (subcommand_bench write_elapsed read_elapsed image_path)
      else exits (line (str "error: unknown subcommand '" ++ subcommand ++ str "'") ++ usage)
  | _ => exits usage
  end.
End subcommands.

(** ** Committing or refusing *)

Section commit.
Context `{BlockDeviceLaws D} `{!TreeStore D}.
Implicit Types v : BafsVolume D.

(** *** Storing a file *)








(** *** The body of [write] *)


(** [d'] is the device [d] after a commit: it holds [A]. *)
Definition committed_to (d : D) (sb : BafsSuperblock) (A : fs) (d' : D) : Prop :=
  exists sb' m' s', device_up d' /\ length (content d') = length (content d) /\ settled d' sb'
    /\ fs_rep (mounted d' (seal_with_checksum sb')) m' s' A
    /\ sb_root_inode_number sb' = sb_root_inode_number sb
    /\ sb_last_committed_transaction_id sb' = sb_last_committed_transaction_id sb + 1.

Lemma unmount_commits d sb v m s A :
  device_up d -> settled d sb -> grown (mounted d (seal_with_checksum sb)) v -> fs_rep v m s A -> committable v ->
  exists d', bafs_unmount v = (d', Ok tt) /\ committed_to d sb A d'.
Proof.
  intros Hup Hs G Hf Hcm.
  destruct (commit_settled d sb v m s Hup Hs G (proj1 Hf) Hcm) as (d' & E & Hup' & _ & Hlen & Hs' & Hrl).
  exists d'. unfold bafs_unmount. rewrite E. split; [done|]. exists (flushed_superblock v), m, s. do 3 (split; [done|]).
  split; [by eapply fs_rep_reload|]. destruct (gr_superblock _ _ G) as (fc & ic & ir & fr & cr & nc & Hsb).
  split; [by unfold flushed_superblock; rewrite Hsb|exact (gr_id _ _ G)].
Qed.







(** *** Reading a file *)




Lemma using_volume_settled d sb (body : ST (BafsVolume D * list output) io_error unit) out :
  device_up d -> settled d sb ->
  using_volume body (d, out) =
    match body (mounted d (seal_with_checksum sb), out) with
    | ((v, out), Ok _) => let '(d, r) := bafs_unmount v in ((d, out), other r)
    | ((v, out), r) => ((device v, out), r)
    end.
Proof. intros Hup Hs. unfold using_volume. by rewrite (settled_mount d sb Hup Hs). Qed.
End commit.

(** ** The size of an image does not change *)

Section sectors.
Abbreviation sectors := (total_sector_count (D:=FileBlockDevice)).

Lemma write_block_sectors a block : preserves sectors (device_write_block a block).
Proof.
  unfold device_write_block. preserve. intros d. simpl. unfold FileBlockDevice_write_sectors. by repeat case_match.
Qed.

#[local] Hint Resolve write_block_sectors : preserves.

Lemma write_home_sectors entries : preserves sectors (write_blocks_home entries).
Proof. induction entries as [|[a b] entries IH]; simpl; preserve. Qed.

Lemma write_journal_sectors sb data : preserves sectors (write_bytes_to_journal sb data).
Proof.
  unfold write_bytes_to_journal. preserve. generalize (S (Z.to_nat (len data / BAFS_DEFAULT_BLOCK_SIZE_BYTES))) as fuel.
  generalize (sb_journal_start_block sb) as block. intros block fuel. revert data block.
  induction fuel as [|fuel IH]; intros [|b data] block; simpl; preserve.
Qed.

Lemma write_superblock_sectors : preserves (fun s => sectors s.1) (write_superblock_to_device (D:=FileBlockDevice)).
Proof.
  unfold write_superblock_to_device, write_superblock_at. preserve; [by intros []|].
  eapply preserves_zoom; [|done|done]. preserve; intros d; simpl; unfold FileBlockDevice_write_sectors; by repeat case_match.
Qed.

Lemma commit_sectors t cache : preserves (fun s => sectors s.1) (commit_transaction (D:=FileBlockDevice) t cache).
Proof.
  unfold commit_transaction, on_device_part. preserve; try (intros []; done); try apply write_superblock_sectors;
    (eapply preserves_zoom; [|done|done]); [apply write_journal_sectors|apply write_home_sectors].
Qed.

Lemma unmount_sectors v : sectors (bafs_unmount v).1 = sectors (device v).
Proof.
  assert (preserves (fun v => sectors (device v)) (flush_and_commit (D:=FileBlockDevice))) as Hp.
  { unfold flush_and_commit, modify_superblock. preserve. eapply preserves_zoom; [apply commit_sectors|done|done]. }
  specialize (Hp v). unfold bafs_unmount. by destruct (flush_and_commit v).
Qed.

Lemma format_sectors options : preserves sectors (bafs_format options).
Proof.
  assert (forall count block, preserves sectors (zero_journal_blocks count block)) as Hzero.
  { intros count. induction count as [|count IH]; intros block; simpl; preserve. }
  unfold bafs_format. preserve. apply write_home_sectors.
Qed.

Lemma FileBlockDevice_open_eq d : sectors d = len (fd_file d) / 512 -> len (fd_file d) mod 512 = 0 -> FileBlockDevice_open (fd_file d) = Some d.
Proof. intros Hs Hm. unfold FileBlockDevice_open. rewrite Hm. simpl in *. rewrite <- Hs. by destruct d. Qed.

Lemma FileBlockDevice_open_inv image d :
  FileBlockDevice_open image = Some d -> fd_file d = image /\ sectors d = len image / 512 /\ len image mod 512 = 0.
Proof. unfold FileBlockDevice_open. destruct (Z.eqb_spec (len image mod 512) 0); [|done]. by intros [= <-]. Qed.
End sectors.

(** ** Images *)

(** A disk image that holds the file system [A]; [sb] is its superblock. *)
Definition image_holds (image : list Z) (sb : BafsSuperblock) (A : fs) : Prop :=
  exists d m s, FileBlockDevice_open image = Some d /\ device_up d /\ settled d sb
    /\ fs_rep (mounted d (seal_with_checksum sb)) m s A.

(** A device written back is an image again. *)
Lemma committed_image image d sb A v d' r :
  FileBlockDevice_open image = Some d -> device v = d -> bafs_unmount v = (d', r) -> committed_to d sb A d' ->
  exists sb', image_holds (fd_file d') sb' A /\ FileBlockDevice_open (fd_file d') = Some d'
    /\ sb_root_inode_number sb' = sb_root_inode_number sb
    /\ sb_last_committed_transaction_id sb' = sb_last_committed_transaction_id sb + 1.
Proof.
  intros (Hfile & Hsec & Hmod)%FileBlockDevice_open_inv Hv E (sb' & m & s & Hup & Hlen & Hs & Hf & Hroot & Hid).
  pose proof (unmount_sectors v) as Hsec'. rewrite E, Hv in Hsec'. cbn [fst] in Hsec'. change (length (fd_file d') = length (fd_file d)) in Hlen.
  assert (FileBlockDevice_open (fd_file d') = Some d') as Ho.
  { apply FileBlockDevice_open_eq; rewrite Hlen, Hfile; [congruence|done]. }
  exists sb'. split; [|done]. exists d', m, s. done.
Qed.

(** Unmounting a volume on which nothing was changed. *)
Lemma unmount_unchanged (d : FileBlockDevice) sb m s A :
  device_up d -> settled d sb -> fs_rep (mounted d (seal_with_checksum sb)) m s A ->
  sb_last_committed_transaction_id sb + 2 < 2 ^ 64 ->
  exists d', bafs_unmount (mounted d (seal_with_checksum sb)) = (d', Ok tt) /\ committed_to d sb A d'.
Proof.
  intros Hup Hs Hf Hid.
  apply (unmount_commits d sb _ m s A Hup Hs (grown_refl _) Hf). pose proof (vl_size _ _ (se_layout _ _ Hs)) as Hj.
  split; [exact (se_device _ _ Hs)| |].
  - change (28 + 4104 * 0 <= sb_journal_size_in_blocks sb * 4096). lia.
  - change (sb_last_committed_transaction_id sb + 1 + 1 < 2 ^ 64). lia.
Qed.

(** Running a command on an image. *)
Lemma with_image_run {A} h image_path image d (m : ST (FileBlockDevice * list output) io_error A) d' out r :
  host_files h !! image_path = Some image -> FileBlockDevice_open image = Some d ->
  m (d, host_stdout h) = ((d', out), r) ->
  with_image image_path m h
  = ({| host_files := <[image_path := fd_file d']> (host_files h); host_stdin := host_stdin h; host_stdout := out;
       host_stderr := host_stderr h |}, r).
Proof. intros Hh Ho E. unfold with_image. by rewrite Hh, Ho, E. Qed.



(** *** Listing *)

(** The line [ls] prints for an entry of the root directory. *)
Definition listed (A : fs) (root : Z) (o : output) : Prop :=
  exists name n, fs_names A !! (root, name) = Some n
    /\ o = ListEntry n (match fs_nodes A !! n with Some (DirectoryNode _) => str "d" | _ => str "-" end) name.

Definition entry_line (e : BafsDirEntry) : output :=
  ListEntry (child_inode_number e) (type_char (child_type e)) (filename e).

Section listing.
Context {D : Type} `{BlockDevice D} `{!TreeStore D}.
Implicit Types v : BafsVolume D.

Lemma ls_loop_lists v p entries fuel : forall index out,
  (forall i, directory_iterate (device v) (dirty_block_cache v) (sb_inode_tree_root_block (superblock v)) p i = Ok (entries !! i)) ->
  (index <= length entries)%nat -> (length entries - index < fuel)%nat ->
  ls_loop fuel p index (v, out) = ((v, out ++ (entry_line <$> drop index entries)), Ok (length entries)).
Proof.
  induction fuel as [|fuel IH]; intros index out Hit Hi Hfuel; [lia|]. cbn [ls_loop].
  unfold st_bind at 1. cbn [the_volume fst]. rewrite (st_bind_lift _ _ _ (entries !! index)) by by rewrite Hit.
  destruct (entries !! index) as [e|] eqn:Ee.
  - unfold println. rewrite st_bind_modify. apply lookup_lt_Some in Ee as Hlt.
    rewrite (IH (S index) _ Hit ltac:(lia) ltac:(lia)), (drop_S _ _ _ Ee), <- app_assoc. done.
  - apply lookup_ge_None in Ee. rewrite drop_ge by lia. rewrite app_nil_r. unfold st_ret. do 3 f_equal. lia.
Qed.

Lemma root_listing v m s A p :
  fs_rep v m s A -> 1 <= p < 2 ^ 64 ->
  exists entries, NoDup (entry_line <$> entries) /\ (forall o, o ∈ entry_line <$> entries <-> listed A p o)
    /\ forall i, directory_iterate (device v) (dirty_block_cache v) (sb_inode_tree_root_block (superblock v)) p i = Ok (entries !! i).
Proof.
  intros Hf Hp. pose proof Hf as [Hv Hview]. destruct (vr_inodes _ _ _ Hv) as (fp & Hr & _).
  destruct (directory_list_correct (device v) (vol_cow v []) _ m fp p Hr (vol_room_0 _ _ _ _ Hv) (vr_dirs _ _ _ Hv) Hp)
    as (entries & _ & [Hs Hin] & Hit).
  exists entries. split; [|split; [|exact Hit]].
  - apply NoDup_fmap_2_strong; [|by apply (NoDup_fmap_1 name_hash), StronglySorted_lt_NoDup].
    intros e1 e2 H1%Hin H2%Hin [= _ _ Heq]. rewrite <- Heq in H2. congruence.
  - intros o. rewrite list_elem_of_fmap. split.
    + intros (e & -> & He%Hin). exists (filename e), (child_inode_number e). split; [by eapply entry_child|].
      unfold entry_line. f_equal. rewrite (fsr_types _ _ _ _ Hview _ _ _ He). by destruct (fs_nodes A !! _) as [[]|].
    + intros (name & n & Hname & ->). rewrite <- (fsr_names _ _ _ _ Hview) in Hname. apply fmap_Some in Hname as (e & He & ->).
      pose proof (dir_lookup_Some _ _ _ _ (vr_dirs _ _ _ Hv) He) as (_ & _ & Hfn). exists e. split; [|apply Hin; congruence].
      unfold entry_line. rewrite Hfn, (fsr_types _ _ _ _ Hview _ _ _ He). f_equal. by destruct (fs_nodes A !! _) as [[]|].
Qed.
End listing.

(** *** Formatting *)

(** The superblock [format] writes on an image of [n] bytes. *)
Abbreviation tool_superblock n := (new_superblock BafsFormatOptions_default (n / 512 / 8)).

Lemma subcommand_format_holds h image_path image :
  host_files h !! image_path = Some image -> len image mod 512 = 0 -> len image < 2 ^ 64 ->
  compute_data_area_start_block (len image / 512 / 8) + 13 <= len image / 512 / 8 ->
  exists h' image', subcommand_format image_path h = (h', Ok tt)
    /\ host_files h' = <[image_path := image']> (host_files h) /\ length image' = length image
    /\ image_holds image' (tool_superblock (len image)) new_fs.
Proof.
  intros Hh Hmod Hsize Hlarge. set (d := {| fd_file := image; fd_total_sector_count := len image / 512 |}).
  assert (FileBlockDevice_open image = Some d) as Ho by (unfold FileBlockDevice_open; by rewrite Hmod).
  assert (formattable d BafsFormatOptions_default) as Hform.
  { split; [apply default_options_wf|exact Hsize|]. cbn. clear -Hmod Hsize. dlia. }
  destruct (format_tracks d BafsFormatOptions_default Hform Hlarge) as (d' & v & E & _ & Ht & -> & Hlen & _ & Hs & _).
  destruct Ht as (_ & _ & _ & m & s & Hup & _ & _ & _ & Hf).
  pose proof (format_sectors BafsFormatOptions_default d) as Hsec. rewrite E in Hsec. cbn [fst] in Hsec.
  eexists _, (fd_file d'). split; [|split; [|split; [exact Hlen|]]].
  - apply (with_image_run h image_path image d _ d'
      (host_stdout h ++ [Formatting image_path (len image / 512 * 512 / (1024 * 1024 * 1024))] ++ [FormatComplete])); [exact Hh|exact Ho|].
    rewrite st_bind_get. rewrite (st_bind_lift _ _ _ (len image / 512 * 512)).
    + unfold println. rewrite st_bind_modify.
      rewrite (st_bind_Ok _ _ _ (d', host_stdout h ++ [Formatting image_path (len image / 512 * 512 / (1024 * 1024 * 1024))]) tt).
      * by rewrite app_assoc.
      * unfold on_tool_device. by rewrite E.
    + apply checked_mul_Ok. cbn. clear -Hsize. dlia.
  - reflexivity.
  - exists d', m, s. split; [|done]. change (length (fd_file d') = length image) in Hlen.
    apply FileBlockDevice_open_eq; rewrite Hlen; [exact Hsec|exact Hmod].
Qed.

(** *** Storing *)






(** ** Properties *)


(** C30: [ls] prints every name of the root directory once, with the number and the
    type of its child, for any fuel beyond the number of names. It commits an empty
    transaction: the image still holds the same file system, under the next
    transaction number. *)
Theorem tool_ls_lists_root h image_path path image sb A :
  let root := sb_root_inode_number sb in
  host_files h !! image_path = Some image -> image_holds image sb A -> 1 <= root < 2 ^ 64 ->
  sb_last_committed_transaction_id sb + 2 < 2 ^ 64 ->
  exists lines, NoDup lines /\ (forall o, o ∈ lines <-> listed A root o)
    /\ forall fuel, (length lines < fuel)%nat ->
       exists h' image' sb', subcommand_ls fuel image_path path h = (h', Ok tt)
         /\ host_stdout h' = host_stdout h ++ ListHeader :: (if decide (lines = []) then [EmptyDirectory] else lines)
         /\ host_files h' = <[image_path := image']> (host_files h) /\ image_holds image' sb' A
         /\ sb_last_committed_transaction_id sb' = sb_last_committed_transaction_id sb + 1.
Proof.
  intros root Hh (d & m & s & Ho & Hup & Hs & Hf) Hr Hid. set (v := mounted d (seal_with_checksum sb)) in *.
  destruct (root_listing v m s A root Hf Hr) as (entries & Hnd & Hin & Hit).
  exists (entry_line <$> entries). split; [exact Hnd|]. split; [exact Hin|]. intros fuel Hfuel. rewrite length_fmap in Hfuel.
  destruct (unmount_unchanged d sb m s A Hup Hs Hf Hid) as (d' & Eu & Hc).
  destruct (committed_image image d sb A v d' (Ok tt) Ho eq_refl Eu Hc) as (sb' & Hi' & _ & _ & Hid').
  set (out := host_stdout h ++ ListHeader :: (if decide (entry_line <$> entries = []) then [EmptyDirectory] else entry_line <$> entries)).
  exists {| host_files := <[image_path := fd_file d']> (host_files h); host_stdin := host_stdin h; host_stdout := out;
    host_stderr := host_stderr h |}, (fd_file d'), sb'.
  split; [|done]. apply (with_image_run h image_path image d _ d' out); [exact Hh|exact Ho|]. unfold out.
  rewrite (using_volume_settled d sb _ _ Hup Hs). fold v. unfold ls_body. unfold st_bind at 1. cbn [the_volume fst].
  unfold println at 1. rewrite st_bind_modify.
  rewrite (st_bind_Ok _ _ _ _ _ (ls_loop_lists v root entries fuel 0 _ Hit ltac:(lia) ltac:(lia))). rewrite drop_0.
  change (bafs_unmount v = (d', Ok tt)) in Eu.
  destruct entries as [|e entries].
  - rewrite decide_True by done. unfold println. cbn [st_modify]. rewrite Eu, app_nil_r, <- app_assoc. reflexivity.
  - rewrite decide_False by done. cbn [st_ret]. rewrite Eu, <- app_assoc. reflexivity.
Qed.

(** ** Witnesses *)

Definition example_image_path : list Z := str "bafs.img".
Definition example_source_path : list Z := str "greeting".
Definition example_data : list Z := str "hi".

(** A host with an image file of 1 GiB and a source file. *)
Definition example_host : host :=
  {| host_files := {[example_image_path := zeros (2 ^ 30); example_source_path := example_data]};
     host_stdin := []; host_stdout := []; host_stderr := [] |}.

Lemma example_image :
  exists h image, subcommand_format example_image_path example_host = (h, Ok tt)
    /\ host_files h !! example_image_path = Some image /\ host_files h !! example_source_path = Some example_data
    /\ len image = 2 ^ 30 /\ image_holds image (new_superblock BafsFormatOptions_default (2 ^ 18)) new_fs.
Proof.
  assert (len (zeros (2 ^ 30)) = 2 ^ 30) as Hlen by (rewrite length_zeros; lia).
  destruct (subcommand_format_holds example_host example_image_path (zeros (2 ^ 30))) as (h & image & E & Hh & Hl & Hi).
  - apply lookup_insert_eq.
  - by rewrite Hlen.
  - rewrite Hlen. lia.
  - rewrite Hlen. vm_compute. discriminate.
  - rewrite Hlen in Hi. exists h, image. split; [exact E|]. rewrite Hh. split; [apply lookup_insert_eq|].
    split; [by rewrite lookup_insert_ne by done|]. split; [by rewrite Hl|exact Hi].
Qed.



Lemma tool_ls_lists_root_witness :
  exists h h' image' sb', subcommand_ls 1 example_image_path (str "/") h = (h', Ok tt)
    /\ host_stdout h' = host_stdout h ++ [ListHeader; EmptyDirectory]
    /\ host_files h' = <[example_image_path := image']> (host_files h)
    /\ sb_last_committed_transaction_id sb' = 2.
Proof.
  destruct example_image as (h & image & _ & Hh & _ & _ & Hi). exists h.
  destruct (tool_ls_lists_root h example_image_path (str "/") image (new_superblock BafsFormatOptions_default (2 ^ 18)) new_fs)
    as (lines & _ & Hin & Hls).
  - exact Hh.
  - exact Hi.
  - done.
  - done.
  - destruct lines as [|o lines].
    + destruct (Hls 1%nat ltac:(simpl; lia)) as (h' & image' & sb' & E & Hout & Hfiles & _ & Hid).
      exists h', image', sb'. split; [exact E|]. split; [exact Hout|]. split; [exact Hfiles|exact Hid].
    + destruct (proj1 (Hin o) ltac:(left)) as (name & n & Hn & _). simpl in Hn. by rewrite lookup_empty in Hn.
Defined.
